(** * Coordination layer of the scraper backend

  A shallow embedding of the parts of the backend that sequence a job,
  wait for an operator's decision and capture a single-use document:

  - [backend/scraper/state_machine.py]      (module [StateMachine])
  - [backend/api/websocket_handler.py]      (module [WebsocketHandler])
  - [backend/scraper/bloomberg_scraper.py]  (modules [BloombergScraper]
                                            and [BloombergJob])
  - [backend/scraper/cmecf_page_handlers/document_detail_handler.py]
                                            (module [DocumentDetailHandler])
  - [backend/scraper/cmecf_scraper.py]      (module [CMECFScraper])
  - [backend/models/cmecf_job.py]           (modules [CaseNumber] to
                                            [CMECFScrapingJob])
  - [backend/models/scraping_job.py]        (modules [DocumentResult] to
                                            [ScrapingJob])
  - [backend/utils/helpers.py]              (module [Helpers])

  Python objects that are mutated in place are threaded explicitly; a
  call that may raise returns a [result]; everything the program does
  not control (browser, network, websocket peers) is an abstract
  environment with oracle functions, bound in Sections. *)

From stdpp Require Import gmap strings list pretty.
From Stdlib Require Import ZArith QArith.
From Stdlib.Strings Require Import Byte.

Local Close Scope Q_scope.
Local Open Scope Z_scope.

(** ** Python runtime: exceptions, results, JSON-like values, logging *)

Module Py.

(** Instances of Python's [Exception].  Task cancellation and the other
    [BaseException]s are outside the model: no oracle produces them. *)
Inductive exn : Type :=
| KeyError (key : string)
| IndexError (msg : string)
| AttributeError (msg : string)
| InvalidStateError
| TimeoutError
| RuntimeError (msg : string)
| ValueError (msg : string)
| WebSocketDisconnect
| OtherError (cls msg : string).

(** [str(e)] *)
Definition str (e : exn) : string :=
  match e with
  | KeyError k => "'" +:+ k +:+ "'"
  | IndexError m | AttributeError m | RuntimeError m | ValueError m => m
  | InvalidStateError => "invalid state"
  | TimeoutError | WebSocketDisconnect => ""
  | OtherError _ m => m
  end.

Inductive result (A : Type) : Type :=
| Ok (a : A)
| Raise (e : exn).
Arguments Ok {A} a.
Arguments Raise {A} e.

Definition is_ok {A} (r : result A) : bool :=
  match r with Ok _ => true | Raise _ => false end.

(** Values that travel through [dict]s and over the websocket. *)
#[warnings="-register-all"]
Inductive json : Type :=
| JNone
| JBool (b : bool)
| JInt (z : Z)
| JFloat (q : Q)
| JStr (s : string)
| JDatetime (t : Z)
| JList (l : list json)
| JDict (d : list (string * json)).

(** Python truthiness, as used by [if not response]. *)
Definition truthy (v : json) : bool :=
  match v with
  | JNone => false
  | JBool b => b
  | JInt z => negb (z =? 0)
  | JFloat q => negb (Qnum q =? 0)
  | JStr s => negb (String.eqb s "")
  | JDatetime _ => true
  | JList l => match l with [] => false | _ => true end
  | JDict d => match d with [] => false | _ => true end
  end.

(** [v == s] for a string literal [s]. *)
Definition is_str (v : json) (s : string) : bool :=
  match v with JStr s' => String.eqb s' s | _ => false end.

Fixpoint assoc (k : string) (d : list (string * json)) : option json :=
  match d with
  | [] => None
  | (k', v) :: d' => if String.eqb k k' then Some v else assoc k d'
  end.

(** [obj.get(key, default)]: only dicts have [get]. *)
Definition get (obj : json) (k : string) (dflt : json) : result json :=
  match obj with
  | JDict d => Ok (default dflt (assoc k d))
  | _ => Raise (AttributeError "object has no attribute 'get'")
  end.

Inductive level : Type := DEBUG | INFO | WARNING | ERROR.

#[global] Instance level_eq_dec : EqDecision level.
Proof. solve_decision. Defined.

(** What loguru has been handed so far, oldest line first. *)
Definition log : Type := list (level * string).

(** Time is counted in milliseconds; [seconds 300] is Python's [300.0]. *)
Definition seconds (n : Z) : Z := 1000 * n.

(** *** State-and-exception passing

    A method acting on mutable state [S] that returns an [A] or raises.
    The state survives a raise, as mutations do in Python. *)
Definition M (S A : Type) : Type := S → result A * S.

Definition ret {S A} (a : A) : M S A := λ s, (Ok a, s).

Definition raise {S A} (e : exn) : M S A := λ s, (Raise e, s).

Definition bind {S A B} (m : M S A) (k : A → M S B) : M S B :=
  λ s, match m s with
       | (Ok a, s') => k a s'
       | (Raise e, s') => (Raise e, s')
       end.

(** [try: body / except Exception as e: handler e] *)
Definition try_except {S A} (body : M S A) (handler : exn → M S A) : M S A :=
  λ s, match body s with
       | (Ok a, s') => (Ok a, s')
       | (Raise e, s') => handler e s'
       end.

(** [try: body / finally: cleanup] *)
Definition try_finally {S A} (body : M S A) (cleanup : M S unit) : M S A :=
  λ s, let '(r, s') := body s in
       match cleanup s' with
       | (Ok _, s'') => (r, s'')
       | (Raise e, s'') => (Raise e, s'')
       end.

Definition gets {S A} (f : S → A) : M S A := λ s, (Ok (f s), s).

Definition modify {S} (f : S → S) : M S unit := λ s, (Ok (), f s).

(** Run a method of a component [T] held inside [S]. *)
Definition zoom {S T A} (get : S → T) (set : T → S → S) (m : M T A) : M S A :=
  λ s, let '(r, t') := m (get s) in (r, set t' s).

(** [for x in l: body x] *)
Fixpoint for_each {S A} (l : list A) (body : A → M S unit) : M S unit :=
  match l with
  | [] => ret ()
  | x :: l' => bind (body x) (λ _, for_each l' body)
  end.

(** [l[start:]] for an [int] start: a negative start counts from the
    end, and a start outside the list is clipped to it. *)
Definition slice_from {A} (l : list A) (start : Z) : list A :=
  let n := Z.of_nat (length l) in
  let start := if start <? 0 then Z.max (start + n) 0 else Z.min start n in
  drop (Z.to_nat start) l.

(** [l[:stop]] *)
Definition slice_to {A} (l : list A) (stop : Z) : list A :=
  let n := Z.of_nat (length l) in
  let stop := if stop <? 0 then Z.max (stop + n) 0 else Z.min stop n in
  take (Z.to_nat stop) l.

(** [l[start:stop]] *)
Definition slice {A} (l : list A) (start stop : Z) : list A :=
  let n := Z.of_nat (length l) in
  let start := if start <? 0 then Z.max (start + n) 0 else Z.min start n in
  let stop := if stop <? 0 then Z.max (stop + n) 0 else Z.min stop n in
  take (Z.to_nat stop - Z.to_nat start) (drop (Z.to_nat start) l).

(** [if x:] for an optional string: [None] and the empty string are
    falsy. *)
Definition if_truthy (x : option string) : option string :=
  match x with
  | Some s => if String.eqb s "" then None else Some s
  | None => None
  end.

(** [m] takes every state to one that [R] relates to it. *)
Definition preserves {S A} (R : S → S → Prop) (m : M S A) : Prop :=
  ∀ s, R s (m s).2.

(** What [m] returns or raises from [s], and the state it leaves,
    satisfy [Φ]. *)
Definition wp {S A} (m : M S A) (s : S) (Φ : result A → S → Prop) : Prop :=
  Φ (m s).1 (m s).2.

(** [enumerate(l)], counting from [i]. *)
Fixpoint enumerate {A} (i : nat) (l : list A) : list (nat * A) :=
  match l with
  | [] => []
  | x :: l' => (i, x) :: enumerate (S i) l'
  end.

End Py.
Export Py.

Declare Scope py_scope.
Delimit Scope py_scope with py.
Notation "'let*' x ':=' m 'in' k" := (Py.bind m (λ x, k))
  (at level 10, x name, m at level 100, k at level 200) : py_scope.
Notation "m ';;' k" := (Py.bind m (λ _, k))
  (at level 100, k at level 200, right associativity) : py_scope.
Local Open Scope py_scope.

(** ** [scraper/state_machine.py] *)

Module StateMachine.

Inductive ScraperState : Type :=
| IDLE
| INITIALIZING
| LOGGING_IN
| SEARCHING
| AWAITING_COURT_SELECTION
| PROCESSING_RESULTS
| NAVIGATING_TO_DOCUMENT
| EXTRACTING_ENTRIES
| AWAITING_TRANSCRIPT_SELECTION
| DOWNLOADING
| RETURNING_TO_RESULTS
| COMPLETED
| ERROR
| CANCELLED.

#[global] Instance ScraperState_eq_dec : EqDecision ScraperState.
Proof. solve_decision. Defined.

(** [ScraperState.value] *)
Definition value (s : ScraperState) : string :=
  match s with
  | IDLE => "idle"
  | INITIALIZING => "initializing"
  | LOGGING_IN => "logging_in"
  | SEARCHING => "searching"
  | AWAITING_COURT_SELECTION => "awaiting_court_selection"
  | PROCESSING_RESULTS => "processing_results"
  | NAVIGATING_TO_DOCUMENT => "navigating_to_document"
  | EXTRACTING_ENTRIES => "extracting_entries"
  | AWAITING_TRANSCRIPT_SELECTION => "awaiting_transcript_selection"
  | DOWNLOADING => "downloading"
  | RETURNING_TO_RESULTS => "returning_to_results"
  | COMPLETED => "completed"
  | ERROR => "error"
  | CANCELLED => "cancelled"
  end.

(** [str(state)] for an optional state, as interpolated in log lines. *)
Definition show (o : option ScraperState) : string :=
  match o with Some s => value s | None => "None" end.

(** One entry of [state_history]. *)
Module Transition.

Record t : Type := {
  state : ScraperState;
  previous_state : option ScraperState;
  message : string;
  timestamp : Z
}.

End Transition.

Section Machine.

(** The world the observer acts on; [now] reads its clock
    ([datetime.now()]) and [emit] is loguru's sink. *)
Context {W : Type}.
Variable now : W → Z.
Variable emit : Py.level → string → W → W.

(** [on_state_change]: an async callable [(state, previous_state,
    message)]; awaiting it may raise.  It acts on the world and not on
    the machine that calls it: the observers the scrapers register only
    send an event. *)
Definition Callback : Type :=
  ScraperState → option ScraperState → string → W → result unit * W.

Record t : Type := {
  current_state : ScraperState;
  previous_state : option ScraperState;
  state_history : list Transition.t;
  context : gmap string json;
  on_state_change : option Callback
}.

Definition __init__ : t :=
  {| current_state := IDLE;
     previous_state := None;
     state_history := [];
     context := ∅;
     on_state_change := None |}.

Definition set_state_change_callback (sm : t) (callback : Callback) : t :=
  {| current_state := current_state sm;
     previous_state := previous_state sm;
     state_history := state_history sm;
     context := context sm;
     on_state_change := Some callback |}.

(** The line [transition_to] logs (with [->] for the arrow). *)
Definition transition_line (previous : option ScraperState)
    (new_state : ScraperState) (message : string) : string :=
  "State transition: " +:+ show previous +:+ " -> " +:+ value new_state
  +:+ " | " +:+ message.

(** The entry [transition_to] appends to [state_history]. *)
Definition entry (sm : t) (new_state : ScraperState) (message : string)
    (w : W) : Transition.t :=
  {| Transition.state := new_state;
     Transition.previous_state := Some (current_state sm);
     Transition.message := message;
     Transition.timestamp := now w |}.

(** [transition_to]: the fields are assigned and the entry appended
    before the callback is awaited; the callback's outcome is the
    outcome of the call. *)
Definition transition_to (sm : t) (new_state : ScraperState)
    (message : string) (w : W) : result unit * (t * W) :=
  let previous := Some (current_state sm) in
  let entry := entry sm new_state message w in
  let sm' := {| current_state := new_state;
                previous_state := previous;
                state_history := state_history sm ++ [entry];
                context := context sm;
                on_state_change := on_state_change sm |} in
  let w1 := emit INFO (transition_line previous new_state message) w in
  match on_state_change sm with
  | Some callback =>
      let '(r, w2) := callback new_state previous message w1 in
      (r, (sm', w2))
  | None => (Ok (), (sm', w1))
  end.

Definition can_pause (sm : t) : bool :=
  bool_decide (current_state sm ∈
                 [AWAITING_COURT_SELECTION; AWAITING_TRANSCRIPT_SELECTION]).

Definition reset (sm : t) : t :=
  {| current_state := IDLE;
     previous_state := None;
     state_history := [];
     context := ∅;
     on_state_change := on_state_change sm |}.

(** [str(list(kwargs.keys()))], for keys that are identifiers. *)
Definition show_keys (keys : list string) : string :=
  "[" +:+ String.concat ", " ((λ k, "'" +:+ k +:+ "'") <$> keys) +:+ "]".

(** [update_context]: [kwargs] are the keyword arguments in the order
    they were written. *)
Definition update_context (sm : t) (kwargs : list (string * json)) (w : W)
    : t * W :=
  ({| current_state := current_state sm;
      previous_state := previous_state sm;
      state_history := state_history sm;
      context := foldl (λ d kv, <[kv.1 := kv.2]> d) (context sm) kwargs;
      on_state_change := on_state_change sm |},
   emit DEBUG ("Context updated: " +:+ show_keys kwargs.*1) w).

(** [self.context.get(key, default)] *)
Definition get_context (sm : t) (key : string) (dflt : json) : json :=
  default dflt (context sm !! key).

Definition clear_context (sm : t) (w : W) : t * W :=
  ({| current_state := current_state sm;
      previous_state := previous_state sm;
      state_history := state_history sm;
      context := ∅;
      on_state_change := on_state_change sm |},
   emit DEBUG "Context cleared" w).

(** [is_in_state]: [states] are the positional arguments. *)
Definition is_in_state (sm : t) (states : list ScraperState) : bool :=
  bool_decide (current_state sm ∈ states).

(** [get_history(limit)]: [self.state_history[-limit:]] *)
Definition get_history (sm : t) (limit : Z) : list Transition.t :=
  slice_from (state_history sm) (- limit).

(** A caller issuing [transition_to] calls one after the other; a
    raising observer does not undo the assignment, so the machine is
    threaded on whatever the outcome. *)
Fixpoint transitions (calls : list (ScraperState * string)) (sm : t) (w : W)
    : t * W :=
  match calls with
  | [] => (sm, w)
  | (s, m) :: calls' =>
      let '(_, (sm', w')) := transition_to sm s m w in
      transitions calls' sm' w'
  end.

(** The log is a chain: each entry starts where the one before ended. *)
Definition chained (h : list Transition.t) : Prop :=
  ∀ i a b, h !! i = Some a → h !! S i = Some b →
           Transition.previous_state b = Some (Transition.state a).

(** The state the log says the machine is in. *)
Definition log_head (h : list Transition.t) : ScraperState :=
  match last h with Some a => Transition.state a | None => IDLE end.

Definition consistent (sm : t) : Prop :=
  chained (state_history sm) ∧ log_head (state_history sm) = current_state sm.

End Machine.

Arguments t : clear implicits.
Arguments Callback : clear implicits.

End StateMachine.

(** ** [api/websocket_handler.py] *)

Module WebsocketHandler.

(** A websocket object, by identity. *)
Definition WebSocket : Type := nat.

(** An [asyncio.Future]. *)
Inductive Future : Type :=
| Pending
| Done (value : json)
| Cancelled.

Record ConnectionManager : Type := {
  active_connections : gmap string WebSocket;
  pending_responses : gmap string nat
}.

(** The process: the environment [Env] it talks to, the clock, loguru's
    output, the event loop's futures by identity, and the global
    [connection_manager]. *)
Record World {Env : Type} : Type := {
  env : Env;
  clock : Z;
  logs : Py.log;
  futures : gmap nat Future;
  next_future : nat;
  manager : ConnectionManager
}.
Arguments World : clear implicits.

(** What a websocket peer and the libraries underneath may do. *)
Record Network {Env : Type} : Type := {
  accept : WebSocket → Env → result unit * Env;
  send_json : WebSocket → json → Env → result unit * Env;
  isoformat : Z → string
}.
Arguments Network : clear implicits.

(** The [event] argument of [send_event]. *)
Inductive Event : Type :=
| EventDict (d : list (string * json))
| EventModel (fields : list (string * json))
| EventObject.

(** What [websocket.receive_json()] yields to [websocket_endpoint]. *)
Inductive Inbound : Type :=
| Message (data : json)
| Disconnected
| ReceiveError (e : exn).

(** Something arriving on a client's websocket while a coroutine is
    suspended: when, on which connection, for which client, and what. *)
Record Arrival : Type := {
  at_time : Z;
  socket : WebSocket;
  sender : string;
  received : Inbound
}.

(** [models/events.py]'s [TranscriptEntry]: an entry offered to the
    operator. *)
Module TranscriptOption.

Record t : Type := {
  entry_num : string;
  filed_date : string;
  description : string;
  matches_pattern : bool;
  has_download : bool;
  matched_pattern : option string
}.

End TranscriptOption.

Section Manager.

Context {Env : Type}.
Variable net : Network Env.

Abbreviation World := (World Env).

Definition __init__ : ConnectionManager :=
  {| active_connections := ∅; pending_responses := ∅ |}.

Definition set_env (e : Env) (w : World) : World :=
  {| env := e; clock := clock w; logs := logs w; futures := futures w;
     next_future := next_future w; manager := manager w |}.

Definition set_clock (t : Z) (w : World) : World :=
  {| env := env w; clock := t; logs := logs w; futures := futures w;
     next_future := next_future w; manager := manager w |}.

Definition emit (l : Py.level) (msg : string) (w : World) : World :=
  {| env := env w; clock := clock w; logs := logs w ++ [(l, msg)];
     futures := futures w; next_future := next_future w;
     manager := manager w |}.

Definition set_futures (f : gmap nat Future) (n : nat) (w : World) : World :=
  {| env := env w; clock := clock w; logs := logs w; futures := f;
     next_future := n; manager := manager w |}.

Definition set_manager (m : ConnectionManager) (w : World) : World :=
  {| env := env w; clock := clock w; logs := logs w; futures := futures w;
     next_future := next_future w; manager := m |}.

Definition set_active (a : gmap string WebSocket) (w : World) : World :=
  set_manager {| active_connections := a;
                 pending_responses := pending_responses (manager w) |} w.

Definition set_pending (p : gmap string nat) (w : World) : World :=
  set_manager {| active_connections := active_connections (manager w);
                 pending_responses := p |} w.

Definition logger (l : Py.level) (msg : string) : M World unit :=
  modify (emit l msg).

(** An awaited call into the environment. *)
Definition io {A} (f : Env → result A * Env) : M World A :=
  λ w, let '(r, e) := f (env w) in (r, set_env e w).

(** [asyncio.sleep] *)
Definition sleep (ms : Z) : M World unit :=
  modify (λ w, set_clock (clock w + ms) w).

Definition connect (websocket : WebSocket) (client_id : string) : M World unit :=
  io (accept net websocket) ;;
  modify (λ w, set_active (<[client_id := websocket]>
                             (active_connections (manager w))) w) ;;
  logger INFO ("Client " +:+ client_id +:+ " connected").

Definition disconnect (client_id : string) : M World unit :=
  λ w, match active_connections (manager w) !! client_id with
       | Some _ =>
           (modify (set_active (delete client_id
                                  (active_connections (manager w)))) ;;
            logger INFO ("Client " +:+ client_id +:+ " disconnected")) w
       | None => ret () w
       end.

#[warnings="-register-all"]
Fixpoint _serialize_datetime (obj : json) : json :=
  match obj with
  | JDatetime t => JStr (isoformat net t)
  | JDict d => JDict (map (λ kv, (kv.1, _serialize_datetime kv.2)) d)
  | JList l => JList (map _serialize_datetime l)
  | _ => obj
  end.

(** No [datetime] object is left in [obj], at any depth. *)
#[warnings="-register-all"]
Fixpoint datetime_free (obj : json) : bool :=
  match obj with
  | JDatetime _ => false
  | JDict d => forallb (λ kv, datetime_free kv.2) d
  | JList l => forallb datetime_free l
  | _ => true
  end.

(** The dict an event is sent as: a copy of a dict, [dict()] or
    [model_dump()] of a model; any other object has neither method. *)
Definition event_dict (event : Event) : M World json :=
  match event with
  | EventDict d => ret (JDict d)
  | EventModel fields => ret (JDict fields)
  | EventObject =>
      raise (AttributeError "object has no attribute 'model_dump'")
  end.

(** [str(event_dict.get('type'))] for the debug line. *)
Definition show_type (d : json) : string :=
  match d with
  | JDict fields => match assoc "type" fields with
                    | Some (JStr s) => s
                    | _ => "None"
                    end
  | _ => "None"
  end.

Definition send_event (client_id : string) (event : Event) : M World unit :=
  λ w, match active_connections (manager w) !! client_id with
       | Some websocket =>
           try_except
             (let* event_dict := event_dict event in
              let event_dict := _serialize_datetime event_dict in
              io (send_json net websocket event_dict) ;;
              logger DEBUG ("Sent event " +:+ show_type event_dict
                            +:+ " to " +:+ client_id))
             (λ e, logger ERROR ("Error sending event to " +:+ client_id
                                 +:+ ": " +:+ str e))
             w
       | None => ret () w
       end.

Definition opt_str (o : option string) : json :=
  match o with Some s => JStr s | None => JNone end.

Definition opt_int (o : option Z) : json :=
  match o with Some z => JInt z | None => JNone end.

(** The pydantic models of [models/events.py], as the dict they dump to;
    [timestamp] defaults to [datetime.now()]. *)
Definition StateChangeEvent (state message : string)
    (previous_state : option string) (now : Z) : Event :=
  EventModel [("type", JStr "STATE_CHANGE"); ("state", JStr state);
              ("previous_state", opt_str previous_state);
              ("message", JStr message); ("timestamp", JDatetime now)].

Definition CourtSelectionEvent (user_input : string)
    (options exact_matches fuzzy_matches : list string) (now : Z) : Event :=
  EventModel [("type", JStr "COURT_SELECTION");
              ("user_input", JStr user_input);
              ("options", JList (JStr <$> options));
              ("exact_matches", JList (JStr <$> exact_matches));
              ("fuzzy_matches", JList (JStr <$> fuzzy_matches));
              ("message",
               JStr "Please select the correct court from the options");
              ("timestamp", JDatetime now)].

Definition ProgressEvent (message : string) (current total : option Z)
    (percentage : option Q) (now : Z) : Event :=
  EventModel [("type", JStr "PROGRESS"); ("message", JStr message);
              ("current", opt_int current); ("total", opt_int total);
              ("percentage",
               match percentage with Some q => JFloat q | None => JNone end);
              ("timestamp", JDatetime now)].

Definition ErrorEvent (message : string) (now : Z) : Event :=
  EventModel [("type", JStr "ERROR"); ("message", JStr message);
              ("error_code", JNone); ("details", JNone);
              ("timestamp", JDatetime now)].

Definition WebSocketEvent (type : string) (message : string) (data : json)
    (now : Z) : Event :=
  EventModel [("type", JStr type); ("timestamp", JDatetime now);
              ("data", data); ("message", JStr message)].

Definition send_state_change (client_id state message : string)
    (previous_state : option string) : M World unit :=
  let* now := gets clock in
  send_event client_id (StateChangeEvent state message previous_state now).

Definition send_court_selection (client_id user_input : string)
    (options exact_matches fuzzy_matches : list string) : M World unit :=
  let* now := gets clock in
  send_event client_id
    (CourtSelectionEvent user_input options exact_matches fuzzy_matches now).

Definition send_progress (client_id message : string)
    (current total : option Z) : M World unit :=
  let percentage :=
    match current, total with
    | Some c, Some t =>
        if 0 <? t then Some (Qmult (Qdiv (inject_Z c) (inject_Z t)) (inject_Z 100))
        else None
    | _, _ => None
    end in
  let* now := gets clock in
  send_event client_id (ProgressEvent message current total percentage now).

Definition send_error (client_id message : string) : M World unit :=
  let* now := gets clock in
  send_event client_id (ErrorEvent message now).

Definition send_info (client_id message : string) : M World unit :=
  let* now := gets clock in
  send_event client_id (WebSocketEvent "INFO" message JNone now).

Definition send_warning (client_id message : string) : M World unit :=
  let* now := gets clock in
  send_event client_id (WebSocketEvent "WARNING" message JNone now).

Definition send_complete (client_id message : string) (data : json)
    : M World unit :=
  let* now := gets clock in
  send_event client_id (WebSocketEvent "COMPLETE" message data now).

Definition dump_option (entry : TranscriptOption.t) : json :=
  JDict [("entry_num", JStr (TranscriptOption.entry_num entry));
         ("filed_date", JStr (TranscriptOption.filed_date entry));
         ("description", JStr (TranscriptOption.description entry));
         ("matches_pattern", JBool (TranscriptOption.matches_pattern entry));
         ("has_download", JBool (TranscriptOption.has_download entry));
         ("matched_pattern",
          match TranscriptOption.matched_pattern entry with
          | Some s => JStr s
          | None => JNone
          end)].

Definition TranscriptOptionsEvent (document_title : string)
    (entries : list TranscriptOption.t) (document_index total_documents : Z)
    (now : Z) : Event :=
  EventModel [("type", JStr "TRANSCRIPT_OPTIONS");
              ("document_title", JStr document_title);
              ("document_index", JInt document_index);
              ("total_documents", JInt total_documents);
              ("entries", JList (dump_option <$> entries));
              ("message", JStr "Select transcript entries to download");
              ("timestamp", JDatetime now)].

Definition send_transcript_options (client_id document_title : string)
    (entries : list TranscriptOption.t) (document_index total_documents : Z)
    : M World unit :=
  let* now := gets clock in
  send_event client_id
    (TranscriptOptionsEvent document_title entries document_index
       total_documents now).

(** [future.done()]; an identity the loop never handed out counts as
    done, so that nothing is ever set on it. *)
Definition done (future : nat) (w : World) : bool :=
  match futures w !! future with
  | Some Pending => false
  | _ => true
  end.

(** [future.set_result(value)] *)
Definition set_result (future : nat) (value : json) : M World unit :=
  λ w, if done future w then raise InvalidStateError w
       else modify (set_futures (<[future := Done value]> (futures w))
                      (next_future w)) w.

(** [future.cancel()] *)
Definition cancel (future : nat) : M World unit :=
  λ w, if done future w then ret () w
       else modify (set_futures (<[future := Cancelled]> (futures w))
                      (next_future w)) w.

(** [asyncio.get_event_loop().create_future()] *)
Definition create_future : M World nat :=
  λ w, let future := next_future w in
       (Ok future,
        set_futures (<[future := Pending]> (futures w)) (S future) w).

Definition set_user_response (client_id : string) (response : json)
    : M World unit :=
  λ w, match pending_responses (manager w) !! client_id with
       | Some future =>
           if negb (done future w) then
             (set_result future response ;;
              logger DEBUG ("User response received from " +:+ client_id)) w
           else ret () w
       | None => ret () w
       end.

Definition receive_json (r : Inbound) : M World json :=
  match r with
  | Message data => ret data
  | Disconnected => raise WebSocketDisconnect
  | ReceiveError e => raise e
  end.

(** The received item is a message the endpoint classifies as an answer
    ([type == "user_response"]). *)
Definition is_user_response (r : Inbound) : bool :=
  match r with
  | Message data =>
      match get data "type" JNone with
      | Ok message_type => is_str message_type "user_response"
      | Raise _ => false
      end
  | _ => false
  end.

(** The body of the endpoint's [while True], for one received item. *)
Definition endpoint_body (websocket : WebSocket) (client_id : string)
    (r : Inbound) : M World unit :=
  let* data := receive_json r in
  logger DEBUG ("Received from " +:+ client_id) ;;
  let* message_type := (λ w, (get data "type" JNone, w)) in
  if is_str message_type "user_response" then
    let* response := (λ w, (get data "data" JNone, w)) in
    set_user_response client_id response
  else if is_str message_type "ping" then
    io (send_json net websocket (JDict [("type", JStr "pong")]))
  else
    logger WARNING ("Unknown message type from " +:+ client_id).

(** The two [except] clauses around the loop. *)
Definition endpoint_except (client_id : string) (e : exn) : M World unit :=
  match e with
  | WebSocketDisconnect =>
      disconnect client_id ;;
      logger INFO ("Client " +:+ client_id +:+ " disconnected")
  | _ =>
      logger ERROR ("WebSocket error for " +:+ client_id +:+ ": " +:+ str e) ;;
      disconnect client_id
  end.

(** One turn of the loop; [false] once an [except] clause has ended it. *)
Definition endpoint_turn (websocket : WebSocket) (client_id : string)
    (r : Inbound) : M World bool :=
  try_except (endpoint_body websocket client_id r ;; ret true)
             (λ e, endpoint_except client_id e ;; ret false).

Fixpoint endpoint_loop (websocket : WebSocket) (client_id : string)
    (inbox : list Inbound) : M World unit :=
  match inbox with
  | [] => ret ()
  | r :: inbox' =>
      let* go_on := endpoint_turn websocket client_id r in
      if go_on then endpoint_loop websocket client_id inbox' else ret ()
  end.

Definition websocket_endpoint (websocket : WebSocket) (client_id : string)
    (inbox : list Inbound) : M World unit :=
  connect websocket client_id ;;
  endpoint_loop websocket client_id inbox.

(** [asyncio.wait_for(future, timeout)] seen from the suspended caller:
    the other coroutines run on what arrives, in order; the caller
    resumes with the result as soon as the future is done, or at the
    deadline, where [wait_for] cancels the future and raises. *)
Fixpoint wait_for (future : nat) (deadline : Z) (script : list Arrival)
    : M World json :=
  λ w,
    let timed_out :=
      modify (set_clock deadline) ;;
      cancel future ;;
      raise TimeoutError in
    match futures w !! future with
    | Some (Done value) => ret value w
    | _ =>
        match script with
        | a :: script' =>
            if at_time a <? deadline then
              (modify (λ w, set_clock (Z.max (clock w) (at_time a)) w) ;;
               endpoint_turn (socket a) (sender a) (received a) ;;
               wait_for future deadline script') w
            else timed_out w
        | [] => timed_out w
        end
    end.

(** What a handler run by the loop leaves alone, whatever it does to
    the futures. *)
Definition same_frame (w w' : World) : Prop :=
  pending_responses (manager w') = pending_responses (manager w)
  ∧ next_future w' = next_future w
  ∧ clock w' = clock w.

(** The handle is pending and stored under this client only. *)
Definition private (future : nat) (client_id : string) (w : World) : Prop :=
  futures w !! future = Some Pending
  ∧ ∀ c, pending_responses (manager w) !! c = Some future → c = client_id.

(** The operator of [client_id] sends no answer. *)
Definition never_responds (client_id : string) (script : list Arrival) : Prop :=
  Forall (λ a, sender a = client_id → is_user_response (received a) = false)
    script.

(** The part of [wait_for_user_response] that runs before it first
    suspends: the future is created and stored under the client's id. *)
Definition wait_for_user_response_register (client_id : string)
    : M World nat :=
  let* future := create_future in
  modify (λ w, set_pending (<[client_id := future]>
                              (pending_responses (manager w))) w) ;;
  ret future.

(** The [finally] clause. *)
Definition wait_for_user_response_cleanup (client_id : string)
    : M World unit :=
  λ w, match pending_responses (manager w) !! client_id with
       | Some _ =>
           modify (set_pending (delete client_id
                                  (pending_responses (manager w)))) w
       | None => ret () w
       end.

(** [None] is [JNone]: the caller tests the value with [if not response]. *)
Definition wait_for_user_response (client_id : string) (timeout : Z)
    (script : list Arrival) : M World json :=
  let* future := wait_for_user_response_register client_id in
  try_finally
    (try_except
       (let* started := gets clock in
        wait_for future (started + timeout) script)
       (λ e, match e with
             | TimeoutError =>
                 logger WARNING ("Timeout waiting for user response from "
                                 +:+ client_id) ;;
                 ret JNone
             | _ => raise e
             end))
    (wait_for_user_response_cleanup client_id).

End Manager.

End WebsocketHandler.

(** ** [scraper/bloomberg_scraper.py] *)

Module BloombergScraper.

Import StateMachine WebsocketHandler.

Section Scraper.

Context {Env : Type}.
Variable net : Network Env.

Abbreviation World := (World Env).

(** The scraper object, as far as the decision points use it. *)
Record Self : Type := {
  client_id : string;
  state_machine : StateMachine.t World
}.

(** The scraper and the process it runs in. *)
Definition State : Type := Self * World.

Definition _on_state_change (client_id : string) : Callback World :=
  λ state previous_state message,
    send_state_change net client_id (value state) message
      (value <$> previous_state).

Definition __init__ (client_id : string) : Self :=
  {| client_id := client_id;
     state_machine :=
       set_state_change_callback StateMachine.__init__
         (_on_state_change client_id) |}.

(** The machine's observer is the one [__init__] installs. *)
Definition wired (self : Self) : Prop :=
  on_state_change (state_machine self)
  = Some (_on_state_change (client_id self)).

(** [self.state_machine.transition_to(...)] *)
Definition transition_to (new_state : ScraperState) (message : string)
    : M State unit :=
  λ '(self, w),
    let '(r, (sm, w')) :=
      StateMachine.transition_to clock emit (state_machine self)
        new_state message w in
    (r, ({| client_id := client_id self; state_machine := sm |}, w')).

(** A call on the connection manager or the logger. *)
Definition world {A} (m : M World A) : M State A :=
  zoom snd (λ w s, (s.1, w)) m.

Definition pure {A} (r : result A) : M State A := λ s, (r, s).

(** [d[key]] *)
Definition getitem (d : gmap string (list string)) (key : string)
    : result (list string) :=
  match d !! key with
  | Some v => Ok v
  | None => Raise (KeyError key)
  end.

(** [l[0]] *)
Definition first (l : list string) : result string :=
  match l with
  | x :: _ => Ok x
  | [] => Raise (IndexError "list index out of range")
  end.

Definition _handle_court_selection (user_input : string)
    (court_options : gmap string (list string)) (script : list Arrival)
    : M State json :=
  transition_to AWAITING_COURT_SELECTION "Waiting for user to select court" ;;
  let* me := gets (λ s : State, client_id s.1) in
  let* all_options := pure (getitem court_options "all_options") in
  let* exact_matches := pure (getitem court_options "exact_matches") in
  let* fuzzy_matches := pure (getitem court_options "fuzzy_matches") in
  world (send_court_selection net me user_input
           all_options exact_matches fuzzy_matches) ;;
  let* response :=
    world (wait_for_user_response net me (seconds 300) script) in
  if negb (truthy response) then
    world (logger WARNING "Court selection timeout, using first option") ;;
    let* all_options := pure (getitem court_options "all_options") in
    let* court := pure (first all_options) in
    ret (JStr court)
  else
    let* data := pure (get response "data" (JDict [])) in
    let* selected_court := pure (get data "selected_court" JNone) in
    let* selected_court :=
      if negb (truthy selected_court) then
        let* all_options := pure (getitem court_options "all_options") in
        let* court := pure (first all_options) in
        ret (JStr court)
      else ret selected_court in
    (if is_str selected_court "__SKIP__" then
       world (logger INFO
                "User skipped court selection (manual selection in browser)") ;;
       world (send_info net me
                "Skipped court selection - using manual browser selection")
     else
       world (logger INFO "User selected court")) ;;
    ret selected_court.

End Scraper.

Arguments Self : clear implicits.
Arguments State : clear implicits.

End BloombergScraper.

(** ** [scraper/cmecf_page_handlers/document_detail_handler.py] *)

Module DocumentDetailHandler.

(** A Playwright page, by identity. *)
Definition Page : Type := nat.

Definition bytes : Type := list byte.

(** [b'%PDF'] and [b'<'] *)
Definition PDF_MAGIC : bytes := String.list_byte_of_string "%PDF".
Definition LESS_THAN : bytes := String.list_byte_of_string "<".

(** [content.startswith(prefix)] *)
Fixpoint startswith (content prefix : bytes) : bool :=
  match prefix, content with
  | [], _ => true
  | p :: prefix', c :: content' =>
      if Byte.eqb p c then startswith content' prefix' else false
  | _ :: _, [] => false
  end.

(** [sub in s] *)
Fixpoint contains (sub s : string) : bool :=
  String.prefix sub s
  || match s with
     | EmptyString => false
     | String _ s' => contains sub s'
     end.

(** [s.endswith(suffix)] *)
Definition endswith (s suffix : string) : bool :=
  (String.length suffix <=? String.length s)%nat
  && String.eqb
       (String.substring (String.length s - String.length suffix)
          (String.length suffix) s)
       suffix.

(** What [route.fetch()] gives: status and body ([response.body()]);
    of a [session.get], status and [response.read()]. *)
Record Response : Type := {
  status : Z;
  body : bytes
}.

(** What the browser does while the handler is suspended. *)
Inductive BrowserEvent : Type :=
| PageOpened (page : Page)
| Requested (page : Page) (url : string) (fetched : result Response).

(** The calls made on pages, on the browser context and on the network,
    in the order they are made. *)
Inductive Call : Type :=
| WaitForSelector (page : Page) (selector : string)
| ContextOnPage
| ContextRoute
| Evaluate (page : Page)
| Click (page : Page) (selector : string)
| ContextRemoveListener
| ContextUnroute
| PageRoute (page : Page)
| PageUnroute (page : Page)
| WaitForLoadState (page : Page)
| ExpectDownloadKeyboard (page : Page)
| QuerySelector (page : Page) (selector : string)
| ExpectDownloadButton (page : Page) (selector : string)
| SaveAs (path : string)
| ContextPages
| ContextCookies
| SessionGet (url : string).

(** A file written: by [open(path, 'wb').write(content)], or by the
    browser on [download.save_as(path)]. *)
Inductive Write : Type :=
| Written (path : string) (content : bytes)
| Saved (path : string) (content : bytes).

(** What Playwright and aiohttp may answer. *)
Record Browser {Env : Type} : Type := {
  wait_for_selector : Page → string → Env → result unit * Env;
  context_route : Env → result unit * Env;
  context_unroute : Env → result unit * Env;
  context_pages : Env → result (list Page) * Env;
  evaluate : Page → Env → result json * Env;
  click : Page → string → Env → result unit * Env;
  page_route : Page → Env → result unit * Env;
  page_unroute : Page → Env → result unit * Env;
  wait_for_load_state : Page → Env → result unit * Env;
  page_url : Page → Env → string;
  route_fulfill : Response → Env → result unit * Env;
  route_continue : Env → result unit * Env;
  expect_download_keyboard : Page → Env → result bytes * Env;
  query_selector : Page → string → Env → result bool * Env;
  expect_download_button : Page → string → Env → result bytes * Env;
  save_as : string → Env → result unit * Env;
  context_cookies : Env → result (list (string * string)) * Env;
  session_get : string → list (string * string) → Env → result Response * Env
}.
Arguments Browser : clear implicits.

(** The handler object ([downloads_dir], the selector of the button). *)
Record Self : Type := {
  downloads_dir : string;
  view_document_button : string
}.

(** The handler's surroundings, and the variables that
    [click_view_document_and_download] shares with its two callbacks. *)
Record State {Env : Type} : Type := {
  env : Env;
  clock : Z;
  logs : Py.log;
  files : list Write;
  calls : list Call;
  current_page : Page;
  captured_pdf_content : option bytes;
  pdf_captured_event : bool;
  captured_new_page : option Page;
  new_page_event : bool
}.
Arguments State : clear implicits.

Section Handler.

Context {Env : Type}.
Variable browser : Browser Env.
Variable self : Self.

Abbreviation State := (State Env).

Definition set_env (e : Env) (s : State) : State :=
  {| env := e; clock := clock s; logs := logs s; files := files s;
     calls := calls s; current_page := current_page s;
     captured_pdf_content := captured_pdf_content s;
     pdf_captured_event := pdf_captured_event s;
     captured_new_page := captured_new_page s;
     new_page_event := new_page_event s |}.

Definition set_clock (t : Z) (s : State) : State :=
  {| env := env s; clock := t; logs := logs s; files := files s;
     calls := calls s; current_page := current_page s;
     captured_pdf_content := captured_pdf_content s;
     pdf_captured_event := pdf_captured_event s;
     captured_new_page := captured_new_page s;
     new_page_event := new_page_event s |}.

Definition emit (l : Py.level) (msg : string) (s : State) : State :=
  {| env := env s; clock := clock s; logs := logs s ++ [(l, msg)];
     files := files s; calls := calls s; current_page := current_page s;
     captured_pdf_content := captured_pdf_content s;
     pdf_captured_event := pdf_captured_event s;
     captured_new_page := captured_new_page s;
     new_page_event := new_page_event s |}.

Definition add_file (f : Write) (s : State) : State :=
  {| env := env s; clock := clock s; logs := logs s;
     files := files s ++ [f]; calls := calls s;
     current_page := current_page s;
     captured_pdf_content := captured_pdf_content s;
     pdf_captured_event := pdf_captured_event s;
     captured_new_page := captured_new_page s;
     new_page_event := new_page_event s |}.

Definition add_call (c : Call) (s : State) : State :=
  {| env := env s; clock := clock s; logs := logs s; files := files s;
     calls := calls s ++ [c]; current_page := current_page s;
     captured_pdf_content := captured_pdf_content s;
     pdf_captured_event := pdf_captured_event s;
     captured_new_page := captured_new_page s;
     new_page_event := new_page_event s |}.

Definition set_page (page : Page) (s : State) : State :=
  {| env := env s; clock := clock s; logs := logs s; files := files s;
     calls := calls s; current_page := page;
     captured_pdf_content := captured_pdf_content s;
     pdf_captured_event := pdf_captured_event s;
     captured_new_page := captured_new_page s;
     new_page_event := new_page_event s |}.

(** [captured_pdf_content = body; pdf_captured_event.set()] *)
Definition capture (content : bytes) (s : State) : State :=
  {| env := env s; clock := clock s; logs := logs s; files := files s;
     calls := calls s; current_page := current_page s;
     captured_pdf_content := Some content;
     pdf_captured_event := true;
     captured_new_page := captured_new_page s;
     new_page_event := new_page_event s |}.

(** [captured_new_page = page; new_page_event.set()] *)
Definition notice_page (page : Page) (s : State) : State :=
  {| env := env s; clock := clock s; logs := logs s; files := files s;
     calls := calls s; current_page := current_page s;
     captured_pdf_content := captured_pdf_content s;
     pdf_captured_event := pdf_captured_event s;
     captured_new_page := Some page;
     new_page_event := true |}.

(** The four shared variables as the function initialises them. *)
Definition fresh_locals (s : State) : State :=
  {| env := env s; clock := clock s; logs := logs s; files := files s;
     calls := calls s; current_page := current_page s;
     captured_pdf_content := None;
     pdf_captured_event := false;
     captured_new_page := None;
     new_page_event := false |}.

Definition logger (l : Py.level) (msg : string) : M State unit :=
  modify (emit l msg).

(** A call [c] answered by the environment. *)
Definition call {A} (c : Call) (f : Env → result A * Env) : M State A :=
  λ s, let '(r, e) := f (env s) in (r, set_env e (add_call c s)).

Definition sleep (ms : Z) : M State unit :=
  modify (λ s, set_clock (clock s + ms) s).

(** [with open(filepath, 'wb') as f: f.write(content)]; the downloads
    directory exists (created by [__init__]) and the write goes through. *)
Definition write_file (filepath : string) (content : bytes) : M State unit :=
  modify (add_file (Written filepath content)).

(** [self.downloads_dir / f"{case_number}_{doc_number}.pdf"] *)
Definition filename (case_number doc_number : string) : string :=
  case_number +:+ "_" +:+ doc_number +:+ ".pdf".

Definition filepath (case_number doc_number : string) : string :=
  downloads_dir self +:+ "/" +:+ filename case_number doc_number.

(** [route.fulfill(status, headers, body)] and [route.continue_()] *)
Definition fulfill (response : Response) : M State unit :=
  λ s, let '(r, e) := route_fulfill browser response (env s) in
       (r, set_env e s).

Definition continue_ : M State unit :=
  λ s, let '(r, e) := route_continue browser (env s) in (r, set_env e s).

(** The route handler: called with the request and what fetching it
    yields. *)
Definition intercept_pdf_response (url : string) (fetched : result Response)
    : M State unit :=
  if contains "show_temp.pl" url || endswith url ".pdf" then
    logger INFO ("Intercepting PDF request: " +:+ url) ;;
    try_except
      (let* response := (λ s, (fetched, s)) in
       let body := body response in
       (if startswith body PDF_MAGIC then
          logger INFO "Captured PDF content" ;;
          modify (capture body)
        else ret ()) ;;
       fulfill response)
      (λ e,
         logger Py.ERROR ("Error intercepting PDF: " +:+ str e) ;;
         continue_)
  else continue_.

(** The listener for the context's ['page'] event. *)
Definition on_page (page : Page) : M State unit :=
  logger INFO "New page/popup detected!" ;;
  modify (notice_page page).

(** Playwright runs a handler in a task of its own: what it raises does
    not reach the suspended function. *)
Definition dispatch (handler : M State unit) : M State unit :=
  try_except handler (λ _, ret ()).

(** [asyncio.wait([new_page_event.wait(), pdf_captured_event.wait()],
    timeout=15.0, return_when=FIRST_COMPLETED)], with the listener and
    the context's route armed: the events are handled as they come until
    one of the two flags is set or the deadline passes. *)
Fixpoint wait_first_completed (deadline : Z)
    (events : list (Z * BrowserEvent)) : M State unit :=
  λ s,
    if new_page_event s || pdf_captured_event s then ret () s
    else
      match events with
      | (t, ev) :: events' =>
          if t <? deadline then
            (modify (λ s, set_clock (Z.max (clock s) t) s) ;;
             match ev with
             | PageOpened page => dispatch (on_page page)
             | Requested _ url fetched =>
                 dispatch (intercept_pdf_response url fetched)
             end ;;
             wait_first_completed deadline events') s
          else modify (set_clock deadline) s
      | [] => modify (set_clock deadline) s
      end.

(** Requests of one page, handled by the route armed on that page. *)
Fixpoint page_events (page : Page) (events : list BrowserEvent)
    : M State unit :=
  match events with
  | [] => ret ()
  | Requested p url fetched :: events' =>
      (if Nat.eqb p page then dispatch (intercept_pdf_response url fetched)
       else ret ()) ;;
      page_events page events'
  | PageOpened _ :: events' => page_events page events'
  end.

(** [download.save_as(filepath)] *)
Definition save_download (filepath : string) (download : bytes)
    : M State unit :=
  call (SaveAs filepath) (save_as browser filepath) ;;
  modify (add_file (Saved filepath download)).

(** A double quote, for the selectors below. *)
Definition dq : string := String (Ascii.ascii_of_nat 34) EmptyString.

Definition download_button_selectors : list string :=
  ["#download";
   "[id=" +:+ dq +:+ "download" +:+ dq +:+ "]";
   "cr-icon-button[id=" +:+ dq +:+ "download" +:+ dq +:+ "]";
   "button[aria-label=" +:+ dq +:+ "Download" +:+ dq +:+ "]";
   "button[title=" +:+ dq +:+ "Download" +:+ dq +:+ "]";
   "[data-testid=" +:+ dq +:+ "download" +:+ dq +:+ "]"].

(** Method 3's loop: the first button that yields a download ends it. *)
Fixpoint try_download_buttons (page : Page) (filepath : string)
    (selectors : list string) : M State (option string) :=
  match selectors with
  | [] => ret None
  | selector :: selectors' =>
      let* found :=
        try_except
          (let* button := call (QuerySelector page selector)
                            (query_selector browser page selector) in
           if (button : bool) then
             let* download := call (ExpectDownloadButton page selector)
                                (expect_download_button browser page selector) in
             save_download filepath download ;;
             logger INFO ("PDF saved via download button: " +:+ filepath) ;;
             ret (Some filepath)
           else ret None)
          (λ _, ret None) in
      match found with
      | Some path => ret (Some path)
      | None => try_download_buttons page filepath selectors'
      end
  end.

Definition _download_from_pdf_viewer (page : Page) (filepath : string)
    : M State (option string) :=
  try_except
    (logger INFO "Attempting to download from PDF viewer..." ;;
     let* pdf_element_info := call (Evaluate page) (evaluate browser page) in
     logger INFO "PDF element info" ;;
     logger INFO "Trying keyboard shortcut to trigger download..." ;;
     let* by_keyboard :=
       try_except
         (let* download := call (ExpectDownloadKeyboard page)
                             (expect_download_keyboard browser page) in
          logger INFO "Download triggered via keyboard" ;;
          save_download filepath download ;;
          logger INFO ("PDF saved: " +:+ filepath) ;;
          ret (Some filepath))
         (λ e, logger DEBUG ("Keyboard shortcut download failed: " +:+ str e) ;;
               ret None) in
     match by_keyboard with
     | Some path => ret (Some path)
     | None =>
         logger INFO "Trying to find download button in PDF viewer..." ;;
         let* by_button :=
           try_except
             (try_download_buttons page filepath download_button_selectors)
             (λ e, logger DEBUG ("Download button click failed: " +:+ str e) ;;
                   ret None) in
         match by_button with
         | Some path => ret (Some path)
         | None =>
             logger INFO "Trying JavaScript-based download from iframe..." ;;
             try_except
               (let* iframe_src := call (Evaluate page) (evaluate browser page) in
                if truthy iframe_src && negb (is_str iframe_src "about:blank") then
                  logger INFO "Found iframe src"
                else ret ())
               (λ e, logger DEBUG ("JavaScript download failed: " +:+ str e)) ;;
             logger WARNING "Could not download from PDF viewer" ;;
             ret None
         end
     end)
    (λ e, logger Py.ERROR ("Error downloading from PDF viewer: " +:+ str e) ;;
          ret None).

Definition download_pdf_from_url (pdf_url case_number doc_number : string)
    : M State (option string) :=
  try_except
    (let filepath := filepath case_number doc_number in
     logger INFO ("Downloading PDF from: " +:+ pdf_url) ;;
     logger INFO ("Saving as: " +:+ filename case_number doc_number) ;;
     let* cookies := call ContextCookies (context_cookies browser) in
     let* response :=
       call (SessionGet pdf_url) (session_get browser pdf_url cookies) in
     if status response =? 200 then
       let content := body response in
       if (length content <? 100)%nat then
         logger Py.ERROR "Downloaded content too small" ;;
         logger DEBUG "Content preview" ;;
         ret None
       else
         let* is_html :=
           if negb (startswith content PDF_MAGIC) then
             logger WARNING
               "Downloaded content doesn't start with PDF magic bytes" ;;
             logger DEBUG "First 100 bytes" ;;
             if startswith content LESS_THAN then
               logger Py.ERROR "Received HTML instead of PDF" ;;
               ret true
             else ret false
           else ret false in
         if (is_html : bool) then ret None
         else
           write_file filepath content ;;
           logger INFO ("PDF downloaded successfully: " +:+ filepath) ;;
           ret (Some filepath)
     else
       logger Py.ERROR "Failed to download PDF: HTTP status" ;;
       logger DEBUG "Response body" ;;
       ret None)
    (λ e, logger Py.ERROR ("Error downloading PDF from URL: " +:+ str e) ;;
          logger DEBUG "Traceback" ;;
          ret None).

(** The inner [try ... finally] of [click_view_document_and_download]:
    the route is set on the context, [window.close] is blocked, the
    button is clicked and the function waits up to 15 s; the listener
    and the route are removed whatever happened. *)
Definition arm_click_and_wait (original_page : Page)
    (after_click : list (Z * BrowserEvent)) : M State unit :=
  let view_doc_selector := view_document_button self in
  try_finally
    (logger INFO "Setting up PDF route interception on context..." ;;
     call ContextRoute (context_route browser) ;;
     call (Evaluate original_page) (evaluate browser original_page) ;;
     logger INFO "Clicking View Document button..." ;;
     call (Click original_page view_doc_selector)
       (click browser original_page view_doc_selector) ;;
     logger INFO "Clicked! Waiting for PDF interception or new page..." ;;
     try_except
       (let* now := gets clock in
        wait_first_completed (now + seconds 15) after_click)
       (λ _, ret ()))
    (call ContextRemoveListener (λ e, (Ok (), e)) ;;
     try_except (call ContextUnroute (context_unroute browser))
       (λ _, ret ())).

(** CASE 1: a popup was opened. [Some path] is a [return] from inside
    the block; [None] falls through to CASE 2. *)
Definition handle_popup (new_page : Page) (filepath : string)
    (while_loading while_settling : list BrowserEvent)
    : M State (option string) :=
  logger INFO "Handling new popup window with PDF interception..." ;;
  try_except
    (call (PageRoute new_page) (page_route browser new_page) ;;
     logger INFO "Waiting for popup to load..." ;;
     page_events new_page while_loading ;;
     call (WaitForLoadState new_page) (wait_for_load_state browser new_page) ;;
     page_events new_page while_settling ;;
     sleep (seconds 3) ;;
     let* captured := gets captured_pdf_content in
     match captured with
     | Some ((_ :: _) as content) =>
         logger INFO "Captured PDF from popup" ;;
         write_file filepath content ;;
         logger INFO ("PDF saved successfully: " +:+ filepath) ;;
         call (PageUnroute new_page) (page_unroute browser new_page) ;;
         ret (Some filepath)
     | _ =>
         logger INFO
           "PDF not intercepted, trying to download from PDF viewer..." ;;
         let* new_page_url := gets (λ s, page_url browser new_page (env s)) in
         logger INFO ("Popup URL: " +:+ new_page_url) ;;
         let* download_path := _download_from_pdf_viewer new_page filepath in
         match download_path with
         | Some path =>
             call (PageUnroute new_page) (page_unroute browser new_page) ;;
             ret (Some path)
         | None =>
             call (PageUnroute new_page) (page_unroute browser new_page) ;;
             ret None
         end
     end)
    (λ popup_error,
       logger Py.ERROR ("Error handling popup: " +:+ str popup_error) ;;
       try_except
         (call (PageUnroute new_page) (page_unroute browser new_page))
         (λ _, ret ()) ;;
       ret None).

(** CASE 2: the original page may have navigated to the PDF viewer. *)
Definition check_original_page (original_page : Page) (filepath : string)
    : M State (option string) :=
  logger INFO "Checking if original page has PDF viewer..." ;;
  sleep (seconds 2) ;;
  try_except
    (let* current_url :=
       gets (λ s, page_url browser original_page (env s)) in
     logger INFO ("Original page URL after click: " +:+ current_url) ;;
     if contains "/doc1/" current_url then
       _download_from_pdf_viewer original_page filepath
     else ret None)
    (λ check_error,
       logger WARNING ("Error checking original page: " +:+ str check_error) ;;
       ret None).

(** What follows the wait: the intercepted content is saved if there is
    any, else the popup (CASE 1) and the original page (CASE 2) are
    tried. *)
Definition after_wait (original_page : Page) (filepath : string)
    (while_loading while_settling : list BrowserEvent)
    : M State (option string) :=
  let* captured := gets captured_pdf_content in
  match captured with
  | Some ((_ :: _) as content) =>
      logger INFO ("Saving intercepted PDF to " +:+ filepath) ;;
      write_file filepath content ;;
      logger INFO ("PDF saved successfully: " +:+ filepath) ;;
      ret (Some filepath)
  | _ =>
      let* new_page := gets captured_new_page in
      let* from_popup :=
        match new_page with
        | Some new_page =>
            handle_popup new_page filepath while_loading while_settling
        | None => ret None
        end in
      match from_popup with
      | Some path => ret (Some path)
      | None =>
          let* from_viewer := check_original_page original_page filepath in
          match from_viewer with
          | Some path => ret (Some path)
          | None =>
              logger Py.ERROR "All download methods failed" ;;
              ret None
          end
      end
  end.

(** The body of the outer [try]. *)
Definition click_and_capture (original_page : Page) (filepath : string)
    (after_click : list (Z * BrowserEvent))
    (while_loading while_settling : list BrowserEvent)
    : M State (option string) :=
  let view_doc_selector := view_document_button self in
  logger INFO "Preparing to click View Document (with PDF interception)..." ;;
  call (WaitForSelector original_page view_doc_selector)
    (wait_for_selector browser original_page view_doc_selector) ;;
  call ContextPages (context_pages browser) ;;
  logger INFO "Pages before click" ;;
  call ContextOnPage (λ e, (Ok (), e)) ;;
  arm_click_and_wait original_page after_click ;;
  after_wait original_page filepath while_loading while_settling.

(** [after_click]: what the browser does from the click on, with times;
    [while_loading], [while_settling]: what it does in the popup while
    the function waits for it to load and for the three seconds after. *)
Definition click_view_document_and_download (case_number doc_number : string)
    (after_click : list (Z * BrowserEvent))
    (while_loading while_settling : list BrowserEvent)
    : M State (option string) :=
  let* original_page := gets current_page in
  let filepath := filepath case_number doc_number in
  modify fresh_locals ;;
  try_finally
    (try_except
       (click_and_capture original_page filepath after_click
          while_loading while_settling)
       (λ e,
          logger Py.ERROR
            ("Error in click_view_document_and_download: " +:+ str e) ;;
          ret None))
    (try_except
       (let* pages := call ContextPages (context_pages browser) in
        if bool_decide (original_page ∈ pages) then
          modify (set_page original_page)
        else ret ())
       (λ _, ret ())).

(** A call that arms an observer, and the call that triggers the
    document. *)
Definition arms (c : Call) : bool :=
  match c with
  | ContextOnPage | ContextRoute | PageRoute _ => true
  | _ => false
  end.

Definition triggers (c : Call) : bool :=
  match c with
  | Click _ _ => true
  | _ => false
  end.

(** Content that starts with the magic bytes and has the minimum size. *)
Definition validated (content : bytes) : bool :=
  startswith content PDF_MAGIC && (100 <=? length content)%nat.

Definition content_of (f : Write) : bytes :=
  match f with Written _ c | Saved _ c => c end.

(** The body the browser offers to the route handler with an event. *)
Definition offered_body (ev : BrowserEvent) : option bytes :=
  match ev with
  | Requested _ _ (Ok response) => Some (body response)
  | _ => None
  end.

Definition offered (events : list BrowserEvent) : list bytes :=
  omap offered_body events.

(** [content] is a body offered by one of [events] that starts with the
    magic bytes. *)
Definition pdf_offered (events : list BrowserEvent) (content : bytes)
    : Prop :=
  startswith content PDF_MAGIC = true ∧ content ∈ offered events.

(** What the route handler may capture from [ev] satisfies [V]. *)
Definition capturable (V : bytes → Prop) (ev : BrowserEvent) : Prop :=
  ∀ content, offered_body ev = Some content →
             startswith content PDF_MAGIC = true → V content.

(** Whatever the callbacks have captured satisfies [V]. *)
Definition captured_ok (V : bytes → Prop) (s : State) : Prop :=
  ∀ content, captured_pdf_content s = Some content → V content.

(** [m] keeps [captured_ok V], makes only calls that satisfy [P] and
    writes only files that satisfy [Q]. *)
Definition respects (V : bytes → Prop) (P : Call → Prop) (Q : Write → Prop)
    {A} (m : M State A) : Prop :=
  ∀ s, captured_ok V s →
    captured_ok V (m s).2
    ∧ (∃ l, calls (m s).2 = calls s ++ l ∧ Forall P l)
    ∧ (∃ l, files (m s).2 = files s ++ l ∧ Forall Q l).

(** A file written by Python holds content that satisfies [V]; a file
    saved by the browser is whatever the browser downloaded. *)
Definition intercepted_or_saved (V : bytes → Prop) (f : Write) : Prop :=
  match f with
  | Written _ content => V content
  | Saved _ _ => True
  end.

(** Calls made once the button has been clicked. *)
Definition after_trigger (c : Call) : Prop :=
  triggers c = false ∧ c ≠ ContextOnPage ∧ c ≠ ContextRoute.

(** Calls of a run that never gets to the click. *)
Definition before_trigger (c : Call) : Prop :=
  triggers c = false ∧ ∀ page, c ≠ PageRoute page.

(** Calls that may come at any point. *)
Definition neutral (c : Call) : Prop := before_trigger c ∧ after_trigger c.

(** The calls up to and including the click, when everything before
    the click went through. *)
Definition armed_then_clicked (page : Page) : list Call :=
  [WaitForSelector page (view_document_button self); ContextPages;
   ContextOnPage; ContextRoute; Evaluate page;
   Click page (view_document_button self)].

(** The calls of a run: either it never got to the click and armed no
    page, or it armed the context, clicked, and went on. *)
Definition shape (page : Page) (l : list Call) : Prop :=
  Forall before_trigger l
  ∨ ∃ rest, l = armed_then_clicked page ++ rest ∧ Forall after_trigger rest.

(** [respects], with [shape] for the calls. *)
Definition staged (V : bytes → Prop) (page : Page) {A} (m : M State A)
    : Prop :=
  ∀ s, captured_ok V s →
    captured_ok V (m s).2
    ∧ (∃ l, calls (m s).2 = calls s ++ l ∧ shape page l)
    ∧ (∃ l, files (m s).2 = files s ++ l
            ∧ Forall (intercepted_or_saved V) l).

Definition no_file (f : Write) : Prop := False.

Definition path_of (f : Write) : string :=
  match f with Written path _ | Saved path _ => path end.

(** [m] writes at [filepath] only, and at least one file when it
    returns normally. *)
Definition writes (filepath : string) {A} (m : M State A) : Prop :=
  ∀ s, ∃ l, files (m s).2 = files s ++ l
            ∧ Forall (λ f, path_of f = filepath) l
            ∧ (is_ok (m s).1 = true → l ≠ []).

(** [m] writes at [filepath] only; when it returns a path, the path is
    [filepath] and a file has been written there: by [m], or before [m]
    when [before] is set. *)
Definition delivers (before : bool) (filepath : string)
    (m : M State (option string)) : Prop :=
  ∀ s, ∃ l, files (m s).2 = files s ++ l
            ∧ Forall (λ f, path_of f = filepath) l
            ∧ ∀ path, (m s).1 = Ok (Some path) →
                      path = filepath ∧ (before = true ∨ l ≠ []).

(** The call that removes what [c] arms. *)
Definition disarms (c : Call) : option Call :=
  match c with
  | ContextOnPage => Some ContextRemoveListener
  | ContextRoute => Some ContextUnroute
  | PageRoute page => Some (PageUnroute page)
  | _ => None
  end.

(** Every call of [l] that arms an observer is followed, later in [l],
    by the call that removes it. *)
Fixpoint settled (l : list Call) : Prop :=
  match l with
  | [] => True
  | c :: l' => (∀ d, disarms c = Some d → d ∈ l') ∧ settled l'
  end.

(** The calls of [m] are [settled]. *)
Definition settles {A} (m : M State A) : Prop :=
  ∀ s, ∃ l, calls (m s).2 = calls s ++ l ∧ settled l.

(** [m] arms nothing, and has called [d] when it returns normally. *)
Definition closes (d : Call) {A} (m : M State A) : Prop :=
  ∀ s, ∃ l, calls (m s).2 = calls s ++ l
            ∧ Forall (λ c, arms c = false) l
            ∧ (is_ok (m s).1 = true → d ∈ l).

End Handler.

(** *** The methods around [click_view_document_and_download] *)

(** What the page answers to the remaining requests.  The body of
    [submit_form_and_get_pdf_url] (an HTTP request and two regular
    expressions inside one [try ... except Exception: return None]) is
    not described: [submit_form] stands for the whole method, which
    returns a URL or [None] and does not raise. *)
Record Forms {Env : Type} : Type := {
  text_content : Page → Env → result (option string) * Env;
  page_go_back : Page → Env → result unit * Env;
  submit_form : json → Env → option string * Env
}.
Arguments Forms : clear implicits.

(** [obj[key]] for a string key: only dicts have such keys. *)
Definition subscript (obj : json) (key : string) : result json :=
  match obj with
  | JDict d =>
      match assoc key d with
      | Some v => Ok v
      | None => Raise (KeyError key)
      end
  | _ => Raise (OtherError "TypeError" "object is not subscriptable")
  end.

(** [pdf_info['page_origin'] + src] if [src.startswith('/')], else
    [src], for a truthy [src]: only a string has [startswith], and only
    a string can be added to one. *)
Definition absolute (pdf_info src : json) : result string :=
  match src with
  | JStr src =>
      if String.prefix "/" src then
        match subscript pdf_info "page_origin" with
        | Ok (JStr page_origin) => Ok (page_origin +:+ src)
        | Ok _ =>
            Raise (OtherError "TypeError" "unsupported operand type(s) for +")
        | Raise e => Raise e
        end
      else Ok src
  | _ => Raise (AttributeError "object has no attribute 'startswith'")
  end.

(** [v[:200]]: strings and lists can be sliced. *)
Definition sliceable (v : json) : result unit :=
  match v with
  | JStr _ | JList _ => Ok ()
  | _ => Raise (OtherError "TypeError" "object is not subscriptable")
  end.

(** [range(n)] *)
Definition range (n : Z) : list Z := Z.of_nat <$> seq 0 (Z.to_nat n).

(** The two dicts [download_document] returns. *)
Definition failed (error : string) : json :=
  JDict [("status", JStr "FAILED"); ("error", JStr error)].

Definition succeeded (case_number doc_number filepath : string) : json :=
  JDict [("status", JStr "SUCCESS");
         ("filename", JStr (filename case_number doc_number));
         ("filepath", JStr filepath)].

Section Workflow.

Context {Env : Type}.
Variable browser : Browser Env.
Variable forms : Forms Env.
Variable self : Self.

Abbreviation State := (State Env).

Definition pure {A} (r : result A) : M State A := λ s, (r, s).

(** A request to the page that leaves no trace in [calls]. *)
Definition ask {A} (f : Env → result A * Env) : M State A :=
  λ s, let '(r, e) := f (env s) in (r, set_env e s).

Definition is_on_document_detail_page : M State bool :=
  try_except
    (let view_doc_selector := view_document_button self in
     let* page := gets current_page in
     call (QuerySelector page view_doc_selector)
       (query_selector browser page view_doc_selector))
    (λ _, ret false).

Definition is_on_error_page : M State bool :=
  try_except
    (let* page := gets current_page in
     let* body_text := ask (text_content forms page) in
     match if_truthy body_text with
     | Some body_text =>
         ret (contains "Incomplete request" body_text
              || contains "Please try your query again" body_text)
     | None => ret false
     end)
    (λ _, ret false).

Definition get_view_document_form_data : M State (option json) :=
  try_except
    (let* page := gets current_page in
     let* form_data := call (Evaluate page) (evaluate browser page) in
     let* success := pure (get form_data "success" JNone) in
     if negb (truthy success) then
       pure (get form_data "error" JNone) ;;
       logger Py.ERROR "Failed to get form data" ;;
       ret None
     else
       pure (subscript form_data "action_url") ;;
       logger INFO "Got View Document form data" ;;
       ret (Some form_data))
    (λ e,
       logger Py.ERROR
         ("Error getting View Document form data: " +:+ str e) ;;
       ret None).

Definition submit_form_and_get_pdf_url (form_info : json)
    : M State (option string) :=
  λ s, let '(pdf_url, e) := submit_form forms form_info (env s) in
       (Ok pdf_url, set_env e s).

(** The legacy click. *)
Definition click_view_document : M State bool :=
  try_except
    (let view_doc_selector := view_document_button self in
     logger INFO "Clicking View Document button..." ;;
     let* page := gets current_page in
     call (WaitForSelector page view_doc_selector)
       (wait_for_selector browser page view_doc_selector) ;;
     call (Click page view_doc_selector)
       (click browser page view_doc_selector) ;;
     call (WaitForLoadState page) (wait_for_load_state browser page) ;;
     sleep (seconds 2) ;;
     logger INFO "View Document clicked" ;;
     ret true)
    (λ e,
       logger Py.ERROR ("Error clicking View Document: " +:+ str e) ;;
       ret false).

(** One round of the loop of [_get_pdf_url]: [Some url] is a [return],
    [None] goes on to the next round.  [retry_delay] is in
    milliseconds. *)
Definition extract_pdf_url (attempt max_retries retry_delay : Z)
    : M State (option string) :=
  try_except
    (logger INFO "Attempting to extract PDF URL..." ;;
     let* page := gets current_page in
     let* current_url := gets (λ s, page_url browser page (env s)) in
     logger INFO ("Current page URL: " +:+ current_url) ;;
     let* pdf_info := call (Evaluate page) (evaluate browser page) in
     pure (get pdf_info "iframe_count" JNone) ;;
     logger DEBUG "PDF extraction info" ;;
     let* iframe_src := pure (get pdf_info "iframe_src" JNone) in
     if truthy iframe_src then
       let* pdf_url := pure (absolute pdf_info iframe_src) in
       logger INFO ("Found PDF URL in iframe: " +:+ pdf_url) ;;
       ret (Some pdf_url)
     else
       let* embed_src := pure (get pdf_info "embed_src" JNone) in
       if truthy embed_src then
         let* pdf_url := pure (absolute pdf_info embed_src) in
         logger INFO ("Found PDF URL in embed: " +:+ pdf_url) ;;
         ret (Some pdf_url)
       else
         let* object_data := pure (get pdf_info "object_data" JNone) in
         if truthy object_data then
           let* pdf_url := pure (absolute pdf_info object_data) in
           logger INFO ("Found PDF URL in object tag: " +:+ pdf_url) ;;
           ret (Some pdf_url)
         else if contains ".pdf" current_url
                 || contains "show_temp.pl" current_url then
           logger INFO ("Current URL appears to be PDF: " +:+ current_url) ;;
           ret (Some current_url)
         else if contains "/doc1/" current_url then
           logger INFO "On /doc1/ page but no iframe found yet, waiting..." ;;
           if attempt <? max_retries - 1 then
             sleep retry_delay ;;
             ret None
           else
             logger INFO
               ("Using current /doc1/ URL as PDF URL: " +:+ current_url) ;;
             ret (Some current_url)
         else if attempt <? max_retries - 1 then
           logger INFO "No PDF URL found, waiting before retry..." ;;
           let* body_preview :=
             pure (get pdf_info "body_preview" (JStr "N/A")) in
           pure (sliceable body_preview) ;;
           logger DEBUG "Page body preview" ;;
           sleep retry_delay ;;
           ret None
         else ret None)
    (λ e,
       logger Py.ERROR ("Error in PDF URL extraction attempt: " +:+ str e) ;;
       (if attempt <? max_retries - 1 then sleep retry_delay else ret ()) ;;
       ret None).

(** [for attempt in range(max_retries)], and what follows the loop. *)
Fixpoint get_pdf_url_rounds (attempts : list Z) (max_retries retry_delay : Z)
    : M State (option string) :=
  match attempts with
  | [] =>
      logger WARNING "Could not find PDF URL in page after all retries" ;;
      ret None
  | attempt :: attempts' =>
      let* found := extract_pdf_url attempt max_retries retry_delay in
      match found with
      | Some pdf_url => ret (Some pdf_url)
      | None => get_pdf_url_rounds attempts' max_retries retry_delay
      end
  end.

Definition _get_pdf_url (max_retries retry_delay : Z)
    : M State (option string) :=
  get_pdf_url_rounds (range max_retries) max_retries retry_delay.

(** [_get_pdf_url()] is called with its defaults, 5 and 2.0 s. *)
Definition download_pdf (case_number doc_number : string)
    : M State (option string) :=
  try_except
    (logger INFO "Extracting PDF URL from current page..." ;;
     let* pdf_url := _get_pdf_url 5 (seconds 2) in
     match if_truthy pdf_url with
     | None =>
         logger Py.ERROR "Could not find PDF URL in page" ;;
         ret None
     | Some pdf_url =>
         logger INFO ("Found PDF URL: " +:+ pdf_url) ;;
         download_pdf_from_url browser self pdf_url case_number doc_number
     end)
    (λ e, logger Py.ERROR ("Error downloading PDF: " +:+ str e) ;;
          ret None).

(** Method 2 of [download_document]: [Some path] is the [return] of a
    success, [None] falls through to the final [return]. *)
Definition form_submission (case_number doc_number : string)
    : M State (option string) :=
  logger INFO "Attempting form submission approach..." ;;
  let* form_info := get_view_document_form_data in
  match form_info with
  | Some form_info =>
      if truthy form_info then
        let* pdf_url := submit_form_and_get_pdf_url form_info in
        match if_truthy pdf_url with
        | Some pdf_url =>
            let* filepath :=
              download_pdf_from_url browser self pdf_url case_number
                doc_number in
            match if_truthy filepath with
            | Some filepath => ret (Some filepath)
            | None =>
                logger WARNING
                  "Form submission got PDF URL but download failed..." ;;
                ret None
            end
        | None =>
            logger WARNING "Form submission failed to get PDF URL..." ;;
            ret None
        end
      else
        logger WARNING "Could not get form data..." ;;
        ret None
  | None =>
      logger WARNING "Could not get form data..." ;;
      ret None
  end.

Definition download_document (case_number doc_number : string)
    (after_click : list (Z * BrowserEvent))
    (while_loading while_settling : list BrowserEvent) : M State json :=
  try_except
    (let* on_error_page := is_on_error_page in
     if (on_error_page : bool) then
       ret (failed "Landed on error page (Incomplete request)")
     else
       let* on_detail_page := is_on_document_detail_page in
       if negb on_detail_page then ret (failed "Not on document detail page")
       else
         logger INFO "Attempting click-and-handle-popup approach..." ;;
         let* filepath :=
           click_view_document_and_download browser self case_number
             doc_number after_click while_loading while_settling in
         match if_truthy filepath with
         | Some filepath =>
             ret (succeeded case_number doc_number filepath)
         | None =>
             logger WARNING
               "Click-and-handle-popup approach failed, trying form submission..." ;;
             let* filepath := form_submission case_number doc_number in
             match filepath with
             | Some filepath =>
                 ret (succeeded case_number doc_number filepath)
             | None =>
                 ret (failed "Failed to download PDF (all methods failed)")
             end
         end)
    (λ e,
       logger Py.ERROR ("Error in download_document: " +:+ str e) ;;
       ret (failed (str e))).

Definition go_back : M State unit :=
  try_except
    (let* page := gets current_page in
     ask (page_go_back forms page) ;;
     call (WaitForLoadState page) (wait_for_load_state browser page))
    (λ e, logger Py.ERROR ("Error going back: " +:+ str e)).

End Workflow.

End DocumentDetailHandler.

(** ** [models/cmecf_job.py] *)

Module CaseNumber.

Record t : Type := {
  case_number : string;
  status : string;
  transcripts_found : Z;
  transcripts_downloaded : Z;
  errors : list string
}.

(** [CaseNumber(case_number=case_number)] *)
Definition new (case_number : string) : t :=
  {| case_number := case_number; status := "pending";
     transcripts_found := 0; transcripts_downloaded := 0; errors := [] |}.

Definition set_status (v : string) (c : t) : t :=
  {| case_number := case_number c; status := v;
     transcripts_found := transcripts_found c;
     transcripts_downloaded := transcripts_downloaded c;
     errors := errors c |}.

Definition set_transcripts_found (v : Z) (c : t) : t :=
  {| case_number := case_number c; status := status c;
     transcripts_found := v;
     transcripts_downloaded := transcripts_downloaded c;
     errors := errors c |}.

Definition set_transcripts_downloaded (v : Z) (c : t) : t :=
  {| case_number := case_number c; status := status c;
     transcripts_found := transcripts_found c;
     transcripts_downloaded := v;
     errors := errors c |}.

(** [errors.append(error)] *)
Definition add_error (error : string) (c : t) : t :=
  {| case_number := case_number c; status := status c;
     transcripts_found := transcripts_found c;
     transcripts_downloaded := transcripts_downloaded c;
     errors := errors c ++ [error] |}.

End CaseNumber.

Module TranscriptMatch.

Record t : Type := {
  doc_number : string;
  filing_date : string;
  docket_text : string;
  has_link : bool
}.

End TranscriptMatch.

Module CMECFDownloadResult.

Record t : Type := {
  status : string;
  case_number : string;
  doc_number : string;
  filename : option string;
  file_path : option string;
  error_message : option string;
  timestamp : Z
}.

End CMECFDownloadResult.

Module CMECFScrapingJob.

Inductive CMECFJobStatus : Type :=
| PENDING | RUNNING | PAUSED | COMPLETED | FAILED | CANCELLED.

Record t : Type := {
  job_id : string;
  status : CMECFJobStatus;
  case_numbers : list string;
  current_case_index : Z;
  cases_processed : Z;
  total_transcripts_found : Z;
  total_transcripts_downloaded : Z;
  case_results : gmap string CaseNumber.t;
  downloads : list CMECFDownloadResult.t;
  errors : list (list (string * json));
  started_at : option Z;
  completed_at : option Z
}.

Definition mark_started (now : Z) (j : t) : t :=
  {| job_id := job_id j; status := RUNNING; case_numbers := case_numbers j;
     current_case_index := current_case_index j;
     cases_processed := cases_processed j;
     total_transcripts_found := total_transcripts_found j;
     total_transcripts_downloaded := total_transcripts_downloaded j;
     case_results := case_results j; downloads := downloads j;
     errors := errors j; started_at := Some now;
     completed_at := completed_at j |}.

Definition mark_completed (now : Z) (j : t) : t :=
  {| job_id := job_id j; status := COMPLETED; case_numbers := case_numbers j;
     current_case_index := current_case_index j;
     cases_processed := cases_processed j;
     total_transcripts_found := total_transcripts_found j;
     total_transcripts_downloaded := total_transcripts_downloaded j;
     case_results := case_results j; downloads := downloads j;
     errors := errors j; started_at := started_at j;
     completed_at := Some now |}.

Definition mark_failed (error : string) (now : Z) (j : t) : t :=
  {| job_id := job_id j; status := FAILED; case_numbers := case_numbers j;
     current_case_index := current_case_index j;
     cases_processed := cases_processed j;
     total_transcripts_found := total_transcripts_found j;
     total_transcripts_downloaded := total_transcripts_downloaded j;
     case_results := case_results j; downloads := downloads j;
     errors := errors j ++ [[("message", JStr error);
                             ("timestamp", JDatetime now)]];
     started_at := started_at j; completed_at := Some now |}.

Definition set_current_case_index (idx : Z) (j : t) : t :=
  {| job_id := job_id j; status := status j; case_numbers := case_numbers j;
     current_case_index := idx;
     cases_processed := cases_processed j;
     total_transcripts_found := total_transcripts_found j;
     total_transcripts_downloaded := total_transcripts_downloaded j;
     case_results := case_results j; downloads := downloads j;
     errors := errors j; started_at := started_at j;
     completed_at := completed_at j |}.

Definition count_case (j : t) : t :=
  {| job_id := job_id j; status := status j; case_numbers := case_numbers j;
     current_case_index := current_case_index j;
     cases_processed := cases_processed j + 1;
     total_transcripts_found := total_transcripts_found j;
     total_transcripts_downloaded := total_transcripts_downloaded j;
     case_results := case_results j; downloads := downloads j;
     errors := errors j; started_at := started_at j;
     completed_at := completed_at j |}.

Definition add_case_result (case_number : string) (result : CaseNumber.t)
    (j : t) : t :=
  {| job_id := job_id j; status := status j; case_numbers := case_numbers j;
     current_case_index := current_case_index j;
     cases_processed := cases_processed j;
     total_transcripts_found :=
       total_transcripts_found j + CaseNumber.transcripts_found result;
     total_transcripts_downloaded :=
       total_transcripts_downloaded j
       + CaseNumber.transcripts_downloaded result;
     case_results := <[case_number := result]> (case_results j);
     downloads := downloads j;
     errors := errors j; started_at := started_at j;
     completed_at := completed_at j |}.

Definition add_download (download : CMECFDownloadResult.t) (j : t) : t :=
  {| job_id := job_id j; status := status j; case_numbers := case_numbers j;
     current_case_index := current_case_index j;
     cases_processed := cases_processed j;
     total_transcripts_found := total_transcripts_found j;
     total_transcripts_downloaded :=
       if String.eqb (CMECFDownloadResult.status download) "SUCCESS"
       then total_transcripts_downloaded j + 1
       else total_transcripts_downloaded j;
     case_results := case_results j;
     downloads := downloads j ++ [download];
     errors := errors j; started_at := started_at j;
     completed_at := completed_at j |}.

Definition add_error (case_number doc_number error : string) (now : Z)
    (j : t) : t :=
  {| job_id := job_id j; status := status j; case_numbers := case_numbers j;
     current_case_index := current_case_index j;
     cases_processed := cases_processed j;
     total_transcripts_found := total_transcripts_found j;
     total_transcripts_downloaded := total_transcripts_downloaded j;
     case_results := case_results j; downloads := downloads j;
     errors := errors j ++ [[("case_number", JStr case_number);
                             ("doc_number", JStr doc_number);
                             ("error", JStr error);
                             ("timestamp", JDatetime now)]];
     started_at := started_at j; completed_at := completed_at j |}.

Definition status_value (s : CMECFJobStatus) : string :=
  match s with
  | PENDING => "pending" | RUNNING => "running" | PAUSED => "paused"
  | COMPLETED => "completed" | FAILED => "failed" | CANCELLED => "cancelled"
  end.

(** Seconds between start and completion (or now). *)
Definition _calculate_duration (now : Z) (j : t) : json :=
  match started_at j, completed_at j with
  | Some t0, Some t1 => JFloat (Qmake (t1 - t0) 1000)
  | Some t0, None => JFloat (Qmake (now - t0) 1000)
  | None, _ => JNone
  end.

Definition get_summary (now : Z) (j : t) : json :=
  JDict [("job_id", JStr (job_id j));
         ("status", JStr (status_value (status j)));
         ("cases_total", JInt (Z.of_nat (length (case_numbers j))));
         ("cases_processed", JInt (cases_processed j));
         ("transcripts_found", JInt (total_transcripts_found j));
         ("transcripts_downloaded", JInt (total_transcripts_downloaded j));
         ("errors_count", JInt (Z.of_nat (length (errors j))));
         ("duration", _calculate_duration now j)].

End CMECFScrapingJob.

(** ** [scraper/cmecf_scraper.py] *)

Module CMECFScraper.

Import StateMachine WebsocketHandler.

(** What [document_handler.download_document] returns: a dict with
    status SUCCESS, filename and filepath, or with status FAILED and an
    error. *)
Inductive Downloaded : Type :=
| SUCCESS (filename filepath : string)
| FAILED (error : string).

(** The page handlers and the browser, as the scraper calls them. *)
Record Site {Env : Type} : Type := {
  browser_initialize : bool → Env → result unit * Env;
  browser_cleanup : Env → Env;
  ensure_logged_in : Env → result bool * Env;
  submit_case_number : string → Env → result bool * Env;
  wait_for_results_page : Env → result bool * Env;
  get_results_page_url : Env → result string * Env;
  find_transcript_entries : Env → result (list TranscriptMatch.t) * Env;
  click_document_number : string → Env → result bool * Env;
  download_document : string → string → Env → result Downloaded * Env;
  go_back_to_results : Env → result unit * Env;
  is_on_results_page : Env → result bool * Env;
  is_on_error_page : Env → result bool * Env;
  page_goto : string → Env → result unit * Env;
  random_uniform : Z → Z → Env → Z * Env
}.
Arguments Site : clear implicits.

(** [config/settings.py] and the [wait_times] of the selectors file, as
    far as the scraper reads them (times in milliseconds). *)
Record Settings : Type := {
  headless_mode : bool;
  cmecf_docket_url : string;
  between_documents_min : Z;
  between_documents_max : Z
}.

Section Scraper.

Context {Env : Type}.
Variable net : Network Env.
Variable site : Site Env.
Variable settings : Settings.

Abbreviation World := (World Env).

Record Self : Type := {
  client_id : string;
  state_machine : StateMachine.t World;
  current_job : option CMECFScrapingJob.t;
  results_page_url : string
}.

Definition State : Type := Self * World.

Definition _on_state_change (client_id : string) : Callback World :=
  λ state previous_state message,
    send_state_change net client_id (value state) message
      (value <$> previous_state).

Definition __init__ (client_id : string) : Self :=
  {| client_id := client_id;
     state_machine :=
       set_state_change_callback StateMachine.__init__
         (_on_state_change client_id);
     current_job := None;
     results_page_url := "" |}.

(** The machine's observer is the one [__init__] installs. *)
Definition wired (self : Self) : Prop :=
  on_state_change (state_machine self)
  = Some (_on_state_change (client_id self)).

Definition set_state_machine (sm : StateMachine.t World) (self : Self) : Self :=
  {| client_id := client_id self; state_machine := sm;
     current_job := current_job self;
     results_page_url := results_page_url self |}.

Definition set_current_job (j : option CMECFScrapingJob.t) (self : Self)
    : Self :=
  {| client_id := client_id self; state_machine := state_machine self;
     current_job := j;
     results_page_url := results_page_url self |}.

Definition set_results_page_url (url : string) (self : Self) : Self :=
  {| client_id := client_id self; state_machine := state_machine self;
     current_job := current_job self;
     results_page_url := url |}.

(** [self.state_machine.transition_to(...)] *)
Definition transition_to (new_state : ScraperState) (message : string)
    : M State unit :=
  λ '(self, w),
    let '(r, (sm, w')) :=
      StateMachine.transition_to clock emit (state_machine self)
        new_state message w in
    (r, (set_state_machine sm self, w')).

(** A call on the connection manager, the logger or the event loop. *)
Definition world {A} (m : M World A) : M State A :=
  zoom snd (λ w s, (s.1, w)) m.

(** A call on a page handler or the browser. *)
Definition on_site {A} (f : Env → result A * Env) : M State A :=
  world (io f).

Definition me : M State string := gets (λ s : State, client_id s.1).

(** A method of [self.current_job], when there is a job. *)
Definition on_job (f : Z → CMECFScrapingJob.t → CMECFScrapingJob.t)
    : M State unit :=
  modify (λ s : State,
            (set_current_job (f (clock s.2) <$> current_job s.1) s.1, s.2)).

Definition _random_delay : M State unit :=
  let min_wait := between_documents_min settings in
  let max_wait := between_documents_max settings in
  let* delay := on_site (λ e, let '(d, e') := random_uniform site min_wait
                                                max_wait e in (Ok d, e')) in
  world (logger DEBUG "Waiting before next document...") ;;
  world (sleep delay).

Definition _navigate_to_case_entry : M State unit :=
  try_except
    (on_site (page_goto site (cmecf_docket_url settings)))
    (λ e,
       world (logger Py.ERROR ("Error navigating to case entry: " +:+ str e)) ;;
       raise e).

Definition _recover_to_results_page (case_number : string) : M State unit :=
  let* me := me in
  world (send_info net me
           ("Re-entering case " +:+ case_number
            +:+ " to return to results...")) ;;
  _navigate_to_case_entry ;;
  world (sleep (seconds 1)) ;;
  let* submitted := on_site (submit_case_number site case_number) in
  if negb submitted then
    raise (RuntimeError ("Recovery failed: could not re-submit case number "
                         +:+ case_number))
  else
    let* loaded := on_site (wait_for_results_page site) in
    if negb loaded then
      raise (RuntimeError ("Recovery failed: results page did not load for "
                           +:+ case_number))
    else
      let* url := on_site (get_results_page_url site) in
      modify (λ s : State, (set_results_page_url url s.1, s.2)) ;;
      world (logger INFO "Recovered to results page").

Definition _navigate_back_to_results (case_number : string) : M State unit :=
  transition_to RETURNING_TO_RESULTS "Returning to results page" ;;
  try_except
    (on_site (go_back_to_results site))
    (λ e, world (logger WARNING ("Go-back failed: " +:+ str e
                                 +:+ ", will try recovery"))) ;;
  world (sleep (seconds 1)) ;;
  let* on_results := on_site (is_on_results_page site) in
  if (on_results : bool) then
    world (logger INFO "Navigated back to results page")
  else
    let* on_error := on_site (is_on_error_page site) in
    (if (on_error : bool) then
       world (logger WARNING
                "Landed on error page after back; re-entering case number to recover")
     else
       world (logger WARNING
                "Not on results page after back; re-entering case number to recover")) ;;
    _recover_to_results_page case_number.

(** [CMECFDownloadResult(...)], stamped with the clock. *)
Definition download_result (status case_number doc_number : string)
    (filename file_path error_message : option string)
    : M State CMECFDownloadResult.t :=
  let* now := gets (λ s : State, clock s.2) in
  ret {| CMECFDownloadResult.status := status;
         CMECFDownloadResult.case_number := case_number;
         CMECFDownloadResult.doc_number := doc_number;
         CMECFDownloadResult.filename := filename;
         CMECFDownloadResult.file_path := file_path;
         CMECFDownloadResult.error_message := error_message;
         CMECFDownloadResult.timestamp := now |}.

Definition process_transcript_entry (case_number : string)
    (entry : TranscriptMatch.t) : M State CMECFDownloadResult.t :=
  let doc_number := TranscriptMatch.doc_number entry in
  try_except
    (if negb (TranscriptMatch.has_link entry) then
       world (logger WARNING ("Document #" +:+ doc_number
                              +:+ " has no clickable link")) ;;
       download_result "NO_LINK" case_number doc_number None None
         (Some "Document has no clickable link")
     else
       transition_to NAVIGATING_TO_DOCUMENT
         ("Opening document #" +:+ doc_number) ;;
       let* clicked := on_site (click_document_number site doc_number) in
       if negb clicked then
         download_result "FAILED" case_number doc_number None None
           (Some "Failed to click document link")
       else
         transition_to DOWNLOADING ("Downloading document #" +:+ doc_number) ;;
         let* result :=
           on_site (download_document site case_number doc_number) in
         match result with
         | SUCCESS filename filepath =>
             let* me := me in
             world (send_event net me
                      (EventDict [("type", JStr "DOWNLOAD_SUCCESS");
                                  ("filename", JStr filename);
                                  ("case_number", JStr case_number);
                                  ("doc_number", JStr doc_number)])) ;;
             world (logger INFO "Download complete, waiting 5 seconds...") ;;
             world (sleep (seconds 5)) ;;
             download_result "SUCCESS" case_number doc_number
               (Some filename) (Some filepath) None
         | FAILED error =>
             download_result "FAILED" case_number doc_number None None
               (Some error)
         end)
    (λ e,
       world (logger Py.ERROR ("Error processing transcript entry: "
                               +:+ str e)) ;;
       download_result "FAILED" case_number doc_number None None
         (Some (str e))).

(** [process_case] works on a local [case_result]; it is carried next
    to the scraper so that what was assigned before a raise is still
    there in the [except] clause. *)
Definition Local : Type := CaseNumber.t * State.

Definition outer {A} (m : M State A) : M Local A :=
  zoom snd (λ s l, (l.1, s)) m.

Definition on_case_result (f : CaseNumber.t → CaseNumber.t) : M Local unit :=
  modify (λ l : Local, (f l.1, l.2)).

(** The body of [for idx, entry in enumerate(transcript_entries)]; the
    assignments to [entry.downloaded], [entry.filename] and
    [entry.error] are left out, the entry not being read again. *)
Definition process_entry (case_number : string) (total : nat)
    (item : nat * TranscriptMatch.t) : M Local unit :=
  let '(idx, entry) := item in
  let doc_number := TranscriptMatch.doc_number entry in
  let* me := outer me in
  outer (world (send_progress net me
                  ("Downloading transcript " +:+ pretty (idx + 1)%nat +:+ "/"
                   +:+ pretty total +:+ " (#" +:+ doc_number +:+ ")")
                  (Some (Z.of_nat idx + 1)) (Some (Z.of_nat total)))) ;;
  let* download_result :=
    outer (process_transcript_entry case_number entry) in
  (if String.eqb (CMECFDownloadResult.status download_result) "SUCCESS" then
     on_case_result
       (λ c, CaseNumber.set_transcripts_downloaded
               (CaseNumber.transcripts_downloaded c + 1) c)
   else
     on_case_result
       (CaseNumber.add_error
          ("Doc #" +:+ doc_number +:+ ": "
           +:+ default "None"
                 (CMECFDownloadResult.error_message download_result)))) ;;
  outer (on_job (λ _, CMECFScrapingJob.add_download download_result)) ;;
  if (Z.of_nat idx <? Z.of_nat total - 1) then
    outer (_navigate_back_to_results case_number) ;;
    outer _random_delay
  else ret ().

(** The [try] block of [process_case]; each [return case_result] ends
    it. *)
Definition process_case_body (case_number : string) : M Local unit :=
  outer (transition_to SEARCHING ("Processing case: " +:+ case_number)) ;;
  let* me := outer me in
  outer (world (send_info net me ("Processing case: " +:+ case_number))) ;;
  let* submitted := outer (on_site (submit_case_number site case_number)) in
  if negb submitted then
    on_case_result (CaseNumber.set_status "failed") ;;
    on_case_result (CaseNumber.add_error "Failed to submit case number")
  else
    let* loaded := outer (on_site (wait_for_results_page site)) in
    if negb loaded then
      on_case_result (CaseNumber.set_status "failed") ;;
      on_case_result (CaseNumber.add_error "Failed to load results page")
    else
      let* url := outer (on_site (get_results_page_url site)) in
      outer (modify (λ s : State, (set_results_page_url url s.1, s.2))) ;;
      outer (world (logger INFO ("Results page URL: " +:+ url))) ;;
      outer (transition_to EXTRACTING_ENTRIES "Finding transcript entries") ;;
      let* transcript_entries :=
        outer (on_site (find_transcript_entries site)) in
      on_case_result
        (CaseNumber.set_transcripts_found
           (Z.of_nat (length transcript_entries))) ;;
      match transcript_entries with
      | [] =>
          outer (world (send_info net me
                          ("No matching transcripts found for case "
                           +:+ case_number))) ;;
          on_case_result (CaseNumber.set_status "completed")
      | _ =>
          outer (world (send_info net me
                          ("Found " +:+ pretty (length transcript_entries)
                           +:+ " transcript(s) for case " +:+ case_number))) ;;
          for_each (enumerate 0 transcript_entries)
            (process_entry case_number (length transcript_entries)) ;;
          on_case_result (CaseNumber.set_status "completed")
      end.

Definition process_case (case_number : string) : M State CaseNumber.t :=
  λ s,
    let '(r, (case_result, s')) :=
      process_case_body case_number (CaseNumber.new case_number, s) in
    match r with
    | Ok _ => (Ok case_result, s')
    | Raise e =>
        (world (logger Py.ERROR ("Error processing case " +:+ case_number
                                 +:+ ": " +:+ str e)) ;;
         ret (CaseNumber.add_error (str e)
                (CaseNumber.set_status "failed" case_result))) s'
    end.

Definition initialize : M State unit :=
  transition_to INITIALIZING "Initializing browser and CMECF scraper" ;;
  try_except
    (on_site (browser_initialize site (headless_mode settings)) ;;
     world (logger INFO "CMECF Scraper initialized successfully"))
    (λ e,
       transition_to ERROR ("Initialization failed: " +:+ str e) ;;
       raise e).

Definition login : M State bool :=
  transition_to LOGGING_IN "Logging into CMECF (PACER)" ;;
  let* me := me in
  try_except
    (let* success := on_site (ensure_logged_in site) in
     (if (success : bool) then
        world (send_info net me "Login successful - on CMECF docket page")
      else
        world (send_error net me "Login failed - please check credentials")) ;;
     ret success)
    (λ e,
       world (logger Py.ERROR ("Login error: " +:+ str e)) ;;
       world (send_error net me ("Login error: " +:+ str e)) ;;
       ret false).

Definition cleanup : M State unit :=
  world (logger INFO "Cleaning up CMECF scraper resources") ;;
  on_site (λ e, (Ok (), browser_cleanup site e)) ;;
  modify (λ s : State,
            (set_state_machine (reset (state_machine s.1)) s.1, s.2)).

(** The body of [for idx, case_number in enumerate(job.case_numbers)]. *)
Definition run_case (total_cases : nat) (item : nat * string)
    : M State unit :=
  let '(idx, case_number) := item in
  on_job (λ _, CMECFScrapingJob.set_current_case_index (Z.of_nat idx)) ;;
  let* me := me in
  world (send_progress net me
           ("Processing case " +:+ pretty (idx + 1)%nat +:+ "/"
            +:+ pretty total_cases +:+ ": " +:+ case_number)
           (Some (Z.of_nat idx + 1)) (Some (Z.of_nat total_cases))) ;;
  (if (0 <? idx)%nat then _navigate_to_case_entry else ret ()) ;;
  let* case_result := process_case case_number in
  on_job (λ _, CMECFScrapingJob.add_case_result case_number case_result) ;;
  on_job (λ _, CMECFScrapingJob.count_case) ;;
  for_each (CaseNumber.errors case_result)
    (λ error,
       on_job (CMECFScrapingJob.add_error case_number "" error)) ;;
  if (Z.of_nat idx <? Z.of_nat total_cases - 1) then _random_delay
  else ret ().

(** [job] and [self.current_job] are one object: the job is kept in
    [current_job] and read back from there at the end. *)
Definition run_scraping_job (job : CMECFScrapingJob.t)
    : M State (option CMECFScrapingJob.t) :=
  modify (λ s : State, (set_current_job (Some job) s.1, s.2)) ;;
  on_job CMECFScrapingJob.mark_started ;;
  try_finally
    (try_except
       (initialize ;;
        let* logged_in := login in
        if negb logged_in then
          on_job (CMECFScrapingJob.mark_failed "Login failed") ;;
          gets (λ s : State, current_job s.1)
        else
          let total_cases := length (CMECFScrapingJob.case_numbers job) in
          for_each (enumerate 0 (CMECFScrapingJob.case_numbers job))
            (run_case total_cases) ;;
          transition_to COMPLETED "CMECF scraping completed" ;;
          on_job CMECFScrapingJob.mark_completed ;;
          let* me := me in
          let* summary :=
            gets (λ s : State,
                    default JNone
                      (CMECFScrapingJob.get_summary (clock s.2)
                         <$> current_job s.1)) in
          world (send_complete net me "Scraping complete!" summary) ;;
          gets (λ s : State, current_job s.1))
       (λ e,
          world (logger Py.ERROR ("CMECF scraping job failed: " +:+ str e)) ;;
          on_job (CMECFScrapingJob.mark_failed (str e)) ;;
          let* me := me in
          world (send_error net me ("Scraping job failed: " +:+ str e)) ;;
          gets (λ s : State, current_job s.1)))
    cleanup.

(** What a case leaves alone in the job: everything but the downloads
    and their count. *)
Definition job_frame (j j' : CMECFScrapingJob.t) : Prop :=
  CMECFScrapingJob.status j' = CMECFScrapingJob.status j
  ∧ CMECFScrapingJob.case_numbers j' = CMECFScrapingJob.case_numbers j
  ∧ CMECFScrapingJob.cases_processed j' = CMECFScrapingJob.cases_processed j
  ∧ CMECFScrapingJob.case_results j' = CMECFScrapingJob.case_results j.

(** What a case leaves alone in the scraper: its identity, the observer
    of its state machine, and the job up to [job_frame]. *)
Definition frame (s s' : State) : Prop :=
  client_id s'.1 = client_id s.1
  ∧ on_state_change (state_machine s'.1) = on_state_change (state_machine s.1)
  ∧ match current_job s.1, current_job s'.1 with
    | Some j, Some j' => job_frame j j'
    | None, None => True
    | _, _ => False
    end.

(** [m], acting on a state that holds the scraper at [proj], keeps the
    frame. *)
Definition frames {S A} (proj : S → State) (m : M S A) : Prop :=
  ∀ s, frame (proj s) (proj (m s).2).

(** [m] returns normally and keeps the frame. *)
Definition calm {A} (m : M State A) : Prop :=
  ∀ s, ∃ a s', m s = (Ok a, s') ∧ frame s s'.

(** The docket page can always be opened. *)
Definition docket_opens : Prop :=
  ∀ e, (page_goto site (cmecf_docket_url settings) e).1 = Ok ().

(** The browser starts, and the login goes through. *)
Definition browser_starts : Prop :=
  ∀ headless e, (browser_initialize site headless e).1 = Ok ().

Definition login_succeeds : Prop :=
  ∀ e, (ensure_logged_in site e).1 = Ok true.

(** The job is running, [n] cases have been counted and the cases of
    [seen] have a result. *)
Definition progress (n : Z) (seen : list string) (s : State) : Prop :=
  wired s.1
  ∧ ∃ j, current_job s.1 = Some j
         ∧ CMECFScrapingJob.status j = CMECFScrapingJob.RUNNING
         ∧ CMECFScrapingJob.cases_processed j = n
         ∧ ∀ c, c ∈ seen → is_Some (CMECFScrapingJob.case_results j !! c).

(** The downloads recorded with status SUCCESS. *)
Definition successes (downloads : list CMECFDownloadResult.t) : Z :=
  Z.of_nat
    (length (filter (λ d, CMECFDownloadResult.status d = "SUCCESS")
               downloads)).

(** Nothing of the scraper changed but its state machine's state and
    history, the stored URL and the world. *)
Definition same_job (s s' : State) : Prop :=
  client_id s'.1 = client_id s.1
  ∧ current_job s'.1 = current_job s.1
  ∧ on_state_change (state_machine s'.1) = on_state_change (state_machine s.1).

(** The same, for [process_case] with its local [case_result]. *)
Definition same_case (l l' : Local) : Prop :=
  l'.1 = l.1 ∧ same_job l.2 l'.2.

(** The same, but for the job, which has had [ds] added to its
    downloads, in this order. *)
Definition downloads_added (ds : list CMECFDownloadResult.t) (s s' : State)
    : Prop :=
  client_id s'.1 = client_id s.1
  ∧ current_job s'.1
    = (λ j, foldl (λ j d, CMECFScrapingJob.add_download d j) j ds)
        <$> current_job s.1
  ∧ on_state_change (state_machine s'.1) = on_state_change (state_machine s.1).

(** What [n] more cases, those of [seen], do to a job: it keeps its
    status and its case numbers, counts [n] more cases and has a result
    for each of them, and its count of downloaded transcripts has grown
    by twice the number of successful downloads added. *)
Definition job_advances (n : Z) (seen : list string)
    (j j' : CMECFScrapingJob.t) : Prop :=
  CMECFScrapingJob.status j' = CMECFScrapingJob.status j
  ∧ CMECFScrapingJob.case_numbers j' = CMECFScrapingJob.case_numbers j
  ∧ CMECFScrapingJob.started_at j' = CMECFScrapingJob.started_at j
  ∧ CMECFScrapingJob.total_transcripts_downloaded j'
    - 2 * successes (CMECFScrapingJob.downloads j')
    = CMECFScrapingJob.total_transcripts_downloaded j
      - 2 * successes (CMECFScrapingJob.downloads j)
  ∧ CMECFScrapingJob.cases_processed j'
    = CMECFScrapingJob.cases_processed j + n
  ∧ (∀ c, c ∈ seen ∨ is_Some (CMECFScrapingJob.case_results j !! c) →
          is_Some (CMECFScrapingJob.case_results j' !! c)).

(** The same, for the scraper that holds the job. *)
Definition advances (n : Z) (seen : list string) (s s' : State) : Prop :=
  client_id s'.1 = client_id s.1
  ∧ on_state_change (state_machine s'.1) = on_state_change (state_machine s.1)
  ∧ ∀ j, current_job s.1 = Some j →
         ∃ j', current_job s'.1 = Some j' ∧ job_advances n seen j j'.

End Scraper.

Arguments Self : clear implicits.
Arguments State : clear implicits.
Arguments Local : clear implicits.
Arguments successes : simpl never.

End CMECFScraper.

(** ** [models/scraping_job.py] *)

Module DocumentResult.

Record t : Type := {
  title : string;
  url : string;
  docket_number : option string;
  court : option string;
  date_filed : option string;
  processed : bool;
  transcripts_found : Z;
  transcripts_downloaded : Z
}.

Definition set_transcripts_found (v : Z) (d : t) : t :=
  {| title := title d; url := url d; docket_number := docket_number d;
     court := court d; date_filed := date_filed d; processed := processed d;
     transcripts_found := v;
     transcripts_downloaded := transcripts_downloaded d |}.

Definition set_transcripts_downloaded (v : Z) (d : t) : t :=
  {| title := title d; url := url d; docket_number := docket_number d;
     court := court d; date_filed := date_filed d; processed := processed d;
     transcripts_found := transcripts_found d;
     transcripts_downloaded := v |}.

Definition set_processed (v : bool) (d : t) : t :=
  {| title := title d; url := url d; docket_number := docket_number d;
     court := court d; date_filed := date_filed d; processed := v;
     transcripts_found := transcripts_found d;
     transcripts_downloaded := transcripts_downloaded d |}.

End DocumentResult.

Module TranscriptEntry.

Record t : Type := {
  entry_num : string;
  filed_date : string;
  description : string;
  has_download : bool;
  matched_pattern : option string;
  downloaded : bool;
  filename : option string;
  file_path : option string;
  download_timestamp : option Z
}.

End TranscriptEntry.

Module DownloadResult.

Record t : Type := {
  status : string;
  entry_num : string;
  filename : option string;
  file_path : option string;
  error_message : option string;
  timestamp : Z
}.

End DownloadResult.

Module ScrapingJob.

Inductive JobStatus : Type :=
| PENDING | RUNNING | PAUSED | COMPLETED | FAILED | CANCELLED.

Inductive SelectionMode : Type := MANUAL | AUTOMATED.

Inductive DownloadMode : Type := ALL_DOWNLOADABLE | PATTERN_MATCHES_ONLY.

Record SearchCriteria : Type := {
  keywords : string;
  court_name : string;
  judge_name : string;
  content_type : string;
  date_from : option string;
  date_to : option string
}.

Record t : Type := {
  job_id : string;
  status : JobStatus;
  search_criteria : SearchCriteria;
  num_documents : option Z;
  num_pages : option Z;
  selection_mode : SelectionMode;
  document_range_start : Z;
  document_range_end : option Z;
  download_mode : DownloadMode;
  total_results : Z;
  documents_processed : Z;
  transcripts_downloaded : Z;
  documents : list DocumentResult.t;
  downloads : list DownloadResult.t;
  created_at : Z;
  started_at : option Z;
  completed_at : option Z;
  errors : list string
}.

(** The fields the methods assign. *)
Definition update (status' : JobStatus) (total_results' : Z)
    (documents_processed' transcripts_downloaded' : Z)
    (documents' : list DocumentResult.t) (downloads' : list DownloadResult.t)
    (started_at' completed_at' : option Z) (errors' : list string) (j : t)
    : t :=
  {| job_id := job_id j; status := status';
     search_criteria := search_criteria j;
     num_documents := num_documents j; num_pages := num_pages j;
     selection_mode := selection_mode j;
     document_range_start := document_range_start j;
     document_range_end := document_range_end j;
     download_mode := download_mode j;
     total_results := total_results';
     documents_processed := documents_processed';
     transcripts_downloaded := transcripts_downloaded';
     documents := documents'; downloads := downloads';
     created_at := created_at j;
     started_at := started_at'; completed_at := completed_at';
     errors := errors' |}.

Definition mark_started (now : Z) (j : t) : t :=
  update RUNNING (total_results j) (documents_processed j)
    (transcripts_downloaded j) (documents j) (downloads j) (Some now)
    (completed_at j) (errors j) j.

Definition mark_completed (now : Z) (j : t) : t :=
  update COMPLETED (total_results j) (documents_processed j)
    (transcripts_downloaded j) (documents j) (downloads j) (started_at j)
    (Some now) (errors j) j.

Definition mark_failed (error : string) (now : Z) (j : t) : t :=
  update FAILED (total_results j) (documents_processed j)
    (transcripts_downloaded j) (documents j) (downloads j) (started_at j)
    (Some now) (errors j ++ [error]) j.

Definition add_document (document : DocumentResult.t) (j : t) : t :=
  update (status j) (Z.of_nat (length (documents j ++ [document])))
    (documents_processed j) (transcripts_downloaded j)
    (documents j ++ [document]) (downloads j) (started_at j)
    (completed_at j) (errors j) j.

Definition add_download (download : DownloadResult.t) (j : t) : t :=
  update (status j) (total_results j) (documents_processed j)
    (if String.eqb (DownloadResult.status download) "SUCCESS"
     then transcripts_downloaded j + 1 else transcripts_downloaded j)
    (documents j) (downloads j ++ [download]) (started_at j)
    (completed_at j) (errors j) j.

(** [job.documents_processed += 1] *)
Definition count_document (j : t) : t :=
  update (status j) (total_results j) (documents_processed j + 1)
    (transcripts_downloaded j) (documents j) (downloads j) (started_at j)
    (completed_at j) (errors j) j.

(** [job.transcripts_downloaded += n] *)
Definition count_transcripts (n : Z) (j : t) : t :=
  update (status j) (total_results j) (documents_processed j)
    (transcripts_downloaded j + n) (documents j) (downloads j) (started_at j)
    (completed_at j) (errors j) j.

Definition status_value (s : JobStatus) : string :=
  match s with
  | PENDING => "pending" | RUNNING => "running" | PAUSED => "paused"
  | COMPLETED => "completed" | FAILED => "failed" | CANCELLED => "cancelled"
  end.

(** Seconds between start and completion (or now). *)
Definition _calculate_duration (now : Z) (j : t) : json :=
  match started_at j, completed_at j with
  | Some t0, Some t1 => JFloat (Qmake (t1 - t0) 1000)
  | Some t0, None => JFloat (Qmake (now - t0) 1000)
  | None, _ => JNone
  end.

Definition get_summary (now : Z) (j : t) : json :=
  JDict [("job_id", JStr (job_id j));
         ("status", JStr (status_value (status j)));
         ("total_results", JInt (total_results j));
         ("documents_processed", JInt (documents_processed j));
         ("transcripts_downloaded", JInt (transcripts_downloaded j));
         ("errors", JInt (Z.of_nat (length (errors j))));
         ("duration", _calculate_duration now j)].

End ScrapingJob.

(** ** [scraper/bloomberg_scraper.py]: the job *)

Module BloombergJob.

Import StateMachine WebsocketHandler.

(** What [Page1Handler.get_court_options] returns: a dict with these
    three keys. *)
Record CourtOptions : Type := {
  exact_matches : list string;
  fuzzy_matches : list string;
  all_options : list string
}.

Definition as_dict (o : CourtOptions) : gmap string (list string) :=
  <["exact_matches" := exact_matches o]>
    (<["fuzzy_matches" := fuzzy_matches o]>
       (<["all_options" := all_options o]> ∅)).

(** What the [try] block of [Page3Handler.download_transcript] ends in:
    every way out of it is a [return DownloadResult(...)]. *)
Inductive Attempt : Type :=
| Saved (filename file_path : string)
| Failed (error_message : string).

(** The browser and the page handlers, as the scraper and the two page
    methods described here ([Page1Handler.perform_search],
    [Page3Handler.download_multiple_transcripts]) call them.  What these
    methods log themselves is not recorded. *)
Record Pages {Env : Type} : Type := {
  browser_initialize : bool → Env → result unit * Env;
  browser_cleanup : Env → Env;
  page1_login : Env → result bool * Env;
  select_content_type : string → Env → result unit * Env;
  open_advanced_search : Env → result unit * Env;
  fill_keywords : string → Env → result unit * Env;
  get_court_options : string → Env → result CourtOptions * Env;
  select_court : json → Env → result unit * Env;
  fill_judge : string → Env → result unit * Env;
  click_search : Env → result unit * Env;
  wait_for_results : Env → result unit * Env;
  get_result_links : Env → result (list DocumentResult.t) * Env;
  navigate_to_document : DocumentResult.t → Env → result unit * Env;
  go_back_to_results : Env → result unit * Env;
  wait_for_docket_entries : Env → result unit * Env;
  find_downloadable_entries : Env → result (list TranscriptEntry.t) * Env;
  get_transcript_entries_for_selection :
    Env → result (list TranscriptOption.t) * Env;
  download_attempt : TranscriptEntry.t → string → Env → Attempt * Env;
  wait_for_timeout : Z → Env → result unit * Env
}.
Arguments Pages : clear implicits.

(** [l[i]] for an [int] index. *)
Definition item {A} (l : list A) (i : Z) : result A :=
  let n := Z.of_nat (length l) in
  let i' := if i <? 0 then i + n else i in
  if (0 <=? i') && (i' <? n) then
    match l !! Z.to_nat i' with
    | Some x => Ok x
    | None => Raise (IndexError "list index out of range")
    end
  else Raise (IndexError "list index out of range").

(** One round of [[entries[i] for i in selected_indices if i <
    len(entries)]]: the entry to add, or none.  A [bool] is an [int];
    a [float] can be compared but not used as an index; nothing else
    can be compared with an [int]. *)
Definition pick_one {A} (entries : list A) (i : json) : result (list A) :=
  let n := Z.of_nat (length entries) in
  let at_index z :=
    if z <? n then
      match item entries z with
      | Ok x => Ok [x]
      | Raise e => Raise e
      end
    else Ok [] in
  match i with
  | JInt z => at_index z
  | JBool b => at_index (if b then 1 else 0)
  | JFloat q =>
      if Qle_bool (inject_Z n) q then Ok []
      else Raise (OtherError "TypeError"
                    "list indices must be integers or slices, not float")
  | _ => Raise (OtherError "TypeError"
                  "'<' not supported between instances")
  end.

Fixpoint pick {A} (entries : list A) (indices : list json)
    : result (list A) :=
  match indices with
  | [] => Ok []
  | i :: indices' =>
      match pick_one entries i with
      | Ok picked =>
          match pick entries indices' with
          | Ok more => Ok (picked ++ more)
          | Raise e => Raise e
          end
      | Raise e => Raise e
      end
  end.

(** The comprehension over whatever [selected_indices] is: a list is
    gone through; a string or a dict yields strings, which cannot be
    compared with an [int]; nothing else can be iterated. *)
Definition select {A} (entries : list A) (selected_indices : json)
    : result (list A) :=
  match selected_indices with
  | JList indices => pick entries indices
  | JStr s =>
      if String.eqb s "" then Ok []
      else Raise (OtherError "TypeError"
                    "'<' not supported between instances")
  | JDict d =>
      match d with
      | [] => Ok []
      | _ => Raise (OtherError "TypeError"
                      "'<' not supported between instances")
      end
  | _ => Raise (OtherError "TypeError" "object is not iterable")
  end.

(** [all_results[start_idx:end_idx]] of [process_documents_automated],
    with the [end_idx] it computes. *)
Definition end_idx (job : ScrapingJob.t) (all_results : list DocumentResult.t)
    : Z :=
  match ScrapingJob.document_range_end job with
  | Some e => if e =? 0 then Z.of_nat (length all_results) else e
  | None => Z.of_nat (length all_results)
  end.

Definition documents_to_process (job : ScrapingJob.t)
    (all_results : list DocumentResult.t) : list DocumentResult.t :=
  let start_idx := ScrapingJob.document_range_start job - 1 in
  slice all_results start_idx (end_idx job all_results).

(** [len([d for d in downloads if d.status == "SUCCESS"])] *)
Definition successful (downloads : list DownloadResult.t) : Z :=
  Z.of_nat
    (length (filter (λ d, DownloadResult.status d = "SUCCESS") downloads)).

(** [[e for e in entries if e.matched_pattern]] *)
Definition matching (entries : list TranscriptEntry.t)
    : list TranscriptEntry.t :=
  filter (λ e, is_Some (if_truthy (TranscriptEntry.matched_pattern e)))
    entries.

Section Scraper.

Context {Env : Type}.
Variable net : Network Env.
Variable pages : Pages Env.
Variable headless_mode : bool.

Abbreviation World := (World Env).

(** The scraper object: the part of it that [BloombergScraper.Self]
    holds, whether the three page handlers are set (by [initialize]),
    the download directory given to the third, and the job object that
    [run_scraping_job] is given and [current_job] is set to. *)
Record Self : Type := {
  scraper : BloombergScraper.Self Env;
  pages_ready : bool;
  downloads_dir : option string;
  job : ScrapingJob.t
}.

Definition State : Type := Self * World.

Definition set_scraper (sc : BloombergScraper.Self Env) (self : Self)
    : Self :=
  {| scraper := sc; pages_ready := pages_ready self;
     downloads_dir := downloads_dir self; job := job self |}.

Definition set_pages (downloads_dir : option string) (self : Self) : Self :=
  {| scraper := scraper self; pages_ready := true;
     downloads_dir := downloads_dir; job := job self |}.

Definition set_job (j : ScrapingJob.t) (self : Self) : Self :=
  {| scraper := scraper self; pages_ready := pages_ready self;
     downloads_dir := downloads_dir self; job := j |}.

(** A method described in [BloombergScraper]. *)
Definition inner {A} (m : M (BloombergScraper.State Env) A) : M State A :=
  λ '(self, w),
    let '(r, (sc, w')) := m (scraper self, w) in
    (r, (set_scraper sc self, w')).

Definition transition_to (new_state : ScraperState) (message : string)
    : M State unit :=
  inner (BloombergScraper.transition_to new_state message).

(** A call on the connection manager or the logger. *)
Definition world {A} (m : M World A) : M State A :=
  zoom snd (λ w s, (s.1, w)) m.

Definition pure {A} (r : result A) : M State A := λ s, (r, s).

(** A call on [self.page1], [self.page2] or [self.page3], which are
    [None] until [initialize] has set them. *)
Definition on_page {A} (f : Env → result A * Env) : M State A :=
  λ s, if pages_ready s.1 then world (io f) s
       else raise (AttributeError
                     "'NoneType' object has no attribute") s.

(** A call made by a page handler. *)
Definition on_site {A} (f : Env → result A * Env) : M State A :=
  world (io f).

Definition me : M State string :=
  gets (λ s : State, BloombergScraper.client_id (scraper s.1)).

(** A method of the job object. *)
Definition on_job (f : Z → ScrapingJob.t → ScrapingJob.t) : M State unit :=
  modify (λ s : State, (set_job (f (clock s.2) (job s.1)) s.1, s.2)).

(** [str(Path(downloads_base_dir) / "BLOOMBERG")] *)
Definition bloomberg_downloads (downloads_base_dir : option string)
    : option string :=
  match if_truthy downloads_base_dir with
  | Some d => Some (d +:+ "/BLOOMBERG")
  | None => None
  end.

Definition initialize (downloads_base_dir : option string) : M State unit :=
  transition_to INITIALIZING "Initializing browser and scraper" ;;
  try_except
    (on_site (browser_initialize pages headless_mode) ;;
     modify (λ s : State,
               (set_pages (bloomberg_downloads downloads_base_dir) s.1,
                s.2)) ;;
     world (logger INFO "Scraper initialized successfully"))
    (λ e,
       transition_to ERROR ("Initialization failed: " +:+ str e) ;;
       raise e).

Definition login : M State bool :=
  transition_to LOGGING_IN "Logging into Bloomberg Law" ;;
  try_except
    (let* success := on_page (page1_login pages) in
     let* me := me in
     (if (success : bool) then
        world (send_info net me "✓ Login successful")
      else
        world (send_error net me "Login failed - please check credentials")) ;;
     ret success)
    (λ e,
       world (logger Py.ERROR ("Login error: " +:+ str e)) ;;
       let* me := me in
       world (send_error net me ("Login error: " +:+ str e)) ;;
       ret false).

(** [Page1Handler.perform_search], called with the scraper's
    [_handle_court_selection] as its callback; [script] is what arrives
    while that waits. *)
Definition page1_perform_search (keywords court_name judge_name : string)
    (script : list Arrival) : M State bool :=
  try_except
    (on_site (select_content_type pages "Court Dockets") ;;
     on_site (open_advanced_search pages) ;;
     on_site (fill_keywords pages keywords) ;;
     let* court_options := on_site (get_court_options pages court_name) in
     match all_options court_options with
     | [] => raise (ValueError ("No courts found matching: " +:+ court_name))
     | _ =>
         let* selected_court :=
           match exact_matches court_options with
           | [court] => ret (JStr court)
           | _ =>
               inner (BloombergScraper._handle_court_selection net court_name
                        (as_dict court_options) script)
           end in
         on_site (select_court pages selected_court) ;;
         on_site (fill_judge pages judge_name) ;;
         on_site (click_search pages) ;;
         ret true
     end)
    (λ e, raise e).

Definition perform_search (search_criteria : ScrapingJob.SearchCriteria)
    (script : list Arrival) : M State bool :=
  transition_to SEARCHING "Performing search" ;;
  try_except
    (let* ready := gets (λ s : State, pages_ready s.1) in
     let* success :=
       if (ready : bool) then
         page1_perform_search (ScrapingJob.keywords search_criteria)
           (ScrapingJob.court_name search_criteria)
           (ScrapingJob.judge_name search_criteria) script
       else raise (AttributeError "'NoneType' object has no attribute") in
     (if (success : bool) then
        let* me := me in
        world (send_info net me "✓ Search completed successfully")
      else ret ()) ;;
     ret success)
    (λ e,
       world (logger Py.ERROR ("Search error: " +:+ str e)) ;;
       let* me := me in
       world (send_error net me ("Search error: " +:+ str e)) ;;
       ret false).

(** [results[:num_documents]] if [num_documents] is neither [None] nor
    [0]. *)
Definition limited (num_documents : option Z)
    (results : list DocumentResult.t) : list DocumentResult.t :=
  match num_documents with
  | Some n => if n =? 0 then results else slice_to results n
  | None => results
  end.

Definition process_documents (num_documents : option Z)
    : M State (list DocumentResult.t) :=
  transition_to PROCESSING_RESULTS "Processing search results" ;;
  on_page (wait_for_results pages) ;;
  let* results := on_page (get_result_links pages) in
  let results := limited num_documents results in
  let* me := me in
  world (send_info net me
           ("Found " +:+ pretty (length results)
            +:+ " documents to process")) ;;
  ret results.

(** [DownloadResult(...)], stamped with the clock. *)
Definition download_result (status entry_num : string)
    (filename file_path error_message : option string)
    : M State DownloadResult.t :=
  let* now := gets (λ s : State, clock s.2) in
  ret {| DownloadResult.status := status;
         DownloadResult.entry_num := entry_num;
         DownloadResult.filename := filename;
         DownloadResult.file_path := file_path;
         DownloadResult.error_message := error_message;
         DownloadResult.timestamp := now |}.

(** [Page3Handler.download_transcript]: it does not raise. *)
Definition download_transcript (entry : TranscriptEntry.t)
    (document_title : string) : M State DownloadResult.t :=
  let entry_num := TranscriptEntry.entry_num entry in
  if negb (TranscriptEntry.has_download entry) then
    download_result "NO_DOWNLOAD" entry_num None None
      (Some "No download button available")
  else
    let* attempt :=
      on_site (λ e, let '(a, e') := download_attempt pages entry
                                      document_title e in (Ok a, e')) in
    match attempt with
    | Saved filename file_path =>
        download_result "SUCCESS" entry_num (Some filename) (Some file_path)
          None
    | Failed error_message =>
        download_result "FAILED" entry_num None None (Some error_message)
    end.

(** The scraper's [progress_callback]. *)
Definition progress_callback (current total : Z) (entry_num : string)
    : M State unit :=
  let* me := me in
  world (send_progress net me
           ("Downloading entry " +:+ entry_num +:+ " (" +:+ pretty current
            +:+ "/" +:+ pretty total +:+ ")")
           (Some current) (Some total)).

(** The loop of [Page3Handler.download_multiple_transcripts];
    [on_progress] tells whether the callback was passed. *)
Fixpoint download_each (on_progress : bool) (document_title : string)
    (total : nat) (entries : list (nat * TranscriptEntry.t))
    : M State (list DownloadResult.t) :=
  match entries with
  | [] => ret []
  | (idx, entry) :: entries' =>
      (if on_progress then
         progress_callback (Z.of_nat idx) (Z.of_nat total)
           (TranscriptEntry.entry_num entry)
       else ret ()) ;;
      let* result := download_transcript entry document_title in
      on_site (wait_for_timeout pages 1000) ;;
      let* results :=
        download_each on_progress document_title total entries' in
      ret (result :: results)
  end.

Definition download_multiple_transcripts (entries : list TranscriptEntry.t)
    (document_title : string) (on_progress : bool)
    : M State (list DownloadResult.t) :=
  let* ready := gets (λ s : State, pages_ready s.1) in
  if (ready : bool) then
    download_each on_progress document_title (length entries)
      (enumerate 1 entries)
  else raise (AttributeError "'NoneType' object has no attribute").

(** The loop that tells the operator of each download that went
    through. *)
Definition notify (download : DownloadResult.t) : M State unit :=
  if String.eqb (DownloadResult.status download) "SUCCESS" then
    let* me := me in
    world (send_event net me
             (EventDict [("type", JStr "DOWNLOAD_SUCCESS");
                         ("filename",
                          opt_str (DownloadResult.filename download));
                         ("entry_num",
                          JStr (DownloadResult.entry_num download))]))
  else ret ().

(** What the operator's answer chooses: [None] for "skip", else the
    entries to download. *)
Definition entries_to_download (transcript_entries : list TranscriptEntry.t)
    (action selected_indices : json)
    : result (option (list TranscriptEntry.t)) :=
  if is_str action "skip" then Ok None
  else if is_str action "download_all" || negb (truthy selected_indices) then
    Ok (Some transcript_entries)
  else
    match select transcript_entries selected_indices with
    | Ok entries => Ok (Some entries)
    | Raise e => Raise e
    end.

Definition _handle_transcript_download (document : DocumentResult.t)
    (transcript_entries : list TranscriptEntry.t)
    (document_index total_documents : Z) (script : list Arrival)
    : M State (list DownloadResult.t) :=
  transition_to AWAITING_TRANSCRIPT_SELECTION
    "Waiting for transcript selection" ;;
  let* formatted_entries :=
    on_page (get_transcript_entries_for_selection pages) in
  let* me := me in
  world (send_transcript_options net me (DocumentResult.title document)
           formatted_entries document_index total_documents) ;;
  let* response :=
    world (wait_for_user_response net me (seconds 300) script) in
  let* answer :=
    if negb (truthy response) then
      world (logger WARNING
               "Transcript selection timeout, downloading all") ;;
      ret (JStr "download_all", JNone)
    else
      let* data := pure (get response "data" (JDict [])) in
      let* action := pure (get data "action" (JStr "download_all")) in
      let* data := pure (get response "data" (JDict [])) in
      let* selected_indices := pure (get data "selected_indices" JNone) in
      ret (action, selected_indices) in
  let* chosen :=
    pure (entries_to_download transcript_entries answer.1 answer.2) in
  match chosen with
  | None => ret []
  | Some entries =>
      transition_to DOWNLOADING
        ("Downloading " +:+ pretty (length entries) +:+ " transcripts") ;;
      let* downloads :=
        download_multiple_transcripts entries (DocumentResult.title document)
          true in
      for_each downloads notify ;;
      ret downloads
  end.

(** [process_single_document] and the loop of
    [process_documents_automated] assign to the document they work on;
    it is carried next to the scraper so that what was assigned before a
    raise is still there in the [except] clause. *)
Definition Local : Type := DocumentResult.t * State.

Definition outer {A} (m : M State A) : M Local A :=
  zoom snd (λ s l, (l.1, s)) m.

Definition on_document (f : DocumentResult.t → DocumentResult.t)
    : M Local unit :=
  modify (λ l : Local, (f l.1, l.2)).

Definition the_document : M Local DocumentResult.t :=
  gets (λ l : Local, l.1).

(** The [try] block of [process_single_document]; each
    [return document] ends it. *)
Definition process_single_document_body (document_index total_documents : Z)
    (script : list Arrival) : M Local unit :=
  outer (transition_to NAVIGATING_TO_DOCUMENT
           ("Opening document " +:+ pretty document_index)) ;;
  let* document := the_document in
  outer (on_page (navigate_to_document pages document)) ;;
  outer (transition_to EXTRACTING_ENTRIES "Extracting docket entries") ;;
  outer (on_page (wait_for_docket_entries pages)) ;;
  let* downloadable_entries :=
    outer (on_page (find_downloadable_entries pages)) in
  on_document (DocumentResult.set_transcripts_found
                 (Z.of_nat (length downloadable_entries))) ;;
  let* me := outer me in
  match downloadable_entries with
  | [] =>
      outer (world (send_warning net me
                      ("No downloadable entries found in document "
                       +:+ pretty document_index))) ;;
      outer (on_page (go_back_to_results pages))
  | _ =>
      outer (world (send_info net me
                      ("Found " +:+ pretty (length downloadable_entries)
                       +:+ " downloadable entries ("
                       +:+ pretty (length (matching downloadable_entries))
                       +:+ " match patterns)"))) ;;
      let* document := the_document in
      let* downloads :=
        outer (_handle_transcript_download document downloadable_entries
                 document_index total_documents script) in
      on_document (DocumentResult.set_transcripts_downloaded
                     (successful downloads)) ;;
      on_document (DocumentResult.set_processed true) ;;
      outer (transition_to RETURNING_TO_RESULTS "Returning to results page") ;;
      outer (on_page (go_back_to_results pages))
  end.

(** The [except] clause of both loops' bodies. *)
Definition document_failed (log_line : string) (document_index : Z)
    (e : exn) : M State unit :=
  world (logger Py.ERROR (log_line +:+ str e)) ;;
  let* me := me in
  world (send_error net me
           ("Error processing document " +:+ pretty document_index +:+ ": "
            +:+ str e)) ;;
  try_except (on_page (go_back_to_results pages)) (λ _, ret ()).

Definition process_single_document (document : DocumentResult.t)
    (document_index total_documents : Z) (script : list Arrival)
    : M State DocumentResult.t :=
  let* me := me in
  world (send_progress net me
           ("Processing document " +:+ pretty document_index +:+ "/"
            +:+ pretty total_documents)
           (Some document_index) (Some total_documents)) ;;
  λ s,
    let '(r, (document, s')) :=
      process_single_document_body document_index total_documents script
        (document, s) in
    match r with
    | Ok _ => (Ok document, s')
    | Raise e =>
        (document_failed "Error processing document: " document_index e ;;
         ret document) s'
    end.

(** The [try] block of the loop of [process_documents_automated]. *)
Definition process_automated_body (idx end_idx : Z) : M Local unit :=
  let* me := outer me in
  outer (world (send_progress net me
                  ("Processing document " +:+ pretty idx +:+ "/"
                   +:+ pretty end_idx)
                  (Some idx) (Some end_idx))) ;;
  outer (transition_to NAVIGATING_TO_DOCUMENT
           ("Opening document " +:+ pretty idx)) ;;
  let* doc := the_document in
  outer (on_page (navigate_to_document pages doc)) ;;
  outer (transition_to EXTRACTING_ENTRIES "Extracting docket entries") ;;
  outer (on_page (wait_for_docket_entries pages)) ;;
  let* downloadable_entries :=
    outer (on_page (find_downloadable_entries pages)) in
  let* download_mode :=
    outer (gets (λ s : State, ScrapingJob.download_mode (job s.1))) in
  let* entries_to_download :=
    match download_mode with
    | ScrapingJob.PATTERN_MATCHES_ONLY =>
        let entries_to_download := matching downloadable_entries in
        outer (world (send_info net me
                        ("Found " +:+ pretty (length entries_to_download)
                         +:+ " entries matching patterns (out of "
                         +:+ pretty (length downloadable_entries)
                         +:+ " downloadable)"))) ;;
        ret entries_to_download
    | ScrapingJob.ALL_DOWNLOADABLE =>
        outer (world (send_info net me
                        ("Downloading all "
                         +:+ pretty (length downloadable_entries)
                         +:+ " downloadable entries"))) ;;
        ret downloadable_entries
    end in
  on_document (DocumentResult.set_transcripts_found
                 (Z.of_nat (length downloadable_entries))) ;;
  match entries_to_download with
  | [] => ret ()
  | _ =>
      outer (transition_to DOWNLOADING
               ("Downloading " +:+ pretty (length entries_to_download)
                +:+ " entries")) ;;
      let* doc := the_document in
      let* downloads :=
        outer (download_multiple_transcripts entries_to_download
                 (DocumentResult.title doc) false) in
      on_document (DocumentResult.set_transcripts_downloaded
                     (successful downloads)) ;;
      outer (for_each downloads notify) ;;
      let* doc := the_document in
      outer (on_job (λ _, ScrapingJob.count_transcripts
                            (DocumentResult.transcripts_downloaded doc))) ;;
      outer (on_job (λ _, ScrapingJob.add_document doc))
  end ;;
  outer (transition_to RETURNING_TO_RESULTS "Returning to results page") ;;
  outer (on_page (go_back_to_results pages)) ;;
  outer (on_job (λ _, ScrapingJob.count_document)).

(** One round of that loop; the document is returned as the round left
    it. *)
Definition process_automated (end_idx : Z) (item : Z * DocumentResult.t)
    : M State DocumentResult.t :=
  λ s,
    let '(idx, doc) := item in
    let '(r, (doc, s')) := process_automated_body idx end_idx (doc, s) in
    match r with
    | Ok _ => (Ok doc, s')
    | Raise e =>
        (document_failed
           ("Error processing document " +:+ pretty idx +:+ ": ") idx e ;;
         ret doc) s'
    end.

(** [for x in l], collecting what the rounds return. *)
Fixpoint for_all {S A B} (l : list A) (body : A → M S B) : M S (list B) :=
  match l with
  | [] => ret []
  | x :: l' =>
      let* y := body x in
      let* ys := for_all l' body in
      ret (y :: ys)
  end.

(** [enumerate(l, start)] for an [int] start. *)
Fixpoint enumerate_from {A} (start : Z) (l : list A) : list (Z * A) :=
  match l with
  | [] => []
  | x :: l' => (start, x) :: enumerate_from (start + 1) l'
  end.

Definition process_documents_automated : M State (list DocumentResult.t) :=
  transition_to PROCESSING_RESULTS "Processing search results" ;;
  on_page (wait_for_results pages) ;;
  let* all_results := on_page (get_result_links pages) in
  let* job := gets (λ s : State, job s.1) in
  let end_idx := end_idx job all_results in
  let documents_to_process := documents_to_process job all_results in
  let* me := me in
  world (send_info net me
           ("Processing " +:+ pretty (length documents_to_process)
            +:+ " documents (#"
            +:+ pretty (ScrapingJob.document_range_start job)
            +:+ " to #" +:+ pretty end_idx +:+ ")")) ;;
  for_all
    (enumerate_from (ScrapingJob.document_range_start job)
       documents_to_process)
    (process_automated end_idx).

Definition cleanup : M State unit :=
  world (logger INFO "Cleaning up scraper resources") ;;
  on_site (λ e, (Ok (), browser_cleanup pages e)) ;;
  modify (λ s : State,
            (set_scraper
               {| BloombergScraper.client_id :=
                    BloombergScraper.client_id (scraper s.1);
                  BloombergScraper.state_machine :=
                    reset (BloombergScraper.state_machine (scraper s.1)) |}
               s.1, s.2)).

(** The body of [for idx, doc in enumerate(documents, 1)] in manual
    mode; [scripts idx] is what arrives while document [idx] waits for
    the operator. *)
Definition run_document (total : nat) (scripts : Z → list Arrival)
    (item : Z * DocumentResult.t) : M State unit :=
  let '(idx, doc) := item in
  let* processed_doc :=
    process_single_document doc idx (Z.of_nat total) (scripts idx) in
  on_job (λ _, ScrapingJob.add_document processed_doc) ;;
  on_job (λ _, ScrapingJob.count_document).

Definition show_range_end (document_range_end : option Z) : string :=
  match document_range_end with
  | Some e => if e =? 0 then "all" else pretty e
  | None => "all"
  end.

Definition the_job : M State ScrapingJob.t := gets (λ s : State, job s.1).

(** [court_script] is what arrives while the court selection waits.
    [job.search_criteria], [job.selection_mode] and [job.num_documents],
    which nothing assigns, are read from the argument. *)
Definition run_scraping_job (job : ScrapingJob.t)
    (downloads_base_dir : option string) (court_script : list Arrival)
    (scripts : Z → list Arrival) : M State ScrapingJob.t :=
  modify (λ s : State, (set_job job s.1, s.2)) ;;
  on_job ScrapingJob.mark_started ;;
  try_finally
    (try_except
       (initialize downloads_base_dir ;;
        let* logged_in := login in
        if negb logged_in then
          on_job (ScrapingJob.mark_failed "Login failed") ;;
          the_job
        else
          let* found :=
            perform_search (ScrapingJob.search_criteria job) court_script in
          if negb found then
            on_job (ScrapingJob.mark_failed "Search failed") ;;
            the_job
          else
            match ScrapingJob.selection_mode job with
            | ScrapingJob.AUTOMATED =>
                let* me := me in
                world (send_info net me
                         ("Automated mode: Processing documents "
                          +:+ pretty (ScrapingJob.document_range_start job)
                          +:+ "-"
                          +:+ show_range_end
                                (ScrapingJob.document_range_end job))) ;;
                process_documents_automated ;;
                ret ()
            | ScrapingJob.MANUAL =>
                let* documents :=
                  process_documents (ScrapingJob.num_documents job) in
                for_each (enumerate_from 1 documents)
                  (run_document (length documents) scripts)
            end ;;
            transition_to COMPLETED "Scraping completed successfully" ;;
            on_job ScrapingJob.mark_completed ;;
            let* me := me in
            let* job := the_job in
            let* now := gets (λ s : State, clock s.2) in
            world (send_complete net me
                     ("✓ Scraping complete! Downloaded "
                      +:+ pretty (ScrapingJob.transcripts_downloaded job)
                      +:+ " transcripts from "
                      +:+ pretty (ScrapingJob.documents_processed job)
                      +:+ " documents")
                     (ScrapingJob.get_summary now job)) ;;
            the_job)
       (λ e,
          world (logger Py.ERROR ("Scraping job failed: " +:+ str e)) ;;
          on_job (ScrapingJob.mark_failed (str e)) ;;
          let* me := me in
          world (send_error net me ("Scraping job failed: " +:+ str e)) ;;
          the_job))
    cleanup.

(** [download] is what an attempt at [entry] may give: it names the
    entry, it is a success only if the entry can be downloaded, and for
    an entry that cannot it says so. *)
Definition answers (entry : TranscriptEntry.t) (download : DownloadResult.t)
    : Prop :=
  DownloadResult.entry_num download = TranscriptEntry.entry_num entry
  ∧ (DownloadResult.status download = "SUCCESS" →
     TranscriptEntry.has_download entry = true)
  ∧ (TranscriptEntry.has_download entry = false →
     DownloadResult.status download = "NO_DOWNLOAD").

(** The scraper that [BloombergScraper] describes kept its client and
    its machine's observer. *)
Definition same_scraper (s s' : BloombergScraper.State Env) : Prop :=
  BloombergScraper.client_id s'.1 = BloombergScraper.client_id s.1
  ∧ on_state_change (BloombergScraper.state_machine s'.1)
    = on_state_change (BloombergScraper.state_machine s.1).

(** Nothing of the scraper changed but its state machine's state and
    history. *)
Definition same_job (s s' : State) : Prop :=
  BloombergScraper.client_id (scraper s'.1)
  = BloombergScraper.client_id (scraper s.1)
  ∧ on_state_change (BloombergScraper.state_machine (scraper s'.1))
    = on_state_change (BloombergScraper.state_machine (scraper s.1))
  ∧ pages_ready s'.1 = pages_ready s.1
  ∧ downloads_dir s'.1 = downloads_dir s.1
  ∧ job s'.1 = job s.1.

(** What is left of a document whatever is assigned to it. *)
Definition same_identity (d d' : DocumentResult.t) : Prop :=
  DocumentResult.title d' = DocumentResult.title d
  ∧ DocumentResult.url d' = DocumentResult.url d
  ∧ DocumentResult.docket_number d' = DocumentResult.docket_number d
  ∧ DocumentResult.court d' = DocumentResult.court d
  ∧ DocumentResult.date_filed d' = DocumentResult.date_filed d.

(** The same, for a loop body with its local document. *)
Definition same_document (l l' : Local) : Prop :=
  same_identity l.1 l'.1 ∧ same_job l.2 l'.2.

(** The fields of a job that the scraper leaves alone: what the job was
    created with, and its list of downloads. *)
Definition fixed (j j' : ScrapingJob.t) : Prop :=
  ScrapingJob.job_id j' = ScrapingJob.job_id j
  ∧ ScrapingJob.search_criteria j' = ScrapingJob.search_criteria j
  ∧ ScrapingJob.num_documents j' = ScrapingJob.num_documents j
  ∧ ScrapingJob.num_pages j' = ScrapingJob.num_pages j
  ∧ ScrapingJob.selection_mode j' = ScrapingJob.selection_mode j
  ∧ ScrapingJob.document_range_start j' = ScrapingJob.document_range_start j
  ∧ ScrapingJob.document_range_end j' = ScrapingJob.document_range_end j
  ∧ ScrapingJob.download_mode j' = ScrapingJob.download_mode j
  ∧ ScrapingJob.created_at j' = ScrapingJob.created_at j
  ∧ ScrapingJob.downloads j' = ScrapingJob.downloads j.

(** [added] has been appended to the job's documents, and
    [total_results] has followed. *)
Definition extended (added : list DocumentResult.t) (j j' : ScrapingJob.t)
    : Prop :=
  ScrapingJob.documents j' = ScrapingJob.documents j ++ added
  ∧ ScrapingJob.total_results j'
    = match added with
      | [] => ScrapingJob.total_results j
      | _ => Z.of_nat (length (ScrapingJob.documents j'))
      end.

(** A document that had something to download, and no more downloads
    than entries found. *)
Definition tallied (d : DocumentResult.t) : Prop :=
  0 < DocumentResult.transcripts_found d
  ∧ 0 ≤ DocumentResult.transcripts_downloaded d
      ≤ DocumentResult.transcripts_found d.

Definition sum_downloaded (l : list DocumentResult.t) : Z :=
  foldr (λ d acc, DocumentResult.transcripts_downloaded d + acc) 0 l.

(** How a job's counters move with the documents added, in each mode. *)
Definition bookkeeping (mode : ScrapingJob.SelectionMode)
    (j j' : ScrapingJob.t) : Prop :=
  fixed j j'
  ∧ ScrapingJob.started_at j' = ScrapingJob.started_at j
  ∧ ∃ added,
      extended added j j'
      ∧ match mode with
        | ScrapingJob.MANUAL =>
            ScrapingJob.documents_processed j'
            = ScrapingJob.documents_processed j + Z.of_nat (length added)
            ∧ ScrapingJob.transcripts_downloaded j'
              = ScrapingJob.transcripts_downloaded j
        | ScrapingJob.AUTOMATED =>
            ScrapingJob.documents_processed j
            ≤ ScrapingJob.documents_processed j'
            ∧ ScrapingJob.transcripts_downloaded j'
              = ScrapingJob.transcripts_downloaded j + sum_downloaded added
            ∧ Forall tallied added
        end.

(** The same, for the scraper that holds the job. *)
Definition keeps (mode : ScrapingJob.SelectionMode) (s s' : State) : Prop :=
  BloombergScraper.client_id (scraper s'.1)
  = BloombergScraper.client_id (scraper s.1)
  ∧ on_state_change (BloombergScraper.state_machine (scraper s'.1))
    = on_state_change (BloombergScraper.state_machine (scraper s.1))
  ∧ bookkeeping mode (job s.1) (job s'.1).

(** The job has ended: it is completed or failed, stamped, and failed
    only with an error. *)
Definition ended (j : ScrapingJob.t) : Prop :=
  (ScrapingJob.status j = ScrapingJob.COMPLETED
   ∨ ScrapingJob.status j = ScrapingJob.FAILED
     ∧ ScrapingJob.errors j ≠ [])
  ∧ is_Some (ScrapingJob.completed_at j).

End Scraper.

Arguments Self : clear implicits.
Arguments State : clear implicits.
Arguments Local : clear implicits.

End BloombergJob.

(** ** File names ([backend/utils/helpers.py]) *)

Module Helpers.

(** A [str] is the sequence of its code points. *)
Definition str : Type := list N.

Definition space : N := 32%N.
Definition underscore : N := 95%N.

(** The characters that the first substitution removes: [<], [>], [:],
    the double quote, [/], the backslash, [|], [?] and the star. *)
Definition invalid : list N := [60; 62; 58; 34; 47; 92; 124; 63; 42]%N.

(** [s.replace(' ', '_')] *)
Definition replace_spaces (s : str) : str :=
  (λ c, if (c =? space)%N then underscore else c) <$> s.

(** [re.sub(r'_+', '_', s)]: of every run of underscores one is left. *)
Fixpoint squeeze (s : str) : str :=
  match s with
  | [] => []
  | c :: rest =>
      match rest with
      | c' :: _ =>
          if (c =? underscore)%N && (c' =? underscore)%N then squeeze rest
          else c :: squeeze rest
      | [] => [c]
      end
  end.

(** [s.lstrip('_')] and [s.rstrip('_')]; [s.strip('_')] is both. *)
Fixpoint lstrip (s : str) : str :=
  match s with
  | [] => []
  | c :: rest => if (c =? underscore)%N then lstrip rest else s
  end.

Fixpoint rstrip (s : str) : str :=
  match s with
  | [] => []
  | c :: rest =>
      match rstrip rest with
      | [] => if (c =? underscore)%N then [] else [c]
      | kept => c :: kept
      end
  end.

Definition strip (s : str) : str := rstrip (lstrip s).

Definition sanitize_filename (filename : str) (max_length : Z) : str :=
  let sanitized := filter (λ c, c ∉ invalid) filename in
  let sanitized := replace_spaces sanitized in
  let sanitized := squeeze sanitized in
  let sanitized :=
    if (max_length <? Z.of_nat (length sanitized))%Z
    then Py.slice_to sanitized max_length
    else sanitized in
  strip sanitized.

(** No underscore is followed by another. *)
Fixpoint squeezed (s : str) : Prop :=
  match s with
  | [] => True
  | c :: rest =>
      match rest with
      | c' :: _ => ¬ (c = underscore ∧ c' = underscore) ∧ squeezed rest
      | [] => True
      end
  end.

End Helpers.

(** ** Concrete scenarios

    Small environments and inputs on which the definitions above are run
    in the second part. *)

Module Scenarios.

Import StateMachine WebsocketHandler.

(** An observer that fails, acting on a world that is just a list of
    log lines. *)
Definition failing_observer : Callback (list string) :=
  λ _ _ _ w, (Raise (RuntimeError "notification failed"), w).

Definition observed_machine : StateMachine.t (list string) :=
  set_state_change_callback StateMachine.__init__ failing_observer.

(** A peer that accepts and receives everything. *)
Definition quiet {Env : Type} : Network Env :=
  {| accept := λ _ e, (Ok (), e);
     send_json := λ _ _ e, (Ok (), e);
     isoformat := λ _, "1970-01-01T00:00:00" |}.

(** A process in which session-1 is connected and nothing else has
    happened. *)
Definition connected_world : World unit :=
  {| env := (); clock := 0; logs := [];
     futures := ∅; next_future := 0;
     manager := {| active_connections := {["session-1" := 7%nat]};
                   pending_responses := ∅ |} |}.

(** The same process once a workflow has registered its wait: future 0
    is pending under session-1. *)
Definition waiting_world : World unit :=
  {| env := (); clock := 0; logs := [];
     futures := {[0%nat := Pending]}; next_future := 1;
     manager := {| active_connections := {["session-1" := 7%nat]};
                   pending_responses := {["session-1" := 0%nat]} |} |}.

(** The operator's connection drops one second into the wait. *)
Definition drops_after_1s : list Arrival :=
  [{| at_time := seconds 1; socket := 7%nat; sender := "session-1";
      received := Disconnected |}].

(** Scenario B: the query "Nevada" matches two courts, and all the
    operator's browser sends during the wait is a heartbeat. *)
Definition nevada_options : gmap string (list string) :=
  {[ "all_options" := ["District of Nevada"; "Nevada Supreme Court"];
     "exact_matches" := [];
     "fuzzy_matches" := ["District of Nevada"; "Nevada Supreme Court"] ]}.

Definition only_a_ping : list Arrival :=
  [{| at_time := seconds 30; socket := 7%nat; sender := "session-1";
      received := Message (JDict [("type", JStr "ping")]) |}].

(** Forty seconds into the wait the operator picks the second court. *)
Definition court_answer_fields : list (string * json) :=
  [("type", JStr "user_response");
   ("data",
    JDict [("action", JStr "select_court");
           ("data", JDict [("selected_court",
                            JStr "Nevada Supreme Court")])])].

Definition court_answer : Arrival :=
  {| at_time := seconds 40; socket := 7%nat; sender := "session-1";
     received := Message (JDict court_answer_fields) |}.

(** A browser in which every call goes through, the viewer never
    yields a download, and the server answers a direct fetch with one
    hundred letters A. *)
Definition hundred_letters : DocumentDetailHandler.bytes :=
  replicate 100 "A"%byte.

Definition cooperative : DocumentDetailHandler.Browser unit :=
  {| DocumentDetailHandler.wait_for_selector := λ _ _ e, (Ok (), e);
     DocumentDetailHandler.context_route := λ e, (Ok (), e);
     DocumentDetailHandler.context_unroute := λ e, (Ok (), e);
     DocumentDetailHandler.context_pages := λ e, (Ok [1%nat], e);
     DocumentDetailHandler.evaluate := λ _ e, (Ok JNone, e);
     DocumentDetailHandler.click := λ _ _ e, (Ok (), e);
     DocumentDetailHandler.page_route := λ _ e, (Ok (), e);
     DocumentDetailHandler.page_unroute := λ _ e, (Ok (), e);
     DocumentDetailHandler.wait_for_load_state := λ _ e, (Ok (), e);
     DocumentDetailHandler.page_url :=
       λ _ _, "https://ecf.example.gov/cgi-bin/DktRpt.pl";
     DocumentDetailHandler.route_fulfill := λ _ e, (Ok (), e);
     DocumentDetailHandler.route_continue := λ e, (Ok (), e);
     DocumentDetailHandler.expect_download_keyboard :=
       λ _ e, (Raise TimeoutError, e);
     DocumentDetailHandler.query_selector := λ _ _ e, (Ok false, e);
     DocumentDetailHandler.expect_download_button :=
       λ _ _ e, (Raise TimeoutError, e);
     DocumentDetailHandler.save_as := λ _ e, (Ok (), e);
     DocumentDetailHandler.context_cookies := λ e, (Ok [], e);
     DocumentDetailHandler.session_get :=
       λ _ _ e, (Ok {| DocumentDetailHandler.status := 200;
                       DocumentDetailHandler.body := hundred_letters |}, e)
  |}.

Definition pacer_handler : DocumentDetailHandler.Self :=
  {| DocumentDetailHandler.downloads_dir := "downloads/PACER";
     DocumentDetailHandler.view_document_button :=
       "input[type='submit'][value='View Document']" |}.

(** The handler on page 1, the document detail page; nothing written
    and nothing called yet. *)
Definition at_document_page : DocumentDetailHandler.State unit :=
  {| DocumentDetailHandler.env := ();
     DocumentDetailHandler.clock := 0;
     DocumentDetailHandler.logs := [];
     DocumentDetailHandler.files := [];
     DocumentDetailHandler.calls := [];
     DocumentDetailHandler.current_page := 1%nat;
     DocumentDetailHandler.captured_pdf_content := None;
     DocumentDetailHandler.pdf_captured_event := false;
     DocumentDetailHandler.captured_new_page := None;
     DocumentDetailHandler.new_page_event := false |}.

(** Half a second after the click a popup (page 2) opens. *)
Definition popup_opens : list (Z * DocumentDetailHandler.BrowserEvent) :=
  [(500, DocumentDetailHandler.PageOpened 2%nat)].

(** 200 ms after the click the single-use URL is requested and answers
    with the four magic bytes only. *)
Definition tiny_pdf_arrives : list (Z * DocumentDetailHandler.BrowserEvent) :=
  [(200, DocumentDetailHandler.Requested 1%nat
           "https://ecf.example.gov/cgi-bin/show_temp.pl?file=117-42.pdf"
           (Ok {| DocumentDetailHandler.status := 200;
                  DocumentDetailHandler.body :=
                    DocumentDetailHandler.PDF_MAGIC |}))].

(** The site of the recovery scenario.  The environment counts the
    submissions of a case number: the first goes through, the second
    (the re-submission of the recovery) fails, the later ones go
    through.  Going back never reaches the results page. *)
Definition two_documents : list TranscriptMatch.t :=
  [{| TranscriptMatch.doc_number := "12";
      TranscriptMatch.filing_date := "01/15/2024";
      TranscriptMatch.docket_text := "Transcript of hearing";
      TranscriptMatch.has_link := true |};
   {| TranscriptMatch.doc_number := "15";
      TranscriptMatch.filing_date := "02/02/2024";
      TranscriptMatch.docket_text := "Transcript of trial";
      TranscriptMatch.has_link := true |}].

Definition flaky_site : CMECFScraper.Site nat :=
  {| CMECFScraper.browser_initialize := λ _ n, (Ok (), n);
     CMECFScraper.browser_cleanup := λ n, n;
     CMECFScraper.ensure_logged_in := λ n, (Ok true, n);
     CMECFScraper.submit_case_number :=
       λ _ n, (Ok (negb (n =? 1)%nat), S n);
     CMECFScraper.wait_for_results_page := λ n, (Ok true, n);
     CMECFScraper.get_results_page_url :=
       λ n, (Ok "https://ecf.example.gov/cgi-bin/DktRpt.pl?117", n);
     CMECFScraper.find_transcript_entries := λ n, (Ok two_documents, n);
     CMECFScraper.click_document_number := λ _ n, (Ok true, n);
     CMECFScraper.download_document :=
       λ c d n, (Ok (CMECFScraper.SUCCESS (c +:+ "_" +:+ d +:+ ".pdf")
                       ("downloads/PACER/" +:+ c +:+ "_" +:+ d +:+ ".pdf")),
                 n);
     CMECFScraper.go_back_to_results := λ n, (Ok (), n);
     CMECFScraper.is_on_results_page := λ n, (Ok false, n);
     CMECFScraper.is_on_error_page := λ n, (Ok true, n);
     CMECFScraper.page_goto := λ _ n, (Ok (), n);
     CMECFScraper.random_uniform := λ lo _ n, (lo, n) |}.

Definition pacer_settings : CMECFScraper.Settings :=
  {| CMECFScraper.headless_mode := false;
     CMECFScraper.cmecf_docket_url :=
       "https://ecf.example.gov/cgi-bin/DktRpt.pl";
     CMECFScraper.between_documents_min := 5000;
     CMECFScraper.between_documents_max := 10000 |}.

Definition flaky_world : World nat :=
  {| env := 0%nat; clock := 0; logs := [];
     futures := ∅; next_future := 0;
     manager := {| active_connections := {["session-1" := 7%nat]};
                   pending_responses := ∅ |} |}.

Definition two_cases : CMECFScrapingJob.t :=
  {| CMECFScrapingJob.job_id := "job-1";
     CMECFScrapingJob.status := CMECFScrapingJob.PENDING;
     CMECFScrapingJob.case_numbers := ["2:23-cv-00117"; "2:23-cv-00118"];
     CMECFScrapingJob.current_case_index := 0;
     CMECFScrapingJob.cases_processed := 0;
     CMECFScrapingJob.total_transcripts_found := 0;
     CMECFScrapingJob.total_transcripts_downloaded := 0;
     CMECFScrapingJob.case_results := ∅;
     CMECFScrapingJob.downloads := [];
     CMECFScrapingJob.errors := [];
     CMECFScrapingJob.started_at := None;
     CMECFScrapingJob.completed_at := None |}.

(** A site that lets nobody in: the browser starts and every page
    answers, but the login is refused. *)
Definition closed_site : BloombergJob.Pages unit :=
  {| BloombergJob.browser_initialize := λ _ e, (Ok (), e);
     BloombergJob.browser_cleanup := λ e, e;
     BloombergJob.page1_login := λ e, (Ok false, e);
     BloombergJob.select_content_type := λ _ e, (Ok (), e);
     BloombergJob.open_advanced_search := λ e, (Ok (), e);
     BloombergJob.fill_keywords := λ _ e, (Ok (), e);
     BloombergJob.get_court_options :=
       λ _ e, (Ok {| BloombergJob.exact_matches := [];
                     BloombergJob.fuzzy_matches := [];
                     BloombergJob.all_options := [] |}, e);
     BloombergJob.select_court := λ _ e, (Ok (), e);
     BloombergJob.fill_judge := λ _ e, (Ok (), e);
     BloombergJob.click_search := λ e, (Ok (), e);
     BloombergJob.wait_for_results := λ e, (Ok (), e);
     BloombergJob.get_result_links := λ e, (Ok [], e);
     BloombergJob.navigate_to_document := λ _ e, (Ok (), e);
     BloombergJob.go_back_to_results := λ e, (Ok (), e);
     BloombergJob.wait_for_docket_entries := λ e, (Ok (), e);
     BloombergJob.find_downloadable_entries := λ e, (Ok [], e);
     BloombergJob.get_transcript_entries_for_selection := λ e, (Ok [], e);
     BloombergJob.download_attempt :=
       λ _ _ e, (BloombergJob.Failed "Timeout", e);
     BloombergJob.wait_for_timeout := λ _ e, (Ok (), e) |}.

(** A job as the API creates it, for the first five results. *)
Definition manual_job : ScrapingJob.t :=
  {| ScrapingJob.job_id := "job_20240101120000_1a2b3c4d";
     ScrapingJob.status := ScrapingJob.PENDING;
     ScrapingJob.search_criteria :=
       {| ScrapingJob.keywords := "transcript";
          ScrapingJob.court_name := "Nevada";
          ScrapingJob.judge_name := "";
          ScrapingJob.content_type := "Court Dockets";
          ScrapingJob.date_from := None;
          ScrapingJob.date_to := None |};
     ScrapingJob.num_documents := Some 5;
     ScrapingJob.num_pages := None;
     ScrapingJob.selection_mode := ScrapingJob.MANUAL;
     ScrapingJob.document_range_start := 1;
     ScrapingJob.document_range_end := None;
     ScrapingJob.download_mode := ScrapingJob.ALL_DOWNLOADABLE;
     ScrapingJob.total_results := 0;
     ScrapingJob.documents_processed := 0;
     ScrapingJob.transcripts_downloaded := 0;
     ScrapingJob.documents := [];
     ScrapingJob.downloads := [];
     ScrapingJob.created_at := 0;
     ScrapingJob.started_at := None;
     ScrapingJob.completed_at := None;
     ScrapingJob.errors := [] |}.

(** The same search in automated mode, for results 2 to 4. *)
Definition automated_job : ScrapingJob.t :=
  {| ScrapingJob.job_id := "job_20240101120500_5e6f7a8b";
     ScrapingJob.status := ScrapingJob.PENDING;
     ScrapingJob.search_criteria := ScrapingJob.search_criteria manual_job;
     ScrapingJob.num_documents := None;
     ScrapingJob.num_pages := None;
     ScrapingJob.selection_mode := ScrapingJob.AUTOMATED;
     ScrapingJob.document_range_start := 2;
     ScrapingJob.document_range_end := Some 4;
     ScrapingJob.download_mode := ScrapingJob.PATTERN_MATCHES_ONLY;
     ScrapingJob.total_results := 0;
     ScrapingJob.documents_processed := 0;
     ScrapingJob.transcripts_downloaded := 0;
     ScrapingJob.documents := [];
     ScrapingJob.downloads := [];
     ScrapingJob.created_at := 300;
     ScrapingJob.started_at := None;
     ScrapingJob.completed_at := None;
     ScrapingJob.errors := [] |}.

(** A scraper for session-1 that has run nothing yet, in the process
    where session-1 is connected. *)
Definition idle_scraper : BloombergJob.State unit :=
  ({| BloombergJob.scraper := BloombergScraper.__init__ quiet "session-1";
      BloombergJob.pages_ready := false;
      BloombergJob.downloads_dir := None;
      BloombergJob.job := manual_job |},
   connected_world).

End Scenarios.

(** * Properties *)

(** ** Reasoning about methods *)

Module PyProps.

Section Monad.

Context {S : Type}.

Lemma wp_ret {A} (a : A) (s : S) Φ : Φ (Ok a) s → wp (ret a) s Φ.
Proof. done. Qed.

Lemma wp_raise {A} e (s : S) (Φ : result A → S → Prop) :
  Φ (Raise e) s → wp (raise e) s Φ.
Proof. done. Qed.

Lemma wp_gets {A} (f : S → A) (s : S) Φ : Φ (Ok (f s)) s → wp (gets f) s Φ.
Proof. done. Qed.

Lemma wp_modify (f : S → S) (s : S) Φ : Φ (Ok ()) (f s) → wp (modify f) s Φ.
Proof. done. Qed.

Lemma wp_bind {A B} (m : M S A) (k : A → M S B) (s : S) Φ :
  wp m s (λ r s1, match r with
                  | Ok a => wp (k a) s1 Φ
                  | Raise e => Φ (Raise e) s1
                  end) →
  wp (bind m k) s Φ.
Proof. unfold wp, bind. by destruct (m s) as [[a|e] s1]. Qed.

Lemma wp_try_except {A} (m : M S A) (h : exn → M S A) (s : S) Φ :
  wp m s (λ r s1, match r with
                  | Ok a => Φ (Ok a) s1
                  | Raise e => wp (h e) s1 Φ
                  end) →
  wp (try_except m h) s Φ.
Proof. unfold wp, try_except. by destruct (m s) as [[a|e] s1]. Qed.

Lemma wp_try_finally {A} (m : M S A) (cleanup : M S unit) (s : S) Φ :
  wp m s (λ r s1, wp cleanup s1 (λ r' s2, match r' with
                                          | Ok _ => Φ r s2
                                          | Raise e => Φ (Raise e) s2
                                          end)) →
  wp (try_finally m cleanup) s Φ.
Proof.
  unfold wp, try_finally. destruct (m s) as [r s1]. simpl.
  by destruct (cleanup s1) as [[[]|e] s2].
Qed.

Lemma wp_mono {A} (m : M S A) (s : S) (Φ Ψ : result A → S → Prop) :
  wp m s Φ → (∀ r s', Φ r s' → Ψ r s') → wp m s Ψ.
Proof. unfold wp. auto. Qed.

Lemma wp_preserves {A} (R : S → S → Prop) (m : M S A) (s : S) Φ :
  preserves R m → (∀ r s', R s s' → Φ r s') → wp m s Φ.
Proof. unfold wp. auto. Qed.

Section Preserves.

Variable R : S → S → Prop.
Context `{!PreOrder R}.

Lemma preserves_ret {A} (a : A) : preserves R (ret a).
Proof. intros s. done. Qed.

Lemma preserves_raise {A} e : preserves R (raise (A := A) e).
Proof. intros s. done. Qed.

Lemma preserves_gets {A} (f : S → A) : preserves R (gets f).
Proof. intros s. done. Qed.

Lemma preserves_bind {A B} (m : M S A) (k : A → M S B) :
  preserves R m → (∀ a, preserves R (k a)) → preserves R (bind m k).
Proof.
  intros Hm Hk s. unfold bind. specialize (Hm s).
  destruct (m s) as [[a|e] s1]; simpl in *; [|done].
  etrans; [done|]. apply Hk.
Qed.

Lemma preserves_try_except {A} (m : M S A) (h : exn → M S A) :
  preserves R m → (∀ e, preserves R (h e)) → preserves R (try_except m h).
Proof.
  intros Hm Hh s. unfold try_except. specialize (Hm s).
  destruct (m s) as [[a|e] s1]; simpl in *; [done|].
  etrans; [done|]. apply Hh.
Qed.

Lemma preserves_for_each {A} (l : list A) (body : A → M S unit) :
  (∀ a, preserves R (body a)) → preserves R (for_each l body).
Proof.
  intros Hb. induction l as [|a l IH]; simpl.
  - apply preserves_ret.
  - by apply preserves_bind.
Qed.

End Preserves.

End Monad.

End PyProps.

(** ** The state machine *)

Module StateMachineProps.

Import StateMachine Scenarios.

Section Props.

Context {W : Type}.
Variable now : W → Z.
Variable emit : Py.level → string → W → W.

Abbreviation transition_to := (transition_to now emit).
Abbreviation transitions := (transitions now emit).

Abbreviation entry := (entry now).

Lemma transition_to_machine sm s m w :
  let sm' := (transition_to sm s m w).2.1 in
  current_state sm' = s
  ∧ previous_state sm' = Some (current_state sm)
  ∧ state_history sm' = state_history sm ++ [entry sm s m w]
  ∧ on_state_change sm' = on_state_change sm.
Proof.
  unfold StateMachine.transition_to.
  destruct (on_state_change sm) as [cb|]; [destruct (cb _ _ _ _)|]; done.
Qed.

Lemma chained_nil : chained [].
Proof. intros i a b Ha. by rewrite lookup_nil in Ha. Qed.

Lemma chained_snoc h e :
  chained h → Transition.previous_state e = Some (log_head h) ∨ h = [] →
  chained (h ++ [e]).
Proof.
  intros Hh He i a b Ha Hb.
  destruct (decide (S i < length h)%nat) as [Hlt|Hge].
  - rewrite lookup_app_l in Ha by lia. rewrite lookup_app_l in Hb by lia.
    eauto.
  - assert (S i = length h) as Hi.
    { apply lookup_lt_Some in Hb. rewrite length_app in Hb. simpl in Hb. lia. }
    rewrite lookup_app_l in Ha by lia.
    rewrite lookup_app_r in Hb by lia.
    replace (S i - length h)%nat with 0%nat in Hb by lia.
    simpl in Hb. injection Hb as <-.
    destruct He as [He| ->]; [|by rewrite lookup_nil in Ha].
    rewrite He. f_equal. unfold log_head.
    assert (last h = Some a) as ->; [|done].
    rewrite last_lookup. rewrite <- Hi. simpl. done.
Qed.

Lemma log_head_snoc h e : log_head (h ++ [e]) = Transition.state e.
Proof. unfold log_head. by rewrite last_snoc. Qed.

Lemma consistent_transition_to (sm : t W) s m w :
  consistent sm → consistent (transition_to sm s m w).2.1.
Proof.
  intros [Hc Hh].
  destruct (transition_to_machine sm s m w) as (Hcur & _ & Hhist & _).
  split.
  - rewrite Hhist. apply chained_snoc; [done|]. left. simpl. by rewrite Hh.
  - rewrite Hhist, Hcur. apply log_head_snoc.
Qed.

Lemma consistent_transitions calls : ∀ (sm : t W) w,
  consistent sm → consistent (transitions calls sm w).1.
Proof.
  induction calls as [|[s m] calls IH]; intros sm w Hsm; [done|].
  simpl. pose proof (consistent_transition_to sm s m w Hsm) as Hstep.
  destruct (transition_to sm s m w) as [r [sm' w']]. by apply IH.
Qed.

Lemma consistent_reset (sm : t W) : consistent (reset sm).
Proof. split; [apply chained_nil | done]. Qed.

Lemma consistent_init : consistent (W := W) __init__.
Proof. split; [apply chained_nil | done]. Qed.

(** C6. After construction (with or without an observer registered) or
    after [reset], whatever [transition_to] calls follow, the history is
    a chain: the [previous_state] of entry [i+1] is the [state] of entry
    [i], and the state of the last entry is [current_state]. *)
Theorem transition_log_is_a_chain (calls : list (ScraperState * string))
    (w : W) :
  consistent (transitions calls __init__ w).1
  ∧ (∀ callback,
       consistent
         (transitions calls (set_state_change_callback __init__ callback) w).1)
  ∧ (∀ sm : t W, consistent (transitions calls (reset sm) w).1).
Proof.
  split; [|split]; intros; apply consistent_transitions.
  - apply consistent_init.
  - split; [apply chained_nil | done].
  - apply consistent_reset.
Qed.

(** C4, as the code has it. When an observer is registered and raises,
    [transition_to] raises the same exception: nothing catches or logs
    it, and the world is left as the observer left it.  The transition
    itself is complete: [current_state] is the new state and the entry
    is the last of the history. *)
Theorem transition_to_propagates_observer_failure
    (sm : t W) (callback : Callback W) (new_state : ScraperState)
    (message : string) (w w' : W) (e : exn) :
  on_state_change sm = Some callback →
  callback new_state (Some (current_state sm)) message
    (emit INFO (transition_line (Some (current_state sm)) new_state message) w)
    = (Raise e, w') →
  ∃ sm', transition_to sm new_state message w = (Raise e, (sm', w'))
         ∧ current_state sm' = new_state
         ∧ state_history sm'
           = state_history sm ++ [entry sm new_state message w].
Proof.
  intros Hcb Hraise. unfold StateMachine.transition_to.
  rewrite Hcb, Hraise. eexists. split; [reflexivity|]. done.
Qed.

End Props.

Lemma transition_to_propagates_observer_failure_witness :
  ∃ sm', StateMachine.transition_to (λ _, 0) (λ _ m w, w ++ [m])
           observed_machine INITIALIZING "Initializing" []
         = (Raise (RuntimeError "notification failed"),
            (sm', ["State transition: idle -> initializing | Initializing"]))
         ∧ current_state sm' = INITIALIZING
         ∧ state_history sm'
           = [] ++ [StateMachine.entry (λ _, 0) observed_machine INITIALIZING
                      "Initializing" []].
Proof.
  apply (transition_to_propagates_observer_failure (λ _, 0) (λ _ m w, w ++ [m])
           observed_machine failing_observer INITIALIZING "Initializing" []);
    reflexivity.
Defined.

(** C4 as stated fails: with a failing observer registered,
    [transition_to] raises the observer's exception. *)
Lemma transition_to_raises_with_failing_observer :
  (StateMachine.transition_to (λ _, 0) (λ _ m w, w ++ [m])
     observed_machine INITIALIZING "Initializing" []).1
  = Raise (RuntimeError "notification failed").
Proof. reflexivity. Qed.

(** *** The context and the history *)

Section Context.

Context {W : Type}.
Variable now : W → Z.
Variable emit : Py.level → string → W → W.

Lemma assoc_None key (d : list (string * json)) :
  key ∉ d.*1 → assoc key d = None.
Proof.
  induction d as [|[k v] d IH]; [done|]. simpl. intros Hk.
  apply not_elem_of_cons in Hk as [Hne Hk].
  destruct (String.eqb_spec key k); [done|]. by apply IH.
Qed.

Lemma lookup_update key kwargs : ∀ d : gmap string json,
  NoDup kwargs.*1 →
  foldl (λ d kv, <[kv.1 := kv.2]> d) d kwargs !! key
  = match assoc key kwargs with Some v => Some v | None => d !! key end.
Proof.
  induction kwargs as [|[k v] kwargs IH]; intros d Hnd; [done|].
  apply NoDup_cons in Hnd as [Hk Hnd]. simpl. rewrite IH by done.
  destruct (String.eqb_spec key k) as [->|Hne].
  - rewrite assoc_None by done. apply lookup_insert_eq.
  - destruct (assoc key kwargs); [done|]. by apply lookup_insert_ne.
Qed.


Lemma length_transitions calls : ∀ (sm : t W) w,
  Transition.state <$> state_history (transitions now emit calls sm w).1
  = (Transition.state <$> state_history sm) ++ calls.*1
  ∧ Transition.message <$> state_history (transitions now emit calls sm w).1
    = (Transition.message <$> state_history sm) ++ calls.*2.
Proof.
  induction calls as [|[s m] calls IH]; intros sm w.
  - simpl. by rewrite !app_nil_r.
  - simpl.
    destruct (StateMachineProps.transition_to_machine now emit sm s m w)
      as (_ & _ & Hhist & _).
    destruct (StateMachine.transition_to now emit sm s m w) as [r [sm' w']].
    simpl in Hhist. destruct (IH sm' w') as [Hs Hm].
    rewrite Hs, Hm, Hhist, !fmap_app, <- !app_assoc. done.
Qed.

(** Every [transition_to] call is recorded, in order, with the state and
    the message it was given, whether the observer returns or raises:
    the history after a series of calls is the history before followed
    by one entry per call. *)
Theorem history_records_every_call (calls : list (ScraperState * string))
    (sm : t W) (w : W) :
  Transition.state <$> state_history (transitions now emit calls sm w).1
  = (Transition.state <$> state_history sm) ++ calls.*1
  ∧ Transition.message <$> state_history (transitions now emit calls sm w).1
    = (Transition.message <$> state_history sm) ++ calls.*2
  ∧ length (state_history (transitions now emit calls sm w).1)
    = (length (state_history sm) + length calls)%nat.
Proof.
  destruct (length_transitions calls sm w) as [Hs Hm].
  split; [done|]. split; [done|].
  apply (f_equal length) in Hs.
  rewrite length_app, !length_fmap in Hs. done.
Qed.

Lemma slice_from_last {A} (l : list A) (limit : Z) :
  0 < limit →
  slice_from l (- limit) = drop (length l - Z.to_nat limit) l.
Proof.
  intros Hlim. unfold slice_from.
  destruct (Z.ltb_spec (- limit) 0) as [_|?]; [|lia]. f_equal. lia.
Qed.

(** [get_history(limit)] with a positive limit returns the last [limit]
    entries, or the whole history when it is shorter.  With limit 0 it
    returns the whole history, not the empty list, and with a negative
    limit it returns the history without its first [-limit] entries.
    After at least one transition on a machine that was constructed or
    reset, [get_history(1)] is the one entry of the latest transition,
    whose state is the current state. *)
Theorem get_history_returns_the_latest (sm : t W) (limit : Z) :
  (0 < limit →
   get_history sm limit
   = drop (length (state_history sm) - Z.to_nat limit) (state_history sm)
   ∧ length (get_history sm limit)
     = (length (state_history sm) `min` Z.to_nat limit)%nat)
  ∧ get_history sm 0 = state_history sm
  ∧ (limit < 0 →
     get_history sm limit = drop (Z.to_nat (- limit)) (state_history sm))
  ∧ (∀ calls s m w,
       ∃ e, get_history
              (transitions now emit (calls ++ [(s, m)]) (reset sm) w).1 1
            = [e]
            ∧ Transition.state e = s
            ∧ Transition.message e = m
            ∧ current_state
                (transitions now emit (calls ++ [(s, m)]) (reset sm) w).1
              = s).
Proof.
  split; [|split; [|split]].
  - intros Hlim. unfold get_history. rewrite slice_from_last by done.
    split; [done|]. rewrite length_drop. lia.
  - unfold get_history, slice_from. simpl.
    by rewrite Z.min_l by lia.
  - intros Hlim. unfold get_history, slice_from.
    destruct (Z.ltb_spec (- limit) 0) as [?|_]; [lia|].
    destruct (Z.min_spec (- limit) (Z.of_nat (length (state_history sm))))
      as [[_ ->]|[Hle ->]]; [done|].
    rewrite Nat2Z.id, drop_all. symmetry. apply drop_ge. lia.
  - intros calls s m w.
    pose proof (consistent_transitions now emit (calls ++ [(s, m)])
                  (reset sm) w (consistent_reset sm)) as [_ Hhead].
    destruct (length_transitions (calls ++ [(s, m)]) (reset sm) w)
      as [Hs Hm].
    set (sm' := (transitions now emit (calls ++ [(s, m)]) (reset sm) w).1)
      in *.
    simpl in Hs, Hm. rewrite fmap_app in Hs. rewrite fmap_app in Hm.
    simpl in Hs, Hm.
    destruct (state_history sm') as [|e h0 _] eqn:Hh using rev_ind.
    { by destruct calls. }
    rewrite fmap_app in Hs. rewrite fmap_app in Hm. simpl in Hs, Hm.
    apply app_inj_tail in Hs as [_ Hs]. apply app_inj_tail in Hm as [_ Hm].
    exists e. unfold get_history. rewrite Hh.
    rewrite slice_from_last by lia. rewrite length_app. simpl.
    replace (length h0 + 1 - Z.to_nat 1)%nat with (length h0) by lia.
    rewrite drop_app_length. split; [done|]. split; [done|]. split; [done|].
    rewrite <- Hhead. by rewrite log_head_snoc.
Qed.

End Context.


End StateMachineProps.

(** ** The connection manager *)

Module WebsocketHandlerProps.

Import WebsocketHandler Scenarios.

Section Props.

Context {Env : Type}.
Variable net : Network Env.

Abbreviation World := (World Env).

Lemma send_event_ok client_id event (w : World) :
  (send_event net client_id event w).1 = Ok ().
Proof.
  unfold send_event.
  destruct (active_connections (manager w) !! client_id) as [ws|]; [|done].
  unfold try_except, bind, event_dict, io, logger, modify, ret, raise.
  destruct event; simpl; try done;
    destruct (send_json net ws _ (env w)) as [[[]|e] env']; done.
Qed.

Lemma send_event_manager client_id event (w : World) :
  let w' := (send_event net client_id event w).2 in
  manager w' = manager w ∧ futures w' = futures w
  ∧ next_future w' = next_future w ∧ clock w' = clock w
  ∧ ∃ lines, logs w' = logs w ++ lines.
Proof.
  unfold send_event.
  destruct (active_connections (manager w) !! client_id) as [ws|];
    [|by repeat split; exists []; rewrite app_nil_r].
  unfold try_except, bind, event_dict, io, logger, modify, ret, raise.
  destruct event; simpl;
    try (by repeat split; eexists);
    destruct (send_json net ws _ (env w)) as [[[]|e] env']; simpl;
    by repeat split; eexists.
Qed.

(** C10. [send_event] never raises.  Without an active connection for
    the client it changes nothing.  With one, an event that cannot be
    turned into a dict, or a dict that the websocket fails to send, ends
    in one ERROR line naming the client and the exception, and nothing
    else. *)
Theorem send_event_never_raises (client_id : string) (event : Event)
    (w : World) :
  (send_event net client_id event w).1 = Ok ()
  ∧ (active_connections (manager w) !! client_id = None →
     send_event net client_id event w = (Ok (), w))
  ∧ (∀ websocket,
       active_connections (manager w) !! client_id = Some websocket →
       (∀ e,
          event_dict event w = (Raise e, w) →
          send_event net client_id event w
          = (Ok (),
             emit ERROR ("Error sending event to " +:+ client_id +:+ ": "
                         +:+ str e) w))
       ∧ (∀ d e env',
            event_dict event w = (Ok d, w) →
            send_json net websocket (_serialize_datetime net d) (env w)
            = (Raise e, env') →
            send_event net client_id event w
            = (Ok (),
               emit ERROR ("Error sending event to " +:+ client_id +:+ ": "
                           +:+ str e) (set_env env' w)))).
Proof.
  split; [apply send_event_ok|]. split.
  - intros Hnone. unfold send_event. by rewrite Hnone.
  - intros ws Hws. unfold send_event. rewrite Hws.
    unfold try_except, bind, io, logger, modify. split.
    + intros e He. by rewrite He.
    + intros d e env' Hd Hsend. by rewrite Hd, Hsend.
Qed.

Lemma wait_for_user_response_register_eq client_id (w : World) :
  wait_for_user_response_register client_id w
  = (Ok (next_future w),
     set_pending (<[client_id := next_future w]>
                    (pending_responses (manager w)))
       (set_futures (<[next_future w := Pending]> (futures w))
          (S (next_future w)) w)).
Proof. reflexivity. Qed.

(** C1, as the code has it.  Registering a wait never fails: it creates
    a fresh pending future and stores it under the client's id, in place
    of whatever handle was stored there.  Every other future, the handle
    that was replaced among them, is left as it was, and so are the
    handles of the other clients. *)
Theorem registration_replaces_handle (client_id : string) (w : World) :
  ∃ w',
    wait_for_user_response_register client_id w = (Ok (next_future w), w')
    ∧ pending_responses (manager w') !! client_id = Some (next_future w)
    ∧ futures w' !! next_future w = Some Pending
    ∧ (∀ future, future ≠ next_future w →
                 futures w' !! future = futures w !! future)
    ∧ (∀ c, c ≠ client_id →
            pending_responses (manager w') !! c
            = pending_responses (manager w) !! c)
    ∧ active_connections (manager w') = active_connections (manager w).
Proof.
  eexists. split; [reflexivity|]. simpl.
  split; [apply lookup_insert_eq|].
  split; [apply lookup_insert_eq|].
  split; [|split; [|done]].
  - intros future Hne. by apply lookup_insert_ne.
  - intros c Hne. by apply lookup_insert_ne.
Qed.

Lemma set_user_response_ok client_id response (w : World) :
  (set_user_response client_id response w).1 = Ok ().
Proof.
  unfold set_user_response.
  destruct (pending_responses (manager w) !! client_id) as [future|]; [|done].
  destruct (done future w) eqn:Hdone; [done|]. simpl.
  unfold bind, set_result. by rewrite Hdone.
Qed.

Lemma set_user_response_keeps_done client_id response (w : World) future v :
  futures w !! future = Some (Done v) →
  futures (set_user_response client_id response w).2 !! future
  = Some (Done v).
Proof.
  intros Hv. unfold set_user_response.
  destruct (pending_responses (manager w) !! client_id) as [f|]; [|done].
  destruct (done f w) eqn:Hdone; [done|]. simpl.
  unfold bind, set_result. rewrite Hdone. simpl.
  destruct (decide (f = future)) as [->|Hne].
  - unfold done in Hdone. by rewrite Hv in Hdone.
  - by rewrite lookup_insert_ne.
Qed.

(** C2. A response for a session with no handle outstanding, or whose
    handle is already done, changes nothing and does not raise.  No
    delivery raises, and none changes a future that is already
    resolved: a handle is resolved at most once. *)
Theorem late_response_is_dropped (client_id : string) (response : json)
    (w : World) :
  (pending_responses (manager w) !! client_id = None
   ∨ ∃ future, pending_responses (manager w) !! client_id = Some future
               ∧ done future w = true) →
  set_user_response client_id response w = (Ok (), w)
  ∧ (∀ c r (w0 : World), (set_user_response c r w0).1 = Ok ())
  ∧ (∀ c r (w0 : World) future value,
       futures w0 !! future = Some (Done value) →
       futures (set_user_response c r w0).2 !! future = Some (Done value)).
Proof.
  intros H. split; [|split].
  - unfold set_user_response.
    destruct H as [-> | (future & -> & ->)]; done.
  - apply set_user_response_ok.
  - intros. by apply set_user_response_keeps_done.
Qed.

(** *** While a coroutine waits *)

Lemma disconnect_effect c (w : World) :
  ∃ w', disconnect c w = (Ok (), w') ∧ same_frame w w'
        ∧ futures w' = futures w.
Proof.
  unfold disconnect.
  destruct (active_connections (manager w) !! c); eexists;
    (split; [reflexivity|]); done.
Qed.

Ltac use_disconnect :=
  match goal with
  | |- context [disconnect ?c ?w0] =>
      let w' := fresh "w'" in
      let Hf := fresh "Hf" in
      let Hfut := fresh "Hfut" in
      destruct (disconnect_effect c w0) as (w' & -> & Hf & Hfut);
      simpl in Hf, Hfut
  end.

Lemma endpoint_except_effect c e (w : World) :
  ∃ w', endpoint_except c e w = (Ok (), w') ∧ same_frame w w'
        ∧ futures w' = futures w.
Proof.
  unfold endpoint_except.
  destruct e; unfold bind, logger, modify; use_disconnect;
    eexists; (split; [reflexivity|]); done.
Qed.

Ltac use_except :=
  match goal with
  | |- context [endpoint_except ?c ?e ?w0] =>
      let w' := fresh "w'" in
      let Hf := fresh "Hf" in
      let Hfut := fresh "Hfut" in
      destruct (endpoint_except_effect c e w0) as (w' & -> & Hf & Hfut);
      simpl in Hf, Hfut
  end.

Lemma endpoint_turn_effect ws c r (w : World) :
  ∃ b w', endpoint_turn net ws c r w = (Ok b, w')
    ∧ same_frame w w'
    ∧ (futures w' = futures w
       ∨ (is_user_response r = true
          ∧ ∃ f v, pending_responses (manager w) !! c = Some f
                   ∧ futures w !! f = Some Pending
                   ∧ futures w' = <[f := Done v]> (futures w))).
Proof.
  unfold endpoint_turn, try_except, bind, endpoint_body, receive_json.
  destruct r as [data| |e]; simpl.
  - unfold bind, logger, modify. simpl.
    destruct (get data "type" JNone) as [mt|e] eqn:Hmt; simpl.
    + destruct (is_str mt "user_response") eqn:Hur.
      * destruct (get data "data" JNone) as [resp|e] eqn:Hresp; simpl.
        -- unfold set_user_response. simpl.
           destruct (pending_responses (manager w) !! c) as [f|] eqn:Hf; simpl.
           ++ destruct (done f _) eqn:Hdone; simpl.
              ** do 2 eexists. split; [reflexivity|]. split; [done|]. by left.
              ** unfold bind, set_result. rewrite Hdone. simpl.
                 do 2 eexists. split; [reflexivity|]. simpl.
                 repeat split. right. split; [done|].
                 exists f, resp. repeat split; try done.
                 unfold done in Hdone. simpl in Hdone.
                 destruct (futures w !! f) as [[]|]; done.
           ++ do 2 eexists. split; [reflexivity|]. split; [done|]. by left.
        -- use_except. do 2 eexists. split; [reflexivity|].
           split; [done|]. by left.
      * destruct (is_str mt "ping").
        -- unfold io. simpl.
           destruct (send_json net ws _ (env w)) as [[[]|e] env']; simpl.
           ++ do 2 eexists. split; [reflexivity|]. split; [done|]. by left.
           ++ use_except. do 2 eexists. split; [reflexivity|].
              split; [done|]. by left.
        -- do 2 eexists. split; [reflexivity|]. split; [done|]. by left.
    + use_except. do 2 eexists. split; [reflexivity|].
      split; [done|]. by left.
  - unfold raise, bind, logger, modify. use_disconnect.
    do 2 eexists. split; [reflexivity|].
    split; [done|]. by left.
  - unfold raise. use_except. do 2 eexists. split; [reflexivity|].
    split; [done|]. by left.
Qed.



Lemma wait_for_times_out future client_id deadline script :
  never_responds client_id script →
  ∀ w : World, private future client_id w →
  ∃ w', wait_for net future deadline script w = (Raise TimeoutError, w')
        ∧ clock w' = deadline
        ∧ pending_responses (manager w') = pending_responses (manager w)
        ∧ next_future w' = next_future w.
Proof.
  induction 1 as [|a script Ha Hrest IH]; intros w [Hp Honly]; simpl;
    rewrite Hp.
  - unfold bind, modify, cancel; simpl. unfold done; simpl. rewrite Hp.
    simpl. eexists. split; [reflexivity|]. done.
  - destruct (at_time a <? deadline).
    + unfold bind at 1. unfold modify at 1. unfold bind at 1.
      destruct (endpoint_turn_effect (socket a) (sender a) (received a)
                  (set_clock (Z.max (clock w) (at_time a)) w))
        as (b & w1 & -> & (Hpend & Hnext & Hclock) & Hfut).
      simpl in Hpend, Hnext, Hclock, Hfut.
      destruct (IH w1) as (w' & -> & Hc & Hp' & Hn').
      * split.
        -- destruct Hfut as [-> | (Hur & f & v & Hf & _ & ->)]; [done|].
           rewrite lookup_insert_ne; [done|]. intros ->.
           apply Honly in Hf. apply Ha in Hf. congruence.
        -- intros c. rewrite Hpend. apply Honly.
      * eexists. split; [reflexivity|]. repeat split; congruence.
    + unfold bind, modify, cancel; simpl. unfold done; simpl. rewrite Hp.
      simpl. eexists. split; [reflexivity|]. done.
Qed.

(** C5, as the code has it.  When the endpoint sees the connection
    drop, or fail in any other way, it removes the client from
    [active_connections] and logs; the pending handles and every future
    are left as they were.  So a wait whose client sends no answer ends
    at its deadline, with [TimeoutError], whatever else arrives in
    between, disconnections included. *)
Theorem disconnect_leaves_pending_handle (websocket : WebSocket)
    (client_id : string) (w : World) :
  (∃ w', endpoint_turn net websocket client_id Disconnected w = (Ok false, w')
         ∧ active_connections (manager w') !! client_id = None
         ∧ pending_responses (manager w') = pending_responses (manager w)
         ∧ futures w' = futures w)
  ∧ (∀ e,
       ∃ w', endpoint_turn net websocket client_id (ReceiveError e) w
             = (Ok false, w')
             ∧ active_connections (manager w') !! client_id = None
             ∧ pending_responses (manager w') = pending_responses (manager w)
             ∧ futures w' = futures w)
  ∧ (∀ future deadline script,
       never_responds client_id script →
       private future client_id w →
       ∃ w', wait_for net future deadline script w = (Raise TimeoutError, w')
             ∧ clock w' = deadline).
Proof.
  split; [|split].
  - unfold endpoint_turn, try_except, bind, endpoint_body, receive_json, raise.
    simpl. unfold bind, disconnect.
    destruct (active_connections (manager w) !! client_id) as [ws|] eqn:Hws;
      simpl; eexists; (split; [reflexivity|]); simpl; [|done].
    by rewrite lookup_delete_eq.
  - intros e.
    unfold endpoint_turn, try_except, bind, endpoint_body, receive_json, raise.
    destruct e; simpl; unfold bind, logger, modify, disconnect; simpl;
      destruct (active_connections (manager w) !! client_id) as [ws|] eqn:Hws;
      simpl; eexists; (split; [reflexivity|]); simpl;
      rewrite ?lookup_delete_eq; done.
  - intros future deadline script Hnever Hprivate.
    destruct (wait_for_times_out future client_id deadline script Hnever
                w Hprivate) as (w' & Heq & Hclock & _).
    eauto.
Qed.

End Props.

(** C1 as stated fails: with future 0 pending for session-1, a second
    registration succeeds, stores future 1 in its place and leaves
    future 0 pending; the whole call returns normally. *)
Lemma second_registration_does_not_fail :
  (wait_for_user_response_register "session-1" waiting_world).1 = Ok 1%nat
  ∧ pending_responses
      (manager (wait_for_user_response_register "session-1" waiting_world).2)
    !! "session-1" = Some 1%nat
  ∧ futures (wait_for_user_response_register "session-1" waiting_world).2
    !! 0%nat = Some Pending
  ∧ (wait_for_user_response quiet "session-1" (seconds 300) [] waiting_world).1
    = Ok JNone.
Proof. vm_compute. done. Qed.

Lemma late_response_is_dropped_witness :
  (pending_responses (manager connected_world) !! "session-1" = None
   ∨ ∃ future,
       pending_responses (manager connected_world) !! "session-1"
       = Some future
       ∧ done future connected_world = true)
  ∧ set_user_response "session-1" (JDict [("action", JStr "select_court")])
      connected_world
    = (Ok (), connected_world).
Proof.
  split; [by left|].
  apply (late_response_is_dropped "session-1"
           (JDict [("action", JStr "select_court")]) connected_world).
  by left.
Defined.

(** C5 as stated fails: session-1 drops one second into a 300 s wait;
    the future is still pending after the endpoint has handled the
    drop, and the waiting call returns [None] only at the deadline. *)
Lemma disconnect_does_not_cancel_wait :
  futures (endpoint_turn quiet 7%nat "session-1" Disconnected waiting_world).2
  !! 0%nat = Some Pending
  ∧ (wait_for_user_response quiet "session-1" (seconds 300) drops_after_1s
       connected_world).1 = Ok JNone
  ∧ clock (wait_for_user_response quiet "session-1" (seconds 300)
             drops_after_1s connected_world).2 = seconds 300.
Proof. vm_compute. done. Qed.

(** *** Serialising, waiting and serving *)

Section Serving.

Context {Env : Type}.
Variable net : Network Env.

Abbreviation World := (World Env).

Lemma json_nested_ind (P : json → Prop) :
  P JNone → (∀ b, P (JBool b)) → (∀ z, P (JInt z)) → (∀ q, P (JFloat q)) →
  (∀ s, P (JStr s)) → (∀ t, P (JDatetime t)) →
  (∀ l, Forall P l → P (JList l)) →
  (∀ d, Forall (λ kv, P kv.2) d → P (JDict d)) →
  ∀ obj, P obj.
Proof.
  intros HNone HBool HInt HFloat HStr HDate HList HDict.
  fix IH 1. intros [ |b|z|q|s|t|l|d].
  - apply HNone.
  - apply HBool.
  - apply HInt.
  - apply HFloat.
  - apply HStr.
  - apply HDate.
  - apply HList. induction l as [|x l IHl]; constructor; [apply IH|done].
  - apply HDict. induction d as [|kv d IHd]; constructor; [apply IH|done].
Qed.

Lemma serialize_free obj : datetime_free (_serialize_datetime net obj) = true.
Proof.
  induction obj as [ | | | | | |l IH|d IH] using json_nested_ind; try done.
  - simpl. apply forallb_forall. intros x Hx.
    apply in_map_iff in Hx as (y & <- & Hy).
    rewrite Forall_forall in IH. apply IH. by apply list_elem_of_In.
  - simpl. apply forallb_forall. intros x Hx.
    apply in_map_iff in Hx as (y & <- & Hy). simpl.
    rewrite Forall_forall in IH. apply IH. by apply list_elem_of_In.
Qed.

Lemma serialize_of_free obj :
  datetime_free obj = true → _serialize_datetime net obj = obj.
Proof.
  induction obj as [ | | | | | |l IH|d IH] using json_nested_ind; try done.
  - simpl. intros Hfree. f_equal.
    induction IH as [|x l Hx _ IHl]; [done|]. simpl in *.
    apply andb_true_iff in Hfree as [Hfx Hfl].
    by rewrite Hx, IHl.
  - simpl. intros Hfree. f_equal.
    induction IH as [|[k v] d Hx _ IHd]; [done|]. simpl in *.
    apply andb_true_iff in Hfree as [Hfx Hfd].
    by rewrite Hx, IHd.
Qed.

(** What [_serialize_datetime] returns holds no [datetime] object at any
    depth of lists and dicts.  Values without one are returned as they
    are, so serialising twice is serialising once; a dict keeps its keys
    in their order, a list its length. *)
Theorem serialized_events_hold_no_datetime (obj : json) :
  datetime_free (_serialize_datetime net obj) = true
  ∧ (datetime_free obj = true → _serialize_datetime net obj = obj)
  ∧ _serialize_datetime net (_serialize_datetime net obj)
    = _serialize_datetime net obj
  ∧ (∀ d, ∃ d', _serialize_datetime net (JDict d) = JDict d'
                ∧ d'.*1 = d.*1)
  ∧ (∀ l, ∃ l', _serialize_datetime net (JList l) = JList l'
                ∧ length l' = length l).
Proof.
  split; [apply serialize_free|].
  split; [apply serialize_of_free|].
  split; [apply serialize_of_free, serialize_free|].
  split.
  - intros d. eexists. split; [reflexivity|].
    induction d as [|[k v] d IH]; [done|]. simpl. by f_equal.
  - intros l. eexists. split; [reflexivity|]. apply length_map.
Qed.

Lemma wait_for_eq future deadline script (w : World) :
  wait_for net future deadline script w
  = match futures w !! future with
    | Some (Done value) => (Ok value, w)
    | _ =>
        match script with
        | a :: script' =>
            if at_time a <? deadline then
              (modify (λ w, set_clock (Z.max (clock w) (at_time a)) w) ;;
               endpoint_turn net (socket a) (sender a) (received a) ;;
               wait_for net future deadline script') w
            else
              (modify (set_clock deadline) ;; cancel future ;;
               raise TimeoutError) w
        | [] =>
            (modify (set_clock deadline) ;; cancel future ;;
             raise TimeoutError) w
        end
    end.
Proof. destruct script; reflexivity. Qed.

Lemma timed_out_effect future deadline (w : World) :
  ∃ w', (modify (set_clock deadline) ;; cancel future ;;
         raise (A := json) TimeoutError) w = (Raise TimeoutError, w')
    ∧ pending_responses (manager w') = pending_responses (manager w)
    ∧ next_future w' = next_future w
    ∧ done future w' = true.
Proof.
  unfold bind, modify, cancel, raise. simpl.
  destruct (done future (set_clock deadline w)) eqn:Hdone; simpl.
  - eexists. split; [reflexivity|]. done.
  - eexists. split; [reflexivity|]. repeat split.
    unfold done. simpl. by rewrite lookup_insert_eq.
Qed.

Lemma wait_for_returns future deadline script : ∀ w : World,
  ∃ r w', wait_for net future deadline script w = (r, w')
    ∧ (r = Raise TimeoutError ∨ ∃ v, r = Ok v)
    ∧ pending_responses (manager w') = pending_responses (manager w)
    ∧ next_future w' = next_future w
    ∧ done future w' = true.
Proof.
  induction script as [|a script IH]; intros w; rewrite wait_for_eq.
  - destruct (timed_out_effect future deadline w) as (w' & Heq & Hrest).
    destruct (futures w !! future) as [[|v|]|] eqn:Hf; rewrite ?Heq;
      try (do 2 eexists; split; [reflexivity|]; by eauto).
    do 2 eexists. split; [reflexivity|]. unfold done. rewrite Hf. eauto 6.
  - assert (∃ r w',
              (if at_time a <? deadline then
                 (modify (λ w, set_clock (Z.max (clock w) (at_time a)) w) ;;
                  endpoint_turn net (socket a) (sender a) (received a) ;;
                  wait_for net future deadline script) w
               else
                 (modify (set_clock deadline) ;; cancel future ;;
                  raise TimeoutError) w) = (r, w')
              ∧ (r = Raise TimeoutError ∨ ∃ v, r = Ok v)
              ∧ pending_responses (manager w')
                = pending_responses (manager w)
              ∧ next_future w' = next_future w
              ∧ done future w' = true) as (r & w' & Heq & Hrest).
    { destruct (at_time a <? deadline).
      - unfold bind at 1. unfold modify at 1. unfold bind at 1.
        destruct (endpoint_turn_effect net (socket a) (sender a) (received a)
                    (set_clock (Z.max (clock w) (at_time a)) w))
          as (b & w1 & -> & (Hpend & Hnext & Hclock) & _).
        simpl in Hpend, Hnext.
        destruct (IH w1) as (r & w' & -> & Hr & Hp & Hn & Hd).
        do 2 eexists. split; [reflexivity|].
        repeat split; [done|congruence|congruence|done].
      - destruct (timed_out_effect future deadline w) as (w' & -> & Hrest).
        do 2 eexists. split; [reflexivity|]. by eauto. }
    destruct (futures w !! future) as [[|v|]|] eqn:Hf; rewrite ?Heq;
      try (do 2 eexists; split; [reflexivity|]; by eauto).
    do 2 eexists. split; [reflexivity|]. unfold done. rewrite Hf. eauto 6.
Qed.

(** [wait_for_user_response] always returns, with the answer or with
    [None], whatever arrives meanwhile: no exception of the endpoint
    reaches the waiting caller.  When it returns the client has no
    handle stored any more, the handles of the other clients are as
    they were, and the one future it created is no longer pending. *)
Theorem wait_returns_and_leaves_no_handle (client_id : string) (timeout : Z)
    (script : list Arrival) (w : World) :
  ∃ response w',
    wait_for_user_response net client_id timeout script w = (Ok response, w')
    ∧ pending_responses (manager w') !! client_id = None
    ∧ (∀ c, c ≠ client_id →
            pending_responses (manager w') !! c
            = pending_responses (manager w) !! c)
    ∧ next_future w' = S (next_future w)
    ∧ done (next_future w) w' = true.
Proof.
  unfold wait_for_user_response. unfold bind at 1.
  rewrite wait_for_user_response_register_eq.
  unfold try_finally, try_except. unfold bind at 1, gets at 1.
  match goal with
  | |- context [wait_for net ?f ?d ?sc ?w0] =>
      destruct (wait_for_returns f d sc w0)
        as (r & w1 & -> & Hr & Hp & Hn & Hd)
  end.
  simpl in Hp, Hn.
  assert (∀ w2 : World,
            pending_responses (manager w2) = pending_responses (manager w1) →
            next_future w2 = next_future w1 →
            done (next_future w) w2 = true →
            ∃ w', wait_for_user_response_cleanup client_id w2 = (Ok (), w')
                  ∧ pending_responses (manager w') !! client_id = None
                  ∧ (∀ c, c ≠ client_id →
                          pending_responses (manager w') !! c
                          = pending_responses (manager w) !! c)
                  ∧ next_future w' = S (next_future w)
                  ∧ done (next_future w) w' = true) as Hclean.
  { intros w2 Hp2 Hn2 Hd2. unfold wait_for_user_response_cleanup.
    rewrite Hp2, Hp, lookup_insert_eq. eexists. split; [reflexivity|].
    simpl.
    split; [apply lookup_delete_eq|]. split; [|split; [congruence|done]].
    intros c Hne. rewrite lookup_delete_ne by done.
    by rewrite lookup_insert_ne. }
  destruct Hr as [-> | [v ->]].
  - unfold bind at 1, logger at 1, modify at 1. simpl.
    match goal with
    | |- context [wait_for_user_response_cleanup client_id ?w2] =>
        destruct (Hclean w2) as (w' & -> & Hrest); [done..|]
    end.
    eauto.
  - destruct (Hclean w1) as (w' & -> & Hrest); [done..|]. eauto.
Qed.

Lemma wait_for_answer future client_id deadline answer later fields earlier :
  never_responds client_id earlier →
  Forall (λ a, at_time a < deadline) (earlier ++ [answer]) →
  sender answer = client_id →
  received answer = Message (JDict fields) →
  assoc "type" fields = Some (JStr "user_response") →
  ∀ w : World,
    private future client_id w →
    pending_responses (manager w) !! client_id = Some future →
    clock w < deadline →
    ∃ w', wait_for net future deadline (earlier ++ answer :: later) w
          = (Ok (default JNone (assoc "data" fields)), w')
      ∧ pending_responses (manager w') = pending_responses (manager w)
      ∧ next_future w' = next_future w
      ∧ clock w ≤ clock w' < deadline
      ∧ futures w' !! future
        = Some (Done (default JNone (assoc "data" fields))).
Proof.
  intros Hnever Htimes Hsender Hreceived Htype.
  induction Hnever as [|a earlier Ha Hrest IH]; intros w [Hp Honly] Hmine Hclock.
  - simpl in *. apply Forall_cons in Htimes as [Ht _].
    rewrite Hp. destruct (Z.ltb_spec (at_time answer) deadline); [|lia].
    unfold bind at 1. unfold modify at 1. unfold bind at 1.
    unfold endpoint_turn, try_except, bind at 1. rewrite Hreceived.
    unfold endpoint_body, receive_json, bind, logger, modify. simpl.
    rewrite Htype. simpl. unfold set_user_response. simpl.
    rewrite Hsender, Hmine. unfold done at 1. simpl. rewrite Hp. simpl.
    unfold bind, set_result, done. simpl. rewrite Hp. simpl.
    assert (∀ w0 : World,
              futures w0 !! future
              = Some (Done (default JNone (assoc "data" fields))) →
              wait_for net future deadline later w0
              = (Ok (default JNone (assoc "data" fields)), w0)) as Hdone.
    { intros w0 Hw0. destruct later; simpl; by rewrite Hw0. }
    rewrite Hdone by (simpl; apply lookup_insert_eq).
    eexists. split; [reflexivity|]. simpl.
    split; [done|]. split; [done|]. split; [lia|apply lookup_insert_eq].
  - simpl in Htimes. apply Forall_cons in Htimes as [Ht Htimes].
    cbn [app wait_for]. rewrite Hp.
    destruct (Z.ltb_spec (at_time a) deadline); [|lia].
    unfold bind at 1. unfold modify at 1. unfold bind at 1.
    destruct (endpoint_turn_effect net (socket a) (sender a) (received a)
                (set_clock (Z.max (clock w) (at_time a)) w))
      as (b & w1 & -> & (Hpend & Hnext & Hclock1) & Hfut).
    simpl in Hpend, Hnext, Hclock1, Hfut.
    destruct (IH Htimes w1) as (w' & -> & Hp' & Hn' & Hc' & Hf').
    + split.
      * destruct Hfut as [-> | (Hur & f & v & Hf & _ & ->)]; [done|].
        rewrite lookup_insert_ne; [done|]. intros ->.
        apply Honly in Hf. apply Ha in Hf. congruence.
      * intros c. rewrite Hpend. apply Honly.
    + by rewrite Hpend.
    + lia.
    + eexists. split; [reflexivity|].
      split; [congruence|]. split; [congruence|]. split; [lia|done].
Qed.

Lemma wait_for_user_response_answered (client_id : string) (timeout : Z)
    (earlier later : list Arrival) (answer : Arrival)
    (fields : list (string * json)) (w : World) :
  (∀ c f, pending_responses (manager w) !! c = Some f → f ≠ next_future w) →
  never_responds client_id earlier →
  Forall (λ a, at_time a < clock w + timeout) (earlier ++ [answer]) →
  sender answer = client_id →
  received answer = Message (JDict fields) →
  assoc "type" fields = Some (JStr "user_response") →
  0 < timeout →
  ∃ w',
    wait_for_user_response net client_id timeout (earlier ++ answer :: later) w
    = (Ok (default JNone (assoc "data" fields)), w')
    ∧ clock w ≤ clock w' < clock w + timeout
    ∧ pending_responses (manager w')
      = delete client_id (<[client_id := next_future w]>
                            (pending_responses (manager w)))
    ∧ next_future w' = S (next_future w)
    ∧ futures w' !! next_future w
      = Some (Done (default JNone (assoc "data" fields))).
Proof.
  intros Hfresh Hnever Htimes Hsender Hreceived Htype Htimeout.
  unfold wait_for_user_response. unfold bind at 1.
  rewrite wait_for_user_response_register_eq.
  unfold try_finally, try_except. unfold bind at 1, gets at 1.
  match goal with
  | |- context [wait_for net ?f ?d ?sc ?w0] =>
      destruct (wait_for_answer f client_id d answer later fields earlier
                  Hnever Htimes Hsender Hreceived Htype w0)
        as (w1 & -> & Hp & Hn & Hc & Hf)
  end.
  - split; simpl.
    + apply lookup_insert_eq.
    + intros c. destruct (decide (client_id = c)) as [->|Hne]; [done|].
      rewrite lookup_insert_ne by done. intros Hc. by apply Hfresh in Hc.
  - simpl. apply lookup_insert_eq.
  - simpl. lia.
  - simpl in Hp, Hn, Hc, Hf. unfold wait_for_user_response_cleanup.
    rewrite Hp, lookup_insert_eq. eexists. split; [reflexivity|]. simpl.
    done.
Qed.

(** When the client's first answer (a message of type ["user_response"])
    arrives before the deadline, [wait_for_user_response] returns the
    value under its ["data"] key ([None] when there is none, which a
    caller cannot tell from a timeout), without waiting for the
    deadline, and removes the handle.  The future about to be created
    is not yet stored for anybody. *)
Theorem operator_answer_is_returned (client_id : string) (timeout : Z)
    (earlier later : list Arrival) (answer : Arrival)
    (fields : list (string * json)) (w : World) :
  (∀ c f, pending_responses (manager w) !! c = Some f → f ≠ next_future w) →
  never_responds client_id earlier →
  Forall (λ a, at_time a < clock w + timeout) (earlier ++ [answer]) →
  sender answer = client_id →
  received answer = Message (JDict fields) →
  assoc "type" fields = Some (JStr "user_response") →
  0 < timeout →
  ∃ w',
    wait_for_user_response net client_id timeout (earlier ++ answer :: later) w
    = (Ok (default JNone (assoc "data" fields)), w')
    ∧ clock w ≤ clock w' < clock w + timeout
    ∧ pending_responses (manager w') !! client_id = None
    ∧ futures w' !! next_future w
      = Some (Done (default JNone (assoc "data" fields))).
Proof.
  intros Hfresh Hnever Htimes Hsender Hreceived Htype Htimeout.
  destruct (wait_for_user_response_answered client_id timeout earlier later
              answer fields w Hfresh Hnever Htimes Hsender Hreceived Htype
              Htimeout) as (w' & Heq & Hclock & Hpend & _ & Hfut).
  exists w'. split; [done|]. split; [done|]. split; [|done].
  rewrite Hpend. apply lookup_delete_eq.
Qed.

(** Connections are registered by client id alone.  When a client id
    connects again on a new socket and the endpoint of an earlier
    socket of the same id then sees its connection drop, the new
    socket's registration is the one removed: from then on
    [send_event] for this client does nothing, and calls nothing. *)
Theorem stale_disconnect_unregisters_new_connection (client_id : string)
    (old new : WebSocket) (w : World) (env' : Env) :
  accept net new (env w) = (Ok (), env') →
  ∃ w1 w2,
    connect net new client_id w = (Ok (), w1)
    ∧ active_connections (manager w1) !! client_id = Some new
    ∧ endpoint_turn net old client_id Disconnected w1 = (Ok false, w2)
    ∧ active_connections (manager w2) !! client_id = None
    ∧ env w2 = env'
    ∧ ∀ event, send_event net client_id event w2 = (Ok (), w2).
Proof.
  intros Haccept. unfold connect, bind, io, modify, logger. rewrite Haccept.
  simpl. eexists. eexists. split; [reflexivity|]. simpl.
  split; [apply lookup_insert_eq|].
  unfold endpoint_turn, try_except, bind, endpoint_body, receive_json, raise.
  simpl. unfold bind, disconnect. simpl. rewrite lookup_insert_eq. simpl.
  split; [reflexivity|]. simpl.
  split; [apply lookup_delete_eq|]. split; [done|].
  intros event. unfold send_event. simpl. by rewrite lookup_delete_eq.
Qed.

Lemma endpoint_turn_registration ws c r (w : World) :
  ∃ b w', endpoint_turn net ws c r w = (Ok b, w')
    ∧ (if b then active_connections (manager w') = active_connections (manager w)
       else active_connections (manager w') !! c = None)
    ∧ (∀ c', c' ≠ c → active_connections (manager w') !! c'
                      = active_connections (manager w) !! c')
    ∧ (b = true → ∃ data, r = Message data).
Proof.
  assert (∀ (e : exn) (w0 : World),
            ∃ w', endpoint_except c e w0 = (Ok (), w')
                  ∧ active_connections (manager w') !! c = None
                  ∧ ∀ c', c' ≠ c → active_connections (manager w') !! c'
                                   = active_connections (manager w0) !! c')
    as Hexcept.
  { intros e w0. unfold endpoint_except.
    destruct e; unfold bind, logger, modify, disconnect; simpl;
      destruct (active_connections (manager w0) !! c) eqn:Hc; simpl;
      eexists; (split; [reflexivity|]); simpl;
      (split; [by rewrite ?lookup_delete_eq|]);
      intros c' Hne; by rewrite ?lookup_delete_ne. }
  unfold endpoint_turn, try_except, bind, endpoint_body, receive_json.
  destruct r as [data| |e]; simpl.
  - unfold bind, logger, modify. simpl.
    destruct (get data "type" JNone) as [mt|e] eqn:Hmt; simpl.
    + destruct (is_str mt "user_response") eqn:Hur.
      * destruct (get data "data" JNone) as [resp|e] eqn:Hresp; simpl.
        -- pose proof (set_user_response_ok c resp (emit DEBUG ("Received from " +:+ c) w)) as Hok.
           assert (manager (set_user_response c resp (emit DEBUG ("Received from " +:+ c) w)).2 = manager w) as Hman.
           { unfold set_user_response. simpl.
             destruct (pending_responses (manager w) !! c) as [f|]; [|done].
             destruct (done f _) eqn:Hdone; [done|]. simpl.
             unfold bind, set_result. by rewrite Hdone. }
           destruct (set_user_response c resp _) as [r0 w0]. simpl in *.
           subst r0. exists true, w0. rewrite Hman. eauto.
        -- match goal with
           | |- context [endpoint_except c ?e0 ?w0] =>
               destruct (Hexcept e0 w0) as (w' & -> & Hnone & Hothers)
           end.
           exists false, w'. split; [done|]. split; [done|].
           split; [done|]. done.
      * destruct (is_str mt "ping").
        -- unfold io. simpl.
           destruct (send_json net ws _ (env w)) as [[[]|e] env']; simpl.
           ++ exists true. eexists. split; [reflexivity|]. eauto.
           ++ match goal with
              | |- context [endpoint_except c ?e0 ?w0] =>
                  destruct (Hexcept e0 w0) as (w' & -> & Hnone & Hothers)
              end.
              exists false, w'. split; [done|]. split; [done|].
              split; [done|]. done.
        -- exists true. eexists. split; [reflexivity|]. eauto.
    + match goal with
      | |- context [endpoint_except c ?e0 ?w0] =>
          destruct (Hexcept e0 w0) as (w' & -> & Hnone & Hothers)
      end.
      exists false, w'. split; [done|]. split; [done|]. split; [done|]. done.
  - unfold raise.
    destruct (Hexcept WebSocketDisconnect w) as (w' & Heq & Hnone & Hothers).
    simpl in Heq. unfold bind in *. 
    destruct (disconnect c w) as [[[]|e0] w0]; simpl in *.
    + injection Heq as <-. exists false. eexists.
      split; [reflexivity|]. done.
    + discriminate.
  - unfold raise.
    destruct (Hexcept e w) as (w' & -> & Hnone & Hothers).
    exists false, w'. split; [done|]. split; [done|]. split; [done|]. done.
Qed.

Lemma endpoint_loop_registration ws c inbox : ∀ w : World,
  ∃ w', endpoint_loop net ws c inbox w = (Ok (), w')
    ∧ pending_responses (manager w') = pending_responses (manager w)
    ∧ next_future w' = next_future w
    ∧ (∀ c', c' ≠ c → active_connections (manager w') !! c'
                      = active_connections (manager w) !! c')
    ∧ (Forall (λ r, ∃ data, r = Message data) inbox
       ∨ active_connections (manager w') !! c = None).
Proof.
  induction inbox as [|r inbox IH]; intros w; simpl.
  - eexists. split; [reflexivity|]. repeat split; auto.
  - unfold bind.
    destruct (endpoint_turn_effect net ws c r w)
      as (b0 & w0 & Heq0 & (Hpend & Hnext & _) & _).
    destruct (endpoint_turn_registration ws c r w)
      as (b & w1 & Heq & Hact & Hothers & Hmsg).
    rewrite Heq in Heq0. injection Heq0 as <- <-. rewrite Heq.
    destruct b.
    + destruct (IH w1) as (w' & -> & Hp' & Hn' & Ho' & Hend).
      eexists. split; [reflexivity|].
      split; [congruence|]. split; [congruence|]. split.
      * intros c' Hne. rewrite Ho' by done. by apply Hothers.
      * destruct Hend as [Hall|Hnone]; [left|by right].
        constructor; [by apply Hmsg|done].
    + eexists. split; [reflexivity|]. repeat split; auto.
Qed.


End Serving.

Lemma operator_answer_is_returned_witness :
  ∃ w',
    wait_for_user_response quiet "session-1" (seconds 300)
      (only_a_ping ++ court_answer :: []) connected_world
    = (Ok (default JNone (assoc "data" court_answer_fields)), w')
    ∧ clock connected_world ≤ clock w'
      < clock connected_world + seconds 300
    ∧ pending_responses (manager w') !! "session-1" = None
    ∧ futures w' !! next_future connected_world
      = Some (Done (default JNone (assoc "data" court_answer_fields))).
Proof.
  apply (operator_answer_is_returned quiet "session-1" (seconds 300)
           only_a_ping [] court_answer court_answer_fields
           connected_world).
  - intros c f. simpl. rewrite lookup_empty. discriminate.
  - repeat constructor.
  - repeat constructor; vm_compute; reflexivity.
  - reflexivity.
  - reflexivity.
  - reflexivity.
  - reflexivity.
Defined.

Lemma stale_disconnect_unregisters_new_connection_witness :
  ∃ w1 w2,
    connect quiet 8%nat "session-1" connected_world = (Ok (), w1)
    ∧ active_connections (manager w1) !! "session-1" = Some 8%nat
    ∧ endpoint_turn quiet 7%nat "session-1" Disconnected w1 = (Ok false, w2)
    ∧ active_connections (manager w2) !! "session-1" = None
    ∧ env w2 = ()
    ∧ ∀ event, send_event quiet "session-1" event w2 = (Ok (), w2).
Proof.
  apply (stale_disconnect_unregisters_new_connection quiet "session-1"
           7%nat 8%nat connected_world ()).
  reflexivity.
Defined.

End WebsocketHandlerProps.

(** ** The court-selection decision point *)

Module BloombergScraperProps.

Import StateMachine WebsocketHandler BloombergScraper Scenarios.
Import WebsocketHandlerProps.

Section Props.

Context {Env : Type}.
Variable net : Network Env.

Abbreviation World := (WebsocketHandler.World Env).

Lemma send_event_effect c ev (w : World) :
  ∃ w', send_event net c ev w = (Ok (), w')
        ∧ manager w' = manager w ∧ futures w' = futures w
        ∧ next_future w' = next_future w ∧ clock w' = clock w.
Proof.
  pose proof (WebsocketHandlerProps.send_event_ok net c ev w) as Hok.
  pose proof (WebsocketHandlerProps.send_event_manager net c ev w) as Hm.
  destruct (send_event net c ev w) as [r w']. simpl in *. subst r.
  exists w'. destruct Hm as (? & ? & ? & ? & _). done.
Qed.

Lemma transition_to_wired self (w : World) s m :
  wired net self →
  ∃ sm' w', BloombergScraper.transition_to s m (self, w)
            = (Ok (), ({| client_id := client_id self;
                          state_machine := sm' |}, w'))
     ∧ current_state sm' = s
     ∧ manager w' = manager w ∧ futures w' = futures w
     ∧ next_future w' = next_future w ∧ clock w' = clock w.
Proof.
  intros Hw. unfold BloombergScraper.transition_to, StateMachine.transition_to.
  rewrite Hw. unfold _on_state_change, send_state_change, bind, gets.
  match goal with
  | |- context [send_event net ?c ?ev ?w0] =>
      destruct (send_event_effect c ev w0) as (w' & -> & Hm & Hf & Hn & Hc)
  end.
  do 2 eexists. split; [reflexivity|]. done.
Qed.

(** C8. When the operator sends no answer during the wait, the
    court-selection handler returns the first of [all_options] once the
    300 s of the wait have passed, and the last two lines logged are the
    two timeout warnings (the manager's and the handler's).  The options
    dict has its three keys and [all_options] is not empty, as
    [perform_search] guarantees before calling the handler; the future
    about to be created is not yet stored for anybody. *)
Theorem court_selection_timeout_uses_first_option
    (self : Self Env) (w : World) (user_input : string)
    (court_options : gmap string (list string)) (script : list Arrival)
    (first_option : string) (others exact_matches fuzzy_matches : list string) :
  wired net self →
  court_options !! "all_options" = Some (first_option :: others) →
  court_options !! "exact_matches" = Some exact_matches →
  court_options !! "fuzzy_matches" = Some fuzzy_matches →
  (∀ c f, pending_responses (manager w) !! c = Some f → f ≠ next_future w) →
  never_responds (client_id self) script →
  ∃ self' w',
    _handle_court_selection net user_input court_options script (self, w)
    = (Ok (JStr first_option), (self', w'))
    ∧ clock w' = clock w + seconds 300
    ∧ (∃ earlier,
         logs w' = earlier ++
           [(WARNING, "Timeout waiting for user response from "
                      +:+ client_id self);
            (WARNING, "Court selection timeout, using first option")])
    ∧ current_state (state_machine self') = AWAITING_COURT_SELECTION.
Proof.
  intros Hw Hall Hexact Hfuzzy Hfresh Hnever.
  unfold _handle_court_selection.
  unfold bind at 1.
  destruct (transition_to_wired self w AWAITING_COURT_SELECTION
              "Waiting for user to select court" Hw)
    as (sm' & w1 & -> & Hcur & Hm1 & Hf1 & Hn1 & Hc1).
  unfold bind at 1. unfold gets at 1. simpl.
  unfold getitem. rewrite Hall, Hexact, Hfuzzy.
  unfold bind at 1. unfold pure at 1.
  unfold bind at 1. unfold pure at 1.
  unfold bind at 1. unfold pure at 1.
  unfold bind at 1. unfold world at 1, zoom at 1. simpl.
  unfold send_court_selection, bind at 1, gets at 1.
  match goal with
  | |- context [send_event net ?c ?ev ?w0] =>
      destruct (send_event_effect c ev w0) as (w2 & -> & Hm2 & Hf2 & Hn2 & Hc2)
  end.
  unfold bind at 1. unfold world at 1, zoom at 1. simpl.
  unfold wait_for_user_response. unfold bind at 1.
  rewrite wait_for_user_response_register_eq.
  unfold try_finally, try_except. unfold bind at 1, gets at 1.
  match goal with
  | |- context [wait_for net ?f ?d ?sc ?w0] =>
      destruct (wait_for_times_out net f (client_id self) d sc Hnever w0)
        as (w3 & -> & Hc3 & Hp3 & Hn3)
  end.
  { split; simpl.
    - by rewrite lookup_insert_eq.
    - intros c. destruct (decide (client_id self = c)) as [->|Hne]; [done|].
      rewrite lookup_insert_ne by done. rewrite Hm2, Hm1, Hn2, Hn1.
      intros Hc. by apply Hfresh in Hc. }
  simpl in Hc3, Hp3, Hn3.
  unfold bind at 1, logger at 1, modify at 1. simpl.
  unfold wait_for_user_response_cleanup. simpl. rewrite Hp3.
  rewrite lookup_insert_eq. simpl.
  unfold bind at 1, world at 1, zoom at 1. simpl.
  unfold bind at 1, pure at 1.
  unfold bind at 1, pure at 1. simpl.
  do 2 eexists. split; [reflexivity|]. simpl.
  split; [lia|]. split; [|done].
  eexists. rewrite <- app_assoc. reflexivity.
Qed.

(** *** An answered selection, and options that are not all there *)

Lemma send_info_effect c msg (w : World) :
  ∃ w', send_info net c msg w = (Ok (), w').
Proof.
  unfold send_info, bind, gets.
  match goal with
  | |- context [send_event net ?c ?ev ?w0] =>
      destruct (send_event_effect c ev w0) as (w' & -> & _)
  end.
  by eexists.
Qed.

(** When the operator answers in time, the court-selection handler
    returns the string found at [data.selected_court] of the value the
    wait returned, that is at [data.data.selected_court] of the message;
    it is not compared with the options offered.  An answer that has no
    [data] inside its data selects nothing, and the handler returns the
    first of [all_options], as on a timeout. *)
Theorem court_selection_returns_the_operators_choice
    (self : Self Env) (w : World) (user_input : string)
    (court_options : gmap string (list string))
    (earlier later : list Arrival) (answer : Arrival)
    (fields response : list (string * json))
    (first_option : string) (others exact_matches fuzzy_matches : list string) :
  wired net self →
  court_options !! "all_options" = Some (first_option :: others) →
  court_options !! "exact_matches" = Some exact_matches →
  court_options !! "fuzzy_matches" = Some fuzzy_matches →
  (∀ c f, pending_responses (manager w) !! c = Some f → f ≠ next_future w) →
  never_responds (client_id self) earlier →
  Forall (λ a, at_time a < clock w + seconds 300) (earlier ++ [answer]) →
  sender answer = client_id self →
  received answer = Message (JDict fields) →
  assoc "type" fields = Some (JStr "user_response") →
  assoc "data" fields = Some (JDict response) →
  response ≠ [] →
  (∀ inner court,
     assoc "data" response = Some (JDict inner) →
     assoc "selected_court" inner = Some (JStr court) →
     court ≠ "" →
     (_handle_court_selection net user_input court_options
        (earlier ++ answer :: later) (self, w)).1 = Ok (JStr court))
  ∧ (assoc "data" response = None →
     (_handle_court_selection net user_input court_options
        (earlier ++ answer :: later) (self, w)).1 = Ok (JStr first_option)).
Proof.
  intros Hw Hall Hexact Hfuzzy Hfresh Hnever Htimes Hsender Hreceived Htype
    Hdata Hne.
  assert (∃ self1 w1,
            _handle_court_selection net user_input court_options
              (earlier ++ answer :: later) (self, w)
            = (let* data := pure (get (JDict response) "data" (JDict [])) in
               let* selected_court := pure (get data "selected_court" JNone) in
               let* selected_court :=
                 if negb (truthy selected_court) then
                   let* all_options :=
                     pure (getitem court_options "all_options") in
                   let* court := pure (first all_options) in
                   ret (JStr court)
                 else ret selected_court in
               (if is_str selected_court "__SKIP__" then
                  world (logger INFO
                    "User skipped court selection (manual selection in browser)") ;;
                  world (send_info net (client_id self)
                    "Skipped court selection - using manual browser selection")
                else
                  world (logger INFO "User selected court")) ;;
               ret selected_court) (self1, w1)) as (self1 & w1 & ->).
  { unfold _handle_court_selection.
    unfold bind at 1.
    destruct (transition_to_wired self w AWAITING_COURT_SELECTION
                "Waiting for user to select court" Hw)
      as (sm' & w1 & -> & Hcur & Hm1 & Hf1 & Hn1 & Hc1).
    unfold bind at 1. unfold gets at 1. simpl.
    unfold getitem at 1 2 3. rewrite Hall, Hexact, Hfuzzy.
    unfold bind at 1. unfold pure at 1.
    unfold bind at 1. unfold pure at 1.
    unfold bind at 1. unfold pure at 1.
    unfold bind at 1. unfold world at 1, zoom at 1. simpl.
    unfold send_court_selection, bind at 1, gets at 1.
    match goal with
    | |- context [send_event net ?c ?ev ?w0] =>
        destruct (send_event_effect c ev w0)
          as (w2 & -> & Hm2 & Hf2 & Hn2 & Hc2)
    end.
    unfold bind at 1. unfold world at 1, zoom at 1. simpl.
    destruct (wait_for_user_response_answered net (client_id self)
                (seconds 300) earlier later answer fields w2)
      as (w3 & -> & _); try done.
    - intros c f. rewrite Hm2, Hm1, Hn2, Hn1. apply Hfresh.
    - by rewrite Hc2, Hc1.
    - rewrite Hdata. simpl. destruct response as [|kv response]; [done|].
      simpl. by do 2 eexists. }
  split.
  - intros inner court Hinner Hcourt Hnonempty.
    unfold bind at 1, pure at 1. simpl. rewrite Hinner. simpl.
    unfold bind at 1, pure at 1. simpl. rewrite Hcourt. simpl.
    destruct (String.eqb_spec court "") as [?|_]; [done|]. simpl.
    unfold bind at 1, ret at 1.
    destruct (is_str (JStr court) "__SKIP__").
    + unfold bind, world, zoom, logger, modify. cbn [fst snd].
      match goal with
      | |- context [send_info net ?c ?m ?w0] =>
          destruct (send_info_effect c m w0) as (w' & ->)
      end.
      done.
    + done.
  - intros Hnone.
    unfold bind at 1, pure at 1. simpl. rewrite Hnone. simpl.
    unfold bind at 1, pure at 1. simpl.
    unfold getitem. rewrite Hall. unfold bind, pure, first, ret. simpl.
    destruct (String.eqb first_option "__SKIP__").
    + unfold world, zoom, logger, modify. cbn [fst snd].
      match goal with
      | |- context [send_info net ?c ?m ?w0] =>
          destruct (send_info_effect c m w0) as (w' & ->)
      end.
      done.
    + done.
Qed.

Lemma court_selection_missing_key (self : Self Env) (w : World)
    (user_input key : string) (court_options : gmap string (list string))
    (script : list Arrival) :
  wired net self →
  (let* all_options := pure (getitem court_options "all_options") in
   let* exact_matches := pure (getitem court_options "exact_matches") in
   let* fuzzy_matches := pure (getitem court_options "fuzzy_matches") in
   ret (all_options, exact_matches, fuzzy_matches)) (self, w)
  = (Raise (KeyError key), (self, w)) →
  ∃ self' w',
    _handle_court_selection net user_input court_options script (self, w)
    = (Raise (KeyError key), (self', w'))
    ∧ current_state (state_machine self') = AWAITING_COURT_SELECTION
    ∧ next_future w' = next_future w
    ∧ manager w' = manager w.
Proof.
  intros Hw Hkeys. unfold _handle_court_selection.
  unfold bind at 1.
  destruct (transition_to_wired self w AWAITING_COURT_SELECTION
              "Waiting for user to select court" Hw)
    as (sm' & w1 & -> & Hcur & Hm1 & Hf1 & Hn1 & Hc1).
  unfold bind at 1. unfold gets at 1. simpl.
  unfold bind, pure, ret in Hkeys. unfold bind, pure.
  destruct (getitem court_options "all_options") as [all|e].
  - destruct (getitem court_options "exact_matches") as [exact|e].
    + destruct (getitem court_options "fuzzy_matches") as [fuzzy|e];
        [done|].
      injection Hkeys as ->. by do 2 eexists.
    + injection Hkeys as ->. by do 2 eexists.
  - injection Hkeys as ->. by do 2 eexists.
Qed.

(** The handler reads its three keys right after the state change,
    before it sends the options or registers a wait: when one is
    missing it raises [KeyError] for the first one missing, in the
    state AWAITING_COURT_SELECTION, with no future created and the
    connection manager as it was.  With all three keys but no option at
    all, an unanswered wait ends in [IndexError]. *)
Theorem court_selection_needs_its_options
    (self : Self Env) (w : World) (user_input : string)
    (court_options : gmap string (list string)) (script : list Arrival) :
  wired net self →
  (court_options !! "all_options" = None →
   ∃ self' w',
     _handle_court_selection net user_input court_options script (self, w)
     = (Raise (KeyError "all_options"), (self', w'))
     ∧ current_state (state_machine self') = AWAITING_COURT_SELECTION
     ∧ next_future w' = next_future w
     ∧ manager w' = manager w)
  ∧ (is_Some (court_options !! "all_options") →
     court_options !! "exact_matches" = None →
     ∃ self' w',
       _handle_court_selection net user_input court_options script (self, w)
       = (Raise (KeyError "exact_matches"), (self', w'))
       ∧ current_state (state_machine self') = AWAITING_COURT_SELECTION
       ∧ next_future w' = next_future w
       ∧ manager w' = manager w)
  ∧ (is_Some (court_options !! "all_options") →
     is_Some (court_options !! "exact_matches") →
     court_options !! "fuzzy_matches" = None →
     ∃ self' w',
       _handle_court_selection net user_input court_options script (self, w)
       = (Raise (KeyError "fuzzy_matches"), (self', w'))
       ∧ current_state (state_machine self') = AWAITING_COURT_SELECTION
       ∧ next_future w' = next_future w
       ∧ manager w' = manager w)
  ∧ (∀ exact_matches fuzzy_matches,
       court_options !! "all_options" = Some [] →
       court_options !! "exact_matches" = Some exact_matches →
       court_options !! "fuzzy_matches" = Some fuzzy_matches →
       (∀ c f, pending_responses (manager w) !! c = Some f →
               f ≠ next_future w) →
       never_responds (client_id self) script →
       (_handle_court_selection net user_input court_options script
          (self, w)).1
       = Raise (IndexError "list index out of range")).
Proof.
  intros Hw. split; [|split; [|split]].
  - intros Hall. apply court_selection_missing_key; [done|].
    unfold bind, pure, getitem. by rewrite Hall.
  - intros [all Hall] Hexact. apply court_selection_missing_key; [done|].
    unfold bind, pure, getitem. by rewrite Hall, Hexact.
  - intros [all Hall] [exact Hexact] Hfuzzy.
    apply court_selection_missing_key; [done|].
    unfold bind, pure, getitem. by rewrite Hall, Hexact, Hfuzzy.
  - intros exact_matches fuzzy_matches Hall Hexact Hfuzzy Hfresh Hnever.
    unfold _handle_court_selection.
    unfold bind at 1.
    destruct (transition_to_wired self w AWAITING_COURT_SELECTION
                "Waiting for user to select court" Hw)
      as (sm' & w1 & -> & Hcur & Hm1 & Hf1 & Hn1 & Hc1).
    unfold bind at 1. unfold gets at 1. simpl.
    unfold getitem. rewrite Hall, Hexact, Hfuzzy.
    unfold bind at 1. unfold pure at 1.
    unfold bind at 1. unfold pure at 1.
    unfold bind at 1. unfold pure at 1.
    unfold bind at 1. unfold world at 1, zoom at 1. simpl.
    unfold send_court_selection, bind at 1, gets at 1.
    match goal with
    | |- context [send_event net ?c ?ev ?w0] =>
        destruct (send_event_effect c ev w0)
          as (w2 & -> & Hm2 & Hf2 & Hn2 & Hc2)
    end.
    unfold bind at 1. unfold world at 1, zoom at 1. simpl.
    unfold wait_for_user_response. unfold bind at 1.
    rewrite wait_for_user_response_register_eq.
    unfold try_finally, try_except. unfold bind at 1, gets at 1.
    match goal with
    | |- context [wait_for net ?f ?d ?sc ?w0] =>
        destruct (wait_for_times_out net f (client_id self) d sc Hnever w0)
          as (w3 & -> & Hc3 & Hp3 & Hn3)
    end.
    { split; simpl.
      - by rewrite lookup_insert_eq.
      - intros c. destruct (decide (client_id self = c)) as [->|Hne]; [done|].
        rewrite lookup_insert_ne by done. rewrite Hm2, Hm1, Hn2, Hn1.
        intros Hc. by apply Hfresh in Hc. }
    simpl in Hc3, Hp3, Hn3.
    unfold bind at 1, logger at 1, modify at 1. simpl.
    unfold wait_for_user_response_cleanup. simpl. rewrite Hp3.
    rewrite lookup_insert_eq. simpl. done.
Qed.

End Props.

Lemma court_selection_timeout_uses_first_option_witness :
  ∃ self' w',
    _handle_court_selection quiet "Nevada" nevada_options only_a_ping
      (BloombergScraper.__init__ quiet "session-1", connected_world)
    = (Ok (JStr "District of Nevada"), (self', w'))
    ∧ clock w' = clock connected_world + seconds 300
    ∧ (∃ earlier,
         logs w' = earlier ++
           [(WARNING, "Timeout waiting for user response from "
                      +:+ "session-1");
            (WARNING, "Court selection timeout, using first option")])
    ∧ current_state (state_machine self') = AWAITING_COURT_SELECTION.
Proof.
  apply (court_selection_timeout_uses_first_option quiet
           (BloombergScraper.__init__ quiet "session-1") connected_world
           "Nevada" nevada_options only_a_ping "District of Nevada"
           ["Nevada Supreme Court"] []
           ["District of Nevada"; "Nevada Supreme Court"]).
  - reflexivity.
  - vm_compute. reflexivity.
  - vm_compute. reflexivity.
  - vm_compute. reflexivity.
  - intros c f. simpl. rewrite lookup_empty. discriminate.
  - repeat constructor.
Defined.

Lemma court_selection_returns_the_operators_choice_witness :
  (_handle_court_selection quiet "Nevada" nevada_options
     (only_a_ping ++ court_answer :: [])
     (BloombergScraper.__init__ quiet "session-1", connected_world)).1
  = Ok (JStr "Nevada Supreme Court").
Proof.
  refine (proj1
    (court_selection_returns_the_operators_choice quiet
       (BloombergScraper.__init__ quiet "session-1") connected_world
       "Nevada" nevada_options only_a_ping [] court_answer
       court_answer_fields
       [("action", JStr "select_court");
        ("data", JDict [("selected_court", JStr "Nevada Supreme Court")])]
       "District of Nevada" ["Nevada Supreme Court"] []
       ["District of Nevada"; "Nevada Supreme Court"]
       _ _ _ _ _ _ _ _ _ _ _ _)
    [("selected_court", JStr "Nevada Supreme Court")]
    "Nevada Supreme Court" _ _ _).
  - reflexivity.
  - vm_compute. reflexivity.
  - vm_compute. reflexivity.
  - vm_compute. reflexivity.
  - intros c f. simpl. rewrite lookup_empty. discriminate.
  - repeat constructor.
  - repeat constructor; vm_compute; reflexivity.
  - reflexivity.
  - reflexivity.
  - reflexivity.
  - reflexivity.
  - discriminate.
  - reflexivity.
  - reflexivity.
  - discriminate.
Defined.

Lemma court_selection_needs_its_options_witness :
  ∃ self' w',
    _handle_court_selection quiet "Nevada" ∅ only_a_ping
      (BloombergScraper.__init__ quiet "session-1", connected_world)
    = (Raise (KeyError "all_options"), (self', w'))
    ∧ current_state (state_machine self') = AWAITING_COURT_SELECTION
    ∧ next_future w' = next_future connected_world
    ∧ manager w' = manager connected_world.
Proof.
  refine (proj1
    (court_selection_needs_its_options quiet
       (BloombergScraper.__init__ quiet "session-1") connected_world
       "Nevada" ∅ only_a_ping _) _).
  - reflexivity.
  - apply lookup_empty.
Defined.

End BloombergScraperProps.

(** ** Capturing the document *)

Module DocumentDetailHandlerProps.

Import DocumentDetailHandler Scenarios.

Section Props.

Context {Env : Type}.
Variable browser : Browser Env.
Variable self : Self.

Abbreviation State := (DocumentDetailHandler.State Env).

Section Respects.

Variable V : bytes → Prop.
Variable P : Call → Prop.
Variable Q : Write → Prop.

Abbreviation respects m := (@DocumentDetailHandler.respects Env V P Q _ m).

Lemma respects_quiet {A} (m : M State A) :
  (∀ s, calls (m s).2 = calls s ∧ files (m s).2 = files s
        ∧ captured_pdf_content (m s).2 = captured_pdf_content s) →
  respects m.
Proof.
  intros H s Hs. destruct (H s) as (Hc & Hf & Hcap). split; [|split].
  - intros b. rewrite Hcap. apply Hs.
  - exists []. by rewrite app_nil_r.
  - exists []. by rewrite app_nil_r.
Qed.

Lemma respects_ret {A} (a : A) : respects (ret a).
Proof. by apply respects_quiet. Qed.

Lemma respects_raise {A} e : respects (raise (A := A) e).
Proof. by apply respects_quiet. Qed.

Lemma respects_pure {A} (r : result A) : respects (λ s, (r, s)).
Proof. by apply respects_quiet. Qed.

Lemma respects_gets {A} (f : State → A) : respects (gets f).
Proof. by apply respects_quiet. Qed.

Lemma respects_logger l msg : respects (logger l msg).
Proof. by apply respects_quiet. Qed.

Lemma respects_sleep ms : respects (sleep ms).
Proof. by apply respects_quiet. Qed.

Lemma respects_set_clock (f : State → Z) :
  respects (modify (λ s, set_clock (f s) s)).
Proof. by apply respects_quiet. Qed.

Lemma respects_set_clock' t : respects (modify (set_clock t)).
Proof. by apply respects_quiet. Qed.

Lemma respects_set_page page : respects (modify (set_page page)).
Proof. by apply respects_quiet. Qed.

Lemma respects_notice_page page : respects (modify (notice_page page)).
Proof. by apply respects_quiet. Qed.

Lemma respects_fulfill r : respects (fulfill browser r).
Proof.
  apply respects_quiet. intros s. unfold fulfill.
  by destruct (route_fulfill browser r (env s)).
Qed.

Lemma respects_continue : respects (continue_ browser).
Proof.
  apply respects_quiet. intros s. unfold continue_.
  by destruct (route_continue browser (env s)).
Qed.

Lemma respects_capture content :
  V content → respects (modify (capture content)).
Proof.
  intros Hc s Hs. split; [|split].
  - intros b [= <-]. done.
  - exists []. by rewrite app_nil_r.
  - exists []. by rewrite app_nil_r.
Qed.

Lemma respects_call {A} c (f : Env → result A * Env) :
  P c → respects (call c f).
Proof.
  intros Hc s Hs. unfold call. destruct (f (env s)) as [r e]. simpl.
  split; [done|]. split.
  - exists [c]. split; [done|]. by constructor.
  - exists []. by rewrite app_nil_r.
Qed.

Lemma respects_add_file f : Q f → respects (modify (add_file f)).
Proof.
  intros Hf s Hs. split; [done|]. split.
  - exists []. by rewrite app_nil_r.
  - exists [f]. split; [done|]. by constructor.
Qed.

Lemma respects_bind {A B} (m : M State A) (k : A → M State B) :
  respects m → (∀ a, respects (k a)) → respects (bind m k).
Proof.
  intros Hm Hk s Hs. unfold bind.
  destruct (Hm s Hs) as (H1 & (l1 & Hc1 & HP1) & (f1 & Hf1 & HQ1)).
  destruct (m s) as [[a|e] s1]; simpl in *.
  - destruct (Hk a s1 H1) as (H2 & (l2 & Hc2 & HP2) & (f2 & Hf2 & HQ2)).
    split; [done|]. split.
    + exists (l1 ++ l2). rewrite Hc2, Hc1, app_assoc. split; [done|].
      by apply Forall_app.
    + exists (f1 ++ f2). rewrite Hf2, Hf1, app_assoc. split; [done|].
      by apply Forall_app.
  - eauto 10.
Qed.

Lemma respects_try_except {A} (m : M State A) (h : exn → M State A) :
  respects m → (∀ e, respects (h e)) → respects (try_except m h).
Proof.
  intros Hm Hh s Hs. unfold try_except.
  destruct (Hm s Hs) as (H1 & (l1 & Hc1 & HP1) & (f1 & Hf1 & HQ1)).
  destruct (m s) as [[a|e] s1]; simpl in *.
  - eauto 10.
  - destruct (Hh e s1 H1) as (H2 & (l2 & Hc2 & HP2) & (f2 & Hf2 & HQ2)).
    split; [done|]. split.
    + exists (l1 ++ l2). rewrite Hc2, Hc1, app_assoc. split; [done|].
      by apply Forall_app.
    + exists (f1 ++ f2). rewrite Hf2, Hf1, app_assoc. split; [done|].
      by apply Forall_app.
Qed.

Lemma respects_try_finally {A} (m : M State A) (c : M State unit) :
  respects m → respects c → respects (try_finally m c).
Proof.
  intros Hm Hc s Hs. unfold try_finally.
  destruct (Hm s Hs) as (H1 & (l1 & Hc1 & HP1) & (f1 & Hf1 & HQ1)).
  destruct (m s) as [r s1]; simpl in *.
  destruct (Hc s1 H1) as (H2 & (l2 & Hc2 & HP2) & (f2 & Hf2 & HQ2)).
  assert (calls (c s1).2 = calls s ++ (l1 ++ l2)) as Hcalls
    by (by rewrite Hc2, Hc1, app_assoc).
  assert (files (c s1).2 = files s ++ (f1 ++ f2)) as Hfiles
    by (by rewrite Hf2, Hf1, app_assoc).
  destruct (c s1) as [[[]|e] s2]; simpl in *;
    (split; [done|]; split;
     [exists (l1 ++ l2); split; [done|]; by apply Forall_app
     |exists (f1 ++ f2); split; [done|]; by apply Forall_app]).
Qed.

Lemma respects_bind_ok {A B} (a : A) (k : A → M State B) :
  respects (k a) → respects (bind (λ s, (Ok a, s)) k).
Proof. intros Hk s Hs. unfold bind. by apply Hk. Qed.

Lemma respects_bind_raise {A B} e (k : A → M State B) :
  respects (bind (λ s, (Raise e, s)) k).
Proof. by apply respects_quiet. Qed.

(** Reading [captured_pdf_content] gives content that satisfies [V]. *)
Lemma respects_captured {A} (k : option bytes → M State A) :
  (∀ c, (∀ b, c = Some b → V b) → respects (k c)) →
  respects (bind (gets captured_pdf_content) k).
Proof.
  intros Hk s Hs. unfold bind, gets. apply Hk; [|done].
  intros b Hb. by apply Hs.
Qed.

End Respects.

Ltac resp_step :=
  lazymatch goal with
  | |- DocumentDetailHandler.respects _ _ _ ?m =>
      lazymatch m with
      | ret _ => apply respects_ret
      | raise _ => apply respects_raise
      | gets _ => apply respects_gets
      | logger _ _ => apply respects_logger
      | sleep _ => apply respects_sleep
      | modify (set_clock _) => apply respects_set_clock'
      | modify (λ s, set_clock _ s) => apply respects_set_clock
      | modify (set_page _) => apply respects_set_page
      | modify (notice_page _) => apply respects_notice_page
      | modify (capture _) => apply respects_capture
      | modify (add_file _) => apply respects_add_file
      | write_file _ _ => apply respects_add_file
      | fulfill _ _ => apply respects_fulfill
      | continue_ _ => apply respects_continue
      | call _ _ => apply respects_call
      | bind (gets captured_pdf_content) _ =>
          apply respects_captured; intros ? ?
      | bind (λ s, (Ok _, s)) _ => apply respects_bind_ok
      | bind (λ s, (Raise _, s)) _ => apply respects_bind_raise
      | bind _ _ => apply respects_bind; [|intros ?]
      | try_except _ _ => apply respects_try_except; [|intros ?]
      | try_finally _ _ => apply respects_try_finally
      | (λ s, (_, s)) => apply respects_pure
      | match ?x with _ => _ end => destruct x eqn:?
      end
  end.

Ltac resp := repeat resp_step; try done.

(** *** The callbacks and the waits *)

Section Race.

Variable V : bytes → Prop.

Abbreviation holds P Q m := (@DocumentDetailHandler.respects Env V P Q _ m).

Lemma respects_intercept P Q page url fetched :
  capturable V (Requested page url fetched) →
  holds P Q (intercept_pdf_response browser url fetched).
Proof.
  intros HV. unfold intercept_pdf_response.
  destruct fetched as [response|e]; resp.
  by apply HV.
Qed.

Lemma respects_dispatch P Q (h : M State unit) :
  holds P Q h → holds P Q (dispatch h).
Proof. intros. unfold dispatch. resp. Qed.

Lemma respects_on_page P Q page : holds P Q (on_page page).
Proof. unfold on_page. resp. Qed.

Lemma respects_wait_first_completed P Q deadline events :
  Forall (capturable V) events.*2 →
  holds P Q (wait_first_completed browser deadline events).
Proof.
  induction events as [|[t ev] events IH]; intros HV s Hs; simpl.
  - destruct (new_page_event s || pdf_captured_event s);
      [by apply respects_ret | by apply respects_set_clock'].
  - apply Forall_cons in HV as [Hev HV].
    destruct (new_page_event s || pdf_captured_event s);
      [by apply respects_ret|].
    destruct (t <? deadline); [|by apply respects_set_clock'].
    revert s Hs. change (holds P Q
      (modify (λ s, set_clock (Z.max (clock s) t) s) ;;
       match ev with
       | PageOpened page => dispatch (on_page page)
       | Requested _ url fetched =>
           dispatch (intercept_pdf_response browser url fetched)
       end ;;
       wait_first_completed browser deadline events)).
    resp.
    + apply respects_dispatch, respects_on_page.
    + eapply respects_dispatch, respects_intercept. by subst.
    + by apply IH.
Qed.

Lemma respects_page_events P Q page events :
  Forall (capturable V) events →
  holds P Q (page_events browser page events).
Proof.
  induction 1 as [|[p|p url fetched] events Hev _ IH]; simpl; resp.
  by eapply respects_dispatch, respects_intercept.
Qed.

Abbreviation sound m :=
  (@DocumentDetailHandler.respects Env V after_trigger
     (intercepted_or_saved V) _ m).

Lemma sound_save_download filepath download :
  sound (save_download browser filepath download).
Proof. unfold save_download. resp. Qed.

Lemma sound_try_download_buttons page filepath selectors :
  sound (try_download_buttons browser page filepath selectors).
Proof.
  induction selectors as [|sel selectors IH]; simpl; resp.
  apply sound_save_download.
Qed.

Lemma sound_download_from_pdf_viewer page filepath :
  sound (_download_from_pdf_viewer browser page filepath).
Proof.
  unfold _download_from_pdf_viewer. resp.
  - apply sound_save_download.
  - apply sound_try_download_buttons.
Qed.

Lemma sound_handle_popup new_page filepath while_loading while_settling :
  Forall (capturable V) while_loading →
  Forall (capturable V) while_settling →
  sound (handle_popup browser new_page filepath while_loading while_settling).
Proof.
  intros Hl Hs. unfold handle_popup. resp.
  all: try (by apply respects_page_events).
  all: try apply sound_download_from_pdf_viewer.
  unfold intercepted_or_saved. by apply H.
Qed.

Lemma sound_check_original_page original_page filepath :
  sound (check_original_page browser original_page filepath).
Proof.
  unfold check_original_page. resp. apply sound_download_from_pdf_viewer.
Qed.

Lemma sound_after_wait original_page filepath while_loading while_settling :
  Forall (capturable V) while_loading →
  Forall (capturable V) while_settling →
  sound (after_wait browser original_page filepath while_loading
           while_settling).
Proof.
  intros Hl Hs. unfold after_wait. resp.
  all: try (by apply sound_handle_popup).
  all: try apply sound_check_original_page.
  unfold intercepted_or_saved. by apply H.
Qed.

Lemma shape_app page l l' :
  shape self page l → Forall neutral l' → shape self page (l ++ l').
Proof.
  intros [Hb | (rest & -> & Ha)] Hn.
  - left. apply Forall_app. split; [done|].
    eapply Forall_impl; [done|]. by intros c [].
  - right. exists (rest ++ l'). rewrite app_assoc. split; [done|].
    apply Forall_app. split; [done|].
    eapply Forall_impl; [done|]. by intros c [].
Qed.

Lemma Forall_no_file l : Forall no_file l → l = [].
Proof. destruct l; [done|]. by inversion 1. Qed.

Lemma arm_click_and_wait_calls page after_click (s s' : State) r :
  Forall (capturable V) after_click.*2 →
  captured_ok V s →
  arm_click_and_wait browser self page after_click s = (r, s') →
  captured_ok V s' ∧ files s' = files s
  ∧ ((is_ok r = false
      ∧ ∃ l, calls s' = calls s ++ l ∧ Forall before_trigger l)
     ∨ ∃ rest,
         calls s'
         = calls s ++ [ContextRoute; Evaluate page;
                       Click page (view_document_button self)] ++ rest
         ∧ Forall after_trigger rest).
Proof.
  intros HV Hs. unfold arm_click_and_wait, try_finally, try_except.
  unfold bind, call, logger, modify, gets, ret. simpl.
  destruct (context_route browser (env s)) as [[[]|e] e1]; simpl.
  2:{ destruct (context_unroute browser e1) as [[[]|e'] e2]; simpl;
        intros [= <- <-]; simpl;
        (split; [done|]; split; [done|]; left; split; [done|];
         eexists; split; [by rewrite <- !app_assoc|]);
        repeat constructor; done. }
  destruct (evaluate browser page e1) as [[v|e] e2]; simpl.
  2:{ destruct (context_unroute browser e2) as [[[]|e'] e3]; simpl;
        intros [= <- <-]; simpl;
        (split; [done|]; split; [done|]; left; split; [done|];
         eexists; split; [by rewrite <- !app_assoc|]);
        repeat constructor; done. }
  destruct (click browser page _ e2) as [[[]|e] e3]; simpl.
  2:{ destruct (context_unroute browser e3) as [[[]|e'] e4]; simpl;
        intros [= <- <-]; simpl;
        (split; [done|]; split; [done|]; right;
         eexists; split; [by rewrite <- !app_assoc|]);
        repeat constructor; done. }
  match goal with
  | |- context [wait_first_completed browser ?d after_click ?s0] =>
      pose proof (respects_wait_first_completed after_trigger no_file
                    d after_click HV s0 Hs)
        as (Hcap & (l & Hl & HPl) & (fs & Hfs & HQ));
      apply Forall_no_file in HQ; subst fs; rewrite app_nil_r in Hfs;
      destruct (wait_first_completed browser d after_click s0) as [rw sw]
  end.
  simpl in *.
  assert (∃ rw', (match rw with Ok a => (Ok a, sw) | Raise _ => (Ok (), sw) end)
                 = (rw', sw)) as [rw' ->] by (destruct rw; eauto).
  simpl.
  destruct (context_unroute browser (env sw)) as [[[]|e'] e4]; simpl;
    intros [= <- <-]; simpl;
    (split; [done|]; split; [done|]; right;
     exists (l ++ [ContextRemoveListener; ContextUnroute]);
     split; [rewrite Hl; by rewrite <- !app_assoc|]);
    (apply Forall_app; split; [done|]; repeat constructor; done).
Qed.

Abbreviation staged page m :=
  (@DocumentDetailHandler.staged Env self V page _ m).

Lemma staged_try_except {A} page (m : M State A) h :
  staged page m → (∀ e, holds neutral (intercepted_or_saved V) (h e)) →
  staged page (try_except m h).
Proof.
  intros Hm Hh s Hs. unfold try_except.
  destruct (Hm s Hs) as (H1 & (l1 & Hc1 & HP1) & (f1 & Hf1 & HQ1)).
  destruct (m s) as [[a|e] s1]; simpl in *.
  - eauto 10.
  - destruct (Hh e s1 H1) as (H2 & (l2 & Hc2 & HP2) & (f2 & Hf2 & HQ2)).
    split; [done|]. split.
    + exists (l1 ++ l2). rewrite Hc2, Hc1, app_assoc. split; [done|].
      by apply shape_app.
    + exists (f1 ++ f2). rewrite Hf2, Hf1, app_assoc. split; [done|].
      by apply Forall_app.
Qed.

Lemma staged_try_finally {A} page (m : M State A) c :
  staged page m → holds neutral (intercepted_or_saved V) c →
  staged page (try_finally m c).
Proof.
  intros Hm Hc s Hs. unfold try_finally.
  destruct (Hm s Hs) as (H1 & (l1 & Hc1 & HP1) & (f1 & Hf1 & HQ1)).
  destruct (m s) as [r s1]; simpl in *.
  destruct (Hc s1 H1) as (H2 & (l2 & Hc2 & HP2) & (f2 & Hf2 & HQ2)).
  assert (calls (c s1).2 = calls s ++ (l1 ++ l2)) as Hcalls
    by (by rewrite Hc2, Hc1, app_assoc).
  assert (files (c s1).2 = files s ++ (f1 ++ f2)) as Hfiles
    by (by rewrite Hf2, Hf1, app_assoc).
  destruct (c s1) as [[[]|e] s2]; simpl in *;
    (split; [done|]; split;
     [exists (l1 ++ l2); split; [done|]; by apply shape_app
     |exists (f1 ++ f2); split; [done|]; by apply Forall_app]).
Qed.

Lemma staged_click_and_capture page filepath after_click while_loading
    while_settling :
  Forall (capturable V) after_click.*2 →
  Forall (capturable V) while_loading →
  Forall (capturable V) while_settling →
  staged page (click_and_capture browser self page filepath after_click
                 while_loading while_settling).
Proof.
  intros HVa HVl HVs s Hs.
  destruct (click_and_capture browser self page filepath after_click
              while_loading while_settling s) as [r' s'] eqn:Heq.
  simpl. revert Heq. unfold click_and_capture.
  unfold bind at 1, logger at 1, modify at 1.
  unfold bind at 1, call at 1. simpl.
  destruct (wait_for_selector browser page _ (env s)) as [[[]|e] e1]; simpl.
  2:{ intros [= <- <-]. split; [done|]. split.
      - eexists. split; [done|]. left. repeat constructor; done.
      - exists []. by rewrite app_nil_r. }
  unfold bind at 1, call at 1. simpl.
  destruct (context_pages browser e1) as [[pages|e] e2]; simpl.
  2:{ intros [= <- <-]. split; [done|]. split.
      - eexists. split; [simpl; by rewrite <- ?app_assoc|]. left.
        repeat constructor; done.
      - exists []. by rewrite app_nil_r. }
  unfold bind at 1, logger at 1, modify at 1.
  unfold bind at 1, call at 1. simpl.
  unfold bind at 1.
  match goal with
  | |- context [arm_click_and_wait browser self page after_click ?s0] =>
      destruct (arm_click_and_wait browser self page after_click s0)
        as [r s1] eqn:Harm;
      apply arm_click_and_wait_calls in Harm as (Hcap & Hfiles & Hcalls);
      [|done|done]
  end.
  simpl in Hfiles, Hcalls.
  destruct Hcalls as [(Hr & l & Hl & HPl) | (rest & Hl & HPl)].
  - destruct r as [[]|e]; [done|]. intros [= <- <-]. split; [done|]. split.
    + eexists. split; [rewrite Hl; simpl; by rewrite <- ?app_assoc|]. left.
      simpl. repeat (constructor; [done|]). done.
    + exists []. by rewrite app_nil_r, Hfiles.
  - destruct r as [[]|e]; simpl.
    + destruct (sound_after_wait page filepath while_loading while_settling
                  HVl HVs s1 Hcap)
        as (H2 & (l2 & Hc2 & HP2) & (f2 & Hf2 & HQ2)).
      intros Heq. rewrite Heq in H2, Hc2, Hf2. simpl in H2, Hc2, Hf2.
      split; [done|]. split.
      * exists (armed_then_clicked self page ++ (rest ++ l2)).
        rewrite Hc2, Hl. split; [simpl; by rewrite <- ?app_assoc|].
        right. eexists. split; [done|]. by apply Forall_app.
      * exists f2. by rewrite Hf2, Hfiles.
    + intros [= <- <-]. split; [done|]. split.
      * exists (armed_then_clicked self page ++ rest).
        rewrite Hl. split; [simpl; by rewrite <- ?app_assoc|].
        right. by eexists.
      * exists []. by rewrite app_nil_r, Hfiles.
Qed.

End Race.

Lemma capturable_offered events all :
  events ⊆ all → Forall (capturable (pdf_offered all)) events.
Proof.
  intros Hsub. apply Forall_forall. intros ev Hev content Hb Hpdf.
  split; [done|]. unfold offered. apply list_elem_of_omap.
  exists ev. split; [|done]. by apply Hsub.
Qed.

(** Everything the browser does during one call of
    [click_view_document_and_download]. *)
Abbreviation everything after_click while_loading while_settling :=
  (after_click.*2 ++ while_loading ++ while_settling).

Lemma click_view_document_and_download_staged case_number doc_number
    after_click while_loading while_settling (s : State) :
  let out := click_view_document_and_download browser self case_number
               doc_number after_click while_loading while_settling s in
  (∃ l, calls out.2 = calls s ++ l ∧ shape self (current_page s) l)
  ∧ (∃ l, files out.2 = files s ++ l
          ∧ Forall (intercepted_or_saved
                      (pdf_offered (everything after_click while_loading
                                      while_settling))) l).
Proof.
  unfold click_view_document_and_download.
  unfold bind at 1, gets at 1. unfold bind at 1, modify at 1.
  set (V := pdf_offered (everything after_click while_loading while_settling)).
  match goal with
  | |- context [try_finally ?m ?c (fresh_locals s)] =>
      assert (@DocumentDetailHandler.staged Env self V (current_page s) _
                (try_finally m c)) as Hst
  end.
  { apply staged_try_finally.
    - apply staged_try_except.
      + apply staged_click_and_capture; apply capturable_offered;
          intros ev Hev; rewrite !elem_of_app; auto.
      + intros e. resp.
    - resp. all: repeat split; done. }
  destruct (Hst (fresh_locals s)) as (_ & Hc & Hf); [done|]. done.
Qed.

Lemma split_at_trigger (l1 l2 pre post : list Call) (x y : Call) :
  Forall (λ c, triggers c = false) l1 →
  triggers y = true →
  Forall (λ c, triggers c = false) l2 →
  triggers x = true →
  l1 ++ y :: l2 = pre ++ x :: post →
  pre = l1 ∧ post = l2.
Proof.
  intros H1 Hy H2 Hx. revert pre.
  induction H1 as [|c l1 Hc H1 IH]; intros pre Heq.
  - destruct pre as [|p pre]; simpl in Heq.
    + by injection Heq as _ <-.
    + injection Heq as <- Heq. rewrite Heq in H2.
      apply Forall_app in H2 as [_ H2]. inversion H2; congruence.
  - destruct pre as [|p pre]; simpl in Heq.
    + injection Heq as -> _. congruence.
    + injection Heq as <- Heq. destruct (IH pre Heq) as [-> ->]. done.
Qed.


Lemma download_pdf_from_url_writes pdf_url case_number doc_number (s : State) :
  let out := download_pdf_from_url browser self pdf_url case_number
               doc_number s in
  (out.1 = Ok None ∧ files out.2 = files s)
  ∨ ∃ content,
      out.1 = Ok (Some (filepath self case_number doc_number))
      ∧ files out.2
        = files s ++ [Written (filepath self case_number doc_number) content]
      ∧ (100 ≤ length content)%nat
      ∧ (startswith content PDF_MAGIC = true
         ∨ startswith content LESS_THAN = false).
Proof.
  destruct (download_pdf_from_url browser self pdf_url case_number
              doc_number s) as [r s'] eqn:Heq.
  simpl. revert Heq.
  unfold download_pdf_from_url, try_except, bind, call, logger, modify,
    write_file, ret.
  simpl.
  destruct (context_cookies browser (env s)) as [[cookies|e] e1]; simpl;
    [|intros [= <- <-]; by left].
  destruct (session_get browser pdf_url cookies e1) as [[resp|e] e2]; simpl;
    [|intros [= <- <-]; by left].
  destruct (status resp =? 200); [|intros [= <- <-]; by left].
  destruct (length (body resp) <? 100)%nat eqn:Hlen;
    [intros [= <- <-]; by left|].
  apply Nat.ltb_ge in Hlen.
  destruct (startswith (body resp) PDF_MAGIC) eqn:Hpdf; simpl.
  - intros [= <- <-]. right. exists (body resp). auto.
  - destruct (startswith (body resp) LESS_THAN) eqn:Hlt; simpl;
      intros [= <- <-]; [by left|].
    right. exists (body resp). auto.
Qed.


(** *** What a returned path stands for *)

Section Delivery.

Variable target : string.

Abbreviation at_target := (λ f : Write, path_of f = target).
Abbreviation only m :=
  (@DocumentDetailHandler.respects Env (λ _, True) (λ _, True) at_target _ m).
Abbreviation writes m := (@DocumentDetailHandler.writes Env target _ m).
Abbreviation delivers b m := (@DocumentDetailHandler.delivers Env b target m).

Lemma only_files {A} (m : M State A) (s : State) :
  only m → ∃ l, files (m s).2 = files s ++ l ∧ Forall at_target l.
Proof. intros Hm. by destruct (Hm s) as (_ & _ & ?). Qed.

Lemma delivers_ret_none b : delivers b (ret None).
Proof. intros s. exists []. rewrite app_nil_r. by repeat split. Qed.

Lemma delivers_ret_target : delivers true (ret (Some target)).
Proof.
  intros s. exists []. rewrite app_nil_r. split; [done|]. split; [done|].
  intros path [= <-]. auto.
Qed.

Lemma delivers_before b m : delivers b m → delivers true m.
Proof.
  intros Hm s. destruct (Hm s) as (l & Hl & Hat & Hp).
  exists l. split; [done|]. split; [done|].
  intros path Hpath. destruct (Hp path Hpath). auto.
Qed.

Lemma delivers_bind {A} b (m : M State A) (k : A → M State (option string)) :
  only m → (∀ a, delivers b (k a)) → delivers b (bind m k).
Proof.
  intros Hm Hk s. unfold bind.
  destruct (only_files m s Hm) as (l1 & Hl1 & Hat1).
  destruct (m s) as [[a|e] s1]; simpl in *.
  - destruct (Hk a s1) as (l2 & Hl2 & Hat2 & Hp).
    exists (l1 ++ l2). rewrite Hl2, Hl1, app_assoc. split; [done|].
    split; [by apply Forall_app|].
    intros path Hpath. destruct (Hp path Hpath) as [-> [->|Hne]]; auto.
    split; [done|]. right. by destruct l1, l2.
  - exists l1. by repeat split.
Qed.

Lemma delivers_bind_written {A} b (m : M State A)
    (k : A → M State (option string)) :
  writes m → (∀ a, delivers true (k a)) → delivers b (bind m k).
Proof.
  intros Hm Hk s. unfold bind.
  destruct (Hm s) as (l1 & Hl1 & Hat1 & Hne).
  destruct (m s) as [[a|e] s1]; simpl in *.
  - destruct (Hk a s1) as (l2 & Hl2 & Hat2 & Hp).
    exists (l1 ++ l2). rewrite Hl2, Hl1, app_assoc. split; [done|].
    split; [by apply Forall_app|].
    intros path Hpath. destruct (Hp path Hpath) as [-> _].
    split; [done|]. right. specialize (Hne eq_refl). by destruct l1.
  - exists l1. by repeat split.
Qed.

Lemma delivers_try_except b (m : M State (option string)) h :
  delivers b m → (∀ e, delivers b (h e)) → delivers b (try_except m h).
Proof.
  intros Hm Hh s. unfold try_except.
  destruct (Hm s) as (l1 & Hl1 & Hat1 & Hp1).
  destruct (m s) as [[a|e] s1]; simpl in *.
  - by exists l1.
  - destruct (Hh e s1) as (l2 & Hl2 & Hat2 & Hp2).
    exists (l1 ++ l2). rewrite Hl2, Hl1, app_assoc. split; [done|].
    split; [by apply Forall_app|].
    intros path Hpath. destruct (Hp2 path Hpath) as [-> [->|Hne]]; auto.
    split; [done|]. right. by destruct l1, l2.
Qed.

Lemma delivers_try_finally b (m : M State (option string)) c :
  delivers b m → only c → delivers b (try_finally m c).
Proof.
  intros Hm Hc s. unfold try_finally.
  destruct (Hm s) as (l1 & Hl1 & Hat1 & Hp1).
  destruct (m s) as [r s1]; simpl in *.
  destruct (only_files c s1 Hc) as (l2 & Hl2 & Hat2).
  destruct (c s1) as [[[]|e] s2]; simpl in *;
    exists (l1 ++ l2); rewrite Hl2, Hl1, app_assoc;
    (split; [done|]); (split; [by apply Forall_app|]); [|done].
  intros path Hpath. destruct (Hp1 path Hpath) as [-> [->|Hne]]; auto.
  split; [done|]. right. by destruct l1.
Qed.

(** A path found by [m] is passed on by [found]; without one, [missing]
    goes on looking. *)
Lemma delivers_found b (m : M State (option string))
    (found : string → M State (option string)) missing :
  delivers b m → delivers true (found target) → delivers b missing →
  delivers b (bind m (λ o, match o with
                           | Some path => found path
                           | None => missing
                           end)).
Proof.
  intros Hm Hfound Hmissing s. unfold bind.
  destruct (Hm s) as (l1 & Hl1 & Hat1 & Hp1).
  destruct (m s) as [[[path|]|e] s1]; simpl in *.
  - destruct (Hp1 path eq_refl) as [-> Hwritten].
    destruct (Hfound s1) as (l2 & Hl2 & Hat2 & Hp2).
    exists (l1 ++ l2). rewrite Hl2, Hl1, app_assoc. split; [done|].
    split; [by apply Forall_app|].
    intros path Hpath. destruct (Hp2 path Hpath) as [-> _].
    split; [done|]. destruct Hwritten as [->|Hne]; [by left|].
    right. by destruct l1.
  - destruct (Hmissing s1) as (l2 & Hl2 & Hat2 & Hp2).
    exists (l1 ++ l2). rewrite Hl2, Hl1, app_assoc. split; [done|].
    split; [by apply Forall_app|].
    intros path Hpath. destruct (Hp2 path Hpath) as [-> [->|Hne]]; auto.
    split; [done|]. right. by destruct l1, l2.
  - exists l1. by repeat split.
Qed.

Lemma writes_write_file content : writes (write_file target content).
Proof.
  intros s. exists [Written target content]. split; [done|].
  split; [by repeat constructor|done].
Qed.

Lemma writes_save_download download :
  writes (save_download browser target download).
Proof.
  intros s. unfold save_download, bind, call, modify.
  destruct (save_as browser target (env s)) as [[[]|e] e1]; simpl.
  - exists [Saved target download]. split; [done|].
    split; [by repeat constructor|done].
  - exists []. rewrite app_nil_r. by repeat split.
Qed.

Ltac deliver_step :=
  lazymatch goal with
  | |- DocumentDetailHandler.delivers _ _ ?m =>
      lazymatch m with
      | ret None => apply delivers_ret_none
      | ret (Some _) => apply delivers_ret_target
      | bind (write_file _ _) _ =>
          apply delivers_bind_written; [apply writes_write_file|intros ?]
      | bind (save_download _ _ _) _ =>
          apply delivers_bind_written; [apply writes_save_download|intros ?]
      | try_except _ _ => apply delivers_try_except; [|intros ?]
      | bind _ (λ o, match o with Some path => _ | None => _ end) =>
          first [ apply delivers_found
                | apply delivers_bind; [resp|intros ?] ]
      | bind _ _ => apply delivers_bind; [resp|intros ?]
      | match ?x with _ => _ end => destruct x eqn:?
      end
  end.

Ltac deliver := repeat deliver_step.

Lemma delivers_try_download_buttons b page selectors :
  delivers b (try_download_buttons browser page target selectors).
Proof.
  induction selectors as [|sel selectors IH]; simpl; deliver. done.
Qed.

Lemma delivers_download_from_pdf_viewer b page :
  delivers b (_download_from_pdf_viewer browser page target).
Proof.
  unfold _download_from_pdf_viewer. deliver.
  apply delivers_try_download_buttons.
Qed.

Lemma only_page_events page events : only (page_events browser page events).
Proof.
  apply respects_page_events. apply Forall_forall. by intros ev _ content.
Qed.

Lemma delivers_handle_popup new_page while_loading while_settling :
  delivers false
    (handle_popup browser new_page target while_loading while_settling).
Proof.
  unfold handle_popup. deliver.
  all: try apply only_page_events.
  all: try apply delivers_download_from_pdf_viewer.
Qed.

Lemma delivers_check_original_page original_page :
  delivers false (check_original_page browser original_page target).
Proof.
  unfold check_original_page. deliver.
  apply delivers_download_from_pdf_viewer.
Qed.

Lemma delivers_after_wait original_page while_loading while_settling :
  delivers false
    (after_wait browser original_page target while_loading while_settling).
Proof.
  unfold after_wait. deliver.
  all: try apply delivers_handle_popup.
  all: try apply delivers_check_original_page.
Qed.

Lemma only_arm_click_and_wait original_page after_click :
  only (arm_click_and_wait browser self original_page after_click).
Proof.
  unfold arm_click_and_wait. resp.
  apply respects_wait_first_completed. apply Forall_forall.
  by intros ev _ content.
Qed.

Lemma delivers_click_and_capture original_page after_click while_loading
    while_settling :
  delivers false
    (click_and_capture browser self original_page target after_click
       while_loading while_settling).
Proof.
  unfold click_and_capture. deliver.
  - apply only_arm_click_and_wait.
  - apply delivers_after_wait.
Qed.

(** The methods that end in one of the above or in
    [download_pdf_from_url], for the path they build themselves. *)

Variable forms : Forms Env.
Variables case_number doc_number : string.
Hypothesis Htarget : target = filepath self case_number doc_number.

Lemma delivers_truthy b (m : M State (option string))
    (found : string → M State (option string)) missing :
  delivers b m → delivers true (found target) → delivers b missing →
  delivers b (bind m (λ o, match if_truthy o with
                           | Some path => found path
                           | None => missing
                           end)).
Proof.
  intros Hm Hfound Hmissing s. unfold bind.
  destruct (Hm s) as (l1 & Hl1 & Hat1 & Hp1).
  destruct (m s) as [[[path|]|e] s1]; simpl in *.
  - destruct (Hp1 path eq_refl) as [-> Hwritten].
    destruct (String.eqb target "").
    + destruct (Hmissing s1) as (l2 & Hl2 & Hat2 & Hp2).
      exists (l1 ++ l2). rewrite Hl2, Hl1, app_assoc. split; [done|].
      split; [by apply Forall_app|].
      intros path Hpath. destruct (Hp2 path Hpath) as [-> [->|Hne]]; auto.
      split; [done|]. right. by destruct l1, l2.
    + destruct (Hfound s1) as (l2 & Hl2 & Hat2 & Hp2).
      exists (l1 ++ l2). rewrite Hl2, Hl1, app_assoc. split; [done|].
      split; [by apply Forall_app|].
      intros path Hpath. destruct (Hp2 path Hpath) as [-> _].
      split; [done|]. destruct Hwritten as [->|Hne]; [by left|].
      right. by destruct l1.
  - destruct (Hmissing s1) as (l2 & Hl2 & Hat2 & Hp2).
    exists (l1 ++ l2). rewrite Hl2, Hl1, app_assoc. split; [done|].
    split; [by apply Forall_app|].
    intros path Hpath. destruct (Hp2 path Hpath) as [-> [->|Hne]]; auto.
    split; [done|]. right. by destruct l1, l2.
  - exists l1. by repeat split.
Qed.

Lemma only_ask {A} (f : Env → result A * Env) : only (ask f).
Proof.
  apply respects_quiet. intros s. unfold ask. by destruct (f (env s)).
Qed.

Lemma only_submit_form form_info :
  only (submit_form_and_get_pdf_url forms form_info).
Proof.
  apply respects_quiet. intros s. unfold submit_form_and_get_pdf_url.
  by destruct (submit_form forms form_info (env s)).
Qed.

Lemma only_get_view_document_form_data :
  only (get_view_document_form_data browser).
Proof. unfold get_view_document_form_data, pure. resp. Qed.

Lemma only_extract_pdf_url attempt max_retries retry_delay :
  only (extract_pdf_url browser attempt max_retries retry_delay).
Proof. unfold extract_pdf_url, pure. resp. Qed.

Lemma only_get_pdf_url max_retries retry_delay :
  only (_get_pdf_url browser max_retries retry_delay).
Proof.
  unfold _get_pdf_url. induction (range max_retries) as [|attempt l IH];
    simpl; resp.
  apply only_extract_pdf_url.
Qed.

Lemma delivers_download_pdf_from_url pdf_url :
  delivers false
    (download_pdf_from_url browser self pdf_url case_number doc_number).
Proof.
  intros s.
  destruct (download_pdf_from_url_writes pdf_url case_number doc_number s)
    as [[Hr Hf]|(content & Hr & Hf & _)].
  - exists []. rewrite app_nil_r. split; [done|]. split; [done|].
    intros path Hpath. rewrite Hr in Hpath. discriminate.
  - exists [Written (filepath self case_number doc_number) content].
    split; [done|]. split; [by repeat constructor|].
    intros path Hpath. rewrite Hr in Hpath. injection Hpath as <-.
    split; [done|]. by right.
Qed.

Lemma delivers_click_view_document_and_download after_click while_loading
    while_settling :
  delivers false
    (click_view_document_and_download browser self case_number doc_number
       after_click while_loading while_settling).
Proof.
  unfold click_view_document_and_download. rewrite <- Htarget.
  apply delivers_bind; [resp|]. intros original_page.
  apply delivers_bind.
  { intros s0 _. split; [done|].
    split; exists []; by rewrite app_nil_r. }
  intros [].
  apply delivers_try_finally.
  - apply delivers_try_except; [apply delivers_click_and_capture|].
    intros e. apply delivers_bind; [resp|]. intros [].
    apply delivers_ret_none.
  - resp.
Qed.

Lemma delivers_form_submission :
  delivers false (form_submission browser forms self case_number doc_number).
Proof.
  unfold form_submission.
  apply delivers_bind; [resp|]. intros [].
  apply delivers_bind; [apply only_get_view_document_form_data|].
  intros [form_info|]; [|deliver].
  destruct (truthy form_info); [|deliver].
  apply delivers_bind; [apply only_submit_form|]. intros pdf_url.
  destruct (if_truthy pdf_url) as [url|]; [|deliver].
  apply delivers_truthy;
    [apply delivers_download_pdf_from_url|apply delivers_ret_target|deliver].
Qed.

Lemma delivers_download_pdf :
  delivers false (download_pdf browser self case_number doc_number).
Proof.
  unfold download_pdf. apply delivers_try_except; [|intros e; deliver].
  apply delivers_bind; [resp|]. intros [].
  apply delivers_bind; [apply only_get_pdf_url|]. intros pdf_url.
  destruct (if_truthy pdf_url) as [url|]; [|deliver].
  apply delivers_bind; [resp|]. intros [].
  apply delivers_download_pdf_from_url.
Qed.

End Delivery.

Lemma click_view_document_and_download_returns
    (case_number doc_number : string)
    (after_click : list (Z * BrowserEvent))
    (while_loading while_settling : list BrowserEvent) (s : State) :
  ∃ returned,
    (click_view_document_and_download browser self case_number doc_number
       after_click while_loading while_settling s).1 = Ok returned.
Proof.
  unfold click_view_document_and_download, bind, gets, modify.
  unfold try_finally, try_except.
  match goal with
  | |- context [click_and_capture ?b ?sf ?pg ?fp ?a ?l ?st ?s0] =>
      destruct (click_and_capture b sf pg fp a l st s0) as [[r|e] s1]
  end; simpl.
  - match goal with
    | |- context [call ContextPages ?f ?s0] =>
        destruct (call ContextPages f s0) as [[pages|e] s2]
    end; simpl; [|by eexists].
    destruct (bool_decide _); simpl; by eexists.
  - unfold logger, modify. simpl.
    match goal with
    | |- context [call ContextPages ?f ?s0] =>
        destruct (call ContextPages f s0) as [[pages|e'] s2]
    end; simpl; [|by eexists].
    destruct (bool_decide _); simpl; by eexists.
Qed.

(** [click_view_document_and_download] never raises: it returns a path
    or [None].  Whatever it writes, it writes at the one path it builds
    from the downloads directory, the case number and the document
    number.  When it returns a path, that is the path, and the call has
    written a file there. *)
Theorem a_returned_path_has_a_file_behind_it
    (case_number doc_number : string)
    (after_click : list (Z * BrowserEvent))
    (while_loading while_settling : list BrowserEvent) (s : State) :
  ∃ returned s' written,
    click_view_document_and_download browser self case_number doc_number
      after_click while_loading while_settling s = (Ok returned, s')
    ∧ files s' = files s ++ written
    ∧ Forall (λ f, path_of f = filepath self case_number doc_number) written
    ∧ ∀ path, returned = Some path →
              path = filepath self case_number doc_number ∧ written ≠ [].
Proof.
  destruct (delivers_click_view_document_and_download
              (filepath self case_number doc_number) case_number doc_number
              eq_refl after_click while_loading while_settling s)
    as (written & Hfiles & Hat & Hpath).
  destruct (click_view_document_and_download_returns case_number doc_number
              after_click while_loading while_settling s)
    as [returned Hok].
  destruct (click_view_document_and_download browser self case_number
              doc_number after_click while_loading while_settling s)
    as [r s'].
  simpl in *. subst r. exists returned, s', written.
  split; [done|]. split; [done|]. split; [done|].
  intros path ->. by destruct (Hpath path eq_refl) as [-> [?|?]].
Qed.

(** *** The download workflow *)

Section Workflow.

Variable forms : Forms Env.

Lemma if_truthy_Some x path : if_truthy x = Some path → x = Some path.
Proof.
  destruct x as [p|]; simpl; [|done]. by destruct (String.eqb p "").
Qed.

Lemma is_on_error_page_effect (s : State) :
  ∃ b s', is_on_error_page forms s = (Ok b, s')
          ∧ files s' = files s ∧ calls s' = calls s.
Proof.
  unfold is_on_error_page, try_except, bind, gets, ask, ret. simpl.
  destruct (text_content forms (current_page s) (env s))
    as [[body_text|e] e1]; simpl.
  - destruct (if_truthy body_text); by eauto.
  - by eauto.
Qed.

Lemma is_on_document_detail_page_effect (s : State) :
  ∃ b s', is_on_document_detail_page browser self s = (Ok b, s')
          ∧ files s' = files s.
Proof.
  unfold is_on_document_detail_page, try_except, bind, gets, call, ret.
  simpl.
  destruct (query_selector browser (current_page s)
              (view_document_button self) (env s)) as [[b|e] e1]; simpl;
    by eauto.
Qed.

(** [download_document] never raises: it returns one of its two dicts.
    It returns the SUCCESS dict only with the file name and the path
    built from the case and document numbers, and only after a file has
    been written at that path during the call; everything it writes, it
    writes there.  On an error page it returns FAILED at once, without
    a call to the browser context or the network and without writing a
    file. *)
Theorem download_document_succeeds_only_with_a_file
    (case_number doc_number : string)
    (after_click : list (Z * BrowserEvent))
    (while_loading while_settling : list BrowserEvent) (s : State) :
  ∃ outcome s' written,
    download_document browser forms self case_number doc_number after_click
      while_loading while_settling s = (Ok outcome, s')
    ∧ files s' = files s ++ written
    ∧ Forall (λ f, path_of f = filepath self case_number doc_number) written
    ∧ (outcome = succeeded case_number doc_number
                   (filepath self case_number doc_number)
       ∧ written ≠ []
       ∨ ∃ error, outcome = failed error)
    ∧ ((is_on_error_page forms s).1 = Ok true →
       outcome = failed "Landed on error page (Incomplete request)"
       ∧ written = [] ∧ calls s' = calls s).
Proof.
  unfold download_document, try_except, bind.
  destruct (is_on_error_page_effect s) as ([] & s1 & -> & Hf1 & Hc1).
  { exists (failed "Landed on error page (Incomplete request)"), s1, [].
    rewrite app_nil_r. split; [done|]. split; [done|]. split; [done|].
    split; [right; by eexists|done]. }
  destruct (is_on_document_detail_page_effect s1) as ([] & s2 & -> & Hf2);
    simpl.
  2: { exists (failed "Not on document detail page"), s2, [].
       rewrite app_nil_r. split; [done|]. split; [congruence|].
       split; [done|]. split; [right; by eexists|done]. }
  destruct (delivers_click_view_document_and_download
              (filepath self case_number doc_number) case_number doc_number
              eq_refl after_click while_loading while_settling
              (emit INFO "Attempting click-and-handle-popup approach..." s2))
    as (written1 & Hf3 & Hat1 & Hpath1).
  destruct (click_view_document_and_download_returns case_number doc_number
              after_click while_loading while_settling
              (emit INFO "Attempting click-and-handle-popup approach..." s2))
    as [returned Hok].
  unfold logger, modify. simpl.
  destruct (click_view_document_and_download browser self case_number
              doc_number after_click while_loading while_settling _)
    as [r s3].
  simpl in *. subst r.
  destruct (if_truthy returned) as [path|] eqn:Htruthy.
  { apply if_truthy_Some in Htruthy. subst returned.
    destruct (Hpath1 path eq_refl) as [-> [?|Hne]]; [done|].
    eexists _, s3, written1. split; [reflexivity|].
    split; [congruence|]. split; [done|]. split; [by left|done]. }
  simpl.
  match goal with
  | |- context [form_submission _ _ _ _ _ ?s0] =>
      destruct (delivers_form_submission
                  (filepath self case_number doc_number) forms case_number
                  doc_number eq_refl s0)
        as (written2 & Hf4 & Hat2 & Hpath2);
      destruct (form_submission browser forms self case_number doc_number s0)
        as [[[path|]|e] s4]
  end; simpl in *.
  - destruct (Hpath2 path eq_refl) as [-> [?|Hne]]; [done|].
    eexists _, s4, (written1 ++ written2). split; [reflexivity|].
    split; [rewrite Hf4, Hf3, app_assoc; congruence|].
    split; [by apply Forall_app|]. split; [|done].
    left. split; [done|]. by destruct written1, written2.
  - eexists _, s4, (written1 ++ written2). split; [reflexivity|].
    split; [rewrite Hf4, Hf3, app_assoc; congruence|].
    split; [by apply Forall_app|]. split; [right; by eexists|done].
  - eexists _, _, (written1 ++ written2). split; [reflexivity|]. simpl.
    split; [rewrite Hf4, Hf3, app_assoc; congruence|].
    split; [by apply Forall_app|]. split; [right; by eexists|done].
Qed.

Lemma append_nonempty (a b : string) : b ≠ "" → a +:+ b ≠ "".
Proof. intros Hb. destruct a; simpl; [done|discriminate]. Qed.

Lemma absolute_nonempty pdf_info src url :
  truthy src = true → absolute pdf_info src = Ok url → url ≠ "".
Proof.
  destruct src as [| | | |src| | |]; simpl; try discriminate.
  intros Hsrc. assert (src ≠ "") as Hne.
  { intros ->. discriminate. }
  destruct (String.prefix "/" src); [|congruence].
  destruct (subscript pdf_info "page_origin") as [[]|]; try discriminate.
  intros [= <-]. by apply append_nonempty.
Qed.

Lemma contains_nonempty sub url :
  sub ≠ "" → contains sub url = true → url ≠ "".
Proof. intros Hsub Hc ->. destruct sub; [done|]. discriminate. Qed.

Lemma extract_pdf_url_effect attempt max_retries retry_delay (s : State) :
  ∃ found s',
    extract_pdf_url browser attempt max_retries retry_delay s = (Ok found, s')
    ∧ calls s' = calls s ++ [Evaluate (current_page s)]
    ∧ files s' = files s
    ∧ current_page s' = current_page s
    ∧ clock s'
      = clock s + match found with
                  | Some _ => 0
                  | None =>
                      if attempt <? max_retries - 1 then retry_delay else 0
                  end
    ∧ ∀ url, found = Some url → url ≠ "".
Proof.
  unfold extract_pdf_url, try_except, bind, call, logger, modify, gets, pure,
    sleep, ret.
  simpl.
  destruct (evaluate browser (current_page s) (env s)) as [[pdf_info|e] e1];
    simpl.
  2: { destruct (attempt <? max_retries - 1); simpl; do 2 eexists;
       (split; [reflexivity|]); simpl; repeat split; try done; lia. }
  repeat (case_match; unfold modify in *; simpl in *; simplify_eq).
  all: do 2 eexists; (split; [reflexivity|]); simpl.
  all: repeat split; try done; try lia.
  all: intros url [= <-].
  all: eauto using absolute_nonempty.
  all: repeat match goal with
              | H : _ || _ = true |- _ => apply orb_true_iff in H as [H|H]
              end.
  all: match goal with
       | H : contains ?sub _ = true |- _ => by apply (contains_nonempty sub)
       end.
Qed.

Lemma get_pdf_url_rounds_effect max_retries retry_delay n :
  ∀ i (s : State),
    (n ≠ 0%nat → Z.of_nat (i + n) = max_retries) →
    ∃ returned s' rounds,
      get_pdf_url_rounds browser (Z.of_nat <$> seq i n) max_retries
        retry_delay s = (Ok returned, s')
      ∧ (rounds ≤ n)%nat
      ∧ (n ≠ 0%nat → rounds ≠ 0%nat)
      ∧ calls s' = calls s ++ replicate rounds (Evaluate (current_page s))
      ∧ files s' = files s
      ∧ current_page s' = current_page s
      ∧ clock s' = clock s + Z.of_nat (rounds - 1) * retry_delay
      ∧ (returned = None → rounds = n)
      ∧ ∀ url, returned = Some url → url ≠ "".
Proof.
  induction n as [|n IH]; intros i s Hmax; simpl.
  - unfold bind, logger, modify, ret. simpl. exists None. eexists.
    exists 0%nat. split; [reflexivity|]. simpl. rewrite app_nil_r.
    repeat split; try done; lia.
  - unfold bind.
    destruct (extract_pdf_url_effect (Z.of_nat i) max_retries retry_delay s)
      as (found & s1 & -> & Hc & Hf & Hp & Hclock & Hne).
    destruct found as [url|].
    + exists (Some url), s1, 1%nat. split; [done|]. simpl.
      repeat split; try done; lia.
    + destruct (IH (S i) s1) as (returned & s' & rounds & Heq & Hle & Hpos
                                 & Hc' & Hf' & Hp' & Hclock' & Hall & Hne').
      { intros _. rewrite <- Hmax; [|done]. lia. }
      exists returned, s', (S rounds). split; [exact Heq|]. split; [lia|].
      split; [done|].
      split; [by rewrite Hc', Hp, Hc, <- app_assoc|].
      split; [congruence|]. split; [congruence|].
      split; [|split; [intros Hr; by rewrite (Hall Hr)|done]].
      rewrite Hclock', Hclock. destruct n as [|n].
      * assert (rounds = 0%nat) as -> by lia.
        rewrite <- Hmax; [|done].
        replace (Z.of_nat i <? Z.of_nat (i + 1) - 1) with false
          by (symmetry; apply Z.ltb_ge; lia).
        simpl. lia.
      * specialize (Hpos ltac:(done)).
        rewrite <- Hmax; [|done].
        replace (Z.of_nat i <? Z.of_nat (i + S (S n)) - 1) with true
          by (symmetry; apply Z.ltb_lt; lia).
        replace (Z.of_nat (S rounds - 1)) with (1 + Z.of_nat (rounds - 1))
          by lia.
        lia.
Qed.

(** [_get_pdf_url] never raises and is bounded: it questions the page
    (one [evaluate] a round) at most [max_retries] times, sleeps
    [retry_delay] between two rounds and neither before the first nor
    after the last, writes no file and keeps the current page.  When it
    gives up it has used every round; a URL it returns is not empty. *)
Theorem pdf_url_lookup_is_bounded (max_retries retry_delay : Z) (s : State) :
  ∃ returned s' rounds,
    _get_pdf_url browser max_retries retry_delay s = (Ok returned, s')
    ∧ (rounds ≤ Z.to_nat max_retries)%nat
    ∧ calls s' = calls s ++ replicate rounds (Evaluate (current_page s))
    ∧ clock s' = clock s + Z.of_nat (rounds - 1) * retry_delay
    ∧ files s' = files s
    ∧ current_page s' = current_page s
    ∧ (returned = None → rounds = Z.to_nat max_retries)
    ∧ ∀ url, returned = Some url → url ≠ "" ∧ rounds ≠ 0%nat.
Proof.
  unfold _get_pdf_url, range.
  destruct (get_pdf_url_rounds_effect max_retries retry_delay
              (Z.to_nat max_retries) 0 s)
    as (returned & s' & rounds & Heq & Hle & Hpos & Hc & Hf & Hp & Hclock
        & Hall & Hne).
  { intros Hn. lia. }
  exists returned, s', rounds. split; [done|]. split; [done|].
  split; [done|]. split; [done|]. split; [done|]. split; [done|].
  split; [done|]. intros url ->. split; [by apply Hne|].
  apply Hpos. intros Hzero. rewrite Hzero in Hle.
  assert (rounds = 0%nat) as -> by lia.
  clear -Heq Hzero. rewrite Hzero in Heq. simpl in Heq.
  unfold bind, logger, modify, ret in Heq. simpl in Heq. congruence.
Qed.

Lemma download_pdf_from_url_trace pdf_url case_number doc_number (s : State) :
  let out := download_pdf_from_url browser self pdf_url case_number
               doc_number s in
  clock out.2 = clock s
  ∧ (calls out.2 = calls s ++ [ContextCookies] ∧ out.1 = Ok None
     ∨ calls out.2 = calls s ++ [ContextCookies; SessionGet pdf_url]).
Proof.
  unfold download_pdf_from_url, try_except, bind, call, logger, modify,
    write_file, ret.
  simpl.
  destruct (context_cookies browser (env s)) as [[cookies|e] e1]; simpl;
    [|split; [done|by left]].
  assert (∀ l : list Call,
            (l ++ [ContextCookies]) ++ [SessionGet pdf_url]
            = l ++ [ContextCookies; SessionGet pdf_url]) as Happ.
  { intros l. by rewrite <- app_assoc. }
  destruct (session_get browser pdf_url cookies e1) as [[resp|e] e2]; simpl;
    [|split; [done|right; apply Happ]].
  repeat (case_match; unfold modify in *; simpl in *; simplify_eq).
  all: split; [done|right; apply Happ].
Qed.


End Workflow.

(** *** What is armed is disarmed *)

Section Cleanup.

Abbreviation unarmed := (λ c : Call, arms c = false).
Abbreviation quiet m :=
  (@DocumentDetailHandler.respects Env (λ _, True) unarmed (λ _, True) _ m).
Abbreviation settles m := (@DocumentDetailHandler.settles Env _ m).
Abbreviation closes d m := (@DocumentDetailHandler.closes Env d _ m).

Lemma quiet_calls {A} (m : M State A) (s : State) :
  quiet m → ∃ l, calls (m s).2 = calls s ++ l ∧ Forall unarmed l.
Proof. intros Hm. by destruct (Hm s) as (_ & ? & _). Qed.

Lemma settled_unarmed l : Forall unarmed l → settled l.
Proof.
  induction 1 as [|c l Hc _ IH]; simpl; [done|]. split; [|done].
  intros d Hd. destruct c; simpl in *; congruence.
Qed.

Lemma settled_closed l1 l2 :
  (∀ c d, c ∈ l1 → disarms c = Some d → d ∈ l2) →
  settled l2 → settled (l1 ++ l2).
Proof.
  induction l1 as [|c l1 IH]; simpl; intros Hc H2; [done|]. split.
  - intros d Hd. apply elem_of_app. right. eapply Hc; [left|done].
  - apply IH; [|done]. intros c' d' Hin. apply Hc. by right.
Qed.

Lemma settled_app l1 l2 : settled l1 → settled l2 → settled (l1 ++ l2).
Proof.
  induction l1 as [|c l1 IH]; simpl; [done|]. intros [Hc H1] H2.
  split; [|by apply IH]. intros d Hd. apply elem_of_app. left. by apply Hc.
Qed.

Lemma settled_split l pre c post d :
  settled l → l = pre ++ c :: post → disarms c = Some d → d ∈ post.
Proof.
  revert l. induction pre as [|c' pre IH]; intros l Hl ->; simpl in Hl.
  - intros Hd. by apply Hl.
  - destruct Hl as [_ Hl]. by apply (IH _ Hl).
Qed.

Lemma settles_quiet {A} (m : M State A) : quiet m → settles m.
Proof.
  intros Hm s. destruct (quiet_calls m s Hm) as (l & Hl & Hun).
  exists l. split; [done|]. by apply settled_unarmed.
Qed.

Lemma settles_bind {A B} (m : M State A) (k : A → M State B) :
  settles m → (∀ a, settles (k a)) → settles (bind m k).
Proof.
  intros Hm Hk s. unfold bind. destruct (Hm s) as (l1 & Hl1 & H1).
  destruct (m s) as [[a|e] s1]; simpl in *; [|by exists l1].
  destruct (Hk a s1) as (l2 & Hl2 & H2).
  exists (l1 ++ l2). rewrite Hl2, Hl1, app_assoc. split; [done|].
  by apply settled_app.
Qed.

Lemma settles_try_except {A} (m : M State A) h :
  settles m → (∀ e, settles (h e)) → settles (try_except m h).
Proof.
  intros Hm Hh s. unfold try_except. destruct (Hm s) as (l1 & Hl1 & H1).
  destruct (m s) as [[a|e] s1]; simpl in *; [by exists l1|].
  destruct (Hh e s1) as (l2 & Hl2 & H2).
  exists (l1 ++ l2). rewrite Hl2, Hl1, app_assoc. split; [done|].
  by apply settled_app.
Qed.

Lemma settles_try_finally {A} (m : M State A) c :
  settles m → settles c → settles (try_finally m c).
Proof.
  intros Hm Hc s. unfold try_finally. destruct (Hm s) as (l1 & Hl1 & H1).
  destruct (m s) as [r s1]; simpl in *.
  destruct (Hc s1) as (l2 & Hl2 & H2).
  destruct (c s1) as [[[]|e] s2]; simpl in *;
    exists (l1 ++ l2); rewrite Hl2, Hl1, app_assoc;
    (split; [done|]); by apply settled_app.
Qed.

Lemma closes_call {A} d (f : Env → result A * Env) :
  arms d = false → closes d (call d f).
Proof.
  intros Hd s. unfold call. destruct (f (env s)) as [r e]. simpl.
  exists [d]. split; [done|]. split; [by repeat constructor|].
  intros _. by left.
Qed.

Lemma closes_bind_left {A B} d (m : M State A) (k : A → M State B) :
  closes d m → (∀ a, quiet (k a)) → closes d (bind m k).
Proof.
  intros Hm Hk s. unfold bind. destruct (Hm s) as (l1 & Hl1 & H1 & Hd).
  destruct (m s) as [[a|e] s1]; simpl in *; [|by exists l1].
  destruct (quiet_calls (k a) s1 (Hk a)) as (l2 & Hl2 & H2).
  exists (l1 ++ l2). rewrite Hl2, Hl1, app_assoc. split; [done|].
  split; [by apply Forall_app|]. intros _. apply elem_of_app. left. auto.
Qed.

Lemma closes_bind_right {A B} d (m : M State A) (k : A → M State B) :
  quiet m → (∀ a, closes d (k a)) → closes d (bind m k).
Proof.
  intros Hm Hk s. unfold bind.
  destruct (quiet_calls m s Hm) as (l1 & Hl1 & H1).
  destruct (m s) as [[a|e] s1]; simpl in *.
  - destruct (Hk a s1) as (l2 & Hl2 & H2 & Hd).
    exists (l1 ++ l2). rewrite Hl2, Hl1, app_assoc. split; [done|].
    split; [by apply Forall_app|]. intros Hok. apply elem_of_app. right. auto.
  - exists l1. by repeat split.
Qed.

(** [try: arm; body / except: handler], where [body] disarms on every
    way out and [handler] disarms too. *)
Lemma settles_armed {A} c d (f : Env → result unit * Env)
    (body : M State A) (handler : exn → M State A) :
  disarms c = Some d →
  closes d body →
  (∀ e (s : State),
     ∃ l, calls (handler e s).2 = calls s ++ l ∧ Forall unarmed l ∧ d ∈ l) →
  settles (try_except (bind (call c f) (λ _, body)) handler).
Proof.
  intros Hcd Hbody Hhandler s. unfold try_except, bind, call.
  destruct (f (env s)) as [[[]|e] e1]; simpl.
  - destruct (Hbody (set_env e1 (add_call c s))) as (l1 & Hl1 & H1 & Hd).
    destruct (body (set_env e1 (add_call c s))) as [[a|e] s1]; simpl in *.
    + exists (c :: l1). rewrite Hl1, <- app_assoc. split; [done|].
      simpl. split; [|by apply settled_unarmed].
      intros d' Hd'. rewrite Hcd in Hd'. injection Hd' as <-. auto.
    + destruct (Hhandler e s1) as (l2 & Hl2 & H2 & Hd2).
      exists (c :: l1 ++ l2). rewrite Hl2, Hl1, <- !app_assoc.
      split; [done|]. simpl. split.
      * intros d' Hd'. rewrite Hcd in Hd'. injection Hd' as <-.
        apply elem_of_app. by right.
      * apply settled_unarmed. by apply Forall_app.
  - destruct (Hhandler e (set_env e1 (add_call c s))) as (l2 & Hl2 & H2 & Hd2).
    exists (c :: l2). rewrite Hl2. simpl. rewrite <- app_assoc.
    split; [done|]. simpl. split; [|by apply settled_unarmed].
    intros d' Hd'. rewrite Hcd in Hd'. by injection Hd' as <-.
Qed.

Lemma quiet_page_events page events :
  quiet (page_events browser page events).
Proof.
  apply respects_page_events. apply Forall_forall. by intros ev _ content.
Qed.

Lemma quiet_save_download filepath download :
  quiet (save_download browser filepath download).
Proof. unfold save_download. resp. Qed.

Lemma quiet_try_download_buttons page filepath selectors :
  quiet (try_download_buttons browser page filepath selectors).
Proof.
  induction selectors as [|sel selectors IH]; simpl; resp.
  apply quiet_save_download.
Qed.

Lemma quiet_download_from_pdf_viewer page filepath :
  quiet (_download_from_pdf_viewer browser page filepath).
Proof.
  unfold _download_from_pdf_viewer. resp.
  - apply quiet_save_download.
  - apply quiet_try_download_buttons.
Qed.

Ltac close_step :=
  lazymatch goal with
  | |- DocumentDetailHandler.closes _ ?m =>
      lazymatch m with
      | bind (call (PageUnroute _) _) _ =>
          apply closes_bind_left; [by apply closes_call|intros ?; resp]
      | bind _ _ => apply closes_bind_right; [|intros ?]
      | match ?x with _ => _ end => destruct x eqn:?
      end
  end.

Lemma settles_handle_popup new_page filepath while_loading while_settling :
  settles
    (handle_popup browser new_page filepath while_loading while_settling).
Proof.
  unfold handle_popup. apply settles_bind; [apply settles_quiet; resp|].
  intros []. apply (settles_armed _ (PageUnroute new_page)); [done| |].
  - repeat close_step.
    all: try apply quiet_page_events.
    all: try apply quiet_download_from_pdf_viewer.
    all: resp.
  - intros e s. unfold bind, logger, modify, try_except, call, ret. simpl.
    destruct (page_unroute browser new_page (env s)) as [[[]|e'] e1]; simpl;
      exists [PageUnroute new_page];
      (split; [done|]); (split; [by repeat constructor|]); by left.
Qed.

Lemma quiet_check_original_page original_page filepath :
  quiet (check_original_page browser original_page filepath).
Proof.
  unfold check_original_page. resp. apply quiet_download_from_pdf_viewer.
Qed.

Lemma settles_after_wait original_page filepath while_loading
    while_settling :
  settles
    (after_wait browser original_page filepath while_loading while_settling).
Proof.
  unfold after_wait. apply settles_bind; [apply settles_quiet; resp|].
  intros captured.
  assert (settles
            (let* new_page := gets captured_new_page in
             let* from_popup :=
               match new_page with
               | Some new_page =>
                   handle_popup browser new_page filepath while_loading
                     while_settling
               | None => ret None
               end in
             match from_popup with
             | Some path => ret (Some path)
             | None =>
                 let* from_viewer :=
                   check_original_page browser original_page filepath in
                 match from_viewer with
                 | Some path => ret (Some path)
                 | None =>
                     logger Py.ERROR "All download methods failed" ;;
                     ret None
                 end
             end)) as Hrest.
  { apply settles_bind; [apply settles_quiet; resp|]. intros new_page.
    apply settles_bind.
    - destruct new_page; [apply settles_handle_popup|].
      apply settles_quiet. resp.
    - intros [path|]; apply settles_quiet; resp.
      apply quiet_check_original_page. }
  destruct captured as [[|b content]|]; [done| |done].
  apply settles_quiet. resp.
Qed.

(** The listener and the context's route are removed by the [finally]
    of the block that sets the route. *)
Lemma arm_click_and_wait_cleanup original_page after_click (s : State) :
  ∃ l,
    calls (arm_click_and_wait browser self original_page after_click s).2
    = calls s ++ l ++ [ContextRemoveListener; ContextUnroute]
    ∧ Forall (λ c, c = ContextRoute ∨ arms c = false) l.
Proof.
  unfold arm_click_and_wait, try_finally.
  match goal with
  | |- context [let '(r, s') := ?body s in _] =>
      assert (DocumentDetailHandler.respects (λ _, True)
                (λ c, c = ContextRoute ∨ arms c = false) (λ _, True) body)
        as Hbody
  end.
  { resp; try by right. { by left. }
    apply respects_wait_first_completed. apply Forall_forall.
    by intros ev _ content. }
  destruct (Hbody s) as (_ & (l & Hl & HP) & _); [done|].
  match goal with
  | |- context [let '(r, s') := ?body s in _] =>
      destruct (body s) as [r s1]
  end.
  simpl in *. exists l. split; [|done].
  unfold bind, call, try_except, ret. simpl.
  destruct (context_unroute browser (env s1)) as [[[]|e] e1]; simpl;
    rewrite Hl, <- !app_assoc; done.
Qed.

Lemma settles_listen {A} original_page after_click (k : M State A) :
  settles k →
  settles (call ContextOnPage (λ e, (Ok (), e)) ;;
           arm_click_and_wait browser self original_page after_click ;;
           k).
Proof.
  intros Hk s. unfold bind at 1. unfold call at 1. simpl.
  set (s0 := set_env (env s) (add_call ContextOnPage s)).
  destruct (arm_click_and_wait_cleanup original_page after_click s0)
    as (l & Hl & HP).
  assert (settled (ContextOnPage
                   :: l ++ [ContextRemoveListener; ContextUnroute]))
    as Harmed.
  { simpl. split.
    - intros d [= <-]. apply elem_of_app. right. by left.
    - apply settled_closed; [|by apply settled_unarmed; repeat constructor].
      intros c d Hc Hd. apply (proj1 (Forall_forall _ _) HP) in Hc.
      destruct Hc as [->|Hc].
      + injection Hd as <-. right. by left.
      + destruct c; simpl in *; congruence. }
  unfold bind.
  destruct (arm_click_and_wait browser self original_page after_click s0)
    as [[[]|e] s1]; simpl in *.
  - destruct (Hk s1) as (l2 & Hl2 & H2).
    exists ((ContextOnPage :: l ++ [ContextRemoveListener; ContextUnroute])
            ++ l2).
    split; [|by apply settled_app].
    rewrite Hl2, Hl. subst s0. simpl. by rewrite <- !app_assoc.
  - exists (ContextOnPage :: l ++ [ContextRemoveListener; ContextUnroute]).
    split; [|done]. rewrite Hl. subst s0. simpl. by rewrite <- !app_assoc.
Qed.

Lemma settles_click_view_document_and_download case_number doc_number
    after_click while_loading while_settling :
  settles
    (click_view_document_and_download browser self case_number doc_number
       after_click while_loading while_settling).
Proof.
  unfold click_view_document_and_download.
  apply settles_bind; [apply settles_quiet; resp|]. intros original_page.
  apply settles_bind.
  { apply settles_quiet. intros s0 _. split; [done|].
    split; exists []; by rewrite app_nil_r. }
  intros []. apply settles_try_finally; [|apply settles_quiet; resp].
  apply settles_try_except; [|intros e; apply settles_quiet; resp].
  unfold click_and_capture.
  do 4 (apply settles_bind; [apply settles_quiet; resp|]; intros ?).
  apply settles_listen, settles_after_wait.
Qed.

(** Whatever [click_view_document_and_download] and [download_document]
    arm, they disarm: in the calls of a run, every [context.on('page')]
    is followed by [remove_listener], every [context.route] by
    [context.unroute] and every [page.route] by [unroute] on the same
    page, whether the run returns a path, finds nothing, or an
    exception cuts it short. *)
Theorem every_observer_armed_is_disarmed
    (forms : Forms Env) (case_number doc_number : string)
    (after_click : list (Z * BrowserEvent))
    (while_loading while_settling : list BrowserEvent) (s : State) :
  (∃ l,
     calls (click_view_document_and_download browser self case_number
              doc_number after_click while_loading while_settling s).2
     = calls s ++ l
     ∧ ∀ before c after d,
         l = before ++ c :: after → disarms c = Some d → d ∈ after)
  ∧ (∃ l,
       calls (download_document browser forms self case_number doc_number
                after_click while_loading while_settling s).2
       = calls s ++ l
       ∧ ∀ before c after d,
           l = before ++ c :: after → disarms c = Some d → d ∈ after).
Proof.
  assert (∀ A (m : M State A), settles m →
            ∃ l, calls (m s).2 = calls s ++ l
                 ∧ ∀ before c after d,
                     l = before ++ c :: after → disarms c = Some d →
                     d ∈ after) as Hsettled.
  { intros A m Hm. destruct (Hm s) as (l & Hl & Hs). exists l.
    split; [done|]. intros before c after d. by apply settled_split. }
  pose proof (settles_click_view_document_and_download case_number doc_number
                after_click while_loading while_settling) as Hclick.
  split; [by apply Hsettled|]. apply Hsettled.
  unfold download_document.
  apply settles_try_except; [|intros e; apply settles_quiet; resp].
  apply settles_bind.
  { apply settles_quiet. unfold is_on_error_page. resp.
    apply respects_quiet. intros s0. unfold ask.
    by destruct (text_content forms _ (env s0)). }
  intros [|]; [apply settles_quiet; resp|].
  apply settles_bind; [apply settles_quiet; unfold is_on_document_detail_page;
                       resp|].
  intros [|]; simpl; [|apply settles_quiet; resp].
  apply settles_bind; [apply settles_quiet; resp|]. intros [].
  apply settles_bind; [done|]. intros filepath.
  destruct (if_truthy filepath); [apply settles_quiet; resp|].
  apply settles_bind; [apply settles_quiet; resp|]. intros [].
  apply settles_bind; [|intros [?|]; apply settles_quiet; resp].
  apply settles_quiet. unfold form_submission. resp.
  - unfold get_view_document_form_data, pure. resp.
  - apply respects_quiet. intros s0. unfold submit_form_and_get_pdf_url.
    by destruct (submit_form forms _ (env s0)).
  - unfold download_pdf_from_url. resp.
Qed.

End Cleanup.

End Props.



End DocumentDetailHandlerProps.

(** ** Cases and the job *)

Module CMECFScraperProps.

Import StateMachine WebsocketHandler CMECFScraper Scenarios.
Import WebsocketHandlerProps.

Section Props.

Context {Env : Type}.
Variable net : Network Env.
Variable site : Site Env.
Variable settings : Settings.

Abbreviation World := (WebsocketHandler.World Env).
Abbreviation State := (CMECFScraper.State Env).
Abbreviation Local := (CMECFScraper.Local Env).
Abbreviation frame := (@CMECFScraper.frame Env).
Abbreviation frames proj m := (@CMECFScraper.frames Env _ _ proj m).
Abbreviation calm m := (@CMECFScraper.calm Env _ m).
Abbreviation docket_opens := (CMECFScraper.docket_opens site settings).
Abbreviation browser_starts := (CMECFScraper.browser_starts site).
Abbreviation login_succeeds := (CMECFScraper.login_succeeds site).
Abbreviation progress := (CMECFScraper.progress net).

Lemma job_frame_refl j : job_frame j j.
Proof. by repeat split. Qed.

Lemma job_frame_trans j1 j2 j3 :
  job_frame j1 j2 → job_frame j2 j3 → job_frame j1 j3.
Proof. intros (?&?&?&?) (?&?&?&?). repeat split; congruence. Qed.

Lemma frame_refl (s : State) : frame s s.
Proof.
  repeat split. destruct (current_job s.1); [apply job_frame_refl|done].
Qed.

Lemma frame_trans (s1 s2 s3 : State) : frame s1 s2 → frame s2 s3 → frame s1 s3.
Proof.
  intros (Hc & Ho & Hj) (Hc' & Ho' & Hj').
  split; [congruence|]. split; [congruence|].
  destruct (current_job s1.1), (current_job s2.1), (current_job s3.1);
    try done. by eapply job_frame_trans.
Qed.

Section Frames.
Context {S : Type}.
Variable proj : S → State.

Lemma frames_ret {A} (a : A) : frames proj (ret a).
Proof. intros s. apply frame_refl. Qed.

Lemma frames_raise {A} e : frames proj (raise (A := A) e).
Proof. intros s. apply frame_refl. Qed.

Lemma frames_gets {A} (f : S → A) : frames proj (gets f).
Proof. intros s. apply frame_refl. Qed.

Lemma frames_bind {A B} (m : M S A) (k : A → M S B) :
  frames proj m → (∀ a, frames proj (k a)) → frames proj (bind m k).
Proof.
  intros Hm Hk s. unfold bind. specialize (Hm s).
  destruct (m s) as [[a|e] s1]; simpl in *; [|done].
  eapply frame_trans; [done|]. apply Hk.
Qed.

Lemma frames_try_except {A} (m : M S A) (h : exn → M S A) :
  frames proj m → (∀ e, frames proj (h e)) → frames proj (try_except m h).
Proof.
  intros Hm Hh s. unfold try_except. specialize (Hm s).
  destruct (m s) as [[a|e] s1]; simpl in *; [done|].
  eapply frame_trans; [done|]. apply Hh.
Qed.

Lemma frames_for_each {A} (l : list A) (body : A → M S unit) :
  (∀ a, frames proj (body a)) → frames proj (for_each l body).
Proof.
  intros Hb. induction l as [|a l IH]; simpl.
  - apply frames_ret.
  - by apply frames_bind.
Qed.

End Frames.

Lemma frames_world {A} (m : M World A) : frames id (world m).
Proof.
  intros [self w]. unfold world, zoom. simpl. destruct (m w). simpl.
  apply (frame_refl (self, w)).
Qed.

Lemma frames_on_site {A} (f : Env → result A * Env) : frames id (on_site f).
Proof. apply frames_world. Qed.

Lemma frames_transition_to st msg :
  frames id (CMECFScraper.transition_to st msg).
Proof.
  intros [self w]. unfold CMECFScraper.transition_to.
  pose proof (StateMachineProps.transition_to_machine clock emit
                (state_machine self) st msg w) as (_ & _ & _ & Hcb).
  destruct (StateMachine.transition_to _ _ _ _ _ _) as [r [sm w']].
  simpl in *. split; [done|]. split; [done|]. simpl.
  destruct (current_job self); [apply job_frame_refl|done].
Qed.

Lemma frames_outer {A} (m : M State A) : frames id m → frames snd (outer m).
Proof.
  intros Hm [c s]. unfold outer, zoom. simpl. specialize (Hm s).
  destruct (m s). done.
Qed.

Lemma frames_on_case_result f : frames snd (on_case_result (Env := Env) f).
Proof. intros [c s]. apply frame_refl. Qed.

Lemma frames_set_results_page_url url :
  frames id (modify (λ s : State, (set_results_page_url url s.1, s.2))).
Proof.
  intros [self w]. split; [done|]. split; [done|]. simpl.
  destruct (current_job self); [apply job_frame_refl|done].
Qed.

Lemma frames_add_download d :
  frames id (on_job (Env := Env) (λ _, CMECFScrapingJob.add_download d)).
Proof.
  intros [self w]. split; [done|]. split; [done|]. simpl.
  destruct (current_job self); simpl; [by repeat split|done].
Qed.

Lemma frames_me : frames id (me (Env := Env)).
Proof. apply frames_gets. Qed.


Ltac fr_step :=
  lazymatch goal with
  | |- CMECFScraper.frames ?proj ?m =>
      lazymatch m with
      | ret _ => apply frames_ret
      | raise _ => apply frames_raise
      | gets _ => apply frames_gets
      | me => apply frames_me
      | bind _ _ => apply frames_bind; [|intros ?]
      | try_except _ _ => apply frames_try_except; [|intros ?]
      | for_each _ _ => apply frames_for_each; intros ?
      | world _ => apply frames_world
      | on_site _ => apply frames_on_site
      | CMECFScraper.transition_to _ _ => apply frames_transition_to
      | outer _ => apply frames_outer
      | on_case_result _ => apply frames_on_case_result
      | modify (λ s, (set_results_page_url _ _, _)) =>
          apply frames_set_results_page_url
      | on_job (λ _, CMECFScrapingJob.add_download _) =>
          apply frames_add_download
      | match ?x with _ => _ end => destruct x
      end
  end.

Ltac fr := repeat fr_step.

Lemma frames_random_delay : frames id (_random_delay site settings).
Proof. unfold _random_delay. fr. Qed.

Lemma frames_navigate_to_case_entry :
  frames id (_navigate_to_case_entry site settings).
Proof. unfold _navigate_to_case_entry. fr. Qed.

Lemma frames_recover case_number :
  frames id (_recover_to_results_page net site settings case_number).
Proof.
  unfold _recover_to_results_page. fr.
  apply frames_navigate_to_case_entry.
Qed.

Lemma frames_navigate_back case_number :
  frames id (_navigate_back_to_results net site settings case_number).
Proof. unfold _navigate_back_to_results. fr; apply frames_recover. Qed.

Lemma frames_download_result a b c d e f :
  frames id (download_result (Env := Env) a b c d e f).
Proof. unfold download_result. fr. Qed.

Lemma frames_process_transcript_entry case_number entry :
  frames id (process_transcript_entry net site case_number entry).
Proof.
  unfold process_transcript_entry. fr; apply frames_download_result.
Qed.

Lemma frames_process_entry case_number total item :
  frames snd (process_entry net site settings case_number total item).
Proof.
  unfold process_entry. destruct item as [idx entry]. fr.
  - apply frames_process_transcript_entry.
  - apply frames_navigate_back.
  - apply frames_random_delay.
Qed.

Lemma frames_process_case_body case_number :
  frames snd (process_case_body net site settings case_number).
Proof.
  unfold process_case_body. fr. apply frames_process_entry.
Qed.

Lemma process_case_returns case_number (s : State) :
  ∃ r s', process_case net site settings case_number s = (Ok r, s')
          ∧ frame s s'.
Proof.
  unfold process_case.
  pose proof (frames_process_case_body case_number
                (CaseNumber.new case_number, s)) as Hf.
  destruct (process_case_body _ _ _ _ _) as [[[]|e] [c s1]]; simpl in *.
  - eauto.
  - unfold bind, world, zoom, logger, modify. simpl.
    do 2 eexists. split; [reflexivity|].
    destruct s1 as [self1 w1]. done.
Qed.



Lemma calm_ret {A} (a : A) : calm (ret a).
Proof. intros s. exists a, s. split; [done|apply frame_refl]. Qed.

Lemma calm_bind {A B} (m : M State A) (k : A → M State B) :
  calm m → (∀ a, calm (k a)) → calm (bind m k).
Proof.
  intros Hm Hk s. destruct (Hm s) as (a & s1 & Hs1 & Hf1).
  destruct (Hk a s1) as (b & s2 & Hs2 & Hf2).
  exists b, s2. unfold bind. rewrite Hs1. split; [done|].
  by eapply frame_trans.
Qed.

Lemma calm_world {A} (m : M World A) :
  (∀ w, ∃ a, (m w).1 = Ok a) → calm (world m).
Proof.
  intros Hm [self w]. destruct (Hm w) as [a Ha].
  pose proof (frames_world m (self, w)) as Hf.
  unfold world, zoom in *. simpl in *. destruct (m w) as [r w'].
  simpl in *. subst r. eauto.
Qed.

Lemma calm_logger l msg : calm (world (logger l msg)).
Proof. apply calm_world. intros w. by exists (). Qed.

Lemma calm_sleep ms : calm (world (sleep ms)).
Proof. apply calm_world. intros w. by exists (). Qed.

Lemma calm_send_event c ev : calm (world (send_event net c ev)).
Proof. apply calm_world. intros w. exists (). apply send_event_ok. Qed.

Lemma calm_send_progress c msg cur tot :
  calm (world (send_progress net c msg cur tot)).
Proof.
  apply calm_world. intros w. exists ().
  unfold send_progress, bind, gets. apply send_event_ok.
Qed.

Lemma calm_send_complete c msg data :
  calm (world (send_complete net c msg data)).
Proof.
  apply calm_world. intros w. exists ().
  unfold send_complete, bind, gets. apply send_event_ok.
Qed.

Lemma calm_send_info c msg : calm (world (send_info net c msg)).
Proof.
  apply calm_world. intros w. exists ().
  unfold send_info, bind, gets. apply send_event_ok.
Qed.

Lemma calm_me : calm (me (Env := Env)).
Proof. intros s. exists (client_id s.1), s. split; [done|apply frame_refl]. Qed.

Lemma calm_random_delay : calm (_random_delay site settings).
Proof.
  unfold _random_delay. apply calm_bind.
  - apply calm_world. intros w. unfold io.
    destruct (random_uniform site _ _ (env w)) as [d e']. by exists d.
  - intros d. apply calm_bind; [apply calm_logger|].
    intros _. apply calm_sleep.
Qed.

Lemma calm_process_case case_number :
  calm (process_case net site settings case_number).
Proof. intros s. apply process_case_returns. Qed.


Lemma calm_navigate_to_case_entry :
  docket_opens → calm (_navigate_to_case_entry site settings).
Proof.
  intros Hgo [self w]. unfold _navigate_to_case_entry, try_except, on_site,
    world, zoom, io. simpl.
  specialize (Hgo (env w)).
  destruct (page_goto site _ (env w)) as [r e']. simpl in *. subst r.
  do 2 eexists. split; [reflexivity|]. apply (frame_refl (self, w)).
Qed.

Lemma calm_transition_to st msg (s : State) :
  wired net s.1 →
  ∃ s', CMECFScraper.transition_to st msg s = (Ok (), s') ∧ frame s s'.
Proof.
  intros Hw. pose proof (frames_transition_to st msg s) as Hf.
  destruct (CMECFScraper.transition_to st msg s) as [r s'] eqn:Heq.
  simpl in Hf. exists s'. split; [|done]. f_equal.
  destruct s as [self w].
  unfold CMECFScraper.transition_to, StateMachine.transition_to in Heq.
  simpl in Hw. rewrite Hw in Heq.
  unfold _on_state_change, send_state_change, bind, gets in Heq.
  match type of Heq with
  | context [send_event net ?c ?ev ?w0] =>
      pose proof (send_event_ok net c ev w0) as Hok;
      destruct (send_event net c ev w0) as [r0 w']
  end.
  simpl in Hok. subst r0. by injection Heq as <- _.
Qed.

Lemma frame_wired (s s' : State) : frame s s' → wired net s.1 → wired net s'.1.
Proof. intros (Hc & Ho & _) Hw. unfold wired in *. congruence. Qed.



Lemma frame_progress n seen (s s' : State) :
  frame s s' → progress n seen s → progress n seen s'.
Proof.
  intros Hf [Hw (j & Hj & Hst & Hn & Hseen)].
  split; [by eapply frame_wired|].
  destruct Hf as (_ & _ & Hjob). rewrite Hj in Hjob.
  destruct (current_job s'.1) as [j'|]; [|done].
  destruct Hjob as (Hs & _ & Hp & Hr).
  exists j'. rewrite Hs, Hp, Hr. done.
Qed.

Lemma calm_on_job_frame f :
  (∀ now j, job_frame j (f now j)) → calm (on_job (Env := Env) f).
Proof.
  intros Hf [self w]. do 2 eexists. split; [reflexivity|].
  split; [done|]. split; [done|]. simpl.
  destruct (current_job self); simpl; [apply Hf|done].
Qed.

Lemma calm_add_errors case_number errors :
  calm (for_each errors
          (λ error, on_job (Env := Env)
                      (CMECFScrapingJob.add_error case_number "" error))).
Proof.
  induction errors as [|e errors IH]; simpl; [apply calm_ret|].
  apply calm_bind; [|done].
  apply calm_on_job_frame. intros. by repeat split.
Qed.

Ltac calm_step H :=
  match goal with
  | |- context [bind ?m ?k ?s] =>
      let a := fresh "a" in
      let s1 := fresh "s" in
      let Heq := fresh "Heq" in
      let Hf := fresh "Hf" in
      destruct (H s) as (a & s1 & Heq & Hf);
      unfold bind at 1; rewrite Heq
  end.

Lemma run_case_progress total idx case_number n seen (s : State) :
  docket_opens → progress n seen s →
  ∃ s', run_case net site settings total (idx, case_number) s = (Ok (), s')
        ∧ progress (n + 1) (case_number :: seen) s'.
Proof.
  intros Hgo Hp. unfold run_case.
  calm_step (calm_on_job_frame
               (λ _, CMECFScrapingJob.set_current_case_index (Z.of_nat idx))
               ltac:(intros; by repeat split)).
  apply (frame_progress _ _ _ _ Hf) in Hp. clear Hf Heq.
  calm_step calm_me.
  apply (frame_progress _ _ _ _ Hf) in Hp. clear Hf Heq.
  match goal with
  | |- context [world (send_progress net ?c ?m ?x ?y)] =>
      calm_step (calm_send_progress c m x y)
  end.
  apply (frame_progress _ _ _ _ Hf) in Hp. clear Hf Heq.
  assert (calm (if (0 <? idx)%nat
                then _navigate_to_case_entry site settings else ret ()))
    as Hnav.
  { destruct (0 <? idx)%nat;
      [by apply calm_navigate_to_case_entry | apply calm_ret]. }
  calm_step Hnav.
  apply (frame_progress _ _ _ _ Hf) in Hp. clear Hf Heq.
  calm_step (calm_process_case case_number).
  apply (frame_progress _ _ _ _ Hf) in Hp. clear Hf Heq.
  rename a3 into case_result.
  unfold bind at 1, on_job at 1, modify at 1.
  unfold bind at 1, on_job at 1, modify at 1.
  simpl.
  match goal with
  | |- context [bind ?m ?k ?s0] =>
      assert (progress (n + 1) (case_number :: seen) s0) as Hp'
  end.
  { destruct Hp as [Hw (j & Hj & Hst & Hn & Hseen)].
    split; [done|]. rewrite Hj. simpl. eexists. split; [done|]. simpl.
    split; [done|]. split; [by rewrite Hn|].
    intros c Hc. apply elem_of_cons in Hc as [->|Hc].
    - rewrite lookup_insert_eq. by eexists.
    - destruct (decide (case_number = c)) as [->|Hne].
      + rewrite lookup_insert_eq. by eexists.
      + rewrite lookup_insert_ne by done. by apply Hseen. }
  clear Hp.
  calm_step (calm_add_errors case_number (CaseNumber.errors case_result)).
  apply (frame_progress _ _ _ _ Hf) in Hp'. clear Hf Heq.
  destruct (Z.of_nat idx <? Z.of_nat total - 1).
  - match goal with
    | |- context [_random_delay site settings ?s0] =>
        destruct (calm_random_delay s0) as ([] & s6 & -> & Hf)
    end.
    eexists. split; [done|]. by eapply frame_progress.
  - eexists. split; [done|]. done.
Qed.


Lemma run_cases_progress total cases : ∀ i n seen (s : State),
  docket_opens → progress n seen s →
  ∃ s', for_each (enumerate i cases) (run_case net site settings total) s
        = (Ok (), s')
        ∧ progress (n + Z.of_nat (length cases)) (rev cases ++ seen) s'.
Proof.
  induction cases as [|c cases IH]; intros i n seen s Hgo Hp.
  - exists s. split; [done|]. simpl. by rewrite Z.add_0_r.
  - cbn [enumerate for_each length rev].
    destruct (run_case_progress total i c n seen s Hgo Hp)
      as (s1 & Heq & Hp1).
    unfold bind. rewrite Heq.
    destruct (IH (S i) (n + 1) (c :: seen) s1 Hgo Hp1) as (s2 & Heq2 & Hp2).
    exists s2. split; [done|].
    replace (n + Z.of_nat (S (length cases)))
      with (n + 1 + Z.of_nat (length cases)) by lia.
    by rewrite <- app_assoc.
Qed.


Lemma initialize_calm (s : State) :
  browser_starts → wired net s.1 →
  ∃ s', initialize site settings s = (Ok (), s') ∧ frame s s'.
Proof.
  intros Hb Hw. unfold initialize.
  destruct (calm_transition_to INITIALIZING
              "Initializing browser and CMECF scraper" s Hw)
    as (s1 & Heq & Hf).
  unfold bind at 1. rewrite Heq.
  unfold try_except, bind, on_site, world, zoom, io, logger, modify. simpl.
  specialize (Hb (headless_mode settings) (env s1.2)).
  destruct (browser_initialize site _ (env s1.2)) as [r e']. simpl in *.
  subst r. simpl. eexists. split; [reflexivity|].
  eapply frame_trans; [done|]. destruct s1 as [self1 w1].
  apply (frame_refl (self1, w1)).
Qed.

Lemma login_calm (s : State) :
  login_succeeds → wired net s.1 →
  ∃ s', login net site s = (Ok true, s') ∧ frame s s'.
Proof.
  intros Hl Hw. unfold login.
  destruct (calm_transition_to LOGGING_IN "Logging into CMECF (PACER)" s Hw)
    as (s1 & Heq & Hf).
  unfold bind at 1. rewrite Heq.
  unfold bind at 1, me at 1, gets at 1.
  unfold try_except. unfold bind at 1.
  unfold on_site at 1, world at 1, zoom at 1, io at 1. simpl.
  specialize (Hl (env s1.2)).
  destruct (ensure_logged_in site (env s1.2)) as [r e']. simpl in *.
  subst r. simpl.
  match goal with
  | |- context [world (send_info net ?c ?m)] =>
      calm_step (calm_send_info c m)
  end.
  eexists. split; [reflexivity|].
  eapply frame_trans; [done|]. eapply frame_trans; [|done].
  destruct s1 as [self1 w1]. apply (frame_refl (self1, w1)).
Qed.

Lemma job_completes (job : CMECFScrapingJob.t) (s : State) :
  wired net s.1 → browser_starts → login_succeeds → docket_opens →
  ∃ job' s',
    run_scraping_job net site settings job s = (Ok (Some job'), s')
    ∧ CMECFScrapingJob.status job' = CMECFScrapingJob.COMPLETED
    ∧ CMECFScrapingJob.cases_processed job'
      = CMECFScrapingJob.cases_processed job
        + Z.of_nat (length (CMECFScrapingJob.case_numbers job))
    ∧ ∀ c, c ∈ CMECFScrapingJob.case_numbers job →
           is_Some (CMECFScrapingJob.case_results job' !! c).
Proof.
  intros Hw Hb Hl Hgo. unfold run_scraping_job.
  unfold bind at 1, modify at 1. unfold bind at 1, on_job at 1, modify at 1.
  simpl.
  match goal with
  | |- context [try_finally _ _ ?s0] =>
      assert (progress (CMECFScrapingJob.cases_processed job) [] s0) as Hp
  end.
  { split; [done|]. simpl. eexists. split; [done|]. simpl.
    repeat split. intros c Hc. by apply elem_of_nil in Hc. }
  unfold try_finally, try_except.
  match goal with
  | |- context [bind (initialize site settings) ?k ?s0] =>
      destruct (initialize_calm s0 Hb (proj1 Hp)) as (s1 & Heq & Hf);
      unfold bind at 1; rewrite Heq
  end.
  apply (frame_progress _ _ _ _ Hf) in Hp. clear Hf Heq.
  destruct (login_calm s1 Hl (proj1 Hp)) as (s2 & Heq & Hf).
  unfold bind at 1. rewrite Heq. simpl.
  apply (frame_progress _ _ _ _ Hf) in Hp. clear Hf Heq.
  destruct (run_cases_progress
              (length (CMECFScrapingJob.case_numbers job))
              (CMECFScrapingJob.case_numbers job) 0%nat _ _ s2 Hgo Hp)
    as (s3 & Heq & Hp3).
  unfold bind at 1. rewrite Heq. clear Heq Hp.
  destruct (calm_transition_to COMPLETED "CMECF scraping completed" s3
              (proj1 Hp3)) as (s4 & Heq & Hf).
  unfold bind at 1. rewrite Heq.
  apply (frame_progress _ _ _ _ Hf) in Hp3. clear Hf Heq.
  unfold bind at 1, on_job at 1, modify at 1.
  unfold bind at 1, me at 1, gets at 1.
  unfold bind at 1, gets at 1.
  match goal with
  | |- context [world (send_complete net ?c ?m ?d)] =>
      calm_step (calm_send_complete c m d)
  end.
  destruct Hp3 as [Hw4 (j & Hj & Hst & Hn & Hseen)].
  destruct Hf as (_ & _ & Hjob). simpl in Hjob. rewrite Hj in Hjob.
  simpl in Hjob. unfold gets at 1.
  match type of Hjob with
  | match current_job ?x with _ => _ end =>
      destruct (current_job x) as [j'|] eqn:Hj'; [|done]
  end.
  destruct Hjob as (Hs' & _ & Hp' & Hr').
  unfold cleanup, bind, world, on_site, zoom, io, logger, modify. simpl.
  rewrite ?Hj'.
  do 2 eexists. split; [reflexivity|]. simpl in *.
  split; [done|]. split; [by rewrite Hp', Hn|].
  intros c Hc. rewrite Hr'. apply Hseen.
  rewrite app_nil_r. apply list_elem_of_In. apply -> in_rev.
  by apply list_elem_of_In.
Qed.


Lemma recover_raises case_number (s : State) :
  docket_opens →
  (∀ e, (submit_case_number site case_number e).1 = Ok false) →
  (_recover_to_results_page net site settings case_number s).1
  = Raise (RuntimeError ("Recovery failed: could not re-submit case number "
                         +:+ case_number)).
Proof.
  intros Hgo Hsub. unfold _recover_to_results_page.
  calm_step calm_me.
  match goal with
  | |- context [world (send_info net ?c ?m)] =>
      calm_step (calm_send_info c m)
  end.
  calm_step (calm_navigate_to_case_entry Hgo).
  calm_step (calm_sleep (seconds 1)).
  unfold bind, on_site, world, zoom, io. simpl.
  match goal with
  | |- context [submit_case_number site case_number ?e0] =>
      specialize (Hsub e0);
      destruct (submit_case_number site case_number e0) as [r e']
  end.
  simpl in *. by subst r.
Qed.


End Props.

(** Two cases with two transcripts each; on the way back from the first
    document of the first case the results page is not reached and the
    case number cannot be re-submitted. *)
Lemma recovery_fails_in_first_case :
  let run := run_scraping_job quiet flaky_site pacer_settings two_cases
               (CMECFScraper.__init__ quiet "session-1", flaky_world) in
  ∃ job,
    run.1 = Ok (Some job)
    ∧ CMECFScrapingJob.status job = CMECFScrapingJob.COMPLETED
    ∧ CMECFScrapingJob.cases_processed job = 2
    ∧ length (CMECFScrapingJob.downloads job) = 3%nat
    ∧ CMECFScrapingJob.case_results job !! "2:23-cv-00117"
      = Some {| CaseNumber.case_number := "2:23-cv-00117";
                CaseNumber.status := "failed";
                CaseNumber.transcripts_found := 2;
                CaseNumber.transcripts_downloaded := 1;
                CaseNumber.errors :=
                  ["Recovery failed: could not re-submit case number "
                   +:+ "2:23-cv-00117"] |}
    ∧ CaseNumber.status
        <$> CMECFScrapingJob.case_results job !! "2:23-cv-00118"
      = Some "completed".
Proof. vm_compute. eexists. repeat split. Qed.

(** *** What a case and a job always leave behind *)

Section Outcomes.

Import PyProps.

Context {Env : Type}.
Variable net : Network Env.
Variable site : Site Env.
Variable settings : Settings.

Abbreviation World := (WebsocketHandler.World Env).
Abbreviation State := (CMECFScraper.State Env).
Abbreviation Local := (CMECFScraper.Local Env).
Abbreviation same_job := (@CMECFScraper.same_job Env).
Abbreviation same_case := (@CMECFScraper.same_case Env).

#[local] Instance same_job_preorder : PreOrder same_job.
Proof.
  split.
  - intros s. by repeat split.
  - intros s1 s2 s3 (?&?&?) (?&?&?). repeat split; congruence.
Qed.

#[local] Instance same_case_preorder : PreOrder same_case.
Proof.
  split.
  - intros l. split; [done|reflexivity].
  - intros l1 l2 l3 [? ?] [? ?]. split; [congruence|by etrans].
Qed.

Lemma same_job_world {A} (m : M World A) : preserves same_job (world m).
Proof. intros [self w]. unfold world, zoom. simpl. by destruct (m w). Qed.

Lemma same_job_transition_to st msg :
  preserves same_job (CMECFScraper.transition_to st msg).
Proof.
  intros [self w]. unfold CMECFScraper.transition_to.
  pose proof (StateMachineProps.transition_to_machine clock emit
                (state_machine self) st msg w) as (_ & _ & _ & Hcb).
  destruct (StateMachine.transition_to _ _ _ _ _ _) as [r [sm w']].
  simpl in *. by repeat split.
Qed.

Lemma same_job_set_results_page_url url :
  preserves same_job
    (modify (λ s : State, (set_results_page_url url s.1, s.2))).
Proof. intros [self w]. by repeat split. Qed.

Lemma same_case_outer {A} (m : M State A) :
  preserves same_job m → preserves same_case (outer m).
Proof.
  intros Hm [c s]. unfold outer, zoom. simpl. specialize (Hm s).
  destruct (m s). by split.
Qed.

Ltac same_step :=
  lazymatch goal with
  | |- preserves ?R ?m =>
      lazymatch m with
      | ret _ => apply (preserves_ret R)
      | raise _ => apply (preserves_raise R)
      | gets _ => apply (preserves_gets R)
      | me => apply (preserves_gets R)
      | bind _ _ => apply (preserves_bind R); [|intros ?]
      | try_except _ _ => apply (preserves_try_except R); [|intros ?]
      | for_each _ _ => apply (preserves_for_each R); intros ?
      | world _ => apply same_job_world
      | on_site _ => apply same_job_world
      | CMECFScraper.transition_to _ _ => apply same_job_transition_to
      | outer _ => apply same_case_outer
      | modify (λ s, (set_results_page_url _ _, _)) =>
          apply same_job_set_results_page_url
      | match ?x with _ => _ end => destruct x
      end
  end.

Ltac same := repeat same_step.

Lemma same_job_random_delay : preserves same_job (_random_delay site settings).
Proof. unfold _random_delay. same. Qed.

Lemma same_job_navigate_to_case_entry :
  preserves same_job (_navigate_to_case_entry site settings).
Proof. unfold _navigate_to_case_entry. same. Qed.

Lemma same_job_recover case_number :
  preserves same_job (_recover_to_results_page net site settings case_number).
Proof.
  unfold _recover_to_results_page. same.
  apply same_job_navigate_to_case_entry.
Qed.

Lemma same_job_navigate_back case_number :
  preserves same_job
    (_navigate_back_to_results net site settings case_number).
Proof. unfold _navigate_back_to_results. same; apply same_job_recover. Qed.

Lemma same_job_download_result a b c d e f :
  preserves same_job (download_result (Env := Env) a b c d e f).
Proof. unfold download_result. same. Qed.

Lemma same_job_process_transcript_entry case_number entry :
  preserves same_job (process_transcript_entry net site case_number entry).
Proof.
  unfold process_transcript_entry. same; apply same_job_download_result.
Qed.

Lemma same_job_initialize : preserves same_job (initialize site settings).
Proof. unfold initialize. same. Qed.

Lemma same_job_login : preserves same_job (login net site).
Proof. unfold login. same. Qed.

Lemma process_transcript_entry_returns case_number entry (s : State) :
  ∃ d s', process_transcript_entry net site case_number entry s = (Ok d, s')
          ∧ same_job s s'.
Proof.
  pose proof (same_job_process_transcript_entry case_number entry s) as Hs.
  destruct (process_transcript_entry net site case_number entry s)
    as [r s'] eqn:Heq.
  simpl in Hs. destruct r as [d|e]; [by eauto|].
  exfalso. revert Heq. unfold process_transcript_entry, try_except.
  match goal with
  | |- context [match ?body s with _ => _ end] =>
      destruct (body s) as [[d|e'] s1]; [done|]
  end.
  unfold bind, world, zoom, logger, modify, download_result, gets, ret.
  simpl. done.
Qed.

Lemma send_progress_returns c msg cur tot (s : State) :
  ∃ s', world (send_progress net c msg cur tot) s = (Ok (), s')
        ∧ same_job s s'.
Proof.
  pose proof (same_job_world (send_progress net c msg cur tot) s) as Hs.
  destruct s as [self w]. unfold world, zoom in *. simpl in *.
  assert ((send_progress net c msg cur tot w).1 = Ok ()) as Hok.
  { unfold send_progress, bind, gets. apply send_event_ok. }
  destruct (send_progress net c msg cur tot w) as [r w']. simpl in *.
  subst r. eauto.
Qed.

Lemma process_entry_tail case_number total idx (l : Local) :
  ∃ r l',
    (if Z.of_nat idx <? Z.of_nat total - 1
     then outer (_navigate_back_to_results net site settings case_number) ;;
          outer (_random_delay site settings)
     else ret ()) l = (r, l')
    ∧ same_case l l'
    ∧ (is_ok r = false → (S idx < total)%nat).
Proof.
  destruct (Z.ltb_spec (Z.of_nat idx) (Z.of_nat total - 1)).
  - assert (preserves same_case
              (outer (_navigate_back_to_results net site settings
                        case_number) ;;
               outer (_random_delay site settings))) as Hp.
    { same; [apply same_job_navigate_back|apply same_job_random_delay]. }
    specialize (Hp l).
    destruct ((outer (_navigate_back_to_results net site settings
                        case_number) ;;
               outer (_random_delay site settings)) l) as [r l'].
    exists r, l'. split; [done|]. split; [done|]. intros _. lia.
  - exists (Ok ()), l. split; [done|]. split; [reflexivity|done].
Qed.

(** One turn of the loop over the entries: a download result is added
    to the job, and the case result counts it as a download or as an
    error.  The turn can only raise on the way back to the results,
    which it takes when another entry follows. *)
Lemma process_entry_effect case_number total idx entry
    (c : CaseNumber.t) (s : State) :
  ∃ r d c' s',
    process_entry net site settings case_number total (idx, entry) (c, s)
    = (r, (c', s'))
    ∧ client_id s'.1 = client_id s.1
    ∧ on_state_change (state_machine s'.1)
      = on_state_change (state_machine s.1)
    ∧ current_job s'.1 = CMECFScrapingJob.add_download d <$> current_job s.1
    ∧ CaseNumber.transcripts_downloaded c'
      = CaseNumber.transcripts_downloaded c
        + (if String.eqb (CMECFDownloadResult.status d) "SUCCESS"
           then 1 else 0)
    ∧ length (CaseNumber.errors c')
      = (length (CaseNumber.errors c)
         + (if String.eqb (CMECFDownloadResult.status d) "SUCCESS"
            then 0 else 1))%nat
    ∧ CaseNumber.status c' = CaseNumber.status c
    ∧ CaseNumber.transcripts_found c' = CaseNumber.transcripts_found c
    ∧ CaseNumber.case_number c' = CaseNumber.case_number c
    ∧ (is_ok r = false → (S idx < total)%nat).
Proof.
  unfold process_entry.
  unfold bind at 1, outer at 1, zoom at 1, me at 1, gets at 1. simpl.
  unfold bind at 1, outer at 1, zoom at 1. simpl.
  match goal with
  | |- context [world (send_progress net ?c0 ?m ?x ?y) s] =>
      destruct (send_progress_returns c0 m x y s) as (s1 & -> & Hs1)
  end.
  unfold bind at 1, outer at 1, zoom at 1. simpl.
  destruct (process_transcript_entry_returns case_number entry s1)
    as (d & s2 & -> & Hs2).
  assert (same_job s s2) as (Hc2 & Hj2 & Ho2) by (by etrans). clear Hs1 Hs2.
  unfold bind at 1.
  destruct (String.eqb (CMECFDownloadResult.status d) "SUCCESS") eqn:Hd;
    unfold on_case_result at 1, modify at 1; simpl;
    unfold bind at 1, outer at 1, zoom at 1, on_job at 1, modify at 1; simpl;
    match goal with
    | |- context [(if _ <? _ then _ else _) ?l] =>
        destruct (process_entry_tail case_number total idx l)
          as (r & [c' s'] & -> & [Hc' (Hcl & Hjob & Hobs)] & Hr)
    end;
    simpl in Hc', Hcl, Hjob, Hobs; subst c';
    exists r, d; do 2 eexists; (split; [reflexivity|]); rewrite Hd; simpl;
    rewrite ?length_app; simpl;
    (split; [congruence|]); (split; [congruence|]);
    (split; [by rewrite Hjob, Hj2|]); repeat split; try done; lia.
Qed.

Abbreviation downloads_added := (@CMECFScraper.downloads_added Env).

Lemma downloads_added_nil (s s' : State) :
  same_job s s' → downloads_added [] s s'.
Proof.
  intros (Hc & Hj & Ho). split; [done|]. split; [|done].
  rewrite Hj. by destruct (current_job s.1).
Qed.

Lemma downloads_added_trans ds1 ds2 (s1 s2 s3 : State) :
  downloads_added ds1 s1 s2 → downloads_added ds2 s2 s3 →
  downloads_added (ds1 ++ ds2) s1 s3.
Proof.
  intros (Hc & Hj & Ho) (Hc' & Hj' & Ho').
  split; [congruence|]. split; [|congruence].
  rewrite Hj', Hj. destruct (current_job s1.1); [|done]. simpl.
  by rewrite foldl_app.
Qed.

Lemma successes_cons d ds :
  successes (d :: ds)
  = (if String.eqb (CMECFDownloadResult.status d) "SUCCESS" then 1 else 0)
    + successes ds.
Proof.
  unfold successes. rewrite filter_cons.
  destruct (String.eqb_spec (CMECFDownloadResult.status d) "SUCCESS");
    destruct (decide _); try done; simpl; lia.
Qed.

Lemma successes_app ds1 ds2 :
  successes (ds1 ++ ds2) = successes ds1 + successes ds2.
Proof.
  unfold successes. rewrite filter_app, length_app. lia.
Qed.

Lemma successes_bounds ds : 0 ≤ successes ds ≤ Z.of_nat (length ds).
Proof.
  unfold successes. pose proof (length_filter
    (λ d, CMECFDownloadResult.status d = "SUCCESS") ds). lia.
Qed.

(** The loop over the entries of a case. *)
Lemma process_entries_effect case_number total entries :
  ∀ i (c : CaseNumber.t) (s : State),
    (i + length entries = total)%nat →
    ∃ r ds c' s',
      for_each (enumerate i entries)
        (process_entry net site settings case_number total) (c, s)
      = (r, (c', s'))
      ∧ downloads_added ds s s'
      ∧ CaseNumber.transcripts_downloaded c'
        = CaseNumber.transcripts_downloaded c + successes ds
      ∧ Z.of_nat (length (CaseNumber.errors c'))
        = Z.of_nat (length (CaseNumber.errors c))
          + (Z.of_nat (length ds) - successes ds)
      ∧ CaseNumber.status c' = CaseNumber.status c
      ∧ CaseNumber.transcripts_found c' = CaseNumber.transcripts_found c
      ∧ CaseNumber.case_number c' = CaseNumber.case_number c
      ∧ (if is_ok r then length ds = length entries
         else (length ds < length entries)%nat).
Proof.
  induction entries as [|entry entries IH]; intros i c s Htotal.
  - exists (Ok ()), [], c, s. split; [done|].
    split; [by apply downloads_added_nil|]. simpl.
    repeat split; try done; unfold successes; simpl; lia.
  - cbn [enumerate for_each]. unfold bind.
    destruct (process_entry_effect case_number total i entry c s)
      as (r & d & c1 & s1 & -> & Hc1 & Ho1 & Hj1 & Hd1 & He1 & Hst1 & Hf1
          & Hcn1 & Hr1).
    assert (downloads_added [d] s s1) as Hadd by done.
    destruct r as [[]|e].
    + destruct (IH (S i) c1 s1) as (r & ds & c' & s' & -> & Hadd' & Hd' & He'
                                    & Hst' & Hf' & Hcn' & Hr'); [simpl in *; lia|].
      exists r, (d :: ds), c', s'. split; [done|].
      split; [by apply (downloads_added_trans [d] ds s s1 s')|].
      rewrite successes_cons. simpl length.
      split; [lia|]. split.
      { destruct (String.eqb _ "SUCCESS"); lia. }
      split; [congruence|]. split; [congruence|]. split; [congruence|].
      destruct (is_ok r); lia.
    + exists (Raise e), [d], c1, s1. split; [done|]. split; [done|].
      rewrite successes_cons. unfold successes at 1 2. simpl.
      split; [lia|]. split.
      { destruct (String.eqb _ "SUCCESS"); lia. }
      split; [done|]. split; [done|]. split; [done|].
      specialize (Hr1 eq_refl). simpl in *. lia.
Qed.

Lemma wp_chain {A} (R : Local → Local → Prop) `{!PreOrder R}
    (m : M Local A) (l0 l1 : Local) Φ :
  preserves R m → R l0 l1 → (∀ r l2, R l0 l2 → Φ r l2) → wp m l1 Φ.
Proof.
  intros Hm H01 HΦ. apply (wp_preserves R); [done|].
  intros r l2 H12. apply HΦ. by etrans.
Qed.

(** The [try] block of [process_case]. *)
Lemma process_case_body_effect case_number (s : State) :
  ∃ r ds c' s',
    process_case_body net site settings case_number
      (CaseNumber.new case_number, s) = (r, (c', s'))
    ∧ downloads_added ds s s'
    ∧ CaseNumber.case_number c' = case_number
    ∧ CaseNumber.transcripts_downloaded c' = successes ds
    ∧ match r with
      | Ok _ =>
          (CaseNumber.status c' = "completed"
           ∧ Z.of_nat (length (CaseNumber.errors c'))
             = Z.of_nat (length ds) - successes ds
           ∧ CaseNumber.transcripts_found c' = Z.of_nat (length ds))
          ∨ (CaseNumber.status c' = "failed"
             ∧ ds = []
             ∧ CaseNumber.errors c' ≠ []
             ∧ CaseNumber.transcripts_found c' = 0)
      | Raise _ =>
          Z.of_nat (length ds) ≤ CaseNumber.transcripts_found c'
      end.
Proof.
  set (Φ := λ (r : result ()) (l' : Local),
         ∃ ds,
           downloads_added ds s l'.2
           ∧ CaseNumber.case_number l'.1 = case_number
           ∧ CaseNumber.transcripts_downloaded l'.1 = successes ds
           ∧ match r with
             | Ok _ =>
                 (CaseNumber.status l'.1 = "completed"
                  ∧ Z.of_nat (length (CaseNumber.errors l'.1))
                    = Z.of_nat (length ds) - successes ds
                  ∧ CaseNumber.transcripts_found l'.1 = Z.of_nat (length ds))
                 ∨ (CaseNumber.status l'.1 = "failed"
                    ∧ ds = []
                    ∧ CaseNumber.errors l'.1 ≠ []
                    ∧ CaseNumber.transcripts_found l'.1 = 0)
             | Raise _ =>
                 Z.of_nat (length ds) ≤ CaseNumber.transcripts_found l'.1
             end).
  assert (wp (process_case_body net site settings case_number)
            (CaseNumber.new case_number, s) Φ) as Hwp.
  { assert (∀ e l', same_case (CaseNumber.new case_number, s) l' →
                    Φ (Raise e) l') as Hraise.
    { intros e [c' s'] [Hc' Hs']. simpl in *. subst c'. exists [].
      split; [by apply downloads_added_nil|]. done. }
    unfold process_case_body.
    apply wp_bind.
    apply (wp_chain same_case _ (CaseNumber.new case_number, s));
      [same|reflexivity|]. intros [[]|e] l1 Hl1; [|by apply Hraise].
    apply wp_bind.
    apply (wp_chain same_case _ (CaseNumber.new case_number, s));
      [same|done|]. clear l1 Hl1. intros [me|e] l1 Hl1; [|by apply Hraise].
    apply wp_bind.
    apply (wp_chain same_case _ (CaseNumber.new case_number, s));
      [same|done|]. clear l1 Hl1. intros [[]|e] l1 Hl1; [|by apply Hraise].
    apply wp_bind.
    apply (wp_chain same_case _ (CaseNumber.new case_number, s));
      [same|done|].
    clear l1 Hl1. intros [submitted|e] l1 Hl1; [|by apply Hraise].
    destruct l1 as [c1 s1]. destruct Hl1 as [Hc1 Hs1]. simpl in Hc1, Hs1.
    subst c1.
    destruct submitted; simpl negb; cbv iota.
    2:{ unfold wp, bind, on_case_result, modify. simpl. exists [].
        split; [by apply downloads_added_nil|]. split; [done|].
        split; [done|]. right. done. }
    apply wp_bind.
    apply (wp_chain same_case _ (CaseNumber.new case_number, s));
      [same|done|].
    clear s1 Hs1. intros [loaded|e] l1 Hl1; [|by apply Hraise].
    destruct l1 as [c1 s1]. destruct Hl1 as [Hc1 Hs1]. simpl in Hc1, Hs1.
    subst c1.
    destruct loaded; simpl negb; cbv iota.
    2:{ unfold wp, bind, on_case_result, modify. simpl. exists [].
        split; [by apply downloads_added_nil|]. split; [done|].
        split; [done|]. right. done. }
    apply wp_bind.
    apply (wp_chain same_case _ (CaseNumber.new case_number, s));
      [same|done|].
    clear s1 Hs1. intros [url|e] l1 Hl1; [|by apply Hraise].
    apply wp_bind.
    apply (wp_chain same_case _ (CaseNumber.new case_number, s));
      [same|done|]. clear l1 Hl1. intros [[]|e] l1 Hl1; [|by apply Hraise].
    apply wp_bind.
    apply (wp_chain same_case _ (CaseNumber.new case_number, s));
      [same|done|]. clear l1 Hl1. intros [[]|e] l1 Hl1; [|by apply Hraise].
    apply wp_bind.
    apply (wp_chain same_case _ (CaseNumber.new case_number, s));
      [same|done|]. clear l1 Hl1. intros [[]|e] l1 Hl1; [|by apply Hraise].
    apply wp_bind.
    apply (wp_chain same_case _ (CaseNumber.new case_number, s));
      [same|done|].
    clear l1 Hl1. intros [entries|e] l1 Hl1; [|by apply Hraise].
    destruct l1 as [c1 s1]. destruct Hl1 as [Hc1 Hs1]. simpl in Hc1, Hs1.
    subst c1.
    apply wp_bind. unfold wp at 1, on_case_result at 1, modify at 1. simpl.
    set (c2 := CaseNumber.set_transcripts_found (Z.of_nat (length entries))
                 (CaseNumber.new case_number)).
    assert (∀ e l', same_case (c2, s1) l' → Φ (Raise e) l') as Hraise2.
    { intros e [c' s'] [Hc' Hs']. simpl in *. subst c'. exists [].
      split; [apply downloads_added_nil; by etrans|]. simpl.
      split; [done|]. split; [done|]. lia. }
    destruct entries as [|entry entries].
    - apply wp_bind.
      apply (wp_chain same_case _ (c2, s1)); [same|reflexivity|].
      intros [[]|e] [c' s'] Hl'; [|by apply Hraise2].
      destruct Hl' as [Hc' Hs']. simpl in Hc', Hs'. subst c'.
      unfold wp, on_case_result, modify. simpl. exists [].
      split; [apply downloads_added_nil; by etrans|]. split; [done|].
      split; [done|]. left. done.
    - apply wp_bind.
      apply (wp_chain same_case _ (c2, s1)); [same|reflexivity|].
      intros [[]|e] [c' s2] Hl'; [|by apply Hraise2].
      destruct Hl' as [Hc' Hs2]. simpl in Hc', Hs2. subst c'.
      apply wp_bind. unfold wp at 1.
      destruct (process_entries_effect case_number
                  (length (entry :: entries)) (entry :: entries) 0%nat c2 s2
                  eq_refl)
        as (r & ds & c3 & s3 & -> & Hadd & Hd & He & Hst & Hf & Hcn & Hr).
      cbn [fst snd].
      assert (downloads_added ds s s3) as Hadd'.
      { apply (downloads_added_trans [] ds s s2 s3); [|done].
        apply downloads_added_nil. etrans; [done|]. done. }
      simpl in Hd, He, Hf, Hcn.
      destruct r as [[]|e]; simpl in Hr.
      + unfold wp, on_case_result, modify. simpl. exists ds. simpl.
        split; [done|]. split; [done|]. split; [lia|]. left.
        split; [done|]. split; [lia|]. rewrite Hf, Hr. done.
      + exists ds. cbn [fst snd]. split; [done|]. split; [done|].
        split; [lia|]. rewrite Hf. lia. }
  unfold wp in Hwp.
  destruct (process_case_body net site settings case_number
              (CaseNumber.new case_number, s)) as [r [c' s']].
  destruct Hwp as (ds & Hrest). exists r, ds, c', s'. split; [done|].
  exact Hrest.
Qed.

Lemma process_case_effect case_number (s : State) :
  ∃ ds c' s',
    process_case net site settings case_number s = (Ok c', s')
    ∧ downloads_added ds s s'
    ∧ CaseNumber.case_number c' = case_number
    ∧ CaseNumber.transcripts_downloaded c' = successes ds
    ∧ (CaseNumber.status c' = "completed" ∨ CaseNumber.status c' = "failed")
    ∧ (CaseNumber.status c' = "completed" →
       CaseNumber.transcripts_downloaded c'
       + Z.of_nat (length (CaseNumber.errors c'))
       = CaseNumber.transcripts_found c')
    ∧ (CaseNumber.status c' = "failed" → CaseNumber.errors c' ≠ [])
    ∧ 0 ≤ CaseNumber.transcripts_downloaded c'
      ≤ CaseNumber.transcripts_found c'.
Proof.
  unfold process_case.
  destruct (process_case_body_effect case_number s)
    as (r & ds & c' & s' & -> & Hadd & Hcn & Hd & Hr).
  pose proof (successes_bounds ds) as Hb.
  destruct r as [[]|e].
  - exists ds, c', s'. split; [done|]. split; [done|]. split; [done|].
    split; [done|].
    destruct Hr as [(Hst & He & Hf)|(Hst & -> & He & Hf)]; rewrite Hst.
    + split; [by left|]. split; [lia|]. split; [done|]. lia.
    + split; [by right|]. split; [done|]. split; [done|].
      rewrite Hd, Hf. done.
  - unfold bind, world, zoom, logger, modify. simpl.
    exists ds. do 2 eexists. split; [reflexivity|]. simpl.
    split; [by destruct s'|]. split; [done|]. split; [done|].
    split; [by right|]. split; [done|]. split; [|lia].
    intros _. by destruct (CaseNumber.errors c').
Qed.

(** Every case ends in a verdict: [process_case] returns, whatever the
    site does, a case result that carries the case number it was given
    and the status "completed" or "failed".  A completed case accounts
    for every transcript found, as a download or as an error; a failed
    one has at least one error; no case has more downloads than
    transcripts found.  Of the scraper, only the state machine, the
    stored URL and the job's downloads have changed, and the downloads
    added with status SUCCESS are as many as the case result counts. *)
Theorem process_case_always_returns_a_verdict (case_number : string)
    (s : State) :
  ∃ case_result s' ds,
    process_case net site settings case_number s = (Ok case_result, s')
    ∧ CaseNumber.case_number case_result = case_number
    ∧ (CaseNumber.status case_result = "completed"
       ∨ CaseNumber.status case_result = "failed")
    ∧ (CaseNumber.status case_result = "completed" →
       CaseNumber.transcripts_downloaded case_result
       + Z.of_nat (length (CaseNumber.errors case_result))
       = CaseNumber.transcripts_found case_result)
    ∧ (CaseNumber.status case_result = "failed" →
       CaseNumber.errors case_result ≠ [])
    ∧ 0 ≤ CaseNumber.transcripts_downloaded case_result
      ≤ CaseNumber.transcripts_found case_result
    ∧ client_id s'.1 = client_id s.1
    ∧ current_job s'.1
      = (λ j, foldl (λ j d, CMECFScrapingJob.add_download d j) j ds)
          <$> current_job s.1
    ∧ CaseNumber.transcripts_downloaded case_result = successes ds.
Proof.
  destruct (process_case_effect case_number s)
    as (ds & c' & s' & Heq & (Hc & Hj & Ho) & Hcn & Hd & Hst & Hcompleted
        & Hfailed & Hbounds).
  exists c', s', ds. split; [done|]. split; [done|]. split; [done|].
  split; [done|]. split; [done|]. split; [done|]. done.
Qed.

Abbreviation advances := (@CMECFScraper.advances Env).

Lemma job_advances_refl j : job_advances 0 [] j j.
Proof. repeat split; try done; try lia. by intros c [?%elem_of_nil|?]. Qed.

Lemma job_advances_trans n1 n2 seen1 seen2 j1 j2 j3 :
  job_advances n1 seen1 j1 j2 → job_advances n2 seen2 j2 j3 →
  job_advances (n1 + n2) (seen1 ++ seen2) j1 j3.
Proof.
  intros (Hs & Hc & Ht & Hd & Hn & Hr) (Hs' & Hc' & Ht' & Hd' & Hn' & Hr').
  split; [congruence|]. split; [congruence|]. split; [congruence|].
  split; [lia|]. split; [lia|].
  intros c [Hin|Hsome].
  - apply elem_of_app in Hin as [Hin|Hin]; [|by apply Hr'; left].
    apply Hr'. right. apply Hr. by left.
  - apply Hr'. right. apply Hr. by right.
Qed.

Lemma advances_same (s s' : State) : same_job s s' → advances 0 [] s s'.
Proof.
  intros (Hc & Hj & Ho). split; [done|]. split; [done|].
  intros j Hjob. exists j. split; [congruence|apply job_advances_refl].
Qed.

Lemma advances_trans n1 n2 seen1 seen2 (s1 s2 s3 : State) :
  advances n1 seen1 s1 s2 → advances n2 seen2 s2 s3 →
  advances (n1 + n2) (seen1 ++ seen2) s1 s3.
Proof.
  intros (Hc & Ho & Hj) (Hc' & Ho' & Hj').
  split; [congruence|]. split; [congruence|].
  intros j1 Hj1. destruct (Hj j1 Hj1) as (j2 & Hj2 & H12).
  destruct (Hj' j2 Hj2) as (j3 & Hj3 & H23).
  exists j3. split; [done|]. by eapply job_advances_trans.
Qed.

Lemma advances_on_job (f : Z → CMECFScrapingJob.t → CMECFScrapingJob.t)
    n seen (s : State) :
  (∀ now j, job_advances n seen j (f now j)) →
  ∃ s', on_job f s = (Ok (), s') ∧ advances n seen s s'.
Proof.
  intros Hf. destruct s as [self w]. eexists. split; [reflexivity|].
  split; [done|]. split; [done|]. simpl. intros j ->. simpl.
  eexists. split; [done|]. apply Hf.
Qed.

Lemma adds_effect ds : ∀ j,
  let j' := foldl (λ j d, CMECFScrapingJob.add_download d j) j ds in
  CMECFScrapingJob.status j' = CMECFScrapingJob.status j
  ∧ CMECFScrapingJob.case_numbers j' = CMECFScrapingJob.case_numbers j
  ∧ CMECFScrapingJob.started_at j' = CMECFScrapingJob.started_at j
  ∧ CMECFScrapingJob.total_transcripts_downloaded j'
    = CMECFScrapingJob.total_transcripts_downloaded j + successes ds
  ∧ CMECFScrapingJob.downloads j' = CMECFScrapingJob.downloads j ++ ds
  ∧ CMECFScrapingJob.cases_processed j' = CMECFScrapingJob.cases_processed j
  ∧ CMECFScrapingJob.case_results j' = CMECFScrapingJob.case_results j.
Proof.
  induction ds as [|d ds IH]; intros j; simpl.
  - rewrite app_nil_r. unfold successes. simpl. repeat split; lia.
  - destruct (IH (CMECFScrapingJob.add_download d j))
      as (Hs & Hc & Ht & Hd & Hl & Hn & Hr).
    simpl in *. rewrite Hs, Hc, Ht, Hd, Hl, Hn, Hr, successes_cons.
    rewrite <- app_assoc. repeat split.
    destruct (String.eqb _ "SUCCESS"); lia.
Qed.

Lemma add_errors_advances case_number errors : ∀ s : State,
  ∃ s', for_each errors
          (λ error, on_job (Env := Env)
                      (CMECFScrapingJob.add_error case_number "" error)) s
        = (Ok (), s')
        ∧ advances 0 [] s s'.
Proof.
  induction errors as [|e errors IH]; intros s; simpl.
  - exists s. split; [done|]. apply advances_same. reflexivity.
  - unfold bind.
    destruct (advances_on_job
                (CMECFScrapingJob.add_error case_number "" e) 0 [] s)
      as (s1 & -> & H1).
    { intros now j. repeat split; try done; simpl; try lia.
      by intros c [?%elem_of_nil|?]. }
    destruct (IH s1) as (s2 & -> & H2).
    exists s2. split; [done|].
    by apply (advances_trans 0 0 [] [] s s1 s2).
Qed.

Lemma random_delay_returns (s : State) :
  ∃ s', _random_delay site settings s = (Ok (), s') ∧ same_job s s'.
Proof.
  pose proof (same_job_random_delay s) as Hs.
  destruct (calm_random_delay site settings s) as ([] & s' & Heq & _).
  rewrite Heq in Hs. eauto.
Qed.

(** One turn of the loop over the cases. *)
Lemma run_case_effect total idx case_number (s : State) :
  ∃ r s',
    run_case net site settings total (idx, case_number) s = (r, s')
    ∧ (if is_ok r then advances 1 [case_number] s s'
       else advances 0 [] s s').
Proof.
  unfold run_case. unfold bind at 1.
  destruct (advances_on_job
              (λ _, CMECFScrapingJob.set_current_case_index (Z.of_nat idx))
              0 [] s) as (s1 & -> & H1).
  { intros now j. repeat split; try done; simpl; try lia.
    by intros c [?%elem_of_nil|?]. }
  unfold bind at 1, me at 1, gets at 1.
  unfold bind at 1.
  match goal with
  | |- context [world (send_progress net ?c0 ?m ?x ?y) s1] =>
      destruct (send_progress_returns c0 m x y s1) as (s2 & -> & Hs2)
  end.
  assert (advances 0 [] s s2) as H2.
  { apply (advances_trans 0 0 [] [] s s1 s2); [done|by apply advances_same]. }
  clear H1 Hs2.
  unfold bind at 1.
  assert (preserves same_job
            (if (0 <? idx)%nat
             then _navigate_to_case_entry site settings else ret ())) as Hnav.
  { destruct (0 <? idx)%nat; [apply same_job_navigate_to_case_entry|].
    apply (preserves_ret same_job). }
  specialize (Hnav s2).
  destruct ((if (0 <? idx)%nat
             then _navigate_to_case_entry site settings else ret ()) s2)
    as [[[]|e] s3].
  2:{ do 2 eexists. split; [reflexivity|]. simpl.
      apply (advances_trans 0 0 [] [] s s2 s3); [done|].
      by apply advances_same. }
  simpl in Hnav.
  assert (advances 0 [] s s3) as H3.
  { apply (advances_trans 0 0 [] [] s s2 s3); [done|by apply advances_same]. }
  clear H2 Hnav.
  unfold bind at 1.
  destruct (process_case_effect case_number s3)
    as (ds & c' & s4 & -> & (Hc4 & Hj4 & Ho4) & Hcn & Hd & _).
  unfold bind at 1, on_job at 1, modify at 1.
  unfold bind at 1, on_job at 1, modify at 1.
  unfold bind at 1. cbn [fst snd].
  match goal with
  | |- context [for_each (CaseNumber.errors c') ?body ?s0] =>
      destruct (add_errors_advances case_number (CaseNumber.errors c') s0)
        as (s5 & -> & H5);
      assert (advances 1 [case_number] s3 s0) as H4
  end.
  { split; [done|]. split; [done|]. simpl. intros j Hjob.
    rewrite Hj4, Hjob. simpl. eexists. split; [done|].
    destruct (adds_effect ds j) as (Hs & Hcs & Ht & Hdl & Hl & Hn & Hr).
    unfold job_advances. simpl in *.
    rewrite Hs, Hcs, Ht, Hdl, Hl, Hn, Hr, Hd, successes_app.
    repeat split; [lia|].
    intros c [Hin|Hsome].
    - apply list_elem_of_singleton in Hin as ->.
      rewrite lookup_insert_eq. by eexists.
    - destruct (decide (case_number = c)) as [->|Hne].
      + rewrite lookup_insert_eq. by eexists.
      + by rewrite lookup_insert_ne. }
  assert (advances 1 [case_number] s s5) as H6.
  { apply (advances_trans 0 1 [] [case_number] s s3 _) in H4; [|done].
    by apply (advances_trans 1 0 [case_number] [] s _ s5) in H5. }
  destruct (Z.of_nat idx <? Z.of_nat total - 1).
  - destruct (random_delay_returns s5) as (s6 & -> & Hs6).
    do 2 eexists. split; [reflexivity|]. simpl.
    apply (advances_trans 1 0 [case_number] [] s s5 s6); [done|].
    by apply advances_same.
  - do 2 eexists. split; [reflexivity|]. done.
Qed.

Lemma run_cases_effect total cases : ∀ i (s : State),
  ∃ r s',
    for_each (enumerate i cases) (run_case net site settings total) s
    = (r, s')
    ∧ (if is_ok r then advances (Z.of_nat (length cases)) cases s s'
       else ∃ n seen, advances n seen s s').
Proof.
  induction cases as [|c cases IH]; intros i s.
  - exists (Ok ()), s. split; [done|]. apply advances_same. reflexivity.
  - cbn [enumerate for_each]. unfold bind.
    destruct (run_case_effect total i c s) as (r & s1 & -> & H1).
    destruct r as [[]|e]; simpl in H1.
    + destruct (IH (S i) s1) as (r & s2 & -> & H2).
      exists r, s2. split; [done|]. destruct r as [[]|e]; simpl in *.
      * replace (Z.of_nat (S (length cases)))
          with (1 + Z.of_nat (length cases)) by lia.
        by apply (advances_trans _ _ [c] cases s s1 s2).
      * destruct H2 as (n & seen & H2). exists (1 + n), ([c] ++ seen).
        by apply (advances_trans _ _ [c] seen s s1 s2).
    + exists (Raise e), s1. split; [done|]. simpl. eauto.
Qed.

Lemma world_returns {A} (m : M World A) (s : State) :
  (∀ w, ∃ a, (m w).1 = Ok a) →
  ∃ a s', world m s = (Ok a, s') ∧ same_job s s'.
Proof.
  intros Hm. pose proof (same_job_world m s) as Hs.
  destruct s as [self w]. destruct (Hm w) as [a Ha].
  unfold world, zoom in *. simpl in *. destruct (m w) as [r w'].
  simpl in *. subst r. eauto.
Qed.

(** The [except] clause of [run_scraping_job]. *)
Lemma job_failed_effect e n seen (s0 s1 : State) j0 :
  current_job s0.1 = Some j0 → advances n seen s0 s1 →
  ∃ j1 now s2,
    (world (logger Py.ERROR ("CMECF scraping job failed: " +:+ str e)) ;;
     on_job (CMECFScrapingJob.mark_failed (str e)) ;;
     let* me := me in
     world (send_error net me ("Scraping job failed: " +:+ str e)) ;;
     gets (λ s : State, current_job s.1)) s1
    = (Ok (Some (CMECFScrapingJob.mark_failed (str e) now j1)), s2)
    ∧ current_job s2.1 = Some (CMECFScrapingJob.mark_failed (str e) now j1)
    ∧ job_advances n seen j0 j1
    ∧ client_id s2.1 = client_id s0.1
    ∧ on_state_change (state_machine s2.1)
      = on_state_change (state_machine s0.1).
Proof.
  intros Hj0 (Hc & Ho & Hj). destruct (Hj j0 Hj0) as (j1 & Hj1 & Hadv).
  unfold bind at 1.
  destruct (world_returns (logger Py.ERROR
              ("CMECF scraping job failed: " +:+ str e)) s1)
    as ([] & s2 & -> & (Hc2 & Hj2 & Ho2)); [by eexists|].
  unfold bind at 1, on_job at 1, modify at 1.
  unfold bind at 1, me at 1, gets at 1. unfold bind at 1.
  match goal with
  | |- context [world (send_error net ?c ?m) ?s0] =>
      destruct (world_returns (send_error net c m) s0)
        as ([] & s3 & -> & (Hc3 & Hj3 & Ho3))
  end.
  { intros w. exists (). unfold send_error, bind, gets. apply send_event_ok. }
  simpl in Hc3, Hj3, Ho3. unfold gets. rewrite Hj3, Hj2, Hj1. simpl.
  do 3 eexists. split; [reflexivity|].
  split; [by rewrite Hj3, Hj2, Hj1|]. split; [done|].
  split; congruence.
Qed.

(** The whole job, whatever the site and the peers do. *)
Lemma run_scraping_job_effect (job : CMECFScrapingJob.t) (s : State) :
  ∃ job' s' n seen j1,
    run_scraping_job net site settings job s = (Ok (Some job'), s')
    ∧ current_job s'.1 = Some job'
    ∧ client_id s'.1 = client_id s.1
    ∧ current_state (state_machine s'.1) = IDLE
    ∧ state_history (state_machine s'.1) = []
    ∧ on_state_change (state_machine s'.1)
      = on_state_change (state_machine s.1)
    ∧ job_advances n seen (CMECFScrapingJob.mark_started (clock s.2) job) j1
    ∧ ((∃ now, job' = CMECFScrapingJob.mark_completed now j1
               ∧ n = Z.of_nat (length (CMECFScrapingJob.case_numbers job))
               ∧ seen = CMECFScrapingJob.case_numbers job)
       ∨ ∃ msg now, job' = CMECFScrapingJob.mark_failed msg now j1).
Proof.
  unfold run_scraping_job.
  unfold bind at 1, modify at 1. unfold bind at 1, on_job at 1, modify at 1.
  cbn [fst snd].
  set (j0 := CMECFScrapingJob.mark_started (clock s.2) job).
  set (s0 := (set_current_job (Some j0) s.1, s.2) : State).
  change (set_current_job
            (CMECFScrapingJob.mark_started (clock s.2)
               <$> current_job (set_current_job (Some job) s.1))
            (set_current_job (Some job) s.1), s.2) with s0.
  assert (current_job s0.1 = Some j0) as Hj0 by done.
  assert (client_id s0.1 = client_id s.1
          ∧ on_state_change (state_machine s0.1)
            = on_state_change (state_machine s.1)) as [Hc0 Ho0] by done.
  assert (∃ job' s1 n seen j1,
            try_except
              (initialize site settings ;;
               let* logged_in := login net site in
               if negb logged_in then
                 on_job (CMECFScrapingJob.mark_failed "Login failed") ;;
                 gets (λ s : State, current_job s.1)
               else
                 for_each (enumerate 0 (CMECFScrapingJob.case_numbers job))
                   (run_case net site settings
                      (length (CMECFScrapingJob.case_numbers job))) ;;
                 CMECFScraper.transition_to COMPLETED
                   "CMECF scraping completed" ;;
                 on_job CMECFScrapingJob.mark_completed ;;
                 let* me := me in
                 let* summary :=
                   gets (λ s : State,
                           default JNone
                             (CMECFScrapingJob.get_summary (clock s.2)
                                <$> current_job s.1)) in
                 world (send_complete net me "Scraping complete!" summary) ;;
                 gets (λ s : State, current_job s.1))
              (λ e,
                 world (logger Py.ERROR
                          ("CMECF scraping job failed: " +:+ str e)) ;;
                 on_job (CMECFScrapingJob.mark_failed (str e)) ;;
                 let* me := me in
                 world (send_error net me
                          ("Scraping job failed: " +:+ str e)) ;;
                 gets (λ s : State, current_job s.1)) s0
            = (Ok (Some job'), s1)
            ∧ current_job s1.1 = Some job'
            ∧ client_id s1.1 = client_id s0.1
            ∧ on_state_change (state_machine s1.1)
              = on_state_change (state_machine s0.1)
            ∧ job_advances n seen j0 j1
            ∧ ((∃ now, job' = CMECFScrapingJob.mark_completed now j1
                       ∧ n = Z.of_nat
                               (length (CMECFScrapingJob.case_numbers job))
                       ∧ seen = CMECFScrapingJob.case_numbers job)
               ∨ ∃ msg now, job' = CMECFScrapingJob.mark_failed msg now j1))
    as (job' & s1 & n & seen & j1 & Heq & Hjob & Hc1 & Ho1 & Hadv & Hend).
  { assert (∀ e n seen s1,
              advances n seen s0 s1 →
              ∃ job' s2 j1,
                (world (logger Py.ERROR
                          ("CMECF scraping job failed: " +:+ str e)) ;;
                 on_job (CMECFScrapingJob.mark_failed (str e)) ;;
                 let* me := me in
                 world (send_error net me
                          ("Scraping job failed: " +:+ str e)) ;;
                 gets (λ s : State, current_job s.1)) s1
                = (Ok (Some job'), s2)
                ∧ current_job s2.1 = Some job'
                ∧ client_id s2.1 = client_id s0.1
                ∧ on_state_change (state_machine s2.1)
                  = on_state_change (state_machine s0.1)
                ∧ job_advances n seen j0 j1
                ∧ ∃ msg now,
                    job' = CMECFScrapingJob.mark_failed msg now j1)
      as Hfail.
    { intros e n seen s1 Hadv.
      destruct (job_failed_effect e n seen s0 s1 j0 Hj0 Hadv)
        as (j1 & now & s2 & -> & ? & ? & ? & ?).
      do 3 eexists. split; [reflexivity|]. eauto 10. }
    unfold try_except. unfold bind at 1.
    pose proof (same_job_initialize s0) as Hs1.
    destruct (initialize site settings s0) as [[[]|e] s1].
    2:{ destruct (Hfail e 0 [] s1 (advances_same _ _ Hs1))
          as (job' & s2 & j1 & -> & ? & ? & ? & ? & ?).
        exists job', s2, 0, [], j1. eauto 10. }
    simpl in Hs1. unfold bind at 1.
    pose proof (same_job_login s1) as Hs2.
    destruct (login net site s1) as [[logged_in|e] s2].
    2:{ assert (same_job s0 s2) as Hs02 by (by etrans).
        destruct (Hfail e 0 [] s2 (advances_same _ _ Hs02))
          as (job' & s3 & j1 & -> & ? & ? & ? & ? & ?).
        exists job', s3, 0, [], j1. eauto 10. }
    simpl in Hs2. assert (same_job s0 s2) as (Hc2 & Hj2 & Ho2) by (by etrans).
    clear Hs1 Hs2.
    destruct logged_in; cbn [negb].
    2:{ unfold bind, on_job, modify, gets. simpl. rewrite Hj2, Hj0. simpl.
        do 2 eexists. exists 0, [], j0. split; [reflexivity|].
        split; [done|]. split; [done|]. split; [done|].
        split; [apply job_advances_refl|]. right. eauto. }
    unfold bind at 1.
    destruct (run_cases_effect (length (CMECFScrapingJob.case_numbers job))
                (CMECFScrapingJob.case_numbers job) 0%nat s2)
      as (r & s3 & -> & Hr).
    assert (advances 0 [] s0 s2) as H02 by (by apply advances_same).
    destruct r as [[]|e]; simpl in Hr.
    2:{ destruct Hr as (n & seen & Hr).
        pose proof (advances_trans 0 n [] seen s0 s2 s3 H02 Hr) as H03.
        destruct (Hfail e _ _ s3 H03)
          as (job' & s4 & j1 & -> & ? & ? & ? & ? & ?).
        exists job', s4, (0 + n), ([] ++ seen), j1. eauto 10. }
    pose proof (advances_trans 0 _ [] _ s0 s2 s3 H02 Hr) as H03.
    simpl in H03. clear H02 Hr.
    unfold bind at 1.
    pose proof (same_job_transition_to COMPLETED "CMECF scraping completed"
                  s3) as Hs4.
    destruct (CMECFScraper.transition_to COMPLETED
                "CMECF scraping completed" s3) as [[[]|e] s4].
    2:{ pose proof (advances_trans _ 0 _ [] s0 s3 s4 H03
                      (advances_same _ _ Hs4)) as H04.
        destruct (Hfail e _ _ s4 H04)
          as (job' & s5 & j1 & -> & ? & ? & ? & ? & ?).
        exists job', s5. do 2 eexists. exists j1. eauto 10. }
    simpl in Hs4.
    pose proof (advances_trans _ 0 _ [] s0 s3 s4 H03
                  (advances_same _ _ Hs4)) as H04.
    rewrite Z.add_0_r, app_nil_r in H04. clear H03 Hs4.
    destruct H04 as (Hc4 & Ho4 & Hj4).
    destruct (Hj4 j0 Hj0) as (j1 & Hj1 & Hadv). rewrite Z.add_0_l in Hadv.
    unfold bind at 1, on_job at 1, modify at 1.
    unfold bind at 1, me at 1, gets at 1.
    unfold bind at 1, gets at 1. unfold bind at 1. cbn [fst snd].
    match goal with
    | |- context [world (send_complete net ?c ?m ?d) ?s5] =>
        destruct (world_returns (send_complete net c m d) s5)
          as ([] & s6 & -> & (Hc6 & Hj6 & Ho6))
    end.
    { intros w. exists (). unfold send_complete, bind, gets.
      apply send_event_ok. }
    simpl in Hc6, Hj6, Ho6. unfold gets. rewrite Hj6, Hj1. simpl.
    do 4 eexists. exists j1. split; [reflexivity|].
    split; [by rewrite Hj6, Hj1|]. split; [congruence|]. split; [congruence|].
    split; [done|]. left. eauto. }
  unfold try_finally. rewrite Heq.
  unfold cleanup, bind, world, on_site, zoom, io, logger, modify.
  cbn [fst snd].
  exists job'. eexists. exists n, seen, j1. split; [reflexivity|].
  cbn [fst snd]. split; [done|]. split; [simpl; congruence|].
  split; [done|]. split; [done|]. split; [simpl; congruence|]. done.
Qed.

(** Whatever the site, the browser and the peers do, and whatever
    observer the state machine has, [run_scraping_job] returns the job
    and does not raise.  The job it returns is COMPLETED or FAILED,
    never RUNNING, with the start and the completion stamped and its
    case numbers as they were.  COMPLETED means that every case was
    counted and has a result; FAILED comes with an error entry.  The
    state machine has been reset: it is IDLE, with an empty history and
    its observer kept. *)
Theorem job_ends_completed_or_failed (job : CMECFScrapingJob.t) (s : State) :
  ∃ job' s',
    run_scraping_job net site settings job s = (Ok (Some job'), s')
    ∧ current_job s'.1 = Some job'
    ∧ (CMECFScrapingJob.status job' = CMECFScrapingJob.COMPLETED
       ∨ CMECFScrapingJob.status job' = CMECFScrapingJob.FAILED)
    ∧ CMECFScrapingJob.started_at job' = Some (clock s.2)
    ∧ is_Some (CMECFScrapingJob.completed_at job')
    ∧ CMECFScrapingJob.case_numbers job' = CMECFScrapingJob.case_numbers job
    ∧ (CMECFScrapingJob.status job' = CMECFScrapingJob.COMPLETED →
       CMECFScrapingJob.cases_processed job'
       = CMECFScrapingJob.cases_processed job
         + Z.of_nat (length (CMECFScrapingJob.case_numbers job))
       ∧ ∀ c, c ∈ CMECFScrapingJob.case_numbers job →
              is_Some (CMECFScrapingJob.case_results job' !! c))
    ∧ (CMECFScrapingJob.status job' = CMECFScrapingJob.FAILED →
       CMECFScrapingJob.errors job' ≠ [])
    ∧ current_state (state_machine s'.1) = IDLE
    ∧ state_history (state_machine s'.1) = []
    ∧ on_state_change (state_machine s'.1)
      = on_state_change (state_machine s.1).
Proof.
  destruct (run_scraping_job_effect job s)
    as (job' & s' & n & seen & j1 & Heq & Hjob & Hc & Hidle & Hhist & Hobs
        & (Hst & Hcn & Hstart & _ & Hn & Hres) & Hend).
  exists job', s'. split; [done|]. split; [done|].
  destruct Hend as [(now & -> & -> & ->)|(msg & now & ->)]; simpl.
  - split; [by left|]. split; [by rewrite Hstart|]. split; [by eexists|].
    split; [done|]. split; [|done]. intros _. split; [by rewrite Hn|].
    intros c Hin. apply Hres. by left.
  - split; [by right|]. split; [by rewrite Hstart|]. split; [by eexists|].
    split; [done|]. split; [done|]. split; [|done].
    intros _. by destruct (CMECFScrapingJob.errors j1).
Qed.

(** A job's count of downloaded transcripts counts every successful
    download twice: once when [process_case] hands the download to
    [add_download], and once more when [run_scraping_job] hands the
    case result, which has counted it too, to [add_case_result].  At
    the end of a job, however it ends, [total_transcripts_downloaded]
    has grown by twice the number of downloads recorded with status
    SUCCESS; for a job that starts with no download it is twice their
    number. *)
Theorem downloaded_total_counts_successes_twice (job : CMECFScrapingJob.t)
    (s : State) :
  ∃ job' s',
    run_scraping_job net site settings job s = (Ok (Some job'), s')
    ∧ CMECFScrapingJob.total_transcripts_downloaded job'
      - CMECFScrapingJob.total_transcripts_downloaded job
      = 2 * (successes (CMECFScrapingJob.downloads job')
             - successes (CMECFScrapingJob.downloads job))
    ∧ (CMECFScrapingJob.total_transcripts_downloaded job = 0 →
       CMECFScrapingJob.downloads job = [] →
       CMECFScrapingJob.total_transcripts_downloaded job'
       = 2 * successes (CMECFScrapingJob.downloads job')).
Proof.
  destruct (run_scraping_job_effect job s)
    as (job' & s' & n & seen & j1 & Heq & _ & _ & _ & _ & _
        & (_ & _ & _ & Hbalance & _) & Hend).
  exists job', s'. split; [done|]. simpl in Hbalance.
  assert (CMECFScrapingJob.total_transcripts_downloaded job'
          = CMECFScrapingJob.total_transcripts_downloaded j1
          ∧ CMECFScrapingJob.downloads job' = CMECFScrapingJob.downloads j1)
    as [-> ->].
  { by destruct Hend as [(now & -> & _)|(msg & now & ->)]. }
  split; [lia|]. intros Hzero Hnone. rewrite Hzero, Hnone in Hbalance.
  unfold successes at 2 in Hbalance. simpl in Hbalance. lia.
Qed.

End Outcomes.

End CMECFScraperProps.

(** ** The Bloomberg job *)

Module BloombergJobProps.

Import StateMachine WebsocketHandler BloombergJob Scenarios.
Import WebsocketHandlerProps PyProps.

Section Selection.

Context {A : Type}.
Implicit Types entries picked : list A.

Lemma item_in_range entries z :
  - Z.of_nat (length entries) ≤ z < Z.of_nat (length entries) →
  ∃ x, item entries z = Ok x
       ∧ entries !! Z.to_nat (z `mod` Z.of_nat (length entries)) = Some x.
Proof.
  intros Hz. unfold item.
  set (n := Z.of_nat (length entries)) in *.
  assert (z `mod` n = if z <? 0 then z + n else z) as Hmod.
  { destruct (Z.ltb_spec z 0).
    - symmetry. apply (Z.mod_unique_pos _ _ (-1)); lia.
    - apply Z.mod_small. lia. }
  rewrite Hmod.
  replace ((0 <=? (if z <? 0 then z + n else z))
           && ((if z <? 0 then z + n else z) <? n)) with true.
  2: { symmetry. apply andb_true_iff. split;
         [apply Z.leb_le|apply Z.ltb_lt]; destruct (Z.ltb_spec z 0); lia. }
  destruct (entries !! Z.to_nat (if z <? 0 then z + n else z)) as [x|] eqn:Hx;
    [by eauto|].
  apply lookup_ge_None in Hx. destruct (Z.ltb_spec z 0); lia.
Qed.

Lemma item_below entries z :
  z < - Z.of_nat (length entries) →
  item entries z = Raise (IndexError "list index out of range").
Proof.
  intros Hz. unfold item.
  replace (z <? 0) with true by (symmetry; apply Z.ltb_lt; lia).
  replace (0 <=? z + Z.of_nat (length entries)) with false
    by (symmetry; apply Z.leb_gt; lia).
  done.
Qed.

Lemma item_elem_of entries z x : item entries z = Ok x → x ∈ entries.
Proof.
  unfold item. destruct (_ && _); [|done].
  destruct (entries !! _) as [y|] eqn:Hy; [|done].
  intros [= <-]. by eapply list_elem_of_lookup_2.
Qed.

Lemma pick_one_elem_of entries i picked :
  pick_one entries i = Ok picked → picked ⊆ entries.
Proof.
  assert (∀ z, (if z <? Z.of_nat (length entries)
                then match item entries z with
                     | Ok x => Ok [x]
                     | Raise e => Raise e
                     end
                else Ok []) = Ok picked → picked ⊆ entries) as Hat.
  { intros z. destruct (z <? _).
    - destruct (item entries z) as [x|e] eqn:Hx; [|done].
      intros [= <-] y Hy. apply list_elem_of_singleton in Hy as ->.
      by eapply item_elem_of.
    - intros [= <-] y Hy. by apply elem_of_nil in Hy. }
  unfold pick_one. destruct i; try done; try apply Hat.
  destruct (Qle_bool _ _); [|done].
  intros [= <-] y Hy. by apply elem_of_nil in Hy.
Qed.

Lemma pick_elem_of entries indices picked :
  pick entries indices = Ok picked → picked ⊆ entries.
Proof.
  revert picked. induction indices as [|i indices IH]; simpl; intros picked.
  - intros [= <-] y Hy. by apply elem_of_nil in Hy.
  - destruct (pick_one entries i) as [one|] eqn:Hone; [|done].
    destruct (pick entries indices) as [more|]; [|done].
    intros [= <-] y Hy. apply elem_of_app in Hy as [Hy|Hy].
    + by eapply pick_one_elem_of.
    + by eapply IH.
Qed.

Lemma select_elem_of entries selected_indices picked :
  select entries selected_indices = Ok picked → picked ⊆ entries.
Proof.
  destruct selected_indices as [| | | |s| |l|d]; simpl; try done.
  - destruct (String.eqb s ""); [|done].
    intros [= <-] y Hy. by apply elem_of_nil in Hy.
  - apply pick_elem_of.
  - destruct d; [|done]. intros [= <-] y Hy. by apply elem_of_nil in Hy.
Qed.

Lemma pick_by_index entries (zs : list Z) :
  Forall (λ z, - Z.of_nat (length entries) ≤ z) zs →
  pick entries (JInt <$> zs)
  = Ok (omap (λ z, if z <? Z.of_nat (length entries)
                   then entries !! Z.to_nat
                                     (z `mod` Z.of_nat (length entries))
                   else None) zs).
Proof.
  induction 1 as [|z zs Hz _ IH]; [done|].
  rewrite fmap_cons. cbn [pick omap list_omap]. rewrite IH. unfold pick_one.
  destruct (Z.ltb_spec z (Z.of_nat (length entries))); [|done].
  destruct (item_in_range entries z) as (x & -> & ->); [lia|]. done.
Qed.

Lemma pick_below entries (zs : list Z) :
  Exists (λ z, z < - Z.of_nat (length entries)) zs →
  pick entries (JInt <$> zs) = Raise (IndexError "list index out of range").
Proof.
  induction zs as [|z zs IH]; intros Hex; [by apply Exists_nil in Hex|].
  rewrite fmap_cons. cbn [pick]. unfold pick_one.
  destruct (Z_lt_dec z (- Z.of_nat (length entries))) as [Hz|Hz].
  - replace (z <? Z.of_nat (length entries)) with true
      by (symmetry; apply Z.ltb_lt; lia).
    by rewrite item_below.
  - apply Exists_cons in Hex as [?|Hex]; [done|]. rewrite (IH Hex).
    destruct (Z.ltb_spec z (Z.of_nat (length entries))); [|done].
    destruct (item_in_range entries z) as (x & -> & _); [lia|]. done.
Qed.

End Selection.

(** The operator's answer to the transcript options is read as Python
    reads it.  "skip" selects nothing and "download_all" everything; any
    other action with no indices, or with an empty list of them, selects
    everything too.  Otherwise the entries are taken by index, in the
    order of the indices and as often as an index is given: an index from
    [len] on is dropped without an error, a negative one counts from the
    end, and one below [-len] raises [IndexError].  Whatever is
    selected is among the entries offered. *)
Theorem answer_selects_entries_by_python_index
    (transcript_entries : list TranscriptEntry.t)
    (action selected_indices : json) (zs : list Z) :
  entries_to_download transcript_entries (JStr "skip") selected_indices
  = Ok None
  ∧ entries_to_download transcript_entries (JStr "download_all")
      selected_indices
    = Ok (Some transcript_entries)
  ∧ (is_str action "skip" = false → truthy selected_indices = false →
     entries_to_download transcript_entries action selected_indices
     = Ok (Some transcript_entries))
  ∧ (is_str action "skip" = false → is_str action "download_all" = false →
     zs ≠ [] →
     (Forall (λ z, - Z.of_nat (length transcript_entries) ≤ z) zs →
      entries_to_download transcript_entries action (JList (JInt <$> zs))
      = Ok (Some (omap (λ z,
                          if z <? Z.of_nat (length transcript_entries)
                          then transcript_entries
                               !! Z.to_nat
                                    (z `mod` Z.of_nat
                                               (length transcript_entries))
                          else None) zs)))
     ∧ (Exists (λ z, z < - Z.of_nat (length transcript_entries)) zs →
        entries_to_download transcript_entries action (JList (JInt <$> zs))
        = Raise (IndexError "list index out of range")))
  ∧ (∀ chosen,
       entries_to_download transcript_entries action selected_indices
       = Ok (Some chosen) →
       chosen ⊆ transcript_entries).
Proof.
  split; [done|]. split; [done|]. split; [|split].
  - intros Hskip Hfalsy. unfold entries_to_download.
    rewrite Hskip, Hfalsy. by rewrite orb_true_r.
  - intros Hskip Hall Hzs. unfold entries_to_download. rewrite Hskip, Hall.
    assert (truthy (JList (JInt <$> zs)) = true) as ->
      by by destruct zs.
    simpl. split; intros H.
    + by rewrite pick_by_index.
    + by rewrite pick_below.
  - intros chosen. unfold entries_to_download.
    destruct (is_str action "skip"); [done|].
    destruct (_ || _); [by intros [= <-]|].
    destruct (select _ _) as [picked|] eqn:Hpicked; [|done].
    intros [= <-]. by eapply select_elem_of.
Qed.

(** The documents of the automated mode are [all_results[start - 1 :
    end]], as Python slices: a run of consecutive results.  With
    [1 <= start <= end <= len] they are the documents number [start] to
    [end]; without an end, or with the end [0], they go on to the last.
    A start of [0] gives the index [-1], which Python counts from the
    end: the last document alone, or none when an end is given that
    stops before it. *)
Theorem automated_range_is_a_python_slice (job : ScrapingJob.t)
    (all_results : list DocumentResult.t) :
  (∃ before after,
     all_results = before ++ documents_to_process job all_results ++ after)
  ∧ (∀ e, ScrapingJob.document_range_end job = Some e →
          1 ≤ ScrapingJob.document_range_start job ≤ e →
          e ≤ Z.of_nat (length all_results) →
          documents_to_process job all_results
          = take (Z.to_nat (e - ScrapingJob.document_range_start job + 1))
              (drop (Z.to_nat (ScrapingJob.document_range_start job - 1))
                 all_results))
  ∧ (ScrapingJob.document_range_end job = None
     ∨ ScrapingJob.document_range_end job = Some 0 →
     1 ≤ ScrapingJob.document_range_start job →
     documents_to_process job all_results
     = drop (Z.to_nat (ScrapingJob.document_range_start job - 1))
         all_results)
  ∧ (ScrapingJob.document_range_start job = 0 →
     (ScrapingJob.document_range_end job = None
      ∨ ScrapingJob.document_range_end job = Some 0 →
      documents_to_process job all_results
      = drop (length all_results - 1) all_results)
     ∧ (∀ e, ScrapingJob.document_range_end job = Some e →
             0 < e < Z.of_nat (length all_results) →
             documents_to_process job all_results = [])).
Proof.
  unfold documents_to_process, end_idx, slice.
  set (n := Z.of_nat (length all_results)).
  set (a := ScrapingJob.document_range_start job).
  split; [|split; [|split]].
  - match goal with
    | |- ∃ _ _, _ = _ ++ take ?k (drop ?m _) ++ _ =>
        exists (take m all_results), (drop k (drop m all_results))
    end.
    by rewrite !take_drop.
  - intros e -> Ha He.
    replace (e =? 0) with false by (symmetry; apply Z.eqb_neq; lia).
    replace (a - 1 <? 0) with false by (symmetry; apply Z.ltb_ge; lia).
    replace (e <? 0) with false by (symmetry; apply Z.ltb_ge; lia).
    rewrite (Z.min_l (a - 1)) by lia. rewrite (Z.min_l e) by lia.
    f_equal. lia.
  - intros Hend Ha.
    assert (match ScrapingJob.document_range_end job with
            | Some e => if e =? 0 then n else e
            | None => n
            end = n) as -> by (by destruct Hend as [->| ->]).
    replace (a - 1 <? 0) with false by (symmetry; apply Z.ltb_ge; lia).
    replace (n <? 0) with false by (symmetry; apply Z.ltb_ge; lia).
    rewrite Z.min_id.
    destruct (Z.min_spec (a - 1) n) as [[? ->]|[? ->]].
    + apply take_ge. rewrite length_drop. lia.
    + rewrite !drop_ge by lia. by rewrite take_nil.
  - intros Ha. fold a. rewrite Ha. simpl.
    replace (Z.to_nat (Z.max (0 - 1 + n) 0)) with (length all_results - 1)%nat
      by lia.
    split.
    + intros Hend.
      assert (match ScrapingJob.document_range_end job with
              | Some e => if e =? 0 then n else e
              | None => n
              end = n) as -> by (by destruct Hend as [->| ->]).
      replace (n <? 0) with false by (symmetry; apply Z.ltb_ge; lia).
      rewrite Z.min_id. apply take_ge. rewrite length_drop. lia.
    + intros e -> He.
      replace (e =? 0) with false by (symmetry; apply Z.eqb_neq; lia).
      replace (e <? 0) with false by (symmetry; apply Z.ltb_ge; lia).
      rewrite (Z.min_l e) by lia.
      replace (Z.to_nat e - (length all_results - 1))%nat with 0%nat by lia.
      done.
Qed.

Section Run.

Context {Env : Type}.
Variable net : Network Env.
Variable pages : Pages Env.
Variable headless_mode : bool.

Abbreviation World := (WebsocketHandler.World Env).
Abbreviation State := (BloombergJob.State Env).
Abbreviation Local := (BloombergJob.Local Env).
Abbreviation same_scraper := (@BloombergJob.same_scraper Env).
Abbreviation same_job := (@BloombergJob.same_job Env).
Abbreviation same_document := (@BloombergJob.same_document Env).
Abbreviation keeps := (@BloombergJob.keeps Env).

#[local] Instance same_scraper_preorder : PreOrder same_scraper.
Proof.
  split.
  - intros s. by split.
  - intros s1 s2 s3 [? ?] [? ?]. split; congruence.
Qed.

#[local] Instance job_kept_preorder : PreOrder same_job.
Proof.
  split.
  - intros s. by repeat split.
  - intros s1 s2 s3 (?&?&?&?&?) (?&?&?&?&?). repeat split; congruence.
Qed.

#[local] Instance same_identity_preorder : PreOrder same_identity.
Proof.
  split.
  - intros d. by repeat split.
  - intros d1 d2 d3 (?&?&?&?&?) (?&?&?&?&?). repeat split; congruence.
Qed.

#[local] Instance same_document_preorder : PreOrder same_document.
Proof.
  split.
  - intros l. split; reflexivity.
  - intros l1 l2 l3 [? ?] [? ?]. split; by etrans.
Qed.

#[local] Instance fixed_preorder : PreOrder fixed.
Proof.
  split.
  - intros j. by repeat split.
  - intros j1 j2 j3 (?&?&?&?&?&?&?&?&?&?) (?&?&?&?&?&?&?&?&?&?).
    repeat split; congruence.
Qed.

Lemma sum_downloaded_app l1 l2 :
  sum_downloaded (l1 ++ l2) = sum_downloaded l1 + sum_downloaded l2.
Proof.
  unfold sum_downloaded. induction l1 as [|d l1 IH]; simpl; [done|].
  rewrite IH. lia.
Qed.

Lemma extended_trans a1 a2 j1 j2 j3 :
  extended a1 j1 j2 → extended a2 j2 j3 → extended (a1 ++ a2) j1 j3.
Proof.
  intros [Hd1 Ht1] [Hd2 Ht2]. split.
  - by rewrite Hd2, Hd1, app_assoc.
  - rewrite Ht2. destruct a2 as [|d a2].
    + rewrite app_nil_r. rewrite Ht1. rewrite app_nil_r in Hd2.
      by rewrite Hd2.
    + by destruct a1.
Qed.

#[local] Instance bookkeeping_preorder mode : PreOrder (bookkeeping mode).
Proof.
  split.
  - intros j. split; [reflexivity|]. split; [done|]. exists [].
    split; [split; [by rewrite app_nil_r|done]|].
    destruct mode; simpl; repeat split; try lia. by constructor.
  - intros j1 j2 j3 (Hf1 & Hs1 & a1 & He1 & Hm1) (Hf2 & Hs2 & a2 & He2 & Hm2).
    split; [by etrans|]. split; [congruence|]. exists (a1 ++ a2).
    split; [by eapply extended_trans|].
    destruct mode.
    + destruct Hm1 as [Hp1 Ht1], Hm2 as [Hp2 Ht2].
      rewrite length_app. split; [lia|congruence].
    + destruct Hm1 as (Hp1 & Ht1 & Ha1), Hm2 as (Hp2 & Ht2 & Ha2).
      rewrite sum_downloaded_app. split; [lia|]. split; [lia|].
      by apply Forall_app.
Qed.

#[local] Instance keeps_preorder mode : PreOrder (keeps mode).
Proof.
  split.
  - intros s. split; [done|]. split; [done|]. reflexivity.
  - intros s1 s2 s3 (?&?&?) (?&?&?).
    split; [congruence|]. split; [congruence|]. by etrans.
Qed.

Lemma keeps_same mode (s s' : State) : same_job s s' → keeps mode s s'.
Proof.
  intros (Hc & Ho & _ & _ & Hj). split; [done|]. split; [done|].
  rewrite Hj. reflexivity.
Qed.

Lemma preserves_weaken {S A} (R R' : S → S → Prop) (m : M S A) :
  (∀ s s', R s s' → R' s s') → preserves R m → preserves R' m.
Proof. intros HR Hm s. apply HR, Hm. Qed.

Lemma job_kept_world {A} (m : M World A) :
  preserves same_job (BloombergJob.world m).
Proof.
  intros [self w]. unfold BloombergJob.world, zoom. simpl.
  by destruct (m w).
Qed.

Lemma job_kept_pure {A} (r : result A) :
  preserves same_job (BloombergJob.pure r).
Proof. intros s. reflexivity. Qed.

Lemma job_kept_on_page {A} (f : Env → result A * Env) :
  preserves same_job (on_page f).
Proof.
  intros s. unfold on_page. destruct (pages_ready s.1).
  - apply job_kept_world.
  - reflexivity.
Qed.

Lemma job_kept_inner {A} (m : M (BloombergScraper.State Env) A) :
  preserves same_scraper m → preserves same_job (inner m).
Proof.
  intros Hm [self w]. unfold inner. specialize (Hm (scraper self, w)).
  destruct (m (scraper self, w)) as [r [sc w']]. simpl in *.
  destruct Hm as [? ?]. by repeat split.
Qed.

Lemma same_scraper_transition_to st msg :
  preserves same_scraper (BloombergScraper.transition_to (Env := Env) st msg).
Proof.
  intros [self w]. unfold BloombergScraper.transition_to.
  pose proof (StateMachineProps.transition_to_machine clock emit
                (BloombergScraper.state_machine self) st msg w)
    as (_ & _ & _ & Hcb).
  destruct (StateMachine.transition_to _ _ _ _ _ _) as [r [sm w']].
  simpl in *. by split.
Qed.

Lemma same_scraper_world {A} (m : M World A) :
  preserves same_scraper (BloombergScraper.world m).
Proof.
  intros [self w]. unfold BloombergScraper.world, zoom. simpl.
  by destruct (m w).
Qed.

Lemma same_scraper_pure {A} (r : result A) :
  preserves same_scraper (BloombergScraper.pure (Env := Env) r).
Proof. intros s. reflexivity. Qed.

Lemma same_scraper_handle_court_selection user_input court_options script :
  preserves same_scraper
    (BloombergScraper._handle_court_selection net user_input court_options
       script).
Proof.
  unfold BloombergScraper._handle_court_selection.
  repeat lazymatch goal with
    | |- preserves ?R ?m =>
        lazymatch m with
        | ret _ => apply (preserves_ret R)
        | gets _ => apply (preserves_gets R)
        | bind _ _ => apply (preserves_bind R); [|intros ?]
        | BloombergScraper.world _ => apply same_scraper_world
        | BloombergScraper.pure _ => apply same_scraper_pure
        | BloombergScraper.transition_to _ _ =>
            apply same_scraper_transition_to
        | match ?x with _ => _ end => destruct x
        end
    end.
Qed.

Lemma job_kept_transition_to st msg :
  preserves same_job (BloombergJob.transition_to st msg).
Proof. apply job_kept_inner, same_scraper_transition_to. Qed.

Lemma same_document_outer {A} (m : M State A) :
  preserves same_job m → preserves same_document (outer m).
Proof.
  intros Hm [d s]. unfold outer, zoom. simpl. specialize (Hm s).
  destruct (m s). split; [reflexivity|done].
Qed.

Lemma same_document_on_document f :
  (∀ d, same_identity d (f d)) → preserves same_document (on_document f).
Proof. intros Hf [d s]. split; [apply Hf|reflexivity]. Qed.

Ltac same_step :=
  lazymatch goal with
  | |- preserves ?R ?m =>
      lazymatch m with
      | ret _ => apply (preserves_ret R)
      | raise _ => apply (preserves_raise R)
      | gets _ => apply (preserves_gets R)
      | me => apply (preserves_gets R)
      | the_job => apply (preserves_gets R)
      | the_document => apply (preserves_gets R)
      | BloombergJob.pure _ => apply job_kept_pure
      | bind _ _ => apply (preserves_bind R); [|intros ?]
      | try_except _ _ => apply (preserves_try_except R); [|intros ?]
      | for_each _ _ => apply (preserves_for_each R); intros ?
      | BloombergJob.world _ => apply job_kept_world
      | on_site _ => apply job_kept_world
      | on_page _ => apply job_kept_on_page
      | BloombergJob.transition_to _ _ => apply job_kept_transition_to
      | inner _ => apply job_kept_inner
      | outer _ => apply same_document_outer
      | on_document _ =>
          apply same_document_on_document; intros ?; by repeat split
      | match ?x with _ => _ end => destruct x
      end
  end.

Ltac same := repeat same_step.

Lemma job_kept_download_result a b c d e :
  preserves same_job (download_result (Env := Env) a b c d e).
Proof. unfold download_result. same. Qed.

Lemma job_kept_download_transcript entry title :
  preserves same_job (download_transcript pages entry title).
Proof. unfold download_transcript. same; apply job_kept_download_result. Qed.

Lemma job_kept_progress_callback current total entry_num :
  preserves same_job (progress_callback net current total entry_num).
Proof. unfold progress_callback. same. Qed.

Lemma job_kept_download_each on_progress title total entries :
  preserves same_job (download_each net pages on_progress title total entries).
Proof.
  induction entries as [|[idx entry] entries IH]; cbn [download_each]; same.
  all: first [ apply IH
             | apply job_kept_progress_callback
             | apply job_kept_download_transcript ].
Qed.

Lemma job_kept_download_multiple_transcripts entries title on_progress :
  preserves same_job
    (download_multiple_transcripts net pages entries title on_progress).
Proof.
  unfold download_multiple_transcripts. same. apply job_kept_download_each.
Qed.

Lemma job_kept_notify download : preserves same_job (notify net download).
Proof. unfold notify. same. Qed.

Lemma job_kept_handle_transcript_download document entries idx total script :
  preserves same_job
    (_handle_transcript_download net pages document entries idx total script).
Proof.
  unfold _handle_transcript_download. same.
  all: try apply job_kept_download_multiple_transcripts.
  all: apply job_kept_notify.
Qed.

Lemma same_document_process_single_document_body idx total script :
  preserves same_document
    (process_single_document_body net pages idx total script).
Proof.
  unfold process_single_document_body. same.
  apply job_kept_handle_transcript_download.
Qed.

Lemma job_kept_document_failed log_line idx e :
  preserves same_job (document_failed net pages log_line idx e).
Proof. unfold document_failed. same. Qed.

Lemma world_always_returns {A} (m : M World A) (s : State) :
  (∀ w, ∃ a, (m w).1 = Ok a) →
  ∃ a s', BloombergJob.world m s = (Ok a, s') ∧ same_job s s'.
Proof.
  intros Hm. pose proof (job_kept_world m s) as Hs.
  destruct s as [self w]. destruct (Hm w) as [a Ha].
  unfold BloombergJob.world, zoom in *. simpl in *.
  destruct (m w) as [r w']. simpl in *. subst r. eauto.
Qed.

Lemma send_error_returns c msg (s : State) :
  ∃ s', BloombergJob.world (send_error net c msg) s = (Ok (), s')
        ∧ same_job s s'.
Proof.
  destruct (world_always_returns (send_error net c msg) s) as ([] & s' & ? & ?);
    [|by eauto].
  intros w. exists (). unfold send_error, bind, gets. apply send_event_ok.
Qed.

Lemma document_failed_returns log_line idx e (s : State) :
  ∃ s', document_failed net pages log_line idx e s = (Ok (), s')
        ∧ same_job s s'.
Proof.
  unfold document_failed. unfold bind at 1.
  destruct (world_always_returns (logger Py.ERROR (log_line +:+ str e)) s)
    as ([] & s1 & -> & H1); [by eexists|].
  unfold bind at 1, me at 1, gets at 1. unfold bind at 1.
  match goal with
  | |- context [BloombergJob.world (send_error net ?c ?m) s1] =>
      destruct (send_error_returns c m s1) as (s2 & -> & H2)
  end.
  unfold try_except.
  pose proof (job_kept_on_page (go_back_to_results pages) s2) as H3.
  destruct (on_page (go_back_to_results pages) s2) as [[[]|e'] s3];
    simpl in *; eexists; (split; [reflexivity|]);
    (etrans; [done|]); by etrans.
Qed.

Lemma process_single_document_effect document idx total script (s : State) :
  ∃ document' s',
    process_single_document net pages document idx total script s
    = (Ok document', s')
    ∧ same_identity document document' ∧ same_job s s'.
Proof.
  unfold process_single_document.
  unfold bind at 1, me at 1, gets at 1. unfold bind at 1.
  match goal with
  | |- context [BloombergJob.world (send_progress net ?c ?m ?x ?y) s] =>
      destruct (world_always_returns (send_progress net c m x y) s)
        as ([] & s1 & -> & H1)
  end.
  { intros w. exists (). unfold send_progress, bind, gets.
    apply send_event_ok. }
  pose proof (same_document_process_single_document_body idx total script
                (document, s1)) as Hbody.
  destruct (process_single_document_body net pages idx total script
              (document, s1)) as [r [document' s2]].
  destruct Hbody as [Hid Hjob]. simpl in Hid, Hjob.
  destruct r as [[]|e].
  - exists document', s2. split; [done|]. split; [done|]. by etrans.
  - unfold bind.
    destruct (document_failed_returns "Error processing document: " idx e s2)
      as (s3 & -> & H3).
    exists document', s3. split; [done|]. split; [done|].
    etrans; [done|]. by etrans.
Qed.

(** [process_single_document] never raises, whatever the pages, the
    operator and the observer of the state machine do: it returns the
    document it was given, with the title, the URL and the other fields
    it was found with, and it leaves the job as it is; of the scraper
    only the state machine's state and history have changed. *)
Theorem process_single_document_always_returns_the_document
    (document : DocumentResult.t) (document_index total_documents : Z)
    (script : list Arrival) (s : State) :
  ∃ document' s',
    process_single_document net pages document document_index
      total_documents script s = (Ok document', s')
    ∧ DocumentResult.title document' = DocumentResult.title document
    ∧ DocumentResult.url document' = DocumentResult.url document
    ∧ DocumentResult.docket_number document'
      = DocumentResult.docket_number document
    ∧ job s'.1 = job s.1
    ∧ BloombergScraper.client_id (scraper s'.1)
      = BloombergScraper.client_id (scraper s.1)
    ∧ on_state_change (BloombergScraper.state_machine (scraper s'.1))
      = on_state_change (BloombergScraper.state_machine (scraper s.1)).
Proof.
  destruct (process_single_document_effect document document_index
              total_documents script s)
    as (document' & s' & Heq & (Ht & Hu & Hd & _) & (Hc & Ho & _ & _ & Hj)).
  exists document', s'. by repeat split.
Qed.

(** *** Downloads, entry by entry *)

Lemma wp_bind_any {S A B} (m : M S A) (k : A → M S B) (s : S)
    (Φ : result B → S → Prop) :
  (∀ e s', Φ (Raise e) s') → (∀ a s', wp (k a) s' Φ) → wp (bind m k) s Φ.
Proof.
  intros Hraise Hk. apply wp_bind. unfold wp.
  destruct (m s) as [[a|e] s']; simpl; [apply Hk|apply Hraise].
Qed.

Lemma download_transcript_effect entry title (s : State) :
  ∃ d s', download_transcript pages entry title s = (Ok d, s')
          ∧ answers entry d.
Proof.
  unfold download_transcript.
  destruct (TranscriptEntry.has_download entry) eqn:Hhas; simpl.
  - unfold bind, on_site, BloombergJob.world, zoom, io. simpl.
    destruct (download_attempt pages entry title (env s.2)) as [[f p|msg] e];
      simpl; do 2 eexists; (split; [reflexivity|]);
      unfold answers; simpl; repeat split; (done || congruence).
  - do 2 eexists. split; [reflexivity|].
    unfold answers; simpl; repeat split; (done || congruence).
Qed.

Lemma download_each_results on_progress title total entries (s : State) :
  wp (download_each net pages on_progress title total entries) s
    (λ r _, match r with
            | Ok downloads => Forall2 answers entries.*2 downloads
            | Raise _ => True
            end).
Proof.
  revert s. induction entries as [|[idx entry] entries IH]; intros s;
    cbn [download_each].
  - apply wp_ret. constructor.
  - apply wp_bind_any; [done|]. intros _ s1. apply wp_bind.
    destruct (download_transcript_effect entry title s1)
      as (d & s2 & Heq & Hd).
    unfold wp at 1. rewrite Heq. simpl.
    apply wp_bind_any; [done|]. intros _ s3. apply wp_bind.
    eapply wp_mono; [apply IH|]. intros [downloads|e] s4; [|done].
    intros Hall. apply wp_ret. simpl. by constructor.
Qed.

Lemma enumerate_snd {X} (l : list X) i : (enumerate i l).*2 = l.
Proof.
  revert i. induction l as [|x l IH]; intros i; simpl; [done|].
  by rewrite IH.
Qed.

Lemma download_multiple_transcripts_results entries title on_progress
    (s : State) :
  wp (download_multiple_transcripts net pages entries title on_progress) s
    (λ r _, match r with
            | Ok downloads => Forall2 answers entries downloads
            | Raise _ => True
            end).
Proof.
  unfold download_multiple_transcripts. apply wp_bind, wp_gets.
  destruct (pages_ready s.1); [|done].
  eapply wp_mono; [apply download_each_results|].
  intros [downloads|e] s'; [|done]. by rewrite enumerate_snd.
Qed.

Lemma entries_to_download_elem_of (transcript_entries : list TranscriptEntry.t)
    action selected_indices chosen :
  entries_to_download transcript_entries action selected_indices
  = Ok (Some chosen) →
  chosen ⊆ transcript_entries.
Proof.
  unfold entries_to_download.
  destruct (is_str action "skip"); [done|].
  destruct (_ || _); [by intros [= <-]|].
  destruct (select _ _) as [picked|] eqn:Hpicked; [|done].
  intros [= <-]. by eapply select_elem_of.
Qed.


(** *** The job's counters *)

Lemma keeps_of_same mode {A} (m : M State A) :
  preserves same_job m → preserves (keeps mode) m.
Proof. apply preserves_weaken, keeps_same. Qed.

Lemma bookkeeping_manual d j :
  bookkeeping ScrapingJob.MANUAL j
    (ScrapingJob.count_document (ScrapingJob.add_document d j)).
Proof.
  split; [by repeat split|]. split; [done|]. exists [d].
  split; [by split|]. simpl. split; [lia|done].
Qed.

Lemma bookkeeping_counted j :
  bookkeeping ScrapingJob.AUTOMATED j (ScrapingJob.count_document j).
Proof.
  split; [by repeat split|]. split; [done|]. exists [].
  split; [split; [by rewrite app_nil_r|done]|]. simpl.
  split; [lia|]. split; [lia|constructor].
Qed.

Lemma bookkeeping_added d j :
  tallied d →
  bookkeeping ScrapingJob.AUTOMATED j
    (ScrapingJob.add_document d
       (ScrapingJob.count_transcripts
          (DocumentResult.transcripts_downloaded d) j)).
Proof.
  intros Hd. split; [by repeat split|]. split; [done|]. exists [d].
  split; [by split|]. simpl. split; [lia|]. split; [lia|].
  constructor; [done|constructor].
Qed.

Lemma bookkeeping_mark_completed mode now j :
  bookkeeping mode j (ScrapingJob.mark_completed now j).
Proof.
  split; [by repeat split|]. split; [done|]. exists [].
  split; [split; [by rewrite app_nil_r|done]|].
  destruct mode; simpl; repeat split; try lia. constructor.
Qed.

Lemma bookkeeping_mark_failed mode error now j :
  bookkeeping mode j (ScrapingJob.mark_failed error now j).
Proof.
  split; [by repeat split|]. split; [done|]. exists [].
  split; [split; [by rewrite app_nil_r|done]|].
  destruct mode; simpl; repeat split; try lia. constructor.
Qed.

Lemma keeps_on_job mode (f : Z → ScrapingJob.t → ScrapingJob.t) :
  (∀ now j, bookkeeping mode j (f now j)) →
  preserves (keeps mode) (on_job f).
Proof. intros Hf [self w]. split; [done|]. split; [done|]. apply Hf. Qed.

Lemma successful_bounds downloads :
  0 ≤ successful downloads ≤ Z.of_nat (length downloads).
Proof.
  unfold successful. split; [lia|].
  apply inj_le, length_filter.
Qed.

Lemma keeps_run_document total scripts item :
  preserves (keeps ScrapingJob.MANUAL)
    (run_document net pages total scripts item).
Proof.
  intros s. destruct item as [idx doc]. unfold run_document, bind.
  destruct (process_single_document_effect doc idx (Z.of_nat total)
              (scripts idx) s)
    as (doc' & s' & -> & _ & (Hc & Ho & _ & _ & Hj)).
  unfold on_job, modify. simpl. split; [done|]. split; [done|].
  rewrite Hj. apply bookkeeping_manual.
Qed.

Lemma wp_outer {A} (m : M State A) (d : DocumentResult.t) (s : State)
    (Φ : result A → Local → Prop) :
  wp m s (λ r s', Φ r (d, s')) → wp (outer m) (d, s) Φ.
Proof. unfold wp, outer, zoom. simpl. by destruct (m s). Qed.

Lemma wp_outer_step {A B} (R : State → State → Prop) `{!PreOrder R}
    (m : M State A) (k : A → M Local B) (d : DocumentResult.t)
    (s0 s : State) (Φ : result B → Local → Prop) :
  preserves R m → R s0 s →
  (∀ e s', R s0 s' → Φ (Raise e) (d, s')) →
  (∀ a s', R s0 s' → wp (k a) (d, s') Φ) →
  wp (bind (outer m) k) (d, s) Φ.
Proof.
  intros Hm H0 Hr Hk. apply wp_bind. unfold wp at 1, outer, zoom. simpl.
  specialize (Hm s). destruct (m s) as [[a|e] s']; simpl in *;
    [apply Hk|apply Hr]; by etrans.
Qed.

Lemma length_matching entries : (length (matching entries) ≤ length entries)%nat.
Proof. apply length_filter. Qed.

(** The part of a round of the automated mode that downloads and
    counts. *)
Lemma download_block_keeps (found : nat) entries (doc : DocumentResult.t)
    (s0 s : State) :
  (0 < length entries ≤ found)%nat →
  DocumentResult.transcripts_found doc = Z.of_nat found →
  keeps ScrapingJob.AUTOMATED s0 s →
  wp (outer (BloombergJob.transition_to DOWNLOADING
               ("Downloading " +:+ pretty (length entries) +:+ " entries")) ;;
      let* doc := the_document in
      let* downloads :=
        outer (download_multiple_transcripts net pages entries
                 (DocumentResult.title doc) false) in
      on_document (DocumentResult.set_transcripts_downloaded
                     (successful downloads)) ;;
      outer (for_each downloads (notify net)) ;;
      let* doc := the_document in
      outer (on_job (λ _, ScrapingJob.count_transcripts
                            (DocumentResult.transcripts_downloaded doc))) ;;
      outer (on_job (λ _, ScrapingJob.add_document doc)))
    (doc, s)
    (λ _ l', keeps ScrapingJob.AUTOMATED s0 l'.2).
Proof.
  intros Hlen Hfound H0.
  eapply (wp_outer_step (keeps ScrapingJob.AUTOMATED) _ _ _ s0);
    [apply keeps_of_same, job_kept_transition_to|done|by intros|].
  intros [] s1 H1. apply wp_bind, wp_gets. simpl.
  apply wp_bind, wp_outer.
  pose proof (job_kept_download_multiple_transcripts entries
                (DocumentResult.title doc) false s1) as Hsame.
  pose proof (download_multiple_transcripts_results entries
                (DocumentResult.title doc) false s1) as Hres.
  unfold wp in Hres. unfold wp at 1.
  destruct (download_multiple_transcripts net pages entries
              (DocumentResult.title doc) false s1) as [[downloads|e] s2];
    simpl in *.
  2: { etrans; [done|]. by apply keeps_same. }
  assert (keeps ScrapingJob.AUTOMATED s0 s2) as H2.
  { etrans; [done|]. by apply keeps_same. }
  apply Forall2_length in Hres.
  apply wp_bind. unfold on_document at 1. apply wp_modify. simpl.
  set (doc2 := DocumentResult.set_transcripts_downloaded
                 (successful downloads) doc).
  eapply (wp_outer_step (keeps ScrapingJob.AUTOMATED) _ _ _ s0);
    [apply keeps_of_same; same; apply job_kept_notify|done|by intros|].
  intros [] s3 H3. apply wp_bind, wp_gets. simpl.
  unfold wp, bind, outer, zoom, on_job, modify. simpl.
  etrans; [exact H3|]. split; [done|]. split; [done|]. simpl.
  apply bookkeeping_added. unfold tallied, doc2. simpl.
  pose proof (successful_bounds downloads). lia.
Qed.

Lemma process_automated_body_keeps idx end_idx doc (s : State) :
  wp (process_automated_body net pages idx end_idx) (doc, s)
    (λ _ l', keeps ScrapingJob.AUTOMATED s l'.2).
Proof.
  unfold process_automated_body.
  eapply (wp_outer_step (keeps ScrapingJob.AUTOMATED) _ _ _ s);
    [apply keeps_of_same; same|reflexivity|by intros|].
  intros me s1 H1.
  eapply (wp_outer_step (keeps ScrapingJob.AUTOMATED) _ _ _ s);
    [apply keeps_of_same; same|done|by intros|].
  intros [] s2 H2.
  eapply (wp_outer_step (keeps ScrapingJob.AUTOMATED) _ _ _ s);
    [apply keeps_of_same; same|done|by intros|].
  intros [] s3 H3. apply wp_bind, wp_gets. simpl.
  eapply (wp_outer_step (keeps ScrapingJob.AUTOMATED) _ _ _ s);
    [apply keeps_of_same; same|done|by intros|].
  intros [] s4 H4.
  eapply (wp_outer_step (keeps ScrapingJob.AUTOMATED) _ _ _ s);
    [apply keeps_of_same; same|done|by intros|].
  intros [] s5 H5.
  eapply (wp_outer_step (keeps ScrapingJob.AUTOMATED) _ _ _ s);
    [apply keeps_of_same; same|done|by intros|].
  intros [] s6 H6.
  eapply (wp_outer_step (keeps ScrapingJob.AUTOMATED) _ _ _ s);
    [apply keeps_of_same; same|done|by intros|].
  intros downloadable s7 H7.
  eapply (wp_outer_step (keeps ScrapingJob.AUTOMATED) _ _ _ s);
    [apply keeps_of_same; same|done|by intros|].
  intros download_mode s8 H8.
  assert (∀ (entries : list TranscriptEntry.t) (s' : State),
            (length entries ≤ length downloadable)%nat →
            keeps ScrapingJob.AUTOMATED s s' →
            wp (on_document
                  (DocumentResult.set_transcripts_found
                     (Z.of_nat (length downloadable))) ;;
                match entries with
                | [] => ret ()
                | _ =>
                    outer (BloombergJob.transition_to DOWNLOADING
                             ("Downloading " +:+ pretty (length entries)
                              +:+ " entries")) ;;
                    let* doc := the_document in
                    let* downloads :=
                      outer (download_multiple_transcripts net pages entries
                               (DocumentResult.title doc) false) in
                    on_document (DocumentResult.set_transcripts_downloaded
                                   (successful downloads)) ;;
                    outer (for_each downloads (notify net)) ;;
                    let* doc := the_document in
                    outer (on_job
                             (λ _, ScrapingJob.count_transcripts
                                     (DocumentResult.transcripts_downloaded
                                        doc))) ;;
                    outer (on_job (λ _, ScrapingJob.add_document doc))
                end ;;
                outer (BloombergJob.transition_to RETURNING_TO_RESULTS
                         "Returning to results page") ;;
                outer (on_page (go_back_to_results pages)) ;;
                outer (on_job (λ _, ScrapingJob.count_document)))
              (doc, s')
              (λ _ l', keeps ScrapingJob.AUTOMATED s l'.2)) as Hrest.
  { intros entries s' Hlen Hs'.
    apply wp_bind. unfold on_document at 1. apply wp_modify. simpl.
    apply wp_bind.
    assert (∀ d' s'', keeps ScrapingJob.AUTOMATED s s'' →
              wp (outer (BloombergJob.transition_to RETURNING_TO_RESULTS
                           "Returning to results page") ;;
                  outer (on_page (go_back_to_results pages)) ;;
                  outer (on_job (λ _, ScrapingJob.count_document)))
                (d', s'')
                (λ _ l', keeps ScrapingJob.AUTOMATED s l'.2)) as Htail.
    { intros d' s'' Hs''.
      eapply (wp_outer_step (keeps ScrapingJob.AUTOMATED) _ _ _ s);
        [apply keeps_of_same; same|done|by intros|].
      intros [] s9 H9.
      eapply (wp_outer_step (keeps ScrapingJob.AUTOMATED) _ _ _ s);
        [apply keeps_of_same; same|done|by intros|].
      intros [] s10 H10. apply wp_outer.
      apply (wp_preserves (keeps ScrapingJob.AUTOMATED)).
      - apply keeps_on_job. intros _ j. apply bookkeeping_counted.
      - intros r s11 H11. simpl. by etrans. }
    destruct entries as [|entry entries].
    - apply wp_ret. apply Htail. done.
    - eapply wp_mono.
      + apply (download_block_keeps (length downloadable) (entry :: entries)
                 _ s s'); [simpl in *; lia|done|done].
      + intros [[]|e] [d' s''] Hk; simpl in *; [|done]. by apply Htail. }
  apply wp_bind. destruct download_mode.
  - eapply (wp_outer_step (keeps ScrapingJob.AUTOMATED) _ _ _ s);
      [apply keeps_of_same; same|done|by intros|].
    intros [] s9 H9. apply wp_ret. by apply Hrest.
  - eapply (wp_outer_step (keeps ScrapingJob.AUTOMATED) _ _ _ s);
      [apply keeps_of_same; same|done|by intros|].
    intros [] s9 H9. apply wp_ret. apply Hrest; [|done].
    apply length_matching.
Qed.

Lemma keeps_process_automated end_idx item :
  preserves (keeps ScrapingJob.AUTOMATED)
    (process_automated net pages end_idx item).
Proof.
  intros s. destruct item as [idx doc]. unfold process_automated.
  pose proof (process_automated_body_keeps idx end_idx doc s) as Hbody.
  unfold wp in Hbody.
  destruct (process_automated_body net pages idx end_idx (doc, s))
    as [r [doc' s']].
  simpl in Hbody. destruct r as [[]|e]; [done|].
  unfold bind.
  match goal with
  | |- context [document_failed net pages ?l idx e s'] =>
      destruct (document_failed_returns l idx e s') as (s'' & -> & H)
  end.
  simpl. etrans; [done|]. by apply keeps_same.
Qed.

Lemma preserves_for_all {S A B} (R : S → S → Prop) `{!PreOrder R}
    (l : list A) (body : A → M S B) :
  (∀ a, preserves R (body a)) → preserves R (for_all l body).
Proof.
  intros Hb. induction l as [|a l IH]; simpl.
  - apply (preserves_ret R).
  - apply (preserves_bind R); [done|]. intros b.
    apply (preserves_bind R); [done|]. intros bs. apply (preserves_ret R).
Qed.

Lemma keeps_process_documents_automated :
  preserves (keeps ScrapingJob.AUTOMATED)
    (process_documents_automated net pages).
Proof.
  unfold process_documents_automated.
  apply (preserves_bind (keeps _)); [apply keeps_of_same; same|]. intros [].
  apply (preserves_bind (keeps _)); [apply keeps_of_same; same|]. intros [].
  apply (preserves_bind (keeps _)); [apply keeps_of_same; same|].
  intros all_results.
  apply (preserves_bind (keeps _)); [apply (preserves_gets (keeps _))|].
  intros job.
  apply (preserves_bind (keeps _)); [apply (preserves_gets (keeps _))|].
  intros me.
  apply (preserves_bind (keeps _)); [apply keeps_of_same; same|]. intros [].
  apply (preserves_for_all (keeps _)). intros item.
  apply keeps_process_automated.
Qed.

Lemma keeps_initialize mode downloads_base_dir :
  preserves (keeps mode) (initialize pages headless_mode downloads_base_dir).
Proof.
  unfold initialize.
  apply (preserves_bind (keeps _)); [apply keeps_of_same; same|]. intros [].
  apply (preserves_try_except (keeps _)).
  - apply (preserves_bind (keeps _)); [apply keeps_of_same; same|].
    intros [].
    apply (preserves_bind (keeps _)).
    { intros [self w]. split; [done|]. split; [done|]. reflexivity. }
    intros []. apply keeps_of_same; same.
  - intros e. apply keeps_of_same; same.
Qed.

Lemma job_kept_login : preserves same_job (login net pages).
Proof. unfold login. same. Qed.

Lemma job_kept_perform_search search_criteria script :
  preserves same_job (perform_search net pages search_criteria script).
Proof.
  unfold perform_search, page1_perform_search. same.
  all: apply same_scraper_handle_court_selection.
Qed.

Lemma job_kept_process_documents num_documents :
  preserves same_job (process_documents net pages num_documents).
Proof. unfold process_documents. same. Qed.

(** The documents of a job, in either mode. *)
Lemma keeps_documents (job : ScrapingJob.t) scripts :
  preserves (keeps (ScrapingJob.selection_mode job))
    (match ScrapingJob.selection_mode job with
     | ScrapingJob.AUTOMATED =>
         let* me := me in
         BloombergJob.world
           (send_info net me
              ("Automated mode: Processing documents "
               +:+ pretty (ScrapingJob.document_range_start job) +:+ "-"
               +:+ show_range_end (ScrapingJob.document_range_end job))) ;;
         process_documents_automated net pages ;;
         ret ()
     | ScrapingJob.MANUAL =>
         let* documents :=
           process_documents net pages (ScrapingJob.num_documents job) in
         for_each (enumerate_from 1 documents)
           (run_document net pages (length documents) scripts)
     end).
Proof.
  destruct (ScrapingJob.selection_mode job).
  - apply (preserves_bind (keeps _)).
    { apply keeps_of_same, job_kept_process_documents. }
    intros documents. apply (preserves_for_each (keeps _)). intros item.
    apply keeps_run_document.
  - apply (preserves_bind (keeps _)); [apply (preserves_gets (keeps _))|].
    intros me.
    apply (preserves_bind (keeps _)); [apply keeps_of_same; same|].
    intros [].
    apply (preserves_bind (keeps _));
      [apply keeps_process_documents_automated|].
    intros _. apply (preserves_ret (keeps _)).
Qed.

Lemma cleanup_effect (s : State) :
  ∃ s', cleanup pages s = (Ok (), s')
        ∧ job s'.1 = job s.1
        ∧ BloombergScraper.client_id (scraper s'.1)
          = BloombergScraper.client_id (scraper s.1)
        ∧ on_state_change (BloombergScraper.state_machine (scraper s'.1))
          = on_state_change (BloombergScraper.state_machine (scraper s.1))
        ∧ current_state (BloombergScraper.state_machine (scraper s'.1)) = IDLE
        ∧ state_history (BloombergScraper.state_machine (scraper s'.1)) = [].
Proof.
  unfold cleanup, bind, BloombergJob.world, on_site, zoom, io, logger, modify.
  simpl. eexists. split; [reflexivity|]. by repeat split.
Qed.

(** The [except] clause of [run_scraping_job]. *)
Lemma failed_job_effect mode e (s0 s1 : State) :
  keeps mode s0 s1 →
  ∃ s2,
    (BloombergJob.world
       (logger Py.ERROR ("Scraping job failed: " +:+ str e)) ;;
     on_job (ScrapingJob.mark_failed (str e)) ;;
     let* me := me in
     BloombergJob.world
       (send_error net me ("Scraping job failed: " +:+ str e)) ;;
     the_job) s1
    = (Ok (job s2.1), s2)
    ∧ ended (job s2.1) ∧ keeps mode s0 s2.
Proof.
  intros H1. unfold bind at 1.
  destruct (world_always_returns (logger Py.ERROR
              ("Scraping job failed: " +:+ str e)) s1)
    as ([] & s2 & -> & H2); [by eexists|].
  unfold bind at 1, on_job at 1, modify at 1.
  unfold bind at 1, me at 1, gets at 1. unfold bind at 1.
  match goal with
  | |- context [BloombergJob.world (send_error net ?c ?m) ?s] =>
      destruct (send_error_returns c m s) as (s3 & -> & H3)
  end.
  unfold the_job, gets. exists s3. split; [done|].
  destruct H3 as (Hc3 & Ho3 & _ & _ & Hj3). simpl in Hc3, Ho3, Hj3.
  rewrite Hj3. split.
  - split; [|by eexists]. right. split; [done|]. simpl.
    by destruct (ScrapingJob.errors (job s2.1)).
  - etrans; [exact H1|]. etrans; [by apply keeps_same|].
    split; [done|]. split; [done|]. rewrite Hj3.
    apply bookkeeping_mark_failed.
Qed.

Lemma wp_step {A B} (R : State → State → Prop) `{!PreOrder R}
    (m : M State A) (k : A → M State B) (s0 s : State)
    (Φ : result B → State → Prop) :
  preserves R m → R s0 s →
  (∀ e s', R s0 s' → Φ (Raise e) s') →
  (∀ a s', R s0 s' → wp (k a) s' Φ) →
  wp (bind m k) s Φ.
Proof.
  intros Hm H0 Hr Hk. apply wp_bind. unfold wp at 1.
  specialize (Hm s). destruct (m s) as [[a|e] s']; simpl in *;
    [apply Hk|apply Hr]; by etrans.
Qed.

(** The whole job, whatever the pages, the operator and the peers do. *)
Lemma bloomberg_run_effect (job : ScrapingJob.t) downloads_base_dir
    court_script scripts (s : State) :
  ∃ s',
    run_scraping_job net pages headless_mode job downloads_base_dir
      court_script scripts s = (Ok (BloombergJob.job s'.1), s')
    ∧ ended (BloombergJob.job s'.1)
    ∧ bookkeeping (ScrapingJob.selection_mode job)
        (ScrapingJob.mark_started (clock s.2) job) (BloombergJob.job s'.1)
    ∧ BloombergScraper.client_id (scraper s'.1)
      = BloombergScraper.client_id (scraper s.1)
    ∧ on_state_change (BloombergScraper.state_machine (scraper s'.1))
      = on_state_change (BloombergScraper.state_machine (scraper s.1))
    ∧ current_state (BloombergScraper.state_machine (scraper s'.1)) = IDLE
    ∧ state_history (BloombergScraper.state_machine (scraper s'.1)) = [].
Proof.
  set (mode := ScrapingJob.selection_mode job).
  set (s0 := (set_job (ScrapingJob.mark_started (clock s.2) job) s.1, s.2)
             : State).
  assert (wp (try_except
                (initialize pages headless_mode downloads_base_dir ;;
                 let* logged_in := login net pages in
                 if negb logged_in then
                   on_job (ScrapingJob.mark_failed "Login failed") ;;
                   the_job
                 else
                   let* found :=
                     perform_search net pages
                       (ScrapingJob.search_criteria job) court_script in
                   if negb found then
                     on_job (ScrapingJob.mark_failed "Search failed") ;;
                     the_job
                   else
                     match ScrapingJob.selection_mode job with
                     | ScrapingJob.AUTOMATED =>
                         let* me := me in
                         BloombergJob.world
                           (send_info net me
                              ("Automated mode: Processing documents "
                               +:+ pretty
                                     (ScrapingJob.document_range_start job)
                               +:+ "-"
                               +:+ show_range_end
                                     (ScrapingJob.document_range_end job))) ;;
                         process_documents_automated net pages ;;
                         ret ()
                     | ScrapingJob.MANUAL =>
                         let* documents :=
                           process_documents net pages
                             (ScrapingJob.num_documents job) in
                         for_each (enumerate_from 1 documents)
                           (run_document net pages (length documents)
                              scripts)
                     end ;;
                     BloombergJob.transition_to COMPLETED
                       "Scraping completed successfully" ;;
                     on_job ScrapingJob.mark_completed ;;
                     let* me := me in
                     let* job := the_job in
                     let* now := gets (λ s : State, clock s.2) in
                     BloombergJob.world
                       (send_complete net me
                          ("✓ Scraping complete! Downloaded "
                           +:+ pretty (ScrapingJob.transcripts_downloaded job)
                           +:+ " transcripts from "
                           +:+ pretty (ScrapingJob.documents_processed job)
                           +:+ " documents")
                          (ScrapingJob.get_summary now job)) ;;
                     the_job)
                (λ e,
                   BloombergJob.world
                     (logger Py.ERROR ("Scraping job failed: " +:+ str e)) ;;
                   on_job (ScrapingJob.mark_failed (str e)) ;;
                   let* me := me in
                   BloombergJob.world
                     (send_error net me
                        ("Scraping job failed: " +:+ str e)) ;;
                   the_job))
            s0
            (λ r s1, r = Ok (BloombergJob.job s1.1)
                     ∧ ended (BloombergJob.job s1.1) ∧ keeps mode s0 s1))
    as Hbody.
  { apply wp_try_except.
    eapply wp_mono with
      (Φ := λ r s1, keeps mode s0 s1
                    ∧ ∀ a, r = Ok a →
                           a = BloombergJob.job s1.1
                           ∧ ended (BloombergJob.job s1.1)).
    2: { intros [a|e] s1 [Hk Ha].
         - destruct (Ha a eq_refl) as [-> ?]. done.
         - destruct (failed_job_effect mode e s0 s1 Hk) as (s2 & Heq & ? & ?).
           unfold wp. rewrite Heq. done. }
    assert (∀ e s', keeps mode s0 s' →
              keeps mode s0 s'
              ∧ ∀ a : ScrapingJob.t, Raise e = Ok a →
                  a = BloombergJob.job s'.1
                  ∧ ended (BloombergJob.job s'.1)) as Hraise by done.
    assert (∀ msg s', keeps mode s0 s' →
              wp (on_job (ScrapingJob.mark_failed msg) ;; the_job) s'
                (λ r s1, keeps mode s0 s1
                         ∧ ∀ a, r = Ok a →
                                a = BloombergJob.job s1.1
                                ∧ ended (BloombergJob.job s1.1))) as Hfailed.
    { intros msg [self w] Hk. unfold wp, bind, on_job, modify, the_job, gets.
      simpl. split.
      - etrans; [exact Hk|]. split; [done|]. split; [done|].
        apply bookkeeping_mark_failed.
      - intros a [= <-]. split; [done|]. split; [|by eexists]. right.
        split; [done|]. simpl. by destruct (ScrapingJob.errors _). }
    eapply (wp_step (keeps mode) _ _ s0);
      [apply keeps_initialize|reflexivity|done|].
    intros [] s1 H1.
    eapply (wp_step (keeps mode) _ _ s0);
      [apply keeps_of_same, job_kept_login|done|done|].
    intros logged_in s2 H2. destruct logged_in; cbn [negb];
      [|by apply Hfailed].
    eapply (wp_step (keeps mode) _ _ s0);
      [apply keeps_of_same, job_kept_perform_search|done|done|].
    intros found s3 H3. destruct found; cbn [negb]; [|by apply Hfailed].
    eapply (wp_step (keeps mode) _ _ s0);
      [apply keeps_documents|done|done|].
    intros [] s4 H4.
    eapply (wp_step (keeps mode) _ _ s0);
      [apply keeps_of_same, job_kept_transition_to|done|done|].
    intros [] s5 H5.
    apply wp_bind. unfold on_job at 1. apply wp_modify.
    apply wp_bind, wp_gets. apply wp_bind, wp_gets. apply wp_bind, wp_gets.
    destruct s5 as [self5 w5]. simpl.
    set (s6 := (set_job (ScrapingJob.mark_completed (clock w5)
                           (BloombergJob.job self5)) self5, w5) : State).
    assert (keeps mode s0 s6) as H6.
    { etrans; [exact H5|]. split; [done|]. split; [done|].
      apply bookkeeping_mark_completed. }
    apply wp_bind. apply (wp_preserves same_job); [same|].
    intros r s7 H7.
    assert (keeps mode s0 s7) as H07.
    { etrans; [exact H6|]. by apply keeps_same. }
    destruct r as [[]|e]; [|by apply Hraise].
    apply wp_gets. split; [done|]. intros a [= <-]. split; [done|].
    destruct H7 as (_ & _ & _ & _ & ->). simpl.
    split; [by left|by eexists]. }
  unfold run_scraping_job.
  unfold bind at 1, modify at 1. unfold bind at 1, on_job at 1, modify at 1.
  cbn [fst snd].
  change (set_job _ (set_job job s.1), s.2) with s0.
  unfold try_finally. revert Hbody. unfold wp.
  destruct (try_except _ _ s0) as [r s1]. cbn [fst snd].
  intros (-> & Hend & Hc1 & Ho1 & Hbook).
  destruct (cleanup_effect s1) as (s2 & -> & Hj & Hc2 & Ho2 & Hidle & Hhist).
  exists s2. rewrite Hj. split; [done|]. split; [done|]. split; [done|].
  split; [by rewrite Hc2, Hc1|]. split; [by rewrite Ho2, Ho1|]. done.
Qed.

(** [run_scraping_job] always returns: whatever the site, the operator
    and the connection do, it gives back the scraper's job object with
    the identity and the parameters of the job it was given, started at
    the time of the call, ended as completed or (with an error recorded)
    failed and stamped with its end, and it leaves the state machine
    idle with an empty history. *)
Theorem bloomberg_job_ends_completed_or_failed (job : ScrapingJob.t)
    downloads_base_dir court_script scripts (s : State) :
  ∃ job' s',
    run_scraping_job net pages headless_mode job downloads_base_dir
      court_script scripts s = (Ok job', s')
    ∧ BloombergJob.job s'.1 = job'
    ∧ (ScrapingJob.status job' = ScrapingJob.COMPLETED
       ∨ ScrapingJob.status job' = ScrapingJob.FAILED
         ∧ ScrapingJob.errors job' ≠ [])
    ∧ is_Some (ScrapingJob.completed_at job')
    ∧ ScrapingJob.started_at job' = Some (clock s.2)
    ∧ ScrapingJob.job_id job' = ScrapingJob.job_id job
    ∧ ScrapingJob.search_criteria job' = ScrapingJob.search_criteria job
    ∧ ScrapingJob.selection_mode job' = ScrapingJob.selection_mode job
    ∧ current_state (BloombergScraper.state_machine (scraper s'.1)) = IDLE
    ∧ state_history (BloombergScraper.state_machine (scraper s'.1)) = [].
Proof.
  destruct (bloomberg_run_effect job downloads_base_dir court_script
              scripts s)
    as (s' & Hrun & [Hstatus Hstamp] & Hbook & _ & _ & Hidle & Hhistory).
  exists (BloombergJob.job s'.1), s'.
  destruct Hbook as (Hfixed & Hstarted & _).
  destruct Hfixed as (Hid & Hcriteria & _ & _ & Hmode & _).
  simpl in Hstarted, Hid, Hcriteria, Hmode.
  repeat split; assumption.
Qed.



End Run.



End BloombergJobProps.

(** ** File names *)

Module HelpersProps.

Import Helpers.

Lemma squeeze_cons a b rest :
  squeeze (a :: b :: rest)
  = if (a =? underscore)%N && (b =? underscore)%N then squeeze (b :: rest)
    else a :: squeeze (b :: rest).
Proof. reflexivity. Qed.

Lemma squeeze_elem_of c s : c ∈ squeeze s → c ∈ s.
Proof.
  induction s as [|a [|b rest] IH]; [done|done|].
  rewrite squeeze_cons. destruct (_ && _).
  - intros H. right. by apply IH.
  - intros [->|H]%elem_of_cons; [left|right; by apply IH].
Qed.

Lemma squeeze_head s : head (squeeze s) = head s.
Proof.
  induction s as [|a [|b rest] IH]; [done|done|].
  rewrite squeeze_cons.
  destruct (N.eqb_spec a underscore) as [->|]; [|done].
  destruct (N.eqb_spec b underscore) as [->|]; [|done].
  cbn [andb]. by rewrite IH.
Qed.

Lemma squeezed_squeeze s : squeezed (squeeze s).
Proof.
  induction s as [|a [|b rest] IH]; [done|done|].
  rewrite squeeze_cons.
  pose proof (squeeze_head (b :: rest)) as Hhead.
  destruct ((a =? underscore)%N && (b =? underscore)%N) eqn:Hab; [done|].
  destruct (squeeze (b :: rest)) as [|b' rest']; [done|].
  simpl in Hhead. injection Hhead as ->. split; [|done].
  intros [-> ->]. done.
Qed.

Lemma squeezed_tail c s : squeezed (c :: s) → squeezed s.
Proof. destruct s; [done|]. by intros [_ ?]. Qed.

Lemma squeezed_drop k s : squeezed s → squeezed (drop k s).
Proof.
  revert s. induction k as [|k IH]; intros [|c s]; try done.
  intros H. apply IH. by eapply squeezed_tail.
Qed.

Lemma squeezed_take k s : squeezed s → squeezed (take k s).
Proof.
  revert s. induction k as [|k IH]; intros [|c s]; try done.
  intros H. cbn [take]. pose proof (IH s (squeezed_tail _ _ H)) as IH'.
  destruct s as [|c' s]; [by destruct k|].
  destruct k as [|k]; [done|]. cbn [take] in *. destruct H as [H _].
  by split.
Qed.

Lemma squeezed_lookup s i :
  squeezed s → s !! i = Some underscore → s !! S i ≠ Some underscore.
Proof.
  revert i. induction s as [|c [|c' s] IH]; intros i H; [done| |].
  - by destruct i.
  - destruct H as [Hcc Hs]. destruct i as [|i].
    + simpl. intros [= ->] [= ->]. by apply Hcc.
    + apply (IH i Hs).
Qed.

Lemma squeeze_squeezed s : squeezed s → squeeze s = s.
Proof.
  induction s as [|a [|b rest] IH]; [done|done|].
  intros [Hab H]. rewrite squeeze_cons.
  destruct (N.eqb_spec a underscore) as [->|];
    destruct (N.eqb_spec b underscore) as [->|]; cbn [andb];
    try (f_equal; by apply IH).
  by destruct Hab.
Qed.

Lemma lstrip_drop s : ∃ k, lstrip s = drop k s.
Proof.
  induction s as [|c s [k IH]]; [by exists 0%nat|].
  simpl. destruct (c =? underscore)%N; [by exists (S k)|by exists 0%nat].
Qed.

Lemma rstrip_take s : ∃ k, rstrip s = take k s.
Proof.
  induction s as [|c s [k IH]]; [by exists 0%nat|].
  simpl. destruct (rstrip s) as [|a kept] eqn:Hr.
  - destruct (c =? underscore)%N; [by exists 0%nat|].
    exists (S k). simpl. by rewrite <- IH.
  - exists (S k). simpl. by rewrite <- IH.
Qed.

Lemma lstrip_head s : head (lstrip s) ≠ Some underscore.
Proof.
  induction s as [|c s IH]; [done|]. simpl.
  destruct (N.eqb_spec c underscore); [done|]. simpl. congruence.
Qed.

Lemma rstrip_last s : last (rstrip s) ≠ Some underscore.
Proof.
  induction s as [|c s IH]; [done|]. simpl.
  destruct (rstrip s) as [|a kept].
  - destruct (N.eqb_spec c underscore); [done|]. simpl. congruence.
  - done.
Qed.

Lemma rstrip_head s : head s ≠ Some underscore → head (rstrip s) ≠ Some underscore.
Proof.
  destruct s as [|c s]; [done|]. simpl. intros H.
  destruct (rstrip s); [|done].
  destruct (N.eqb_spec c underscore); done.
Qed.

Lemma lstrip_id s : head s ≠ Some underscore → lstrip s = s.
Proof.
  destruct s as [|c s]; [done|]. simpl. intros H.
  destruct (N.eqb_spec c underscore) as [->|]; done.
Qed.

Lemma rstrip_id s : last s ≠ Some underscore → rstrip s = s.
Proof.
  induction s as [|c s IH]; [done|]. intros H. simpl.
  destruct s as [|c' s].
  - simpl in *. destruct (N.eqb_spec c underscore) as [->|]; done.
  - rewrite IH by done. done.
Qed.

Lemma slice_to_take {A} (l : list A) n : ∃ k, Py.slice_to l n = take k l.
Proof. unfold Py.slice_to. by eexists. Qed.

(** What every stage before the last leaves. *)
Lemma stages filename max_length :
  ∃ k k' k'',
    sanitize_filename filename max_length
    = take k (drop k' (take k''
        (squeeze (replace_spaces (filter (λ c, c ∉ invalid) filename))))).
Proof.
  unfold sanitize_filename, strip.
  set (s := squeeze _).
  assert (∃ k'', (if (max_length <? Z.of_nat (length s))%Z
                  then Py.slice_to s max_length else s) = take k'' s)
    as [k'' ->].
  { destruct (_ <? _)%Z; [apply slice_to_take|].
    exists (length s). by rewrite take_ge. }
  destruct (lstrip_drop (take k'' s)) as [k' ->].
  destruct (rstrip_take (drop k' (take k'' s))) as [k ->].
  by exists k, k', k''.
Qed.

Lemma replace_spaces_clean s :
  Forall (λ c, c ∉ invalid) s →
  Forall (λ c, (c ∉ invalid) ∧ c ≠ space) (replace_spaces s).
Proof.
  unfold replace_spaces. intros H. apply Forall_fmap.
  eapply Forall_impl; [exact H|]. intros c Hc. simpl.
  destruct (N.eqb_spec c space); [|done].
  split; [|done]. unfold invalid, underscore.
  rewrite !elem_of_cons, elem_of_nil. intros H'.
  repeat (destruct H' as [H'|H']; [done|]). done.
Qed.

Lemma replace_spaces_id s :
  Forall (λ c, c ≠ space) s → replace_spaces s = s.
Proof.
  unfold replace_spaces. induction 1 as [|c s Hc _ IH]; [done|].
  rewrite fmap_cons, IH. destruct (N.eqb_spec c space); done.
Qed.

Lemma filter_id {A} (P : A → Prop) `{!∀ x, Decision (P x)} (s : list A) :
  Forall P s → filter P s = s.
Proof.
  induction 1 as [|c s Hc _ IH]; [done|].
  rewrite filter_cons_True by done. by rewrite IH.
Qed.

Lemma clean filename max_length :
  Forall (λ c, (c ∉ invalid) ∧ c ≠ space)
    (sanitize_filename filename max_length).
Proof.
  destruct (stages filename max_length) as (k & k' & k'' & ->).
  apply Forall_take, Forall_drop, Forall_take.
  rewrite Forall_forall. intros c Hc%squeeze_elem_of. revert c Hc.
  rewrite <- Forall_forall. apply replace_spaces_clean.
  rewrite Forall_forall. intros c Hc.
  by apply list_elem_of_filter in Hc as [? _].
Qed.

Lemma sanitized_squeezed filename max_length :
  squeezed (sanitize_filename filename max_length).
Proof.
  destruct (stages filename max_length) as (k & k' & k'' & ->).
  apply squeezed_take, squeezed_drop, squeezed_take, squeezed_squeeze.
Qed.

Lemma sanitized_length filename max_length :
  (0 ≤ max_length)%Z →
  (Z.of_nat (length (sanitize_filename filename max_length)) ≤ max_length)%Z.
Proof.
  intros Hmax. unfold sanitize_filename, strip.
  set (s := squeeze _).
  set (t := if (max_length <? Z.of_nat (length s))%Z
            then Py.slice_to s max_length else s).
  assert (Z.of_nat (length t) ≤ max_length)%Z as Ht.
  { subst t. destruct (Z.ltb_spec max_length (Z.of_nat (length s))); [|lia].
    unfold Py.slice_to. destruct (Z.ltb_spec max_length 0); [lia|].
    rewrite length_take. lia. }
  destruct (lstrip_drop t) as [k' Hl]. rewrite Hl.
  destruct (rstrip_take (drop k' t)) as [k ->].
  rewrite length_take, length_drop. lia.
Qed.

(** A sanitised name is safe and stays as it is: it holds none of the
    characters removed ([invalid]) and no space, no two underscores in a
    row, and neither begins nor ends with an underscore; a name made only of such
    characters becomes the empty name.  With [max_length >= 0] it is at
    most [max_length] long, and sanitising it again changes nothing. *)
Theorem sanitized_filename_is_safe (filename : str) (max_length : Z) :
  (∀ c, c ∈ sanitize_filename filename max_length →
        (c ∉ invalid) ∧ c ≠ space)
  ∧ (∀ i, sanitize_filename filename max_length !! i = Some underscore →
          sanitize_filename filename max_length !! S i ≠ Some underscore)
  ∧ head (sanitize_filename filename max_length) ≠ Some underscore
  ∧ last (sanitize_filename filename max_length) ≠ Some underscore
  ∧ (Forall (λ c, c ∈ invalid ∨ c = space ∨ c = underscore) filename →
     sanitize_filename filename max_length = [])
  ∧ ((0 ≤ max_length)%Z →
     (Z.of_nat (length (sanitize_filename filename max_length))
      ≤ max_length)%Z
     ∧ sanitize_filename (sanitize_filename filename max_length) max_length
       = sanitize_filename filename max_length).
Proof.
  pose proof (clean filename max_length) as Hclean.
  pose proof (sanitized_squeezed filename max_length) as Hsq.
  assert (head (sanitize_filename filename max_length) ≠ Some underscore)
    as Hhead.
  { unfold sanitize_filename, strip. apply rstrip_head, lstrip_head. }
  assert (last (sanitize_filename filename max_length) ≠ Some underscore)
    as Hlast.
  { unfold sanitize_filename, strip. apply rstrip_last. }
  split; [by rewrite <- Forall_forall|].
  split; [intros i; by apply squeezed_lookup|].
  split; [done|]. split; [done|]. split.
  - intros Hall.
    assert (Forall (λ c, c = underscore)
              (sanitize_filename filename max_length)) as Hu.
    { destruct (stages filename max_length) as (k & k' & k'' & ->).
      apply Forall_take, Forall_drop, Forall_take.
      rewrite Forall_forall. intros c Hc%squeeze_elem_of.
      unfold replace_spaces in Hc.
      apply list_elem_of_fmap in Hc as (c0 & -> & Hc0).
      apply list_elem_of_filter in Hc0 as [Hvalid Hin].
      rewrite Forall_forall in Hall.
      destruct (Hall c0 Hin) as [?|[->| ->]]; done. }
    destruct (sanitize_filename filename max_length) as [|c r]; [done|].
    apply Forall_cons in Hu as [-> _]. done.
  - intros Hmax.
    pose proof (sanitized_length filename max_length Hmax) as Hlen.
    split; [done|].
    set (r := sanitize_filename filename max_length) in *.
    unfold sanitize_filename at 1.
    rewrite (filter_id (λ c, c ∉ invalid) r)
      by (eapply Forall_impl; [exact Hclean|]; by intros c [? ?]).
    rewrite replace_spaces_id
      by (eapply Forall_impl; [exact Hclean|]; by intros c [? ?]).
    rewrite squeeze_squeezed by done.
    destruct (Z.ltb_spec max_length (Z.of_nat (length r))); [lia|].
    unfold strip. rewrite lstrip_id by done. by apply rstrip_id.
Qed.

End HelpersProps.
